(* ===== verification/_CoqProject ===== *)
-Q . S2P
Prelude.v
Bytes.v
Float64.v
Cbor.v
CborProofs.v
Frame.v
StreamTransport.v
JsValue.v
Payload.v
Proto.v
WireProofs.v
JsString.v
LineExchange.v
Num64.v
Cache.v
Rbac.v
Sessions.v
Cookie.v
Oidc.v
AuthRouter.v
WireClient.v
OperatorEngine.v
Vtz.v
VtzProofs.v
Policies.v
PoliciesProofs.v
Forge.v
Distribute.v
Sidecar.v
ReverseDns.v
Bindings.v
Routes.v
JsOps.v
Destinations.v
Overview.v
OverviewProofs.v
Users.v
Objects.v
EntityDetail.v
Soc.v
SocProofs.v
Settings.v
Decimal.v
ModelAccess.v
Http.v
Uri.v
Console.v
LoginPage.v
Server.v
ConsoleProofs.v
ConsoleReads.v
ConsoleCommands.v
ZoneEditor.v
PolicyEditor.v
ServerRun.v
ServerProofs.v
ServerClaims.v
ServerSamples.v
Backfill.v
CaseControls.v
Lineage.v
Config.v
Boot.v
SettingsForms.v
SettingsTable.v
EntityForms.v
SocDesk.v
AccessTabs.v
