(* ===== verification/Prelude.v ===== *)
(** * ForgeCentral -- verification of the console and its gateway

    ForgeCentral is an operator console.  A single-page application ([src/apps/console])
    talks to a gateway (the "BFF", [src/apps/bff]), which logs operators in against an
    OpenID provider, decides which tenant and which authority each of them has, and
    brokers their reads and audited writes to the Crucible engine over a binary protocol
    ([src/packages/wire]).  The shared view models and boundary checks of both tiers are
    in [src/packages/contracts], the registry of bindings in [src/packages/bindings].
    This library models the gateway from the bytes on the socket up to its HTTP server,
    and the console from the requests of its hooks up to its sign-in page and the forms,
    dialogs and drawings of its surfaces, and proves what makes the whole safe to put in
    front of a policy engine.

    ** The parts and how they interact

    A hook or form of the console makes a request; the server ([server.ts]) routes it
    ([routes.ts]), finds the session ([auth/]), checks the input and calls a resolver of
    a surface ([engine/*.ts]) or answers from its cache ([cache.ts]).  The resolver calls
    a method of the operator engine ([engine/operator-engine.ts]) with the principal made
    from the session ([engine/principal.ts]).  The facade adds the operator delegation
    and calls the wire client ([engine/wire-client.ts]), which keeps one connection
    alive, retries once, and turns the request into a frame: [payload.ts] encodes the
    request as a CBOR map, [cbor.ts] writes the bytes, [dispatch.ts] chooses the opcode,
    [frame.ts] adds the header and [socket-transport.ts] moves frames over the stream.
    Replies come back the same way and are narrowed by [packages/contracts].  Bundles are
    signed, and secrets stored, by sidecars reached over line sockets
    ([engine/sign-client.ts] and its siblings).

    ** Files

    Wire plane ([src/packages/wire/src]):
    - [Bytes], [Float64]: bytes, big-endian integers, UTF-8, IEEE doubles as 64 bits.
    - [Cbor] ([cbor.ts]) with [CborProofs]: the codec; [read] is fuelled, [decode] gives
      it twice the input's length plus one.
    - [Frame] ([frame.ts], [transport.ts]): the 16-byte header.
    - [StreamTransport] ([socket-transport.ts]): reassembly, waiters and failure as a
      state machine; its loop is fuelled by the length of the buffer, and every
      iteration consumes a header.
    - [JsValue]: reads, [in], spread and coercions on dynamic values; narrowing.
    - [Payload] ([payload.ts]), [Proto] ([handshake.ts], [dispatch.ts]), [WireProofs]:
      the encoders, the protocol code as trees of sends and receives.

    The language: [JsString] (strings, [Map] in insertion order), [Num64] (arithmetic and
    [Number] of a text on 64-bit floats), [JsOps] (operators on dynamic values, sorting),
    [Decimal] (decimal texts), [Http] (body streams, query strings, percent decoding) and
    [Uri] (their encoders, with the round trips).

    Identity ([src/apps/bff/src/auth], [cache.ts]):
    - [Cache] ([cache.ts]), [Rbac] ([tier.ts], [rbac.ts], [principal.ts]), [Sessions]
      ([session.ts], [login-store.ts]), [Cookie] ([cookie.ts]), [Oidc]
      ([operator-id.ts], [oidc.ts], [provider.ts]), [AuthRouter] ([router.ts]).

    Engine access ([src/apps/bff/src/engine]):
    - [WireClient] ([wire-client.ts]), [OperatorEngine] ([operator-engine.ts]).
    - [LineExchange], [Sidecar] ([sign-client.ts], [secret-client.ts],
      [session-client.ts]): one line out, one line back, over socket events.

    Surfaces (a file of [engine/] and a file of [packages/contracts/src] each):
    - [Vtz], [VtzProofs] ([vtz.ts]): zone reads, authoring, audited writes.
    - [Policies], [PoliciesProofs] ([policies.ts]): policy records and drafts.
    - [Forge] ([forge.ts]), [Distribute] ([distribute.ts]): composing, signing and
      committing a bundle.
    - [ReverseDns] ([reverse-dns.ts]), [Destinations] ([destination-classifier.ts]),
      [Overview], [OverviewProofs] ([overview.ts]): names, kinds and rings of
      destinations.
    - [Users] ([users.ts], [idam.ts]), [Objects] ([objects.ts]), [EntityDetail]
      ([entity-detail.ts], [isolate.ts], [logs.ts]), [Soc], [SocProofs] ([soc.ts]),
      [Settings] ([settings.ts]), [ModelAccess] ([model-access.ts]).
    - [Bindings] ([packages/bindings/src]): the registry, its validator, the release gate.

    The server:
    - [Routes] ([routes.ts]): the declared routes and the verdict of a request.
    - [Server] ([server.ts], [static.ts]): every handler, as a program of session, cache,
      body and engine steps and of responses, and [dispatch], the chain that chooses one.
      A program goes on after a response, so it could send two, or end without any.
    - [ServerRun]: requests under way, engine answers and logins interleaving over one
      state, with or without an auth router.  The trace records every request that
      arrives, every call, every answer, every local effect (readiness ping, sidecar,
      file) and every response; what the auth router answers is in the login state.
      [ServerProofs] and [ServerClaims] hold its invariant and its theorems,
      [ServerSamples] runs.
    - [Config] ([config.ts]), [Boot] ([index.ts]): loading the configuration, and the
      server it starts.

    The console ([src/apps/console/src]):
    - [Console] (the hooks of [surfaces/use*.ts], [entity/use*.ts], [auth/api.ts]): a
      request of a hook is a [flow] of fetches that returns or rejects.
    - [LoginPage] ([auth/Login.tsx]): the sign-in page as a state machine.
    - [ConsoleProofs], [ConsoleReads], [ConsoleCommands], [Backfill]: what the requests
      of the hooks ask of the engine once the server has taken them apart.
    - [ZoneEditor] ([VtzEditor.tsx], [VtzSurface.tsx]), [PolicyEditor]
      ([PolicyForm.tsx]), [CaseControls] ([SocCaseControls.tsx]): the forms for zones,
      policies and verdicts, down to the engine; calendar dates.
    - [Lineage] ([SocLineageGraph.tsx]): depths and places of an incident's graph.
    - [SettingsForms] ([SettingsSectionForms.tsx], [SocSection] of
      [SettingsSurface.tsx]), [SettingsTable] ([ConfigurationTable]), [EntityForms]
      ([UsersSurface.tsx], [ObjectsSurface.tsx], [PoliciesSurface.tsx]), [SocDesk]
      ([SocOpsSurface.tsx], [SocVerdictPanel.tsx], [SocPlanEditor.tsx]), [AccessTabs]
      ([IdamConnectorsPanel.tsx], [SettingsModelAccessTab.tsx],
      [SettingsChangesTab.tsx]): pages as machines whose events are what the operator does
      and what arrives, and whose outputs are the calls they make.  Fields of a form live
      as long as its component is mounted, which is why what a page keys its components
      by is part of the model.

    A definition has the name of the function, method or type it translates; helpers
    that stand for a part of one carry a comment saying which.

    ** Modelling conventions

    - A function that may throw returns [result]; [exn] lists the errors with their
      messages.  [OutOfFuel] is not an error of the source: [decode_total] and the
      transport theorems show that no caller sees it.
    - Types are erased at run time, so requests, replies and parsed bodies are [value]s
      and a property read can throw.  A number is its 64 bits, a bigint an integer.
    - A string is its UTF-8 encoding.  Every separator the code splits on is ASCII, so
      cutting bytes and cutting code units agree.  [toLowerCase] acts on ASCII letters.
    - A mutable object is a record passed from operation to operation.  Clocks, random
      identifiers, timers and events are arguments of the operations that read them; a
      handler that awaits is cut at its awaits, so that runs interleave.  In the server one
      await stands for a whole resolver, with all the exchanges it has with the engine
      (up to 100 pages of the incident queue, four calls of a distribution): the
      resolvers share no state with the requests but their counters and the DNS memory.
    - Code that is not in the repository is a parameter: SHA-1, [fetch], [jwtVerify],
      [JSON.parse] and [JSON.stringify], [localeCompare], the identity provider (class
      [OidcProvider]), the engine's answers, PTR answers, what [Date.parse] makes of a day
      a month does not have ([DateRollover]), and the conversions of the language that no
      declared type reaches ([ToNumberOther], [NumberToString]).  An object is turned into
      a string as one without a [toString] of its own.
    - Loops the source bounds are recursive on that bound: 100 pages of the incident
      queue ([queue_loop]), 50 pages of the log cache ([backfill_loop]), two attempts of
      a call ([call_loop]), one more than the square of the nodes in the walk of the
      lineage graph ([walk]).

    ** What the theorems show

    - Engine access: every call is made for the session of a verified login, under its
      principal and tenant ([engine_calls_authenticated]), bounded
      ([engine_calls_bounded]), and every frame names the operator
      ([every_frame_names_operator], [delegation_reaches_wire]); the two request tables
      agree ([dispatch_tables_agree]).
    - The server: every request is answered once, each after at most two awaits
      ([every_request_answered]); the cache
      never crosses tenants and never outlives a change ([cached_answers_same_tenant],
      [changes_drop_projections]); failures are told by fixed names and by what the engine
      answered, never by an exception's text ([responses_disclose_nothing]); files stay in their directory
      ([static_files_contained]); a server without login or grants is closed off
      ([unconfigured_closed_off]); routes mean their templates and agree with the registry
      ([route_verdict_exact], [bindings_and_routes_agree], [release_gate_exact]).
    - Login: sessions exist only for verified logins, whatever the interleaving
      ([sessions_only_from_verified_logins]); the authority is what the configuration
      grants ([verifyLogin_authority], [resolveAuthority_exact], [deriveTier_highest],
      [tenant_scoped_pinned]); the device code never reaches a client
      ([device_code_never_returned]); lookups in the stores and the cache are sound over
      every history ([session_lookup_sound], [cache_hit_sound]); cookies and operator
      identifiers are well formed ([readCookie_first], [operatorPrincipalId_uuid]); the
      sign-in page never hangs on an answer ([login_page_progress]).
    - Bytes: round trips and totality of the codecs ([decode_encode], [decode_total],
      [header_codec_exact]), frames survive any chunking
      ([frames_survive_chunking]), and the transport refines a queue of frames
      ([transport_refines_fifo]).
    - Protocol: handshake, dispatch, retry and connection management
      ([client_handshake_success], [dispatch_once], [call_retries_once],
      [connection_managed]); the sidecars fail closed ([sidecar_seams]).
    - Surfaces: reads are exact or refused ([zone_tree_exact], [convergence_exact],
      [destinations_accounted], [incident_queue_whole],
      [directory_complete_or_unavailable], [drawer_sections_independent],
      [classification_grounded]), authoring checks are exact and what is authored is read
      back ([spec_input_exact], [vtz_name_exact], [authored_policy_reads_back]), writes
      are reported honestly ([zone_mutations_honest]), composition grants nothing
      ([compose_grants_nothing]), only signed bytes are committed
      ([only_signed_bundles_committed]), and names shown are fresh answers
      ([names_fresh], [lookups_progress]).
    - The console, end to end: whatever a hook reads or commands, encoded, routed,
      decoded and checked, is what reaches the engine ([console_reads_meant],
      [console_commands_meant]); the pager of the logs, run against the whole server, loads
      what the engine holds up to fifty pages ([backfill_exact], over any engine that
      serves pages of a log up to a ceiling); the forms commit what they show ([editor_commits_form],
      [policy_form_commits], [verdict_form_commits], [entity_forms_commit]), what was
      confirmed is what is sent ([section_forms_commit], [staged_edits_commit],
      [grant_toggles_exact], [changes_confirmed]), a form opened and saved changes nothing
      ([section_forms_reopen]), a connector's secret goes to the sidecar alone
      ([connector_onboarding]); the lineage graph is drawn at its longest chains
      ([lineage_layout_exact]).
    - Limits of the code: a write may be sent twice ([write_may_be_sent_twice]), a read
      across a change is cached again ([read_across_change_recached]), a save that moves a
      zone edits the destination ([moving_save_edits_destination]) and may be reported
      wrongly ([save_failure_told]), saving a policy again may widen it
      ([policy_resave_widens]), a form left open writes one row over another
      ([open_form_mixes_rows]), an incident's open plan or verdict is saved to the next
      incident selected ([panel_follows_selection]), bars that passed a check are sent as
      other numbers ([soc_tab_commits]), some zone ids cannot be edited
      ([reserved_zone_refused]), some host names pass as loopback
      ([loopback_names_accepted]), nodes of the lineage graph can overlap
      ([nudged_nodes_overlap]), a malformed header stalls its transport
      ([malformed_header_stalls]), closing during a dial leaves it running
      ([close_during_dial_resurrects]), wide integers wrap ([encode_wide_wraps]), three
      methods carry no delegation ([undelegated_methods]), and the lookup bound is per
      read ([overlapping_reads_unbounded]).

    ** Not modelled

    In the gateway: signals and shutdown, the logger, the static API description
    ([openapi.ts]) and the schema library that parses the environment; in the contracts: the
    formats of money, the plain text of a report, and the generated transfer types, which
    are erased at run time.  In the console: rendering, the query library (caching,
    refetching, invalidation), the filters that only narrow what is already shown, the
    receipts of a change, and the surfaces that only display (logs, overview, reports, the
    report and identity tabs of the settings, the incident queue and dock, the guide); the
    commands those send are modelled with the hooks.  The design system is presentation.  The sockets, the
    DNS and HTTP clients and the cryptography are third-party or runtime services. *)
From Stdlib Require Export ZArith Lia.
From stdpp Require Export base tactics list strings pretty gmap option.

(** ** JavaScript values

    [VObj] lists the own enumerable string-keyed properties in [Object.keys] order,
    [VBytes] is a [Uint8Array] (bytes as integers), [VCborFloat] the wrapper class
    [CborFloat], and [VFunction] stands for the values whose [typeof] is not an
    object, a number, a string, a boolean or a bigint.  A number is its 64 bits (see
    [Float64]). *)
Inductive value :=
  | VUndefined
  | VNull
  | VBool (b : bool)
  | VNum (x : Z)
  | VBigInt (z : Z)
  | VStr (s : string)
  | VCborFloat (x : Z)
  | VFunction
  | VBytes (bs : list Z)
  | VArr (items : list value)
  | VObj (props : list (string * value)).

(** The induction principle that descends into arrays and objects. *)
Section value_ind'.
Context (P : value → Prop)
  (Pundef : P VUndefined) (Pnull : P VNull) (Pbool : ∀ b, P (VBool b))
  (Pnum : ∀ x, P (VNum x)) (Pbig : ∀ z, P (VBigInt z)) (Pstr : ∀ s, P (VStr s))
  (Pfloat : ∀ x, P (VCborFloat x)) (Pfun : P VFunction) (Pbytes : ∀ bs, P (VBytes bs))
  (Parr : ∀ l, Forall P l → P (VArr l))
  (Pobj : ∀ ps, Forall (λ p, P p.2) ps → P (VObj ps)).

Fixpoint value_ind' (v : value) : P v :=
  match v with
  | VUndefined => Pundef
  | VNull => Pnull
  | VBool b => Pbool b
  | VNum x => Pnum x
  | VBigInt z => Pbig z
  | VStr s => Pstr s
  | VCborFloat x => Pfloat x
  | VFunction => Pfun
  | VBytes bs => Pbytes bs
  | VArr l => Parr l
      ((fix go l : Forall P l :=
          match l with
          | [] => Forall_nil_2 P
          | x :: l => Forall_cons_2 P x l (value_ind' x) (go l)
          end) l)
  | VObj ps => Pobj ps
      ((fix go ps : Forall (λ p, P p.2) ps :=
          match ps with
          | [] => Forall_nil_2 _
          | p :: ps => Forall_cons_2 _ p ps (value_ind' p.2) (go ps)
          end) ps)
  end.
End value_ind'.

(** ** Exceptions and results

    The TypeScript code signals failure by throwing.  A throwing function is
    modelled as a function into [result]; [exn] lists the error classes the
    modelled code constructs, with the message the source gives them. *)

Inductive FrameErrorReason :=
  | short_header | reserved_nonzero | unknown_flag | payload_too_large.

(** Why the engine refused a zone mutation ([engine/vtz.ts]). *)
Inductive VtzRefusalKind := conflict | denied.

Inductive exn :=
  | Error (message : string)
  | TypeError (message : string)
  | RangeError (message : string)
  | FrameError (reason : FrameErrorReason)
  | WireProtocolError (message : string)
  (** [EngineRefusedError], with the [WireError] the engine sent *)
  | EngineRefusedError (wireError : value)
  | VtzUnavailableError
  | VtzMutationRefusedError (kind : VtzRefusalKind)
  | PoliciesUnavailableError (detail : string)
  | DistributeZoneUnknownError (zoneId : string)
  | DistributeCompositionError (what : string)
  | SigningRefusedError (reason : string)
  | SigningUnavailableError (detail : string)
  | OverviewUnavailableError
  | UnknownContainerError (container : string)
  | UsersUnavailableError (what : string)
  | ObjectsUnavailableError (what : string)
  | ObjectCommandError (wireClass : value)
  | SocUnavailableError (what : string)
  | SettingsUnavailableError (detail : string)
  | SecretRefusedError (reason : string)
  | SecretUnavailableError (detail : string)
  | SessionLookupError (detail : string)
  (** an error of the operating system, by its code *)
  | SystemError (code : string)
  (** [decodeURIComponent] on a malformed text *)
  | URIError
  (** Not an exception of the source: a recursion ran out of fuel.  Each fuelled
      function comes with a theorem that its callers never see it. *)
  | OutOfFuel.

Inductive result (A : Type) :=
  | Ok (a : A)
  | Throw (e : exn).
Arguments Ok {A} a.
Arguments Throw {A} e.

#[global] Instance result_ret : MRet result := λ A a, Ok a.
#[global] Instance result_bind : MBind result := λ A B f r,
  match r with Ok a => f a | Throw e => Throw e end.
#[global] Instance result_fmap : FMap result := λ A B f r,
  match r with Ok a => Ok (f a) | Throw e => Throw e end.
#[global] Instance result_throw : MThrow exn result := λ A e, Throw e.

Lemma bind_Ok {A B} (r : result A) (f : A → result B) b :
  r ≫= f = Ok b ↔ ∃ a, r = Ok a ∧ f a = Ok b.
Proof. destruct r; cbn; naive_solver. Qed.

Lemma bind_Throw {A B} (r : result A) (f : A → result B) e :
  r ≫= f = Throw e ↔ r = Throw e ∨ ∃ a, r = Ok a ∧ f a = Throw e.
Proof. destruct r; cbn; naive_solver. Qed.

(** Take a successful bind apart. *)
Tactic Notation "bind_step" ident(H) ident(x) :=
  let E := fresh "E" x in apply bind_Ok in H as (x & E & H).

Definition is_ok {A} (r : result A) : bool :=
  match r with Ok _ => true | Throw _ => false end.

(** ** Lists *)

Lemma filter_none {A} (P : A → Prop) `{!∀ x, Decision (P x)} (l : list A) :
  (∀ x, x ∈ l → ¬ P x) → filter P l = [].
Proof.
  induction l as [|x l IH]; intros Hl; [done|]. rewrite filter_cons_False by set_solver. set_solver.
Qed.
