(* ===== verification/Bytes.v ===== *)
(** * Bytes, big-endian integers and UTF-8 text

    The machine-level vocabulary the wire packages share: bytes are integers in
    [0, 256) held as [Z], [be_bytes]/[be_value] are what the shift-and-mask loops
    of [packages/wire/src/cbor.ts] and the [DataView] accessors of
    [packages/wire/src/frame.ts] compute, and a JavaScript string is represented
    by its UTF-8 encoding (a Rocq [string]), so [TextEncoder.encode] is the byte
    list of the string and the fatal [TextDecoder] is [text_decode]. *)
From S2P Require Import Prelude.
Open Scope Z_scope.

(** ** Bytes *)

Definition is_byte (b : Z) : Prop := 0 ≤ b < 256.
Abbreviation bytes := (list Z).

Definition byte_len (bs : bytes) : Z := Z.of_nat (length bs).

(** ** Big-endian integers *)

(** The bytes [(v >> 8(n-1)) & 0xff, ..., v & 0xff]. *)
Fixpoint be_bytes (n : nat) (v : Z) : bytes :=
  match n with
  | O => []
  | S n' => Z.land (Z.shiftr v (8 * Z.of_nat n')) 0xff :: be_bytes n' v
  end.

(** [v = (v << 8) | byte] over the bytes, from [v = 0]. *)
Definition be_step (v b : Z) : Z := Z.lor (Z.shiftl v 8) b.
Definition be_value (bs : bytes) : Z := foldl be_step 0 bs.

Lemma land_255 v : Z.land v 0xff = v mod 256.
Proof. change 0xff with (Z.ones 8). by rewrite Z.land_ones by lia. Qed.

Lemma shiftr_div v k : 0 ≤ k → Z.shiftr v k = v / 2 ^ k.
Proof. apply Z.shiftr_div_pow2. Qed.

Lemma be_step_add v b : is_byte b → be_step v b = 256 * v + b.
Proof.
  intros Hb. unfold be_step, is_byte in *.
  assert (Z.land (Z.shiftl v 8) b = 0) as Hland.
  { apply Z.bits_inj'. intros n Hn. rewrite Z.land_spec, Z.bits_0.
    destruct (decide (n < 8)).
    - by rewrite Z.shiftl_spec_low by lia.
    - rewrite <- (Z.mod_small b (2 ^ 8)) by lia.
      rewrite Z.mod_pow2_bits_high by lia. apply andb_false_r. }
  pose proof (Z.add_lor_land (Z.shiftl v 8) b) as E.
  rewrite Hland, Z.shiftl_mul_pow2 in E by lia.
  rewrite Z.shiftl_mul_pow2 by lia. lia.
Qed.

Lemma be_bytes_length n v : length (be_bytes n v) = n.
Proof. induction n; cbn; congruence. Qed.

Lemma be_bytes_byte n v : Forall is_byte (be_bytes n v).
Proof.
  induction n; cbn; constructor; [|done].
  rewrite land_255. unfold is_byte. pose proof (Z.mod_pos_bound (Z.shiftr v (8 * Z.of_nat n)) 256). lia.
Qed.

Lemma be_value_be_bytes_acc n v a :
  foldl be_step a (be_bytes n v) = a * 2 ^ (8 * Z.of_nat n) + v mod 2 ^ (8 * Z.of_nat n).
Proof.
  revert a. induction n as [|n IH]; intros a.
  - cbn. rewrite Z.mod_1_r. lia.
  - cbn [be_bytes foldl]. rewrite IH, be_step_add.
    2:{ rewrite land_255. apply Z.mod_pos_bound. lia. }
    rewrite land_255, shiftr_div by lia.
    set (p := 2 ^ (8 * Z.of_nat n)).
    replace (2 ^ (8 * Z.of_nat (S n))) with (p * 256).
    2:{ unfold p. replace (8 * Z.of_nat (S n)) with (8 * Z.of_nat n + 8) by lia.
        rewrite Z.pow_add_r by lia. reflexivity. }
    assert (0 < p) by (unfold p; apply Z.pow_pos_nonneg; lia).
    rewrite (Z.rem_mul_r v p 256) by lia. ring.
Qed.

Lemma be_value_be_bytes n v : be_value (be_bytes n v) = v mod 2 ^ (8 * Z.of_nat n).
Proof. unfold be_value. rewrite be_value_be_bytes_acc. lia. Qed.

Lemma be_value_be_bytes_small n v :
  0 ≤ v < 2 ^ (8 * Z.of_nat n) → be_value (be_bytes n v) = v.
Proof. intros. rewrite be_value_be_bytes. by apply Z.mod_small. Qed.

Lemma be_value_acc_bound bs a :
  0 ≤ a → Forall is_byte bs →
  a * 2 ^ (8 * Z.of_nat (length bs)) ≤ foldl be_step a bs
    < (a + 1) * 2 ^ (8 * Z.of_nat (length bs)).
Proof.
  intros Ha Hbs. revert a Ha. induction Hbs as [|b bs Hb Hbs IH]; intros a Ha.
  - cbn. lia.
  - cbn [foldl length]. rewrite be_step_add by done.
    specialize (IH (256 * a + b)). unfold is_byte in Hb.
    replace (8 * Z.of_nat (S (length bs))) with (8 * Z.of_nat (length bs) + 8) by lia.
    rewrite Z.pow_add_r by lia. change (2 ^ 8) with 256.
    assert (0 < 2 ^ (8 * Z.of_nat (length bs))) by (apply Z.pow_pos_nonneg; lia).
    nia.
Qed.

Lemma be_value_bound bs :
  Forall is_byte bs → 0 ≤ be_value bs < 2 ^ (8 * Z.of_nat (length bs)).
Proof. intros H. pose proof (be_value_acc_bound bs 0 ltac:(lia) H). unfold be_value. lia. Qed.

Lemma be_value_acc_inv bs a :
  0 ≤ a → Forall is_byte bs → be_bytes (length bs) (foldl be_step a bs) = bs.
Proof.
  intros Ha Hbs. revert a Ha. induction Hbs as [|b bs Hb Hbs IH]; intros a Ha; [done|].
  cbn [length be_bytes foldl]. rewrite be_step_add by done.
  unfold is_byte in Hb. f_equal.
  - pose proof (be_value_acc_bound bs (256 * a + b) ltac:(lia) Hbs) as B.
    rewrite land_255, shiftr_div by lia.
    assert (0 < 2 ^ (8 * Z.of_nat (length bs))) by (apply Z.pow_pos_nonneg; lia).
    assert (foldl be_step (256 * a + b) bs / 2 ^ (8 * Z.of_nat (length bs)) = 256 * a + b) as ->.
    { symmetry. apply (Z.div_unique _ _ _ (foldl be_step (256 * a + b) bs
        - (256 * a + b) * 2 ^ (8 * Z.of_nat (length bs)))); lia. }
    rewrite Z.add_comm, Z.mul_comm, Z.mod_add by lia. apply Z.mod_small. lia.
  - apply IH. lia.
Qed.

Lemma be_bytes_be_value bs : Forall is_byte bs → be_bytes (length bs) (be_value bs) = bs.
Proof. intros. by apply be_value_acc_inv. Qed.

(** ** Strings as UTF-8 bytes *)

Definition byte_of_ascii (c : Ascii.ascii) : Z := Z.of_N (Ascii.N_of_ascii c).
Definition ascii_of_byte (b : Z) : Ascii.ascii := Ascii.ascii_of_N (Z.to_N b).

(** [new TextEncoder().encode(s)] *)
Fixpoint string_bytes (s : string) : bytes :=
  match s with
  | EmptyString => []
  | String c s => byte_of_ascii c :: string_bytes s
  end.

Fixpoint string_of_bytes (bs : bytes) : string :=
  match bs with
  | [] => EmptyString
  | b :: bs => String (ascii_of_byte b) (string_of_bytes bs)
  end.

Lemma string_of_bytes_bytes s : string_of_bytes (string_bytes s) = s.
Proof.
  induction s as [|c s IH]; cbn; [done|]. rewrite IH. unfold ascii_of_byte, byte_of_ascii.
  by rewrite N2Z.id, Ascii.ascii_N_embedding.
Qed.

Lemma string_bytes_inj s t : string_bytes s = string_bytes t → s = t.
Proof. intros H. by rewrite <- (string_of_bytes_bytes s), H, string_of_bytes_bytes. Qed.

Lemma string_bytes_byte s : Forall is_byte (string_bytes s).
Proof.
  induction s as [|c s IH]; cbn; constructor; [|done].
  pose proof (Ascii.N_ascii_bounded c). unfold byte_of_ascii, is_byte. lia.
Qed.

Lemma string_bytes_length s : length (string_bytes s) = String.length s.
Proof. induction s; cbn; congruence. Qed.

(** ** The fatal UTF-8 decoder

    [new TextDecoder('utf-8', { fatal: true })]: ill-formed input throws, and the
    decoder drops one leading byte-order mark ([ignoreBOM] is false). *)

Definition in_range (lo hi b : Z) : bool := (lo <=? b) && (b <=? hi).
Definition utf8_cont (b : Z) : bool := in_range 0x80 0xbf b.

(** Well-formed UTF-8 (RFC 3629): shortest form, no surrogates, at most U+10FFFF. *)
Fixpoint utf8_valid (bs : bytes) : bool :=
  match bs with
  | [] => true
  | b :: r1 =>
    if b <? 0x80 then utf8_valid r1
    else match r1 with
    | [] => false
    | c1 :: r2 =>
      if in_range 0xc2 0xdf b then utf8_cont c1 && utf8_valid r2
      else match r2 with
      | [] => false
      | c2 :: r3 =>
        if b =? 0xe0 then in_range 0xa0 0xbf c1 && utf8_cont c2 && utf8_valid r3
        else if b =? 0xed then in_range 0x80 0x9f c1 && utf8_cont c2 && utf8_valid r3
        else if in_range 0xe1 0xef b then utf8_cont c1 && utf8_cont c2 && utf8_valid r3
        else match r3 with
        | [] => false
        | c3 :: r4 =>
          if b =? 0xf0 then in_range 0x90 0xbf c1 && utf8_cont c2 && utf8_cont c3 && utf8_valid r4
          else if in_range 0xf1 0xf3 b then utf8_cont c1 && utf8_cont c2 && utf8_cont c3 && utf8_valid r4
          else if b =? 0xf4 then in_range 0x80 0x8f c1 && utf8_cont c2 && utf8_cont c3 && utf8_valid r4
          else false
        end
      end
    end
  end.

Definition strip_bom (bs : bytes) : bytes :=
  match bs with
  | b1 :: b2 :: b3 :: r => if (b1 =? 0xef) && (b2 =? 0xbb) && (b3 =? 0xbf) then r else bs
  | _ => bs
  end.

Definition text_decode (bs : bytes) : result string :=
  if utf8_valid bs then Ok (string_of_bytes (strip_bom bs))
  else Throw (TypeError "The encoded data was not valid for encoding utf-8").

(** The strings that survive a trip through [TextEncoder] and the fatal decoder. *)
Definition text_ok (s : string) : bool :=
  utf8_valid (string_bytes s) && bool_decide (strip_bom (string_bytes s) = string_bytes s).

Lemma text_decode_encode s : text_ok s = true → text_decode (string_bytes s) = Ok s.
Proof.
  unfold text_ok, text_decode. intros [Hv Hb]%andb_prop. rewrite Hv.
  apply bool_decide_eq_true in Hb. by rewrite Hb, string_of_bytes_bytes.
Qed.

(** Plain ASCII is always well formed. *)
Fixpoint is_ascii (s : string) : bool :=
  match s with
  | EmptyString => true
  | String c s => (byte_of_ascii c <? 0x80) && is_ascii s
  end.

Lemma is_ascii_text_ok s : is_ascii s = true → text_ok s = true.
Proof.
  intros H. unfold text_ok. apply andb_true_intro. split.
  - induction s as [|c s IH]; [done|]. cbn in *. apply andb_prop in H as [-> H]. auto.
  - apply bool_decide_eq_true. destruct s as [|c1 [|c2 [|c3 s]]]; [done..|].
    cbn in *. apply andb_prop in H as [H _]. apply Z.ltb_lt in H.
    destruct (Z.eqb_spec (byte_of_ascii c1) 239); [lia|done].
Qed.

Arguments string_bytes : simpl never.
