(* ===== verification/Float64.v ===== *)
(** * IEEE-754 binary64 numbers, as JavaScript holds them

    A JavaScript number is represented by the 64 bits [DataView.setFloat64] writes.
    The model has what [packages/wire/src/cbor.ts] does with numbers: the integer
    test and the conversion to [bigint] of the encoder, and the construction of a
    double from an integer, a half and a single on decode. *)
From S2P Require Import Prelude Bytes.
Open Scope Z_scope.

Definition f64_sign (x : Z) : bool := 2 ^ 63 <=? x.
Definition f64_expo (x : Z) : Z := (x / 2 ^ 52) mod 2 ^ 11.
Definition f64_frac (x : Z) : Z := x mod 2 ^ 52.

Definition f64_isNaN (x : Z) : bool := (f64_expo x =? 2047) && negb (f64_frac x =? 0).
Definition f64_NaN : Z := 0x7ff8000000000000.
Definition f64_inf (neg : bool) : Z := (if neg then 2 ^ 63 else 0) + 2047 * 2 ^ 52.

(** Reading a NaN yields the one NaN of the language. *)
Definition f64_canon (x : Z) : Z := if f64_isNaN x then f64_NaN else x.

(** [Number.isInteger(x)] *)
Definition f64_isInteger (x : Z) : bool :=
  let e := f64_expo x - 1075 in
  let m := 2 ^ 52 + f64_frac x in
  if f64_expo x =? 2047 then false
  else if f64_expo x =? 0 then f64_frac x =? 0
  else if 0 <=? e then true
  else m mod 2 ^ (- e) =? 0.

(** [BigInt(x)] for an integer-valued [x] *)
Definition f64_toZ (x : Z) : Z :=
  let e := f64_expo x - 1075 in
  let m := 2 ^ 52 + f64_frac x in
  let a := if f64_expo x =? 0 then 0
           else if 0 <=? e then m * 2 ^ e else m / 2 ^ (- e) in
  if f64_sign x then - a else a.

(** The double with value [(-1)^neg * m * 2^e], for [0 <= m < 2^53] and a result in
    the normal range (every use below is: halves, singles and safe integers). *)
Definition f64_make (neg : bool) (m e : Z) : Z :=
  (if neg then 2 ^ 63 else 0) +
  (if m =? 0 then 0
   else (Z.log2 m + e + 1023) * 2 ^ 52 + (m * 2 ^ (52 - Z.log2 m) - 2 ^ 52)).

(** [Number(v)] for a safe integer [v] *)
Definition f64_ofZ (v : Z) : Z := f64_make (v <? 0) (Z.abs v) 0.

(** [DataView.getFloat32], widened *)
Definition f32_widen (w : Z) : Z :=
  let neg := 2 ^ 31 <=? w in
  let expo := (w / 2 ^ 23) mod 2 ^ 8 in
  let frac := w mod 2 ^ 23 in
  if expo =? 255 then if frac =? 0 then f64_inf neg else f64_NaN
  else if expo =? 0 then f64_make neg frac (-149)
  else f64_make neg (2 ^ 23 + frac) (expo - 150).

Definition MAX_SAFE : Z := 2 ^ 53 - 1.

(** The order of the numbers other than NaN: both zeros have key 0. *)
Definition f64_key (x : Z) : Z := if f64_sign x then 2 ^ 63 - x else x.

(** [Math.max(a, b)] and [Math.min(a, b)], for operands that are not zeros of opposite signs *)
Definition Math_max (a b : Z) : Z :=
  if f64_isNaN a || f64_isNaN b then f64_NaN else if f64_key a <? f64_key b then b else a.
Definition Math_min (a b : Z) : Z :=
  if f64_isNaN a || f64_isNaN b then f64_NaN else if f64_key b <? f64_key a then b else a.

(** ** Facts *)

Definition f64_bits (x : Z) : Prop := 0 ≤ x < 2 ^ 64.

Section make.
Context (m : Z) (Hm : 0 < m < 2 ^ 53).

Let k := Z.log2 m.
Let f := m * 2 ^ (52 - k) - 2 ^ 52.

Lemma make_k : 0 ≤ k ≤ 52 ∧ 2 ^ k ≤ m < 2 * 2 ^ k.
Proof using Hm.
  unfold k. pose proof (Z.log2_spec m ltac:(lia)) as [H1 H2].
  pose proof (Z.log2_nonneg m). rewrite Z.pow_succ_r in H2 by lia.
  split; [|lia]. split; [lia|].
  assert (Z.log2 m < 53); [|lia]. apply Z.log2_lt_pow2; lia.
Qed.

Lemma make_f : 0 ≤ f < 2 ^ 52.
Proof using Hm.
  destruct make_k as [Hk [H1 H2]]. unfold f.
  assert (2 ^ k * 2 ^ (52 - k) = 2 ^ 52) as E by (rewrite <- Z.pow_add_r by lia; f_equal; lia).
  assert (0 < 2 ^ (52 - k)) by (apply Z.pow_pos_nonneg; lia). nia.
Qed.

Lemma make_fields neg e :
  1 ≤ k + e + 1023 ≤ 2046 →
  f64_sign (f64_make neg m e) = neg ∧
  f64_expo (f64_make neg m e) = k + e + 1023 ∧
  f64_frac (f64_make neg m e) = f ∧
  f64_bits (f64_make neg m e).
Proof using Hm.
  intros He. pose proof make_f as Hf. unfold f64_make.
  destruct (Z.eqb_spec m 0) as [|_]; [lia|]. fold k. fold f.
  set (E := k + e + 1023) in *. unfold f64_sign, f64_expo, f64_frac, f64_bits.
  assert (∀ s, (s * 2 ^ 63 + (E * 2 ^ 52 + f)) / 2 ^ 52 = s * 2 ^ 11 + E) as HD.
  { intros s. symmetry. apply (Z.div_unique _ _ _ f); [lia|]. lia. }
  assert (∀ s, (s * 2 ^ 63 + (E * 2 ^ 52 + f)) mod 2 ^ 52 = f) as HM.
  { intros s. symmetry. apply (Z.mod_unique _ _ (s * 2 ^ 11 + E)); [lia|]. lia. }
  replace (if neg then 2 ^ 63 else 0) with ((if neg then 1 else 0) * 2 ^ 63) by (destruct neg; lia).
  rewrite HD, HM.
  replace (((if neg then 1 else 0) * 2 ^ 11 + E) mod 2 ^ 11) with E.
  2:{ symmetry. rewrite Z.add_comm, Z.mod_add by lia. apply Z.mod_small. lia. }
  destruct neg; repeat split; lia.
Qed.
End make.

Lemma f64_ofZ_0 : f64_ofZ 0 = 0.
Proof. reflexivity. Qed.

(** Every safe integer is represented exactly. *)
Lemma f64_ofZ_spec v :
  Z.abs v ≤ MAX_SAFE →
  f64_isInteger (f64_ofZ v) = true ∧ f64_toZ (f64_ofZ v) = v ∧
  f64_isNaN (f64_ofZ v) = false ∧ f64_bits (f64_ofZ v).
Proof.
  unfold MAX_SAFE. intros Hv. destruct (decide (v = 0)) as [->|Hnz].
  { rewrite f64_ofZ_0. unfold f64_bits. repeat split; reflexivity || lia. }
  assert (0 < Z.abs v < 2 ^ 53) as Hm by lia. unfold f64_ofZ.
  destruct (make_k _ Hm) as [Hk [Hlo Hhi]].
  destruct (make_fields _ Hm (v <? 0) 0 ltac:(lia)) as (Hs & He & Hf & Hb).
  set (k := Z.log2 (Z.abs v)) in *. set (m := Z.abs v) in *. set (x := f64_make (v <? 0) m 0) in *.
  assert (0 < 2 ^ (52 - k)) as Hp by (apply Z.pow_pos_nonneg; lia).
  assert (2 ^ 52 + f64_frac x = m * 2 ^ (52 - k)) as Hmant by (rewrite Hf; lia).
  unfold f64_isInteger, f64_toZ, f64_isNaN. rewrite He, Hs, Hmant.
  replace (k + 0 + 1023 - 1075) with (k - 52) by lia.
  destruct (Z.eqb_spec (k + 0 + 1023) 2047); [lia|].
  destruct (Z.eqb_spec (k + 0 + 1023) 0); [lia|].
  replace (- (k - 52)) with (52 - k) by lia.
  rewrite Z.mod_mul, Z.div_mul by lia.
  repeat split; try done; try lia.
  - by destruct (Z.leb_spec 0 (k - 52)).
  - destruct (Z.leb_spec 0 (k - 52)).
    + replace k with 52 by lia. rewrite Z.mul_1_r || idtac.
      destruct (Z.ltb_spec v 0); lia.
    + destruct (Z.ltb_spec v 0); lia.
  - apply Hb.
  - apply Hb.
Qed.

Lemma f64_canon_ofZ v : Z.abs v ≤ MAX_SAFE → f64_canon (f64_ofZ v) = f64_ofZ v.
Proof. intros H. unfold f64_canon. by destruct (f64_ofZ_spec v H) as (_ & _ & -> & _). Qed.

Lemma f64_ofZ_inj a b :
  Z.abs a ≤ MAX_SAFE → Z.abs b ≤ MAX_SAFE → f64_ofZ a = f64_ofZ b → a = b.
Proof.
  intros Ha Hb E. destruct (f64_ofZ_spec a Ha) as (_ & <- & _), (f64_ofZ_spec b Hb) as (_ & <- & _).
  by rewrite E.
Qed.
