(* ===== verification/Cbor.v ===== *)
(** * The CBOR codec ([packages/wire/src/cbor.ts])

    [value] ([Prelude]) is the JavaScript value the codec takes and produces, [encodeInto] and
    [encode] the writer half, [read] and [decode] the reader half with its error
    paths.  [read] recurses on the input, so it takes fuel; [decode] gives it
    [2 * length + 1], which [decode_total] in [CborProofs] shows is
    always enough. *)
From S2P Require Import Prelude Bytes Float64.
Open Scope Z_scope.

(** ** JavaScript values and objects *)

(** An integer-valued number literal. *)
Definition vint (z : Z) : value := VNum (f64_ofZ z).

(** Own string keys enumerate array indices first, ascending, then the others in
    creation order; assigning to an existing key keeps its place.  [__proto__] is
    the accessor of [Object.prototype]: assigning to it creates no own property. *)

Definition array_index (k : string) : option Z :=
  let fix digits (acc : Z) (s : string) : option Z :=
    match s with
    | EmptyString => Some acc
    | String c s =>
        let d := byte_of_ascii c - 48 in
        if in_range 0 9 d then digits (10 * acc + d) s else None
    end in
  match digits 0 k with
  | Some n => if bool_decide (k = pretty n) && (n <? 2 ^ 32 - 1) then Some n else None
  | None => None
  end.

(** Whether property [k] is enumerated before the existing property [k']. *)
Definition key_before (k k' : string) : bool :=
  match array_index k, array_index k' with
  | Some i, Some j => i <? j
  | Some _, None => true
  | None, _ => false
  end.

Fixpoint obj_insert (props : list (string * value)) (k : string) (v : value) : list (string * value) :=
  match props with
  | [] => [(k, v)]
  | (k', v') :: rest =>
      if bool_decide (k = k') then (k, v) :: rest
      else if key_before k k' then (k, v) :: (k', v') :: rest
      else (k', v') :: obj_insert rest k v
  end.

(** [obj[k] = v] *)
Definition obj_set (props : list (string * value)) (k : string) (v : value) : list (string * value) :=
  if bool_decide (k = "__proto__") then props else obj_insert props k v.

(** [obj[k]], own properties only *)
Fixpoint obj_get (props : list (string * value)) (k : string) : option value :=
  match props with
  | [] => None
  | (k', v) :: rest => if bool_decide (k = k') then Some v else obj_get rest k
  end.

(** ** Encode *)

(** [Writer.push] masks to a byte. *)
Definition push (byte : Z) : bytes := [Z.land byte 0xff].

(** [Writer.head]: the major-type byte plus the argument in the shortest form. *)
Definition head (major value : Z) : bytes :=
  let m := Z.shiftl major 5 in
  if value <? 24 then push (Z.lor m value)
  else if value <? 0x100 then push (Z.lor m 24) ++ push value
  else if value <? 0x10000 then
    push (Z.lor m 25) ++ push (Z.shiftr value 8) ++ push (Z.land value 0xff)
  else if value <? 0x100000000 then push (Z.lor m 26) ++ be_bytes 4 value
  else push (Z.lor m 27) ++ be_bytes 8 value.

(** [Writer.float64] *)
Definition float64 (x : Z) : bytes := push 0xfb ++ be_bytes 8 x.

Definition encodeInt (value : Z) : bytes :=
  if 0 <=? value then head 0 value else head 1 (-1 - value).

Definition encodeText (s : string) : bytes :=
  head 3 (byte_len (string_bytes s)) ++ string_bytes s.

(** The bytes [encodeInto] pushes on the writer, or the error it throws.  A
    [Uint8Array] is an object that is not an array, so it takes the record branch:
    its keys are the decimal indices and its values the bytes. *)
Fixpoint encodeInto (v : value) : result bytes :=
  match v with
  | VNull | VUndefined => Ok (push 0xf6)
  | VCborFloat x => Ok (float64 x)
  | VBool b => Ok (push (if b then 0xf5 else 0xf4))
  | VBigInt z => Ok (encodeInt z)
  | VNum x => Ok (if f64_isInteger x then encodeInt (f64_toZ x) else float64 x)
  | VStr s => Ok (encodeText s)
  | VFunction => Throw (Error "cbor: cannot encode a function")
  | VArr items =>
      body ← mapM encodeInto items;
      Ok (head 4 (Z.of_nat (length items)) ++ concat body)
  | VBytes bs =>
      Ok (head 5 (byte_len bs) ++
          concat (imap (λ i b, encodeText (pretty (Z.of_nat i)) ++ encodeInt b) bs))
  | VObj props =>
      body ← mapM (λ p, r ← encodeInto p.2; Ok (encodeText p.1 ++ r)) props;
      Ok (head 5 (Z.of_nat (length props)) ++ concat body)
  end.

Definition encode (v : value) : result bytes := encodeInto v.

(** ** Decode

    The reader state is the part of the buffer at and after [pos]. *)

Definition reader (A : Type) : Type := bytes → result (A * bytes).

#[global] Instance reader_ret : MRet reader := λ A a buf, Ok (a, buf).
#[global] Instance reader_bind : MBind reader := λ A B f m buf,
  match m buf with
  | Ok (a, buf') => f a buf'
  | Throw e => Throw e
  end.
Definition rthrow {A} (e : exn) : reader A := λ _, Throw e.

Definition rlift {A} (r : result A) : reader A := λ buf,
  match r with Ok a => Ok (a, buf) | Throw e => Throw e end.

Definition eof : exn := Error "cbor: unexpected end of input".

(** [Reader.byte] *)
Definition read_byte : reader Z := λ buf,
  match buf with
  | [] => Throw eof
  | b :: rest => Ok (b, rest)
  end.

(** [Reader.take] *)
Definition take_bytes (n : Z) : reader bytes := λ buf,
  if byte_len buf <? n then Throw eof
  else Ok (take (Z.to_nat n) buf, drop (Z.to_nat n) buf).

(** The loops [v = (v << 8n) | BigInt(this.byte())] of [Reader.arg]. *)
Fixpoint arg_loop (n : nat) (v : Z) : reader Z :=
  match n with
  | O => mret v
  | S n => b ← read_byte; arg_loop n (Z.lor (Z.shiftl v 8) b)
  end.

(** [Reader.arg] *)
Definition arg (ai : Z) : reader Z :=
  if ai <? 24 then mret ai
  else if ai =? 24 then read_byte
  else if ai =? 25 then
    b1 ← read_byte; b2 ← read_byte; mret (Z.lor (Z.shiftl b1 8) b2)
  else if ai =? 26 then arg_loop 4 0
  else if ai =? 27 then arg_loop 8 0
  else rthrow (Error ("cbor: unsupported additional info " +:+ pretty ai)).

(** [Reader.len] is [Number(arg)].  Rounding a length above 2^53 to a double cannot
    change the outcome: both the exact and the rounded length exceed any buffer. *)
Definition len (ai : Z) : reader Z := arg ai.

(** [Reader.numeric] *)
Definition numeric (v : Z) : value :=
  if (v <=? MAX_SAFE) && (- MAX_SAFE <=? v) then VNum (f64_ofZ v) else VBigInt v.

Definition decodeFloat16 (bs : bytes) : Z :=
  let half := Z.lor (Z.shiftl (default 0 (bs !! 0%nat)) 8) (default 0 (bs !! 1%nat)) in
  let sign := negb (Z.land half 0x8000 =? 0) in
  let exp := Z.land (Z.shiftr half 10) 0x1f in
  let mant := Z.land half 0x3ff in
  if exp =? 0 then f64_make sign mant (-24)
  else if exp =? 31 then if negb (mant =? 0) then f64_NaN else f64_inf sign
  else f64_make sign (mant + 1024) (exp - 25).

(** [Reader.simple] *)
Definition simple (ai : Z) : reader value :=
  if ai =? 20 then mret (VBool false)
  else if ai =? 21 then mret (VBool true)
  else if (ai =? 22) || (ai =? 23) then mret VNull
  else if ai =? 25 then bs ← take_bytes 2; mret (VNum (decodeFloat16 bs))
  else if ai =? 26 then bs ← take_bytes 4; mret (VNum (f32_widen (be_value bs)))
  else if ai =? 27 then bs ← take_bytes 8; mret (VNum (f64_canon (be_value bs)))
  else rthrow (Error ("cbor: unsupported simple value " +:+ pretty ai)).

(** [Number::toString] on a double that is not an integer below 10^21 (the shortest
    round-tripping decimal): a parameter of the decoder, which only meets it when a
    map key is such a number. *)
Class NumberToString := number_toString : Z → string.

Section reader.
Context `{NumberToString}.

(** [String(v)] on a decoded value.  An object is taken not to have a property of its own
    named [toString], which would shadow the inherited one and make the call throw. *)
Fixpoint js_String (v : value) : string :=
  match v with
  | VUndefined => "undefined"
  | VNull => "null"
  | VBool b => if b then "true" else "false"
  | VNum x =>
      if f64_isInteger x && (Z.abs (f64_toZ x) <? 10 ^ 21) then pretty (f64_toZ x)
      else number_toString x
  | VBigInt z => pretty z
  | VStr s => s
  | VBytes bs => String.concat "," (map pretty bs)
  | VArr items =>
      String.concat ","
        (map (λ w, match w with VNull | VUndefined => "" | _ => js_String w end) items)
  | VObj _ | VCborFloat _ | VFunction => "[object Object]"
  end.

(** [Reader.read], with its array and map loops. *)
Fixpoint read (fuel : nat) : reader value :=
  match fuel with
  | O => rthrow OutOfFuel
  | S fuel =>
      initial ← read_byte;
      let major := Z.shiftr initial 5 in
      let ai := Z.land initial 0x1f in
      if major =? 0 then v ← arg ai; mret (numeric v)
      else if major =? 1 then v ← arg ai; mret (numeric (-1 - v))
      else if major =? 2 then n ← len ai; bs ← take_bytes n; mret (VBytes bs)
      else if major =? 3 then
        n ← len ai; bs ← take_bytes n;
        s ← rlift (text_decode bs); mret (VStr s)
      else if major =? 4 then n ← len ai; items ← read_items fuel n; mret (VArr items)
      else if major =? 5 then n ← len ai; props ← read_entries fuel n []; mret (VObj props)
      else if major =? 7 then simple ai
      else rthrow (Error ("cbor: unsupported major type " +:+ pretty major))
  end
with read_items (fuel : nat) (n : Z) : reader (list value) :=
  match fuel with
  | O => rthrow OutOfFuel
  | S fuel =>
      if n <=? 0 then mret []
      else v ← read fuel; rest ← read_items fuel (n - 1); mret (v :: rest)
  end
with read_entries (fuel : nat) (n : Z) (obj : list (string * value)) : reader (list (string * value)) :=
  match fuel with
  | O => rthrow OutOfFuel
  | S fuel =>
      if n <=? 0 then mret obj
      else
        key ← read fuel; v ← read fuel;
        read_entries fuel (n - 1) (obj_set obj (js_String key) v)
  end.

Definition decode (bs : bytes) : result value :=
  match read (S (2 * length bs)) bs with
  | Ok (v, []) => Ok v
  | Ok (_, _ :: _) => Throw (Error "cbor: trailing bytes after the top-level item")
  | Throw e => Throw e
  end.
End reader.
