(* ===== verification/CborProofs.v ===== *)
(** * Correctness of the CBOR codec

    Totality of the decoder (its fuel is always enough), the round trip
    [decode (encode v)], injectivity of the encoder on wire values, and what the
    codec does at its edges (integers of 64 bits and more, byte strings). *)
From S2P Require Import Prelude Bytes Float64 Cbor.
Open Scope Z_scope.

(** ** The initial byte and its argument *)

Lemma initial_byte major k :
  0 ≤ major < 8 → 0 ≤ k < 32 →
  Z.land (Z.lor (Z.shiftl major 5) k) 0xff = 32 * major + k ∧
  Z.shiftr (32 * major + k) 5 = major ∧ Z.land (32 * major + k) 0x1f = k.
Proof.
  intros Hm Hk.
  assert (Z.lor (Z.shiftl major 5) k = 32 * major + k) as ->.
  { assert (Z.land (Z.shiftl major 5) k = 0) as E.
    { apply Z.bits_inj'. intros n Hn. rewrite Z.land_spec, Z.bits_0.
      destruct (decide (n < 5)).
      - by rewrite Z.shiftl_spec_low by lia.
      - rewrite <- (Z.mod_small k (2 ^ 5)) by lia.
        rewrite Z.mod_pow2_bits_high by lia. apply andb_false_r. }
    pose proof (Z.add_lor_land (Z.shiftl major 5) k) as E'.
    rewrite E, Z.shiftl_mul_pow2 in E' by lia. rewrite Z.shiftl_mul_pow2 by lia. lia. }
  rewrite land_255, shiftr_div by lia. change 0x1f with (Z.ones 5). rewrite Z.land_ones by lia.
  change (2 ^ 5) with 32. repeat split.
  - apply Z.mod_small. lia.
  - symmetry. apply (Z.div_unique _ _ _ k); lia.
  - rewrite Z.add_comm, Z.mul_comm, Z.mod_add by lia. apply Z.mod_small. lia.
Qed.

Lemma arg_loop_be_bytes n v a rest :
  arg_loop n a (be_bytes n v ++ rest)
  = Ok (foldl be_step a (be_bytes n v), rest).
Proof. revert a. induction n as [|n IH]; intros a; [done|]. apply IH. Qed.

(** [head] then [arg]: the shortest form is read back, whatever follows. *)
Lemma head_arg major v :
  0 ≤ major < 8 → 0 ≤ v < 2 ^ 64 →
  ∃ ib tl, head major v = ib :: tl ∧ Z.shiftr ib 5 = major ∧
    ∀ rest, arg (Z.land ib 0x1f) (tl ++ rest) = Ok (v, rest).
Proof.
  intros Hm Hv. unfold head, push.
  repeat case_match; rewrite ?Z.ltb_lt, ?Z.ltb_ge in *;
    match goal with |- context [Z.lor (Z.shiftl major 5) ?k] =>
      destruct (initial_byte major k Hm ltac:(lia)) as (-> & E1 & E2) end;
    do 2 eexists; (split; [reflexivity|split; [exact E1|]]); intros rest; rewrite E2.
  - unfold arg. by destruct (Z.ltb_spec v 24); [|lia].
  - cbn. by rewrite land_255, Z.mod_small by lia.
  - change (arg 25) with (b1 ← read_byte; b2 ← read_byte; mret (be_step b1 b2)).
    unfold mbind, reader_bind, mret, reader_ret. cbn [app read_byte].
    rewrite !land_255, Z.mod_mod, shiftr_div by lia.
    rewrite (Z.mod_small (v / 2 ^ 8)) by (split; [apply Z.div_pos; lia|apply Z.div_lt_upper_bound; lia]).
    rewrite be_step_add by (apply Z.mod_pos_bound; lia).
    change (2 ^ 8) with 256. by rewrite <- Z.div_mod by lia.
  - change (arg 26) with (arg_loop 4 0). change ([] ++ be_bytes 4 v) with (be_bytes 4 v).
    rewrite arg_loop_be_bytes. fold (be_value (be_bytes 4 v)). by rewrite be_value_be_bytes_small by lia.
  - change (arg 27) with (arg_loop 8 0). change ([] ++ be_bytes 8 v) with (be_bytes 8 v).
    rewrite arg_loop_be_bytes. fold (be_value (be_bytes 8 v)). by rewrite be_value_be_bytes_small by lia.
Qed.

(** ** Relations between readers *)

(** [m'] agrees with [m] wherever [m] does not run out of fuel. *)
Definition refines {A} (m m' : reader A) : Prop :=
  ∀ buf, m buf ≠ Throw OutOfFuel → m' buf = m buf.

(** A successful run of [m] consumes at least [k] bytes. *)
Definition consumes {A} (k : nat) (m : reader A) : Prop :=
  ∀ buf a rest, m buf = Ok (a, rest) → (length rest + k ≤ length buf)%nat.

(** [m] has enough fuel on every buffer of at most [n] bytes. *)
Definition enough {A} (n : nat) (m : reader A) : Prop :=
  ∀ buf, (length buf ≤ n)%nat → m buf ≠ Throw OutOfFuel.

Section relations.
Context {A B : Type}.
Implicit Types (m : reader A) (f : A → reader B).

Lemma refines_refl m : refines m m.
Proof. by intros buf _. Qed.

Lemma refines_bind m m' f f' :
  refines m m' → (∀ a, refines (f a) (f' a)) → refines (m ≫= f) (m' ≫= f').
Proof.
  intros Hm Hf buf. unfold mbind, reader_bind.
  destruct (m buf) as [[a rest]|e] eqn:E; intros Hne.
  - rewrite (Hm buf), E by congruence. by apply Hf.
  - rewrite (Hm buf), E by congruence. done.
Qed.

Lemma consumes_weaken j k m : (k ≤ j)%nat → consumes j m → consumes k m.
Proof. intros Hle Hm buf a rest E. apply Hm in E. lia. Qed.

Lemma consumes_bind j k m f :
  consumes j m → (∀ a, consumes k (f a)) → consumes (j + k) (m ≫= f).
Proof.
  intros Hm Hf buf b rest. unfold mbind, reader_bind.
  destruct (m buf) as [[a buf']|e] eqn:E; [|done].
  intros E'. apply Hm in E. apply Hf in E'. lia.
Qed.

Lemma enough_bind n j m f :
  enough n m → consumes j m → (∀ a n', (n' + j ≤ n)%nat → enough n' (f a)) → enough n (m ≫= f).
Proof.
  intros Hm Hc Hf buf Hlen. unfold mbind, reader_bind.
  destruct (m buf) as [[a buf']|e] eqn:E.
  - apply Hc in E. by apply (Hf a (length buf')); lia.
  - specialize (Hm buf Hlen). congruence.
Qed.

Lemma consumes_ret (a : A) : consumes 0 (mret a).
Proof. intros buf b rest [= <- <-]. lia. Qed.
Lemma enough_ret n (a : A) : enough n (mret a).
Proof. by intros buf _. Qed.
Lemma consumes_throw k e : consumes k (rthrow (A:=A) e).
Proof. by intros buf b rest. Qed.
Lemma enough_throw n e : e ≠ OutOfFuel → enough n (rthrow (A:=A) e).
Proof. intros He buf _ [= ->]. done. Qed.
End relations.

Create HintDb reader discriminated.
#[export] Hint Resolve refines_refl consumes_ret enough_ret consumes_throw : reader.
#[export] Hint Extern 1 (enough _ (rthrow _)) => apply enough_throw; discriminate : reader.
#[export] Hint Extern 1 (enough _ (mret _)) => apply enough_ret : reader.
#[export] Hint Extern 1 (consumes _ (mret _)) => apply consumes_ret : reader.

Lemma read_byte_consumes : consumes 1 read_byte.
Proof. intros [|b buf] a rest; cbn; [done|]. intros [= <- <-]. lia. Qed.
Lemma read_byte_enough n : enough n read_byte.
Proof. by intros [|b buf] _. Qed.
Lemma take_bytes_consumes k : consumes 0 (take_bytes k).
Proof.
  intros buf a rest. unfold take_bytes. case_match; [done|]. intros [= <- <-].
  rewrite length_drop. lia.
Qed.
Lemma take_bytes_enough n k : enough n (take_bytes k).
Proof. intros buf _. unfold take_bytes. by case_match. Qed.
Lemma arg_loop_consumes k v : consumes 0 (arg_loop k v).
Proof.
  revert v. induction k as [|k IH]; intros v; cbn; auto with reader.
  apply (consumes_bind 0 0); [eapply consumes_weaken, read_byte_consumes; lia|auto].
Qed.
Lemma arg_loop_enough n k v : enough n (arg_loop k v).
Proof.
  revert n v. induction k as [|k IH]; intros n v; cbn; auto with reader.
  eapply enough_bind; [apply read_byte_enough|apply read_byte_consumes|auto].
Qed.
#[export] Hint Resolve read_byte_enough take_bytes_enough take_bytes_consumes
  arg_loop_consumes arg_loop_enough : reader.

Lemma read_byte_consumes0 : consumes 0 read_byte.
Proof. eapply consumes_weaken, read_byte_consumes. lia. Qed.
#[export] Hint Resolve read_byte_consumes0 : reader.

(** Chains of fuel-free readers: split on the binds and tests, close the leaves. *)
Ltac reader_leaf :=
  repeat first
    [ progress auto with reader
    | apply (consumes_bind 0 0); [|intros ?]
    | eapply (enough_bind _ 0); [| |intros ???]
    | case_match ].

Lemma arg_consumes ai : consumes 0 (arg ai).
Proof. unfold arg. reader_leaf. Qed.
Lemma arg_enough n ai : enough n (arg ai).
Proof. unfold arg. reader_leaf. Qed.
Lemma simple_consumes ai : consumes 0 (simple ai).
Proof. unfold simple. reader_leaf. Qed.
Lemma simple_enough n ai : enough n (simple ai).
Proof. unfold simple. reader_leaf. Qed.
Lemma rlift_consumes {A} (r : result A) : consumes 0 (rlift r).
Proof. intros buf a rest. unfold rlift. destruct r; [intros [= <- <-]; lia|done]. Qed.
Lemma text_enough n bs : enough n (rlift (text_decode bs)).
Proof. intros buf _. unfold rlift, text_decode. by destruct (utf8_valid bs). Qed.
#[export] Hint Resolve arg_consumes arg_enough simple_consumes simple_enough
  rlift_consumes text_enough : reader.

Section totality.
Context `{NumberToString}.

(** The body of [read] after the initial byte. *)
Definition read_item (f : nat) (initial : Z) : reader value :=
  let major := Z.shiftr initial 5 in
  let ai := Z.land initial 0x1f in
  if major =? 0 then v ← arg ai; mret (numeric v)
  else if major =? 1 then v ← arg ai; mret (numeric (-1 - v))
  else if major =? 2 then n ← len ai; bs ← take_bytes n; mret (VBytes bs)
  else if major =? 3 then
    n ← len ai; bs ← take_bytes n; s ← rlift (text_decode bs); mret (VStr s)
  else if major =? 4 then n ← len ai; items ← read_items f n; mret (VArr items)
  else if major =? 5 then n ← len ai; props ← read_entries f n []; mret (VObj props)
  else if major =? 7 then simple ai
  else rthrow (Error ("cbor: unsupported major type " +:+ pretty major)).

Lemma read_S f : read (S f) = (initial ← read_byte; read_item f initial).
Proof. done. Qed.

(** More fuel never changes an outcome. *)
Lemma read_mono_S f :
  refines (read f) (read (S f)) ∧
  (∀ n, refines (read_items f n) (read_items (S f) n)) ∧
  (∀ n o, refines (read_entries f n o) (read_entries (S f) n o)).
Proof.
  induction f as [|f (IHr & IHi & IHe)].
  { split; [|split]; intros; intros buf Hne; by destruct Hne. }
  split; [|split].
  - rewrite !read_S. apply refines_bind; [apply refines_refl|intros ib]. unfold read_item.
    repeat (case_match; [repeat (apply refines_bind; [auto using refines_refl|intros ?]);
      auto using refines_refl|]). apply refines_refl.
  - intros n. cbn [read_items]. case_match; [apply refines_refl|].
    apply refines_bind; [done|intros v]. apply refines_bind; [done|auto using refines_refl].
  - intros n o. cbn [read_entries]. case_match; [apply refines_refl|].
    apply refines_bind; [done|intros k]. apply refines_bind; [done|auto].
Qed.

Lemma refines_le {A} (m : nat → reader A) f g buf r :
  (∀ f, refines (m f) (m (S f))) → (f ≤ g)%nat → m f buf = Ok r → m g buf = Ok r.
Proof.
  intros Hm. induction 1 as [|g Hle IH]; [done|]. intros E. specialize (IH E).
  rewrite Hm; [done|]. by rewrite IH.
Qed.

Lemma read_mono f g buf r : (f ≤ g)%nat → read f buf = Ok r → read g buf = Ok r.
Proof. apply (refines_le read). intros k. apply read_mono_S. Qed.
Lemma read_items_mono n f g buf r :
  (f ≤ g)%nat → read_items f n buf = Ok r → read_items g n buf = Ok r.
Proof. apply (refines_le (λ f, read_items f n)). intros k. apply read_mono_S. Qed.
Lemma read_entries_mono n o f g buf r :
  (f ≤ g)%nat → read_entries f n o buf = Ok r → read_entries g n o buf = Ok r.
Proof. apply (refines_le (λ f, read_entries f n o)). intros k. apply read_mono_S. Qed.

(** A value takes at least one byte, and so does each item of a list. *)
Lemma read_consumes f :
  consumes 1 (read f) ∧ (∀ n, consumes 0 (read_items f n)) ∧
  (∀ n o, consumes 0 (read_entries f n o)).
Proof.
  induction f as [|f (IHr & IHi & IHe)]; [by split; [|split]; intros; intros buf a rest|].
  assert (consumes 0 (read f)) by (eapply consumes_weaken, IHr; lia).
  split; [|split].
  - rewrite read_S. apply (consumes_bind 1 0); [apply read_byte_consumes|intros ib]. unfold read_item, len. reader_leaf.
  - intros n. cbn [read_items]. reader_leaf.
  - intros n o. cbn [read_entries]. reader_leaf.
Qed.

Lemma read_enough f :
  (∀ n, (2 * n + 1 ≤ f)%nat → enough n (read f)) ∧
  (∀ n k, (2 * n + 2 ≤ f)%nat → enough n (read_items f k)) ∧
  (∀ n k o, (2 * n + 2 ≤ f)%nat → enough n (read_entries f k o)).
Proof.
  induction f as [|f (IHr & IHi & IHe)]; [by split; [|split]; intros; lia|].
  pose proof (read_consumes f) as (Cr & Ci & Ce).
  split; [|split].
  - intros n Hn. rewrite read_S.
    eapply (enough_bind _ 1); [apply read_byte_enough|apply read_byte_consumes|].
    intros ib n' Hn'. unfold read_item, len. reader_leaf; first [apply IHi|apply IHe]; lia.
  - intros n k Hn. cbn [read_items]. case_match; [auto with reader|].
    eapply (enough_bind _ 1); [apply IHr; lia|done|intros v n' Hn'].
    eapply (enough_bind _ 0); [apply IHi; lia|done|auto with reader].
  - intros n k o Hn. cbn [read_entries]. case_match; [auto with reader|].
    eapply (enough_bind _ 1); [apply IHr; lia|done|intros v n' Hn'].
    eapply (enough_bind _ 1); [apply IHr; lia|done|intros w m Hm]. apply IHe. lia.
Qed.
End totality.

(** ** Wire values *)

Definition int64_ok (z : Z) : bool := (- 2 ^ 64 <=? z) && (z <? 2 ^ 64).
Definition len_ok (n : nat) : bool := Z.of_nat n <? 2 ^ 64.
Definition str_ok (s : string) : bool := text_ok s && len_ok (length (string_bytes s)).
Definition f64_ok (x : Z) : bool := (0 <=? x) && (x <? 2 ^ 64) && (f64_canon x =? x).

(** [Object.keys] order: what assigning the keys one after the other produces. *)
Fixpoint canonical_keys (seen : list string) (ks : list string) : bool :=
  match ks with
  | [] => true
  | k :: ks =>
      negb (bool_decide (k = "__proto__")) &&
      forallb (λ k', negb (bool_decide (k = k')) && negb (key_before k k')) seen &&
      canonical_keys (seen ++ [k]) ks
  end.

(** The values the encoder handles without loss: 64-bit integers, well-formed text,
    genuine objects; no functions and no [Uint8Array]. *)
Fixpoint encodable (v : value) : bool :=
  match v with
  | VUndefined | VNull | VBool _ => true
  | VNum x => if f64_isInteger x then int64_ok (f64_toZ x) else f64_ok x
  | VBigInt z => int64_ok z
  | VStr s => str_ok s
  | VCborFloat x => f64_ok x
  | VFunction | VBytes _ => false
  | VArr l => len_ok (length l) && forallb encodable l
  | VObj ps =>
      len_ok (length ps) && canonical_keys [] ps.*1 &&
      forallb (λ p, str_ok p.1 && encodable p.2) ps
  end.

(** What comes back: [undefined] is [null], an integer is a number when it is safe
    and a bigint otherwise, a [CborFloat] is a number. *)
Fixpoint norm (v : value) : value :=
  match v with
  | VUndefined => VNull
  | VNum x => if f64_isInteger x then numeric (f64_toZ x) else VNum x
  | VBigInt z => numeric z
  | VCborFloat x => VNum x
  | VArr l => VArr (map norm l)
  | VObj ps => VObj (map (λ p, (p.1, norm p.2)) ps)
  | _ => v
  end.

Lemma obj_insert_last o k v :
  forallb (λ k', negb (bool_decide (k = k')) && negb (key_before k k')) o.*1 = true →
  obj_insert o k v = o ++ [(k, v)].
Proof.
  induction o as [|[k' v'] o IH]; cbn; [done|].
  intros [[H1 H2]%andb_prop H3]%andb_prop.
  destruct (bool_decide (k = k')); [done|]. destruct (key_before k k'); [done|].
  by rewrite IH.
Qed.

Lemma take_bytes_app n bs rest :
  n = byte_len bs → take_bytes n (bs ++ rest) = Ok (bs, rest).
Proof.
  intros ->. unfold take_bytes, byte_len. rewrite length_app.
  destruct (Z.ltb_spec (Z.of_nat (length bs + length rest)) (Z.of_nat (length bs))); [lia|].
  by rewrite Nat2Z.id, take_app_length, drop_app_length.
Qed.

Section roundtrip.
Context `{NumberToString}.

(** [bs] is an encoding the reader turns into [v], leaving what follows. *)
Definition reads (bs : bytes) (v : value) : Prop :=
  ∃ f, ∀ rest, read f (bs ++ rest) = Ok (v, rest).

Lemma read_cons f ib rest : read (S f) (ib :: rest) = read_item f ib rest.
Proof. done. Qed.

Lemma bind_step {A B} (m : reader A) (f : A → reader B) buf a buf' :
  m buf = Ok (a, buf') → (m ≫= f) buf = f a buf'.
Proof. intros E. unfold mbind, reader_bind. by rewrite E. Qed.

Lemma encodeInt_reads z : int64_ok z = true → reads (encodeInt z) (numeric z).
Proof.
  intros [Hlo Hhi]%andb_prop. apply Z.leb_le in Hlo. apply Z.ltb_lt in Hhi.
  unfold encodeInt. exists 1%nat. intros rest. destruct (Z.leb_spec 0 z).
  - destruct (head_arg 0 z ltac:(lia) ltac:(lia)) as (ib & tl & E & Hm & Ha).
    rewrite E. cbn [app]. rewrite read_cons; unfold read_item; rewrite Hm. cbn [Z.eqb].
    by rewrite (bind_step _ _ _ _ _ (Ha rest)).
  - destruct (head_arg 1 (-1 - z) ltac:(lia) ltac:(lia)) as (ib & tl & E & Hm & Ha).
    rewrite E. cbn [app]. rewrite read_cons; unfold read_item; rewrite Hm. cbn [Z.eqb Pos.eqb].
    rewrite (bind_step _ _ _ _ _ (Ha rest)). by replace (-1 - (-1 - z)) with z by lia.
Qed.

Lemma encodeText_reads s : str_ok s = true → reads (encodeText s) (VStr s).
Proof.
  intros [Ht Hl]%andb_prop. unfold len_ok in Hl. apply Z.ltb_lt in Hl.
  unfold encodeText. exists 1%nat. intros rest.
  destruct (head_arg 3 (byte_len (string_bytes s))) as (ib & tl & E & Hm & Ha);
    [lia|unfold byte_len; lia|].
  rewrite E. cbn [app]. rewrite read_cons; unfold read_item; rewrite Hm. cbn [Z.eqb Pos.eqb].
  rewrite <- app_assoc. unfold len. rewrite (bind_step _ _ _ _ _ (Ha _)).
  rewrite (bind_step _ _ _ _ _ (take_bytes_app _ _ rest eq_refl)).
  rewrite (bind_step _ _ _ s rest); [done|].
  unfold rlift. by rewrite text_decode_encode.
Qed.

Lemma float64_reads x : f64_ok x = true → reads (float64 x) (VNum x).
Proof.
  intros [[Hlo Hhi]%andb_prop Hc]%andb_prop. apply Z.leb_le in Hlo.
  apply Z.ltb_lt in Hhi. apply Z.eqb_eq in Hc.
  exists 1%nat. intros rest.
  change (read 1 (float64 x ++ rest))
    with ((bs ← take_bytes 8; mret (VNum (f64_canon (be_value bs)))) (be_bytes 8 x ++ rest)).
  rewrite (bind_step _ _ _ _ _ (take_bytes_app 8 (be_bytes 8 x) rest eq_refl)).
  by rewrite be_value_be_bytes_small, Hc by lia.
Qed.

Lemma items_reads bss vs :
  Forall2 reads bss vs →
  ∃ f, ∀ rest, read_items f (Z.of_nat (length vs)) (concat bss ++ rest) = Ok (vs, rest).
Proof.
  induction 1 as [|bs v bss vs [f1 H1] _ [f2 H2]]; [by exists 1%nat|].
  exists (S (f1 `max` f2)). intros rest. cbn [read_items length concat].
  destruct (Z.leb_spec (Z.of_nat (S (length vs))) 0); [lia|]. rewrite <- app_assoc.
  rewrite (bind_step _ _ _ v (concat bss ++ rest)).
  2:{ eapply read_mono, H1. lia. }
  rewrite (bind_step _ _ _ vs rest); [done|].
  replace (Z.of_nat (S (length vs)) - 1) with (Z.of_nat (length vs)) by lia.
  eapply read_items_mono, H2. lia.
Qed.

(** [bs] is the encoding of one entry: the key as text, then the value. *)
Definition entry_reads (bs : bytes) (p : string * value) : Prop :=
  ∃ kb vb, bs = kb ++ vb ∧ reads kb (VStr p.1) ∧ reads vb p.2.

Lemma entries_reads bss ps o :
  Forall2 entry_reads bss ps → canonical_keys o.*1 ps.*1 = true →
  ∃ f, ∀ rest, read_entries f (Z.of_nat (length ps)) o (concat bss ++ rest) = Ok (o ++ ps, rest).
Proof.
  intros Hr. revert o.
  induction Hr as [|bs [k v] bss ps (kb & vb & -> & [f1 H1] & [f2 H2]) _ IH]; intros o Hk.
  { exists 1%nat. intros rest. cbn. by rewrite app_nil_r. }
  cbn [fmap list_fmap fst canonical_keys] in Hk.
  apply andb_prop in Hk as [[Hp Ho]%andb_prop Hk].
  destruct (IH (o ++ [(k, v)])) as [f3 H3]. { by rewrite fmap_app. }
  exists (S (f1 `max` (f2 `max` f3))). intros rest. cbn [read_entries length concat].
  destruct (Z.leb_spec (Z.of_nat (S (length ps))) 0); [lia|]. rewrite <- !app_assoc.
  erewrite bind_step by (eapply read_mono, H1; lia).
  erewrite bind_step by (eapply read_mono, H2; lia).
  replace (Z.of_nat (S (length ps)) - 1) with (Z.of_nat (length ps)) by lia.
  cbn [js_String fst]. unfold obj_set. destruct (bool_decide (k = "__proto__")); [done|].
  rewrite obj_insert_last by done. change ((k, v) :: ps) with ([(k, v)] ++ ps). rewrite (app_assoc o [(k, v)] ps).
  eapply read_entries_mono, H3. lia.
Qed.

Lemma list_reads major n f (body : bytes) v :
  major = 4 ∨ major = 5 → 0 ≤ n < 2 ^ 64 →
  (∀ rest, (if major =? 4 then items ← read_items f n; mret (VArr items)
            else props ← read_entries f n []; mret (VObj props)) (body ++ rest) = Ok (v, rest)) →
  reads (head major n ++ body) v.
Proof.
  intros Hmaj Hn Hb. exists (S f). intros rest.
  destruct (head_arg major n ltac:(lia) Hn) as (ib & tl & E & Hm & Ha).
  rewrite E. cbn [app]. rewrite read_cons. unfold read_item, len. rewrite Hm, <- app_assoc.
  specialize (Hb rest). destruct Hmaj as [-> | ->]; cbn [Z.eqb Pos.eqb] in *;
    by rewrite (bind_step _ _ _ _ _ (Ha _)).
Qed.

Lemma mapM_Forall2 {A} (f : A → result bytes) (R : bytes → A → Prop) l :
  Forall (λ x, ∃ bs, f x = Ok bs ∧ R bs x) l → ∃ bss, mapM f l = Ok bss ∧ Forall2 R bss l.
Proof.
  induction 1 as [|x l (bs & E & HR) _ (bss & E' & HR')]; [by exists []|].
  exists (bs :: bss). split; [|by constructor]. cbn. rewrite E. cbn. by rewrite E'.
Qed.

(** Every encodable value is encoded, and its encoding is read back up to [norm]. *)
Lemma encodeInto_reads v :
  encodable v = true → ∃ bs, encodeInto v = Ok bs ∧ reads bs (norm v).
Proof.
  induction v as [| |b|x|z|s|x| |bs|l IH|ps IH] using value_ind'; intros Hv;
    try discriminate Hv.
  - exists (push 0xf6). split; [done|]. exists 1%nat. by intros rest.
  - exists (push 0xf6). split; [done|]. exists 1%nat. by intros rest.
  - exists (push (if b then 0xf5 else 0xf4)). split; [done|]. exists 1%nat. intros rest. by destruct b.
  - eexists. split; [done|]. cbn [encodable norm] in *.
    destruct (f64_isInteger x); auto using encodeInt_reads, float64_reads.
  - eexists. split; [done|]. by apply encodeInt_reads.
  - eexists. split; [done|]. by apply encodeText_reads.
  - eexists. split; [done|]. by apply float64_reads.
  - cbn [encodable] in Hv. apply andb_prop in Hv as [Hlen Hv]. apply Z.ltb_lt in Hlen.
    rewrite forallb_forall in Hv.
    destruct (mapM_Forall2 encodeInto (λ bs w, reads bs (norm w)) l) as (bss & E & HR).
    { rewrite Forall_forall in IH |- *. intros w Hw. apply IH; [done|].
      by apply Hv. }
    exists (head 4 (Z.of_nat (length l)) ++ concat bss).
    split; [cbn; by rewrite E|]. cbn [norm].
    destruct (items_reads bss (map norm l)) as [f Hf]. { by apply Forall2_fmap_r. }
    eapply (list_reads 4 _ f); [auto|lia|]. intros rest. cbn [Z.eqb Pos.eqb].
    rewrite length_map in Hf. by erewrite bind_step by apply Hf.
  - cbn [encodable] in Hv. apply andb_prop in Hv as [[Hlen Hk]%andb_prop Hv].
    apply Z.ltb_lt in Hlen. rewrite forallb_forall in Hv.
    set (enc := λ p : string * value, r ← encodeInto p.2; Ok (encodeText p.1 ++ r)).
    destruct (mapM_Forall2 enc (λ bs p, entry_reads bs (p.1, norm p.2)) ps) as (bss & E & HR).
    { rewrite Forall_forall in IH |- *. intros [k w] Hw.
      destruct (andb_prop _ _ (Hv (k, w) Hw)) as [Hs He].
      destruct (IH _ Hw He) as (bs & E & Hr). exists (encodeText k ++ bs).
      split; [unfold enc; cbn in *; by rewrite E|].
      exists (encodeText k), bs. auto using encodeText_reads. }
    exists (head 5 (Z.of_nat (length ps)) ++ concat bss).
    split; [cbn [encodeInto]; fold enc; by rewrite E|]. cbn [norm].
    destruct (entries_reads bss (map (λ p, (p.1, norm p.2)) ps) []) as [f Hf].
    { by apply Forall2_fmap_r. } { by rewrite <- list_fmap_compose. }
    eapply (list_reads 5 _ f); [auto|lia|]. intros rest. cbn [Z.eqb Pos.eqb].
    rewrite length_map in Hf. by erewrite bind_step by apply Hf.
Qed.
End roundtrip.

(** Values that already have the shape the decoder produces: [null] rather than
    [undefined], safe integers as numbers, wider ones as bigints, no wrappers. *)
Fixpoint plain (v : value) : bool :=
  match v with
  | VNull | VBool _ | VStr _ => true
  | VNum x =>
      if f64_isInteger x
      then (Z.abs (f64_toZ x) <=? MAX_SAFE) && (f64_ofZ (f64_toZ x) =? x)
      else true
  | VBigInt z => negb (Z.abs z <=? MAX_SAFE)
  | VUndefined | VCborFloat _ | VFunction | VBytes _ => false
  | VArr l => forallb plain l
  | VObj ps => forallb (λ p, plain p.2) ps
  end.

Lemma numeric_safe z : Z.abs z ≤ MAX_SAFE → numeric z = vint z.
Proof.
  intros H. unfold numeric, vint.
  destruct (Z.leb_spec z MAX_SAFE); [|lia]. by destruct (Z.leb_spec (- MAX_SAFE) z); [|lia].
Qed.

Lemma numeric_wide z : MAX_SAFE < Z.abs z → numeric z = VBigInt z.
Proof.
  intros H. unfold numeric.
  destruct (Z.leb_spec z MAX_SAFE), (Z.leb_spec (- MAX_SAFE) z); [lia|done..].
Qed.

Lemma map_id_ext {A} (f : A → A) l : Forall (λ x, f x = x) l → map f l = l.
Proof. induction 1; cbn; congruence. Qed.

Lemma norm_plain v : plain v = true → norm v = v.
Proof.
  induction v as [| |b|x|z|s|x| |bs|l IH|ps IH] using value_ind'; try done; cbn [plain norm].
  - destruct (f64_isInteger x); [|done]. intros [H1 H2]%andb_prop.
    apply Z.leb_le in H1. apply Z.eqb_eq in H2. rewrite numeric_safe by done. unfold vint. by rewrite H2.
  - intros Hz%negb_true_iff%Z.leb_gt. by apply numeric_wide.
  - rewrite forallb_forall, Forall_forall in *. intros Hl. f_equal.
    apply map_id_ext, Forall_forall. auto.
  - rewrite forallb_forall, Forall_forall in *. intros Hl. f_equal.
    apply map_id_ext, Forall_forall. intros [k w] Hin. cbn. f_equal. exact (IH _ Hin (Hl _ Hin)).
Qed.

Section headline.
Context `{NumberToString}.

Lemma read_decode f bs v :
  read f bs = Ok (v, []) → decode bs = Ok v.
Proof.
  intros E. unfold decode.
  pose proof (proj1 (read_enough (S (2 * length bs))) (length bs) ltac:(lia) bs (Nat.le_refl _)) as Hne.
  destruct (Nat.le_ge_cases f (S (2 * length bs))) as [Hle|Hge].
  - by rewrite (read_mono _ _ _ _ Hle E).
  - destruct (read (S (2 * length bs)) bs) as [r|e] eqn:E'.
    + apply (read_mono _ f) in E'; [|done]. rewrite E' in E. by simplify_eq/=.
    + assert (∀ g, (S (2 * length bs) ≤ g)%nat → read g bs = Throw e) as Hg.
      { induction 1 as [|g Hle IH]; [done|].
        rewrite (proj1 (read_mono_S g)); [done|]. by rewrite IH. }
      rewrite (Hg f Hge) in E. discriminate.
Qed.

Lemma decode_encodable v bs :
  encodable v = true → encode v = Ok bs → decode bs = Ok (norm v).
Proof.
  intros Hv E. destruct (encodeInto_reads v Hv) as (bs' & E' & f & Hf).
  unfold encode in E. rewrite E' in E. injection E as <-. apply (read_decode f).
  rewrite <- (app_nil_r bs'). by rewrite Hf.
Qed.

(** C18: decoding the encoding of any encodable value succeeds and gives the value
    back, with [undefined] as [null], integers as numbers or bigints by size and
    [CborFloat] wrappers unwrapped. *)
Theorem decode_encode v :
  encodable v = true → ∃ bs, encode v = Ok bs ∧ decode bs = Ok (norm v).
Proof.
  intros Hv. destruct (encodeInto_reads v Hv) as (bs & E & _).
  exists bs. split; [done|]. by apply decode_encodable.
Qed.

(** The encoder is injective on the values the decoder can produce: two plain
    encodable values with the same bytes are the same value. *)
Theorem encode_injective v w :
  plain v = true → plain w = true → encodable v = true → encodable w = true →
  encode v = encode w → v = w.
Proof.
  intros Pv Pw Hv Hw E. destruct (encodeInto_reads v Hv) as (bs & E' & _).
  assert (decode bs = Ok v) as E1 by (rewrite <- (norm_plain v Pv); by apply decode_encodable).
  assert (decode bs = Ok w) as E2.
  { rewrite <- (norm_plain w Pw). apply decode_encodable; [done|]. by rewrite <- E. }
  congruence.
Qed.

(** C40: the decoder terminates on every input, well formed or not: the fuel
    [decode] passes is never exhausted and any larger fuel has the same outcome. *)
Theorem decode_total bs :
  decode bs ≠ Throw OutOfFuel ∧
  ∀ f, (S (2 * length bs) ≤ f)%nat → read f bs = read (S (2 * length bs)) bs.
Proof.
  pose proof (proj1 (read_enough (S (2 * length bs))) (length bs) ltac:(lia) bs (Nat.le_refl _)) as Hne.
  split.
  - unfold decode. destruct (read _ bs) as [[v [|]]|e]; congruence.
  - induction 1 as [|g Hle IH]; [done|].
    rewrite (proj1 (read_mono_S g)); [done|]. by rewrite IH.
Qed.

(** An integer of more than 64 bits is encoded without an error and read back
    as its residue modulo 2^64. *)
Theorem encode_wide_wraps z :
  2 ^ 64 ≤ z → ∃ bs, encode (VBigInt z) = Ok bs ∧ decode bs = Ok (numeric (z mod 2 ^ 64)).
Proof.
  intros Hz. eexists. split; [done|]. apply (read_decode 1).
  unfold encodeInt, head, push.
  destruct (Z.leb_spec 0 z); [|lia]. destruct (Z.ltb_spec z 24); [lia|].
  destruct (Z.ltb_spec z 0x100); [lia|]. destruct (Z.ltb_spec z 0x10000); [lia|].
  destruct (Z.ltb_spec z 0x100000000); [lia|]. cbn [app]. rewrite read_cons.
  change (read_item 0 (Z.land (Z.lor (Z.shiftl 0 5) 27) 255))
    with (v ← arg_loop 8 0; mret (numeric v)).
  rewrite <- (app_nil_r (be_bytes 8 z)).
  rewrite (bind_step _ _ _ _ _ (arg_loop_be_bytes 8 z 0 [])).
  fold (be_value (be_bytes 8 z)). by rewrite be_value_be_bytes.
Qed.

(** A [Uint8Array] is encoded as the object its indices and bytes form. *)
Lemma encode_bytes_as_object bs :
  Forall is_byte bs →
  encode (VBytes bs) = encode (VObj (imap (λ i b, (pretty (Z.of_nat i), vint b)) bs)).
Proof.
  intros Hbs. unfold encode. cbn [encodeInto]. rewrite length_imap. unfold byte_len.
  set (enc := λ p : string * value, r ← encodeInto p.2; Ok (encodeText p.1 ++ r)).
  assert (∀ (g : nat → Z), mapM enc (imap (λ i b, (pretty (g i), vint b)) bs)
          = Ok (imap (λ i b, encodeText (pretty (g i)) ++ encodeInt b) bs)) as E.
  { induction Hbs as [|b bs Hb _ IH]; intros g; [done|]. cbn.
    destruct (f64_ofZ_spec b) as (-> & -> & _); [unfold MAX_SAFE, is_byte in *; lia|].
    cbn. change (imap ((λ i x, (pretty (g i), vint x)) ∘ S) bs)
      with (imap (λ i x, (pretty (g (S i)), vint x)) bs). by rewrite (IH (λ i, g (S i))). }
  by rewrite (E Z.of_nat).
Qed.
End headline.

(** ** Witnesses *)

(** Some [Number::toString]; no sample below has a fractional map key. *)
Definition sample_toString : NumberToString := λ _, "0.5".

Definition sample_value : value :=
  VObj [("tenant", VStr "acme"); ("since", vint 0); ("limit", vint (-7));
        ("score", VCborFloat (f64_ofZ 2)); ("wide", VBigInt (2 ^ 60));
        ("items", VArr [VBool true; VUndefined; VObj []])].

Lemma decode_encode_witness :
  ∃ bs, encode sample_value = Ok bs ∧
        @decode sample_toString bs = Ok (norm sample_value).
Proof. apply (@decode_encode sample_toString). reflexivity. Defined.

Lemma encode_injective_witness :
  VArr [vint 1; VBigInt (2 ^ 60)] = VArr [vint 1; VBigInt (2 ^ 60)].
Proof. apply (@encode_injective sample_toString); reflexivity. Defined.

Lemma encode_wide_wraps_witness :
  ∃ bs, encode (VBigInt (2 ^ 64 + 5)) = Ok bs ∧
        @decode sample_toString bs = Ok (numeric ((2 ^ 64 + 5) mod 2 ^ 64)).
Proof. apply (@encode_wide_wraps sample_toString). lia. Defined.

(** A byte string does not come back as one. *)
Example bytes_become_object :
  (bs ← encode (VBytes [1; 2]); @decode sample_toString bs)
  = Ok (VObj [("0", vint 1); ("1", vint 2)]).
Proof. vm_compute. reflexivity. Qed.
