(* ===== verification/Frame.v ===== *)
(** * The wire frame codec ([packages/wire/src/frame.ts], [transport.ts])

    The 16-byte big-endian header, its validation on decode, and the frame a sender
    puts on the stream.  Header fields are integers at the width the [DataView]
    accessor writes: [be_bytes 2] and [be_bytes 4] keep 16 and 32 bits. *)
From S2P Require Import Prelude Bytes.
Open Scope Z_scope.

Definition HEADER_LEN : nat := 16.
Definition PROTOCOL_V1_0 : Z := 0x0100.

Module Flags.
Definition END_STREAM : Z := 0x0001.
Definition MORE : Z := 0x0002.
Definition COMPRESSED : Z := 0x0004.
End Flags.

Definition KNOWN_FLAGS : Z := Z.lor (Z.lor Flags.END_STREAM Flags.MORE) Flags.COMPRESSED.

(** The frame opcodes. *)
Module FrameType.
Definition Hello : Z := 0x0001.
Definition Negotiate : Z := 0x0002.
Definition Authenticate : Z := 0x0003.
Definition Ready : Z := 0x0004.
Definition Ping : Z := 0x0005.
Definition Pong : Z := 0x0006.
Definition FlowCredit : Z := 0x0007.
Definition ResetStream : Z := 0x0008.
Definition GoAway : Z := 0x0009.
Definition Error : Z := 0x000a.
Definition QuerySubmit : Z := 0x0010.
Definition QueryResult : Z := 0x0011.
Definition CursorFetch : Z := 0x0012.
Definition CursorClose : Z := 0x0013.
Definition TxnBegin : Z := 0x0014.
Definition TxnCommit : Z := 0x0015.
Definition TxnAbort : Z := 0x0016.
Definition CommitStatus : Z := 0x0017.
Definition AgentRequest : Z := 0x0020.
Definition AgentResponse : Z := 0x0021.
Definition SecuritySearchSubmit : Z := 0x0022.
Definition SecuritySearchResult : Z := 0x0023.
Definition FindingFetch : Z := 0x0024.
Definition FindingResult : Z := 0x0025.
Definition CognitionRequest : Z := 0x0026.
Definition CognitionResponse : Z := 0x0027.
Definition OtlpExport : Z := 0x0028.
Definition OtlpAck : Z := 0x0029.
Definition EnrollSubmit : Z := 0x002a.
Definition EnrollResult : Z := 0x002b.
Definition EnrollIdentityOffer : Z := 0x002c.
Definition EnrollIdentityResult : Z := 0x002d.
Definition StreamSubscribe : Z := 0x0030.
Definition StreamEvent : Z := 0x0031.
End FrameType.

Record FrameHeader := mkHeader {
  protocolVersion : Z;
  frameType : Z;
  streamId : Z;
  flags : Z;
  payloadLen : Z
}.

#[global] Instance FrameHeader_eq_dec : EqDecision FrameHeader.
Proof. solve_decision. Defined.

Definition DEFAULT_MAX_PAYLOAD : Z := 16 * 1024 * 1024.

Definition packVersion (major minor : Z) : Z :=
  Z.lor (Z.shiftl (Z.land major 0xff) 8) (Z.land minor 0xff).

Definition unpackVersion (version : Z) : Z * Z :=
  (Z.land (Z.shiftr version 8) 0xff, Z.land version 0xff).

Definition encodeHeader (header : FrameHeader) : bytes :=
  be_bytes 2 (protocolVersion header) ++
  be_bytes 2 (frameType header) ++
  be_bytes 4 (streamId header) ++
  be_bytes 2 (flags header) ++
  be_bytes 2 0 ++
  be_bytes 4 (payloadLen header).

(** [view.getUint16(off)], [view.getUint32(off)] *)
Definition getUint (width off : nat) (bs : bytes) : Z := be_value (take width (drop off bs)).

Definition decodeHeader (bs : bytes) (maxPayload : Z) : result FrameHeader :=
  if bool_decide (length bs < HEADER_LEN)%nat then Throw (FrameError short_header)
  else
    let protocolVersion := getUint 2 0 bs in
    let frameType := getUint 2 2 bs in
    let streamId := getUint 4 4 bs in
    let flags := getUint 2 8 bs in
    let reserved := getUint 2 10 bs in
    let payloadLen := getUint 4 12 bs in
    if negb (reserved =? 0) then Throw (FrameError reserved_nonzero)
    else if negb (Z.land flags (Z.lnot KNOWN_FLAGS) =? 0) then Throw (FrameError unknown_flag)
    else if maxPayload <? payloadLen then Throw (FrameError payload_too_large)
    else Ok (mkHeader protocolVersion frameType streamId flags payloadLen).

(** [{ ...header, payloadLen: payload.length }] *)
Definition with_payload (header : FrameHeader) (payload : bytes) : FrameHeader :=
  mkHeader (protocolVersion header) (frameType header) (streamId header) (flags header)
    (byte_len payload).

Definition encodeFrame (header : FrameHeader) (payload : bytes) : bytes :=
  encodeHeader (with_payload header payload) ++ payload.

(** ** Frames on a transport ([transport.ts]) *)

Record WireFrame := mkFrame { header : FrameHeader; payload : bytes }.

#[global] Instance WireFrame_eq_dec : EqDecision WireFrame.
Proof. solve_decision. Defined.

Record OutboundFrame := mkOutbound {
  out_frameType : Z;
  out_payload : bytes;
  out_streamId : option Z;
  out_flags : option Z;
  out_protocolVersion : option Z
}.

Definition outboundHeader (frame : OutboundFrame) : FrameHeader :=
  mkHeader (default PROTOCOL_V1_0 (out_protocolVersion frame)) (out_frameType frame)
    (default 0 (out_streamId frame)) (default Flags.END_STREAM (out_flags frame))
    (byte_len (out_payload frame)).

(** ** Well-formed headers *)

Definition known_flags (f : Z) : Prop := Z.land f (Z.lnot KNOWN_FLAGS) = 0.

Record header_ok (maxPayload : Z) (h : FrameHeader) : Prop := {
  ok_version : 0 ≤ protocolVersion h < 2 ^ 16;
  ok_type : 0 ≤ frameType h < 2 ^ 16;
  ok_stream : 0 ≤ streamId h < 2 ^ 32;
  ok_flags : 0 ≤ flags h < 2 ^ 16;
  ok_known : known_flags (flags h);
  ok_len : 0 ≤ payloadLen h < 2 ^ 32;
  ok_max : payloadLen h ≤ maxPayload
}.

#[global] Instance header_ok_dec m h : Decision (header_ok m h).
Proof.
  refine (cast_if (decide ((0 ≤ protocolVersion h < 2 ^ 16 ∧ 0 ≤ frameType h < 2 ^ 16) ∧
    (0 ≤ streamId h < 2 ^ 32 ∧ 0 ≤ flags h < 2 ^ 16) ∧
    (Z.land (flags h) (Z.lnot KNOWN_FLAGS) = 0 ∧ 0 ≤ payloadLen h < 2 ^ 32 ∧ payloadLen h ≤ m))));
    [constructor; tauto | intros []; unfold known_flags in *; tauto].
Defined.

Lemma encodeHeader_length h : length (encodeHeader h) = HEADER_LEN.
Proof. unfold encodeHeader. by rewrite !length_app, !be_bytes_length. Qed.

Lemma encodeHeader_byte h : Forall is_byte (encodeHeader h).
Proof. unfold encodeHeader. repeat apply Forall_app_2; apply be_bytes_byte. Qed.

Lemma decodeHeader_encodeHeader m h rest :
  header_ok m h → decodeHeader (encodeHeader h ++ rest) m = Ok h.
Proof.
  intros [Hv Ht Hs Hf Hk Hl Hm]. destruct h as [v t s f l].
  cbn [protocolVersion frameType streamId flags payloadLen] in *. unfold decodeHeader.
  rewrite bool_decide_false by (rewrite length_app, encodeHeader_length; lia).
  set (bs := encodeHeader _ ++ rest).
  change (getUint 2 0 bs) with (be_value (be_bytes 2 v)).
  change (getUint 2 2 bs) with (be_value (be_bytes 2 t)).
  change (getUint 4 4 bs) with (be_value (be_bytes 4 s)).
  change (getUint 2 8 bs) with (be_value (be_bytes 2 f)).
  change (getUint 2 10 bs) with 0.
  change (getUint 4 12 bs) with (be_value (be_bytes 4 l)).
  rewrite !be_value_be_bytes_small by assumption. cbn [Z.eqb negb].
  unfold known_flags in Hk. rewrite Hk. cbn [Z.eqb negb].
  by destruct (Z.ltb_spec m l); [lia|].
Qed.

Lemma Forall_sub (P : Z → Prop) w off bs : Forall P bs → Forall P (take w (drop off bs)).
Proof. intros H. by apply Forall_take, Forall_drop. Qed.

Lemma getUint_bytes w off bs :
  Forall is_byte bs → (off + w ≤ length bs)%nat →
  be_bytes w (getUint w off bs) = take w (drop off bs) ∧
  0 ≤ getUint w off bs < 2 ^ (8 * Z.of_nat w).
Proof.
  intros Hb Hlen. unfold getUint. pose proof (Forall_sub _ w off _ Hb) as Hb'.
  assert (length (take w (drop off bs)) = w) as Hl by (rewrite length_take, length_drop; lia).
  split.
  - rewrite <- Hl at 1. by apply be_bytes_be_value.
  - pose proof (be_value_bound _ Hb') as B. by rewrite Hl in B.
Qed.

(** What [decodeHeader] accepts is exactly a well-formed encoding. *)
Lemma decodeHeader_sound m bs h :
  Forall is_byte bs → decodeHeader bs m = Ok h →
  header_ok m h ∧ ∃ rest, bs = encodeHeader h ++ rest.
Proof.
  intros Hb. unfold decodeHeader. case_bool_decide as Hlen; [done|].
  unfold HEADER_LEN in Hlen.
  destruct (Z.eqb_spec (getUint 2 10 bs) 0) as [Hr|]; [|done].
  destruct (Z.eqb_spec (Z.land (getUint 2 8 bs) (Z.lnot KNOWN_FLAGS)) 0) as [Hk|]; [|done].
  cbn [negb]. destruct (Z.ltb_spec m (getUint 4 12 bs)) as [|Hm]; [done|]. intros [= <-].
  pose proof (λ w off, getUint_bytes w off bs Hb) as G.
  split.
  - constructor; cbn; try done; eapply G; lia.
  - exists (drop 16 bs). unfold encodeHeader. cbn [protocolVersion frameType streamId flags payloadLen].
    assert (∀ w off, (off + w ≤ length bs)%nat →
      be_bytes w (getUint w off bs) = take w (drop off bs)) as G' by (intros; by apply G).
    rewrite <- Hr. rewrite !G' by lia.
    do 16 (destruct bs as [|? bs]; [cbn in Hlen; lia|]). done.
Qed.

(** The header codec is exact: on any byte buffer, the decoder accepts precisely
    the buffers that start with the encoding of a well-formed header (fields at
    width, reserved zero, known flags only, payload within the bound), and returns
    that header. *)
Theorem header_codec_exact m bs h :
  Forall is_byte bs →
  (decodeHeader bs m = Ok h ↔ header_ok m h ∧ ∃ rest, bs = encodeHeader h ++ rest).
Proof.
  intros Hb. split; [by apply decodeHeader_sound|].
  intros [Hok [rest ->]]. by apply decodeHeader_encodeHeader.
Qed.

(** Versions keep their low bytes. *)
Lemma unpack_pack major minor :
  unpackVersion (packVersion major minor) = (major mod 256, minor mod 256).
Proof.
  unfold unpackVersion, packVersion. rewrite !land_255.
  fold (be_step (major mod 256) (minor mod 256)).
  pose proof (Z.mod_pos_bound major 256). pose proof (Z.mod_pos_bound minor 256).
  rewrite be_step_add, shiftr_div by (unfold is_byte; lia). change (2 ^ 8) with 256. f_equal.
  - rewrite Z.mul_comm, Z.div_add_l, (Z.div_small (minor mod 256)), Z.add_0_r, Z.mod_mod by lia. done.
  - rewrite Z.add_comm, Z.mul_comm, Z.mod_add, Z.mod_mod by lia. done.
Qed.

Definition sample_header : FrameHeader := mkHeader PROTOCOL_V1_0 FrameType.QuerySubmit 7 Flags.END_STREAM 300.

Lemma header_codec_exact_witness :
  decodeHeader (encodeHeader sample_header) DEFAULT_MAX_PAYLOAD = Ok sample_header ↔
  header_ok DEFAULT_MAX_PAYLOAD sample_header ∧
  ∃ rest, encodeHeader sample_header = encodeHeader sample_header ++ rest.
Proof. apply header_codec_exact. apply encodeHeader_byte. Defined.
