(* ===== verification/StreamTransport.v ===== *)
(** * The stream transport ([packages/wire/src/socket-transport.ts])

    [StreamFrameTransport] as a state machine.  Its inputs are the stream's events
    and the client's calls; a promise is named by the number its [recv] call gave
    it, and an operation lists the settlements and writes it performs.  An exception
    thrown inside the ['data'] handler is the last component of its outcome: the
    state changes made before the throw stay. *)
From S2P Require Import Prelude Bytes Frame.
Open Scope Z_scope.

Record transport := mkTransport {
  buffer : bytes;
  ready : list WireFrame;
  waiters : list nat;
  failure : option exn
}.

Definition transport_init : transport := mkTransport [] [] [] None.

(** What an operation does to the world outside the object. *)
Inductive event :=
  | Resolve (promise : nat) (frame : WireFrame)
  | Reject (promise : nat) (error : exn)
  | Write (data : bytes)
  | End.

Definition outcome : Type := transport * list event * option exn.

(** One iteration of the [while] loop of [parse]: hand a complete frame over. *)
Definition deliver (t : transport) (frame : WireFrame) (rest : bytes) : transport * list event :=
  match waiters t with
  | w :: ws => (mkTransport rest (ready t) ws (failure t), [Resolve w frame])
  | [] => (mkTransport rest (ready t ++ [frame]) [] (failure t), [])
  end.

Fixpoint parse_loop (fuel : nat) (t : transport) : outcome :=
  match fuel with
  | O => (t, [], Some OutOfFuel)
  | S fuel =>
      if bool_decide (HEADER_LEN ≤ length (buffer t))%nat then
        match decodeHeader (buffer t) DEFAULT_MAX_PAYLOAD with
        | Throw e => (t, [], Some e)
        | Ok h =>
            let total := (HEADER_LEN + Z.to_nat (payloadLen h))%nat in
            if bool_decide (length (buffer t) < total)%nat then (t, [], None)
            else
              let payload := take (total - HEADER_LEN) (drop HEADER_LEN (buffer t)) in
              let '(t', ev) := deliver t (mkFrame h payload) (drop total (buffer t)) in
              let '(t'', ev', e) := parse_loop fuel t' in
              (t'', ev ++ ev', e)
        end
      else (t, [], None)
  end.

(** Each iteration removes at least a header, so [length buffer] bounds the loop. *)
Definition parse (t : transport) : outcome := parse_loop (S (length (buffer t))) t.

Definition append (t : transport) (chunk : bytes) : outcome :=
  parse (mkTransport (buffer t ++ chunk) (ready t) (waiters t) (failure t)).

Definition fail (t : transport) (error : exn) : transport * list event :=
  match failure t with
  | Some _ => (t, [])
  | None =>
      (mkTransport (buffer t) (ready t) [] (Some error),
       map (λ w, Reject w error) (waiters t))
  end.

Definition send (t : transport) (frame : OutboundFrame) : result (list event) :=
  match failure t with
  | Some e => Throw e
  | None => Ok [Write (encodeFrame (outboundHeader frame) (out_payload frame))]
  end.

(** [recv()]; [promise] is the promise it returns. *)
Definition recv (t : transport) (promise : nat) : transport * list event :=
  match ready t with
  | queued :: rest =>
      (mkTransport (buffer t) rest (waiters t) (failure t), [Resolve promise queued])
  | [] =>
      match failure t with
      | Some e => (t, [Reject promise e])
      | None => (mkTransport (buffer t) [] (waiters t ++ [promise]) None, [])
      end
  end.

Definition close (t : transport) : list event := [End].

(** ** Runs *)

(** The inputs: the four stream events and the client's receive. *)
Inductive input :=
  | Data (chunk : bytes)
  | StreamError (error : exn)
  | StreamClose
  | StreamEnd
  | Recv (promise : nat).

Definition step (t : transport) (i : input) : transport * list event :=
  match i with
  | Data chunk => (append t chunk).1
  | StreamError e => fail t e
  | StreamClose => fail t (WireProtocolError "wire stream closed")
  | StreamEnd => fail t (WireProtocolError "wire stream ended")
  | Recv p => recv t p
  end.

Fixpoint run (t : transport) (ins : list input) : transport * list event :=
  match ins with
  | [] => (t, [])
  | i :: ins =>
      let '(t', ev) := step t i in
      let '(t'', ev') := run t' ins in
      (t'', ev ++ ev')
  end.

(** ** The abstract stream: bytes cut into frames *)

Fixpoint cut_loop (fuel : nat) (bs : bytes) : list WireFrame * bytes * option exn :=
  match fuel with
  | O => ([], bs, Some OutOfFuel)
  | S fuel =>
      if bool_decide (HEADER_LEN ≤ length bs)%nat then
        match decodeHeader bs DEFAULT_MAX_PAYLOAD with
        | Throw e => ([], bs, Some e)
        | Ok h =>
            let total := (HEADER_LEN + Z.to_nat (payloadLen h))%nat in
            if bool_decide (length bs < total)%nat then ([], bs, None)
            else
              let '(fs, rest, e) := cut_loop fuel (drop total bs) in
              (mkFrame h (take (total - HEADER_LEN) (drop HEADER_LEN bs)) :: fs, rest, e)
        end
      else ([], bs, None)
  end.

(** The complete frames at the front of [bs], the bytes after them, and the error a
    malformed header there raises. *)
Definition cut (bs : bytes) : list WireFrame * bytes * option exn := cut_loop (S (length bs)) bs.

Arguments cut : simpl never.

Definition resolved_frames (ev : list event) : list WireFrame :=
  omap (λ e, match e with Resolve _ f => Some f | _ => None end) ev.
Definition settled (ev : list event) : list nat :=
  omap (λ e, match e with Resolve p _ | Reject p _ => Some p | _ => None end) ev.
Definition received_bytes (ins : list input) : bytes :=
  concat (omap (λ i, match i with Data c => Some c | _ => None end) ins).
Definition recv_calls (ins : list input) : list nat :=
  omap (λ i, match i with Recv p => Some p | _ => None end) ins.

(** ** Cutting the stream *)

Lemma cut_loop_S fuel bs :
  cut_loop (S fuel) bs =
  if bool_decide (HEADER_LEN ≤ length bs)%nat then
    match decodeHeader bs DEFAULT_MAX_PAYLOAD with
    | Throw e => ([], bs, Some e)
    | Ok h =>
        let total := (HEADER_LEN + Z.to_nat (payloadLen h))%nat in
        if bool_decide (length bs < total)%nat then ([], bs, None)
        else
          let '(fs, rest, e) := cut_loop fuel (drop total bs) in
          (mkFrame h (take (total - HEADER_LEN) (drop HEADER_LEN bs)) :: fs, rest, e)
    end
  else ([], bs, None).
Proof. done. Qed.

Lemma cut_loop_fuel f g bs :
  (length bs < f)%nat → (length bs < g)%nat → cut_loop f bs = cut_loop g bs.
Proof.
  revert g bs. induction f as [|f IH]; intros g bs Hf Hg; [lia|]. destruct g as [|g]; [lia|].
  rewrite !cut_loop_S. case_bool_decide as Hh; [|done].
  destruct (decodeHeader bs _) as [h|e]; [|done]. cbv zeta. case_bool_decide as Ht; [done|].
  rewrite (IH g); [done|rewrite length_drop; unfold HEADER_LEN in *; lia..].
Qed.

(** [cut], one frame at a time, without fuel. *)
Lemma cut_eq bs :
  cut bs =
  if bool_decide (HEADER_LEN ≤ length bs)%nat then
    match decodeHeader bs DEFAULT_MAX_PAYLOAD with
    | Throw e => ([], bs, Some e)
    | Ok h =>
        let total := (HEADER_LEN + Z.to_nat (payloadLen h))%nat in
        if bool_decide (length bs < total)%nat then ([], bs, None)
        else
          let '(fs, rest, e) := cut (drop total bs) in
          (mkFrame h (take (total - HEADER_LEN) (drop HEADER_LEN bs)) :: fs, rest, e)
    end
  else ([], bs, None).
Proof.
  unfold cut at 1. rewrite cut_loop_S. case_bool_decide as Hh; [|done].
  destruct (decodeHeader bs _) as [h|e]; [|done]. cbv zeta. case_bool_decide as Ht; [done|].
  unfold cut. rewrite (cut_loop_fuel _ (S (length (drop (HEADER_LEN + Z.to_nat (payloadLen h)) bs)))); [done|..];
    rewrite length_drop; unfold HEADER_LEN in *; lia.
Qed.

(** The header is read from the first 16 bytes. *)
Lemma decodeHeader_app m bs c :
  (HEADER_LEN ≤ length bs)%nat → decodeHeader (bs ++ c) m = decodeHeader bs m.
Proof.
  unfold HEADER_LEN. intros Hlen. do 16 (destruct bs as [|? bs]; [cbn in Hlen; lia|]). done.
Qed.

Lemma cut_app bs c fs rest e :
  cut bs = (fs, rest, e) →
  cut (bs ++ c) = (fs ++ (cut (rest ++ c)).1.1, (cut (rest ++ c)).1.2, (cut (rest ++ c)).2).
Proof.
  remember (length bs) as n eqn:Hn. revert bs Hn fs rest e.
  induction n as [n IH] using lt_wf_ind. intros bs -> fs rest e.
  rewrite (cut_eq bs). case_bool_decide as Hh.
  2:{ intros [= <- <- <-]. by destruct (cut (bs ++ c)) as [[]]. }
  destruct (decodeHeader bs _) as [h|e'] eqn:Hd.
  2:{ intros [= <- <- <-]. by destruct (cut (bs ++ c)) as [[]]. }
  cbv zeta. set (total := (HEADER_LEN + Z.to_nat (payloadLen h))%nat).
  case_bool_decide as Ht. { intros [= <- <- <-]. by destruct (cut (bs ++ c)) as [[]]. }
  destruct (cut (drop total bs)) as [[fs1 rest1] e1] eqn:Hc. intros [= <- <- <-].
  rewrite (cut_eq (bs ++ c)), bool_decide_true by (rewrite length_app; lia).
  rewrite decodeHeader_app, Hd by done. cbv zeta. fold total.
  rewrite bool_decide_false by (rewrite length_app; lia).
  rewrite drop_app_le by lia.
  rewrite (IH (length (drop total bs)) ltac:(rewrite length_drop; unfold total, HEADER_LEN in *; lia)
    (drop total bs) eq_refl _ _ _ Hc).
  rewrite drop_app_le, take_app_le; [done| |done]. rewrite length_drop. lia.
Qed.

Lemma cut_no_fuel bs : (cut bs).2 ≠ Some OutOfFuel.
Proof.
  remember (length bs) as n eqn:Hn. revert bs Hn.
  induction n as [n IH] using lt_wf_ind. intros bs ->.
  rewrite cut_eq. case_bool_decide as Hh; [|done].
  destruct (decodeHeader bs _) as [h|e] eqn:Hd.
  - cbv zeta. case_bool_decide as Ht; [done|].
    set (total := (HEADER_LEN + Z.to_nat (payloadLen h))%nat) in *.
    pose proof (IH (length (drop total bs)) ltac:(rewrite length_drop; unfold total, HEADER_LEN in *; lia)
      _ eq_refl) as Hne. by destruct (cut (drop total bs)) as [[]].
  - unfold decodeHeader in Hd. cbn. by repeat case_match; simplify_eq.
Qed.

(** ** [parse] hands the cut frames over *)

(** Frames go to the waiting promises first, in order; the rest is queued. *)
Definition distribute (t : transport) (fs : list WireFrame) (rest : bytes) : transport * list event :=
  (mkTransport rest (ready t ++ drop (length (waiters t)) fs) (drop (length fs) (waiters t)) (failure t),
   zip_with Resolve (waiters t) fs).

Lemma distribute_nil t : distribute t [] (buffer t) = (t, []).
Proof.
  unfold distribute. destruct t as [b r ws f]; cbn.
  rewrite drop_nil, app_nil_r. by destruct ws.
Qed.

Lemma parse_loop_cut fuel t :
  parse_loop fuel t =
  let '(fs, rest, e) := cut_loop fuel (buffer t) in (distribute t fs rest, e).
Proof.
  revert t. induction fuel as [|fuel IH]; intros t.
  { cbn [parse_loop cut_loop]. by rewrite distribute_nil. }
  rewrite cut_loop_S. cbn [parse_loop]. case_bool_decide; [|by rewrite distribute_nil].
  destruct (decodeHeader (buffer t) _) as [h|e]; [|by rewrite distribute_nil].
  cbv zeta. case_bool_decide; [by rewrite distribute_nil|].
  set (frame := mkFrame h _). set (rest := drop _ (buffer t)).
  destruct (deliver t frame rest) as [t' ev] eqn:Hd. rewrite IH.
  assert (buffer t' = rest) as -> by (unfold deliver in Hd; by destruct (waiters t); simplify_eq/=).
  destruct (cut_loop fuel rest) as [[fs rest'] e]. unfold deliver in Hd.
  destruct t as [b r [|w ws] f]; cbn in Hd; simplify_eq; unfold distribute; cbn; [|done].
  by rewrite <- app_assoc, !drop_nil, !drop_0 || rewrite <- app_assoc, !drop_nil.
Qed.

Lemma append_cut t chunk :
  append t chunk =
  let '(fs, rest, e) := cut (buffer t ++ chunk) in (distribute t fs rest, e).
Proof. unfold append, parse. by rewrite parse_loop_cut. Qed.

(** ** The transport refines a FIFO of frames *)

(** [ev] are the events so far, [bs] the bytes received and [calls] the receives. *)
Record stream_inv (bs : bytes) (calls : list nat) (t : transport) (ev : list event) : Prop := {
  inv_frames : resolved_frames ev ++ ready t = (cut bs).1.1;
  inv_buffer : buffer t = (cut bs).1.2;
  inv_calls : settled ev ++ waiters t = calls;
  inv_idle : ready t ≠ [] → waiters t = [];
  inv_failed : is_Some (failure t) → waiters t = []
}.

Lemma resolved_app ev ev' : resolved_frames (ev ++ ev') = resolved_frames ev ++ resolved_frames ev'.
Proof. apply omap_app. Qed.
Lemma settled_app ev ev' : settled (ev ++ ev') = settled ev ++ settled ev'.
Proof. apply omap_app. Qed.

Lemma resolved_zip ws fs : resolved_frames (zip_with Resolve ws fs) = take (length ws) fs.
Proof. revert fs. induction ws as [|w ws IH]; intros [|f fs]; cbn; [done..|]. f_equal. apply IH. Qed.

Lemma settled_zip ws fs : settled (zip_with Resolve ws fs) = take (length fs) ws.
Proof. revert fs. induction ws as [|w ws IH]; intros [|f fs]; cbn; [done..|]. f_equal. apply IH. Qed.

Lemma rejected_all ws e :
  resolved_frames (map (λ w, Reject w e) ws) = [] ∧ settled (map (λ w, Reject w e) ws) = ws.
Proof. induction ws as [|w ws [IH1 IH2]]; [done|]. split; [exact IH1|]. cbn. f_equal. exact IH2. Qed.

Lemma inv_init : stream_inv [] [] transport_init [].
Proof. by constructor. Qed.

Lemma inv_data bs calls t ev chunk :
  stream_inv bs calls t ev →
  let '(t', ev') := step t (Data chunk) in stream_inv (bs ++ chunk) calls t' (ev ++ ev').
Proof.
  intros [Hf Hb Hc Hi Hx]. cbn [step]. rewrite append_cut.
  destruct (cut bs) as [[fs rest] e] eqn:Hcut. cbn in *.
  pose proof (cut_app bs chunk fs rest e Hcut) as Happ. rewrite Hb.
  destruct (cut (rest ++ chunk)) as [[fs' rest'] e'] eqn:Hcut'. cbn in Happ.
  unfold distribute. cbn. constructor; rewrite ?Happ; cbn.
  - rewrite resolved_app, resolved_zip, <- app_assoc. destruct (decide (ready t = [])) as [Hr|Hr].
    + rewrite Hr, app_nil_r in Hf. by rewrite Hf, Hr, app_nil_l, take_drop.
    + rewrite (Hi Hr), <- Hf, <- app_assoc. done.
  - done.
  - by rewrite settled_app, settled_zip, <- app_assoc, take_drop.
  - intros Hne. destruct (decide (ready t = [])) as [Hr|Hr].
    + apply drop_ge. rewrite Hr in Hne. cbn in Hne.
      destruct (decide (length (waiters t) < length fs')%nat); [lia|]. by rewrite drop_ge in Hne by lia.
    + rewrite (Hi Hr). apply drop_nil.
  - intros Hs. rewrite (Hx Hs). apply drop_nil.
Qed.

Lemma inv_fail bs calls t ev e :
  stream_inv bs calls t ev → let '(t', ev') := fail t e in stream_inv bs calls t' (ev ++ ev').
Proof.
  intros [Hf Hb Hc Hi Hx]. unfold fail. destruct (failure t) as [e0|] eqn:He.
  - rewrite app_nil_r. constructor; rewrite ?He; auto.
  - destruct (rejected_all (waiters t) e) as [R1 R2].
    constructor; cbn; rewrite ?resolved_app, ?settled_app, ?R1, ?R2, ?app_nil_r; auto.
Qed.

Lemma inv_recv bs calls t ev p :
  stream_inv bs calls t ev → let '(t', ev') := recv t p in stream_inv bs (calls ++ [p]) t' (ev ++ ev').
Proof.
  intros [Hf Hb Hc Hi Hx]. unfold recv. destruct (ready t) as [|f fs] eqn:Hr.
  - destruct (failure t) as [e|] eqn:He.
    + rewrite (Hx ltac:(eauto)), app_nil_r in Hc.
      constructor; rewrite ?resolved_app, ?settled_app, ?Hr, ?(Hx ltac:(eauto)), ?app_nil_r in *;
        cbn; rewrite ?app_nil_r; congruence.
    + rewrite app_nil_r in Hf.
      constructor; cbn; rewrite ?app_nil_r, ?app_assoc, ?Hc; auto; [done|by intros []].
  - rewrite (Hi ltac:(done)), app_nil_r in Hc.
    constructor; cbn; rewrite ?resolved_app, ?settled_app, ?(Hi ltac:(done)); auto.
    + by rewrite <- app_assoc.
    + by rewrite app_nil_r, Hc.
Qed.

Lemma received_cons i ins : received_bytes (i :: ins) = received_bytes [i] ++ received_bytes ins.
Proof. unfold received_bytes. destruct i; cbn; by rewrite ?app_nil_r. Qed.
Lemma calls_cons i ins : recv_calls (i :: ins) = recv_calls [i] ++ recv_calls ins.
Proof. by destruct i. Qed.

Lemma inv_run bs calls t ev ins :
  stream_inv bs calls t ev →
  let '(t', ev') := run t ins in
  stream_inv (bs ++ received_bytes ins) (calls ++ recv_calls ins) t' (ev ++ ev').
Proof.
  revert bs calls t ev. induction ins as [|i ins IH]; intros bs calls t ev H.
  { cbn. unfold received_bytes. cbn. by rewrite !app_nil_r. }
  cbn [run]. destruct (step t i) as [t1 ev1] eqn:E1. destruct (run t1 ins) as [t2 ev2] eqn:E2.
  rewrite app_assoc.
  assert (stream_inv (bs ++ received_bytes [i]) (calls ++ recv_calls [i]) t1 (ev ++ ev1)) as H1.
  { unfold received_bytes. destruct i; cbn in E1 |- *; rewrite ?app_nil_r.
    - pose proof (inv_data _ _ _ _ chunk H) as H'. cbn in H'. by rewrite E1 in H'.
    - pose proof (inv_fail _ _ _ _ error H) as H'. by rewrite E1 in H'.
    - pose proof (inv_fail _ _ _ _ (WireProtocolError "wire stream closed") H) as H'. by rewrite E1 in H'.
    - pose proof (inv_fail _ _ _ _ (WireProtocolError "wire stream ended") H) as H'. by rewrite E1 in H'.
    - pose proof (inv_recv _ _ _ _ promise H) as H'. by rewrite E1 in H'. }
  specialize (IH _ _ _ _ H1). rewrite E2, <- !app_assoc in IH.
  by rewrite received_cons, calls_cons, <- app_assoc.
Qed.

(** ** Theorems *)

(** C21: whatever the interleaving of stream events and receives, the transport is a
    FIFO: the frames handed out, in order, followed by the queued ones are exactly
    the complete frames of the bytes received, however they were chunked; every
    receive is settled at most once and in call order, the others still waiting; and
    a receive waits only while no frame is queued and the stream has not failed. *)
Theorem transport_refines_fifo ins t ev :
  run transport_init ins = (t, ev) →
  resolved_frames ev ++ ready t = (cut (received_bytes ins)).1.1 ∧
  buffer t = (cut (received_bytes ins)).1.2 ∧
  settled ev ++ waiters t = recv_calls ins ∧
  (waiters t ≠ [] → ready t = [] ∧ failure t = None).
Proof.
  intros E. pose proof (inv_run [] [] transport_init [] ins inv_init) as H. rewrite E in H.
  destruct H as [Hf Hb Hc Hi Hx]. split_and!; [done..|]. intros Hw.
  split; [destruct (decide (ready t = [])); [done|naive_solver]|].
  destruct (failure t); [|done]. destruct Hw. by apply Hx.
Qed.

(** A frame [decodeHeader] accepts, with the payload its header announces. *)
Definition outbound_ok (o : OutboundFrame) : Prop := header_ok DEFAULT_MAX_PAYLOAD (outboundHeader o).

#[global] Instance outbound_ok_dec o : Decision (outbound_ok o).
Proof. unfold outbound_ok. apply _. Defined.

Definition frame_of (o : OutboundFrame) : WireFrame := mkFrame (outboundHeader o) (out_payload o).
Definition bytes_of (o : OutboundFrame) : bytes := encodeFrame (outboundHeader o) (out_payload o).

Lemma cut_frame o rest :
  outbound_ok o → cut (bytes_of o ++ rest) = (frame_of o :: (cut rest).1.1, (cut rest).1.2, (cut rest).2).
Proof.
  intros Hok. unfold bytes_of, encodeFrame, frame_of.
  change (with_payload (outboundHeader o) (out_payload o)) with (outboundHeader o).
  rewrite <- app_assoc, cut_eq.
  rewrite bool_decide_true by (rewrite length_app, encodeHeader_length; lia).
  rewrite decodeHeader_encodeHeader by done. cbv zeta. cbn [outboundHeader payloadLen].
  unfold byte_len. rewrite Nat2Z.id, Nat.add_sub_swap, Nat.sub_diag by lia. cbn [Nat.add].
  rewrite bool_decide_false by (rewrite !length_app, encodeHeader_length; lia).
  rewrite (drop_app_length' (encodeHeader _) _ HEADER_LEN) by (by rewrite encodeHeader_length).
  rewrite take_app_length, app_assoc, drop_app_length' by (by rewrite length_app, encodeHeader_length).
  by destruct (cut rest) as [[]].
Qed.

Lemma cut_frames os :
  Forall outbound_ok os → cut (concat (map bytes_of os)) = (map frame_of os, [], None).
Proof.
  induction 1 as [|o os Ho _ IH]; [done|]. cbn [map concat]. rewrite cut_frame, IH by done. done.
Qed.

(** frames survive the stream.  If the bytes a peer's [send] wrote for a sequence
    of well-formed frames arrive in chunks of any sizes, interleaved with any
    receives, every frame is delivered once, in order and with its payload intact,
    none is left in the buffer, and the first receives are answered by the first
    frames. *)
Theorem frames_survive_chunking os ins t ev :
  Forall outbound_ok os → received_bytes ins = concat (map bytes_of os) →
  run transport_init ins = (t, ev) →
  resolved_frames ev ++ ready t = map frame_of os ∧ buffer t = [].
Proof.
  intros Hos Hin E. pose proof (inv_run [] [] transport_init [] ins inv_init) as H. rewrite E in H.
  destruct H as [Hf Hb _ _ _]. cbn in Hf, Hb. rewrite Hin, cut_frames in Hf, Hb by done. done.
Qed.

(** A malformed header on the stream is fatal but silent: the data handler throws
    the frame error, and from then on more data neither delivers a frame nor rejects
    a pending receive, and the transport is not marked failed. *)
Theorem malformed_header_stalls t e chunk :
  (HEADER_LEN ≤ length (buffer t))%nat →
  decodeHeader (buffer t) DEFAULT_MAX_PAYLOAD = Throw e →
  append t chunk =
  (mkTransport (buffer t ++ chunk) (ready t) (waiters t) (failure t), [], Some e).
Proof.
  intros Hlen Hd. rewrite append_cut, cut_eq.
  rewrite bool_decide_true by (rewrite length_app; lia). rewrite decodeHeader_app, Hd by done.
  pose proof (distribute_nil (mkTransport (buffer t ++ chunk) (ready t) (waiters t) (failure t))) as E.
  by f_equal.
Qed.

(** A failed transport sends nothing and keeps its first error. *)
Lemma failed_send t e frame : failure t = Some e → send t frame = Throw e.
Proof. intros H. unfold send. by rewrite H. Qed.

(** ** Witnesses *)

Definition sample_out (p : bytes) : OutboundFrame := mkOutbound FrameType.QuerySubmit p None None None.
Definition sample_stream : bytes := concat (map bytes_of [sample_out [1; 2]; sample_out []]).
Definition sample_inputs : list input :=
  [Recv 0; Data (take 5 sample_stream); Data (drop 5 sample_stream); StreamEnd; Recv 1; Recv 2].

Lemma transport_refines_fifo_witness :
  resolved_frames (run transport_init sample_inputs).2 ++ ready (run transport_init sample_inputs).1
    = (cut (received_bytes sample_inputs)).1.1 ∧
  buffer (run transport_init sample_inputs).1 = (cut (received_bytes sample_inputs)).1.2 ∧
  settled (run transport_init sample_inputs).2 ++ waiters (run transport_init sample_inputs).1
    = recv_calls sample_inputs ∧
  (waiters (run transport_init sample_inputs).1 ≠ [] →
   ready (run transport_init sample_inputs).1 = [] ∧ failure (run transport_init sample_inputs).1 = None).
Proof. apply transport_refines_fifo. by destruct (run transport_init sample_inputs). Defined.

Lemma frames_survive_chunking_witness :
  resolved_frames (run transport_init sample_inputs).2 ++ ready (run transport_init sample_inputs).1
    = map frame_of [sample_out [1; 2]; sample_out []] ∧
  buffer (run transport_init sample_inputs).1 = [].
Proof.
  apply (frames_survive_chunking _ sample_inputs).
  - by apply (bool_decide_unpack _).
  - by vm_compute.
  - by destruct (run transport_init sample_inputs).
Defined.

(** Sixteen bytes of [0xff] are no header. *)
Definition bad_transport : transport := mkTransport (replicate 16 255) [] [0%nat] None.

Lemma malformed_header_stalls_witness :
  append bad_transport [1] =
  (mkTransport (replicate 16 255 ++ [1]) [] [0%nat] None, [], Some (FrameError reserved_nonzero)).
Proof. apply (malformed_header_stalls bad_transport); [cbv; lia|reflexivity]. Defined.
