(* ===== verification/JsValue.v ===== *)
(** * Dynamic JavaScript operations on decoded and request values

    The wire packages treat requests and replies as plain objects: types are erased
    at run time, so a field may be absent, [null] or of another type than declared.
    These are the operations [payload.ts], [handshake.ts] and [wire-client.ts] apply
    to such values: property reads, the [in] operator, the two absence tests
    ([!= null] and [!== undefined]), object building, array mapping and spreading. *)
From S2P Require Import Prelude Bytes Float64 Cbor.
Open Scope Z_scope.

(** ToNumber on strings, arrays and objects, which no declared type reaches: a
    parameter of the definitions that coerce. *)
Class ToNumberOther := to_number_other : value → Z.

Definition is_nullish (v : value) : bool :=
  match v with VNull | VUndefined => true | _ => false end.
Definition is_null (v : value) : bool :=
  match v with VNull => true | _ => false end.
Definition is_undefined (v : value) : bool :=
  match v with VUndefined => true | _ => false end.

(** [v === 's'] *)
Definition is_str (s : string) (v : value) : bool :=
  match v with VStr t => bool_decide (t = s) | _ => false end.

(** [v.k] on own properties; the names the sources read are not those of a built-in
    prototype. *)
Definition get (v : value) (k : string) : result value :=
  match v with
  | VNull => Throw (TypeError ("Cannot read properties of null (reading '" +:+ k +:+ "')"))
  | VUndefined => Throw (TypeError ("Cannot read properties of undefined (reading '" +:+ k +:+ "')"))
  | VObj props => Ok (default VUndefined (obj_get props k))
  | _ => Ok VUndefined
  end.

(** [k in v] *)
Definition has (k : string) (v : value) : result bool :=
  match v with
  | VObj props => Ok (match obj_get props k with Some _ => true | None => false end)
  | VArr _ | VBytes _ | VCborFloat _ | VFunction => Ok false
  | _ => Throw (TypeError ("Cannot use 'in' operator to search for '" +:+ k +:+ "'"))
  end.

(** [typeof v === 'object'] *)
Definition typeof_object (v : value) : bool :=
  match v with VNull | VObj _ | VArr _ | VBytes _ | VCborFloat _ => true | _ => false end.

(** [v.map(f)] *)
Definition js_map (f : value → result value) (v : value) : result value :=
  match v with
  | VArr items => r ← mapM f items; Ok (VArr r)
  | VNull | VUndefined => Throw (TypeError "Cannot read properties of undefined (reading 'map')")
  | _ => Throw (TypeError "map is not a function")
  end.

(** The code points of a string, by the UTF-8 lead bytes. *)
Fixpoint js_chars (s : string) : list string :=
  match s with
  | EmptyString => []
  | String c s' =>
      match js_chars s' with
      | w :: rest =>
          match w with
          | String d _ => if utf8_cont (byte_of_ascii d) then String c w :: rest
                          else String c "" :: w :: rest
          | EmptyString => String c "" :: rest
          end
      | [] => [String c ""]
      end
  end.

(** [[...v]] *)
Definition js_spread (v : value) : result value :=
  match v with
  | VArr items => Ok (VArr items)
  | VBytes bs => Ok (VArr (map vint bs))
  | VStr s => Ok (VArr (map VStr (js_chars s)))
  | _ => Throw (TypeError "value is not iterable")
  end.

Section coercions.
Context `{ToNumberOther}.

(** ToNumber, as 64 bits; a bigint does not convert. *)
Definition js_ToNumber (v : value) : result Z :=
  match v with
  | VNum x => Ok x
  | VUndefined => Ok f64_NaN
  | VNull => Ok 0
  | VBool b => Ok (f64_ofZ (if b then 1 else 0))
  | VBigInt _ => Throw (TypeError "Cannot convert a BigInt value to a number")
  | _ => Ok (to_number_other v)
  end.

Definition f64_positive (x : Z) : bool := (0 <? x) && (x <=? f64_inf false).

(** [v > 0] *)
Definition js_gt0 (v : value) : bool :=
  match v with
  | VBigInt z => 0 <? z
  | _ => match js_ToNumber v with Ok x => f64_positive x | Throw _ => false end
  end.

(** [v.length > 0] *)
Definition js_nonempty (v : value) : result bool :=
  match v with
  | VArr items => Ok (negb (bool_decide (length items = 0%nat)))
  | VBytes bs => Ok (negb (bool_decide (length bs = 0%nat)))
  | VStr s => Ok (negb (bool_decide (s = "")))
  | VFunction => Ok false
  | _ => n ← get v "length"; Ok (js_gt0 n)
  end.

(** ToInt32 of a number, before the reduction modulo 2^32 *)
Definition f64_trunc (x : Z) : Z :=
  let e := f64_expo x - 1075 in
  let m := 2 ^ 52 + f64_frac x in
  let a := if (f64_expo x =? 2047) || (f64_expo x =? 0) then 0
           else if 0 <=? e then m * 2 ^ e else m / 2 ^ (- e) in
  if f64_sign x then - a else a.

(** [v & 0xff] *)
Definition js_and_ff (v : value) : result Z :=
  match v with
  | VBigInt _ => Throw (TypeError "Cannot mix BigInt and other types, use explicit conversions")
  | _ => x ← js_ToNumber v; Ok (Z.land (f64_trunc x) 0xff)
  end.

(** [new CborFloat(v)], whose value [setFloat64] converts when it is written *)
Definition cbor_float (v : value) : result value := x ← js_ToNumber v; Ok (VCborFloat (f64_canon x)).
End coercions.

(** ** Building an object field by field *)

Abbreviation props := (list (string * value)).

(** The literal [{ k: request.k, ... }]. *)
Fixpoint fields (request : value) (ks : list string) : result props :=
  match ks with
  | [] => Ok []
  | k :: ks => v ← get request k; rest ← fields request ks; Ok ((k, v) :: rest)
  end.

(** [out[k] = request.k] *)
Definition set_field (out : props) (request : value) (k : string) : result props :=
  v ← get request k; Ok (obj_set out k v).

(** [if (request.k != null) out[k] = request.k] *)
Definition set_nonnull (out : props) (request : value) (k : string) : result props :=
  v ← get request k; Ok (if is_nullish v then out else obj_set out k v).

(** [if (request.k !== undefined) out[k] = request.k] *)
Definition set_defined (out : props) (request : value) (k : string) : result props :=
  v ← get request k; Ok (if is_undefined v then out else obj_set out k v).

(** [if (request.k !== undefined && request.k.length > 0) out[k] = f(request.k)] *)
Definition set_nonempty `{ToNumberOther} (out : props) (request : value) (k : string)
    (f : value → result value) : result props :=
  v ← get request k;
  if is_undefined v then Ok out
  else ne ← js_nonempty v; if (ne : bool) then w ← f v; Ok (obj_set out k w) else Ok out.

(** [number.toString(16)] for a 16-bit value *)
Definition hex_digit (d : Z) : string :=
  String (Ascii.ascii_of_N (Z.to_N (if d <? 10 then 48 + d else 87 + d))) "".
Fixpoint hex_loop (fuel : nat) (n : Z) : string :=
  match fuel with
  | O => ""
  | S fuel => (if n / 16 =? 0 then "" else hex_loop fuel (n / 16)) +:+ hex_digit (n mod 16)
  end.
Definition to_hex16 (n : Z) : string := hex_loop 4 n.

(** ** Narrowing untrusted and engine values *)

(** The first of [known] whose tag is [v]. *)
Definition narrow {A} (tag : A → string) (known : list A) (v : value) : option A :=
  List.find (λ k, is_str (tag k) v) known.

(** [known.includes(v) ? v : null] for string tags *)
Definition toTag : list string → value → option string := narrow (λ s, s).

(** The items [for (const x of v)] visits. *)
Definition js_iterate (v : value) : result (list value) :=
  w ← js_spread v; match w with VArr items => Ok items | _ => Ok [] end.

(** The loops that project every item and give up at the first that fails. *)
Fixpoint project_all {A} (f : value → result (option A)) (items : list value) : result (option (list A)) :=
  match items with
  | [] => Ok (Some [])
  | x :: items =>
      y ← f x;
      match y with
      | None => Ok None
      | Some a => rest ← project_all f items; Ok (option_map (cons a) rest)
      end
  end.

Lemma is_str_iff s v : is_str s v = true ↔ v = VStr s.
Proof.
  destruct v; cbn; rewrite ?bool_decide_eq_true; naive_solver.
Qed.

Lemma narrow_iff {A} (tag : A → string) known :
  (∀ a, narrow tag known (VStr (tag a)) = Some a) →
  ∀ v a, narrow tag known v = Some a ↔ v = VStr (tag a).
Proof.
  intros Hall v a. split; [|by intros ->]. unfold narrow. intros [_ H]%find_some.
  by apply is_str_iff in H.
Qed.

Lemma toTag_iff known v s : toTag known v = Some s ↔ v = VStr s ∧ s ∈ known.
Proof.
  unfold toTag, narrow. split.
  - intros [Hin Hs]%find_some. by apply is_str_iff in Hs as ->; apply list_elem_of_In in Hin.
  - intros [-> Hin]. apply list_elem_of_In in Hin. induction known as [|k known IH]; [done|].
    cbn. case_bool_decide as Hk; [by subst|]. destruct Hin as [->|Hin]; [done|auto].
Qed.

Lemma project_all_Some {A} (f : value → result (option A)) items l :
  project_all f items = Ok (Some l) ↔ Forall2 (λ x a, f x = Ok (Some a)) items l.
Proof.
  revert l. induction items as [|x items IH]; intros l; cbn.
  - split; [by intros [= <-]|by inversion 1].
  - split.
    + intros ([a|] & Hx & E)%bind_Ok; [|done].
      apply bind_Ok in E as ([rest|] & Hr & [= <-]). constructor; [done|]. by apply IH.
    + inversion 1 as [|? a ? rest Hx Hr]; subst. rewrite Hx. cbn. apply IH in Hr. by rewrite Hr.
Qed.

Lemma project_all_iff {A} (f : value → result (option A)) (P : value → A → Prop) items l :
  (∀ x a, f x = Ok (Some a) ↔ P x a) → project_all f items = Ok (Some l) ↔ Forall2 P items l.
Proof.
  intros HP. rewrite project_all_Some. split; apply Forall2_impl; intros x a; apply HP.
Qed.

(** A projection of all items fails as a whole exactly when an item fails and those
    before it do not throw. *)
Lemma project_all_None {A} (f : value → result (option A)) items :
  project_all f items = Ok None ↔
  ∃ pre x post l, items = pre ++ x :: post ∧ project_all f pre = Ok (Some l) ∧ f x = Ok None.
Proof.
  induction items as [|x items IH]; cbn.
  - split; [done|]. intros (pre & x & post & l & E & _). by destruct pre.
  - split.
    + intros ([a|] & Hx & E)%bind_Ok.
      * apply bind_Ok in E as ([rest|] & Hr & E); [done|]. apply IH in Hr as (pre & y & post & l & -> & Hp & Hy).
        exists (x :: pre), y, post, (a :: l). cbn. by rewrite Hx, Hp.
      * by exists [], x, items, [].
    + intros (pre & y & post & l & E & Hp & Hy).
      destruct pre as [|z pre]; injection E as -> ->; cbn in Hp |- *; [by rewrite Hy|].
      apply bind_Ok in Hp as ([a|] & Hz & E); [|done]. apply bind_Ok in E as ([rest|] & Hr & E); [|done].
      rewrite Hz. cbn. assert (project_all f (pre ++ y :: post) = Ok None) as -> by (apply IH; naive_solver).
      done.
Qed.

Lemma get_object v k : typeof_object v = true → is_null v = false → ∃ w, get v k = Ok w.
Proof. destruct v; cbn; eauto; done. Qed.

Lemma project_all_total {A} (f : value → result (option A)) items :
  (∀ x, ∃ o, f x = Ok o) → ∃ o, project_all f items = Ok o.
Proof.
  intros Hf. induction items as [|x items [o IH]]; cbn; [eauto|].
  destruct (Hf x) as [[a|] ->]; cbn; [rewrite IH|]; cbn; eauto.
Qed.
