(* ===== verification/Payload.v ===== *)
(** * Request payloads ([packages/wire/src/payload.ts])

    One definition per encoder of the source, over dynamic request values
    ([JsValue]): which fields go into the CBOR map, in which order, and which are
    left out when absent.  [encodeWireRequest] tries the request's tags in the order
    of the source's tests. *)
From S2P Require Import Prelude Bytes Float64 Cbor JsValue.
Open Scope Z_scope.

Section payload.
Context `{ToNumberOther}.

Definition wireValueToCbor (v : value) : result value :=
  isFloat ← has "Float" v;
  if (isFloat : bool) then x ← get v "Float"; y ← cbor_float x; Ok (VObj [("Float", y)])
  else
    isVector ← has "Vector" v;
    if (isVector : bool) then
      l ← get v "Vector"; ys ← js_map cbor_float l; Ok (VObj [("Vector", ys)])
    else Ok v.

Definition applyOperator (out : props) (operator : value) : result props :=
  if is_nullish operator then Ok out
  else
    delegation ← fields operator ["principal"; "tenant"];
    delegation ← set_nonnull delegation operator "settings_tier";
    Ok (obj_set out "operator" (VObj delegation)).

(** [applyOperator(out, request.operator); return out;] *)
Definition withOperator (out : props) (request : value) : result value :=
  operator ← get request "operator"; out ← applyOperator out operator; Ok (VObj out).

(** The encoders that only copy fields and end with the operator. *)
Definition copyToCbor (ks : list string) (request : value) : result value :=
  out ← fields request ks; withOperator out request.

(** Object literals that copy fields. *)
Definition literalToCbor (ks : list string) (v : value) : result value :=
  out ← fields v ks; Ok (VObj out).

(** [([key, value]) => [key, wireValueToCbor(value)]]: destructuring reads the first
    two elements of an iterable. *)
Definition paramToCbor (p : value) : result value :=
  p' ← js_spread p;
  match p' with
  | VArr items =>
      w ← wireValueToCbor (default VUndefined (items !! 1%nat));
      Ok (VArr [default VUndefined (items !! 0%nat); w])
  | _ => Ok VUndefined
  end.

Definition submitToCbor (submit : value) : result value :=
  out ← fields submit ["request_id"; "text"];
  params ← get submit "params"; params' ← js_map paramToCbor params;
  withOperator (obj_set out "params" params') submit.

Definition listAgentsToCbor : value → result value := copyToCbor ["request_id"].

Definition directoryReadToCbor : value → result value := copyToCbor ["request_id"].

Definition groupWriteToCbor : value → result value := copyToCbor ["request_id"; "name"; "description"].

Definition principalSpecToCbor (spec : value) : result value :=
  out ← fields spec ["username"; "subject_type"];
  out ← set_nonnull out spec "email";
  out ← set_nonnull out spec "org";
  Ok (VObj out).

Definition principalWriteToCbor (request : value) : result value :=
  out ← fields request ["request_id"];
  spec ← get request "spec"; spec' ← principalSpecToCbor spec;
  withOperator (obj_set out "spec" spec') request.

Definition principalSetStatusToCbor : value → result value := copyToCbor ["request_id"; "username"; "status"].

Definition groupSetMembersToCbor : value → result value := copyToCbor ["request_id"; "name"; "members"].

Definition objectListToCbor : value → result value := copyToCbor ["request_id"].

Definition idamConnectorsToCbor : value → result value := copyToCbor ["request_id"].

Definition idamSyncToCbor : value → result value := copyToCbor ["request_id"; "provider"].

Definition idamConfigureToCbor : value → result value := copyToCbor ["request_id"; "provider"; "enabled"; "poll_interval_secs"; "full_sync_cadence_hours"].

Definition idamConnectToCbor : value → result value := copyToCbor ["request_id"; "provider"; "domain"; "client_id"; "audience"; "client_secret_ref"].

Definition objectDetailToCbor : value → result value := copyToCbor ["request_id"; "name"].

Definition objectSpecToCbor (spec : value) : result value :=
  out ← fields spec ["name"; "kind"; "selector_kind"; "selector_value"];
  out ← set_nonempty out spec "attributes" Ok;
  out ← set_field out spec "description";
  out ← set_nonempty out spec "tags" Ok;
  out ← set_field out spec "lifecycle";
  Ok (VObj out).

Definition objectWriteToCbor (request : value) : result value :=
  out ← fields request ["request_id"];
  spec ← get request "spec"; spec' ← objectSpecToCbor spec;
  withOperator (obj_set out "spec" spec') request.

Definition objectDeleteToCbor : value → result value := copyToCbor ["request_id"; "name"].

Definition entityDecisionsToCbor : value → result value := copyToCbor ["request_id"; "entity_type"; "entity_value"; "limit"].

Definition entityConnectionsToCbor : value → result value := copyToCbor ["request_id"; "subject_kind"; "subject_id"; "limit"].

Definition connectivityQueryToCbor (request : value) : result value :=
  out ← fields request ["request_id"];
  out ← set_nonnull out request "since";
  out ← set_nonnull out request "until";
  out ← set_field out request "limit";
  withOperator out request.

Definition connectivityMembersToCbor : value → result value := copyToCbor ["request_id"; "class"; "limit"].

Definition logQueryToCbor (request : value) : result value :=
  out ← fields request ["request_id"];
  out ← set_nonnull out request "since";
  out ← set_nonnull out request "until";
  out ← set_nonnull out request "technique";
  out ← set_nonnull out request "tactic";
  out ← set_nonnull out request "rule_id";
  out ← set_nonnull out request "confidence";
  out ← set_nonnull out request "action";
  out ← set_nonnull out request "search";
  out ← set_field out request "limit";
  offset ← get request "offset";
  let out := if negb (is_nullish offset) && js_gt0 offset then obj_set out "offset" offset else out in
  withOperator out request.

Definition logExplainToCbor : value → result value := copyToCbor ["request_id"; "decision_id"].

Definition logExportToCbor (request : value) : result value :=
  operator ← get request "operator"; out ← applyOperator [] operator;
  query ← get request "query"; query' ← logQueryToCbor query;
  out ← set_field (obj_set out "query" query') request "command_id";
  out ← set_field out request "issued_at";
  Ok (VObj out).

Definition containToCbor (request : value) : result value :=
  operator ← get request "operator"; out ← applyOperator [] operator;
  out ← set_field out request "request";
  Ok (VObj out).

Definition vtzSpecToCbor (spec : value) : result value :=
  out ← fields spec ["name"; "description"; "zone_type"];
  postures ← get spec "own_postures";
  postures' ← js_map (literalToCbor ["domain"; "posture"; "floor"]) postures;
  out' ← fields spec ["micro_segmentation"; "telemetry"; "reauth_interval_hours"; "lifecycle"];
  Ok (VObj (out ++ ("own_postures", postures') :: out')).

Definition vtzTreeToCbor : value → result value := copyToCbor ["request_id"; "limit"].

Definition vtzDetailToCbor : value → result value := copyToCbor ["request_id"; "vtz_id"].

Definition bundleConvergenceToCbor : value → result value := literalToCbor ["request_id"; "vtz_id"].

Definition bundleCommitToCbor : value → result value := copyToCbor ["request_id"; "bundle"].

Definition vtzSpecRequestToCbor (request : value) : result value :=
  out ← fields request ["request_id"];
  spec ← get request "spec"; spec' ← vtzSpecToCbor spec;
  withOperator (obj_set out "spec" spec') request.

Definition vtzRescopeToCbor : value → result value := copyToCbor ["request_id"; "vtz_id"; "new_name"].

Definition vtzDeleteToCbor : value → result value := copyToCbor ["request_id"; "vtz_id"].

Definition policyListToCbor : value → result value := copyToCbor ["request_id"].

Definition detectSummaryToCbor : value → result value := copyToCbor ["request_id"].

Definition socIncidentListToCbor (request : value) : result value :=
  out ← fields request ["request_id"; "limit"];
  operator ← get request "operator"; out ← applyOperator out operator;
  out ← set_nonnull out request "cursor";
  Ok (VObj out).

Definition socIncidentDetailToCbor : value → result value := copyToCbor ["request_id"; "incident"].

Definition socPlanApproveToCbor : value → result value := copyToCbor ["request_id"; "incident"; "at_revision"].

Definition socDispositionToCbor (request : value) : result value :=
  out ← fields request ["request_id"; "incident"; "disposition"];
  out ← set_defined out request "justification";
  out ← set_defined out request "authorized_by";
  out ← set_defined out request "action_taken";
  out ← set_defined out request "blocking_control";
  out ← set_defined out request "accepting_party";
  out ← set_defined out request "expiry_seconds";
  out ← set_defined out request "predecessor";
  withOperator out request.

(** [step.action ?? ''] *)
Definition planStepToCbor (step : value) : result value :=
  title ← get step "title"; action ← get step "action";
  Ok (VObj [("title", title); ("action", if is_nullish action then VStr "" else action)]).

Definition socPlanModifyToCbor (request : value) : result value :=
  out ← fields request ["request_id"; "incident"];
  steps ← get request "steps"; steps' ← js_map planStepToCbor steps;
  withOperator (obj_set out "steps" steps') request.

Definition socNarrativeToCbor : value → result value := copyToCbor ["request_id"; "incident"].

Definition socTelemetryToCbor : value → result value := copyToCbor ["request_id"; "incident"].

Definition socAuditToCbor : value → result value := copyToCbor ["request_id"; "incident"].

Definition socIncidentActToCbor (request : value) : result value :=
  out ← fields request ["request_id"; "incident"; "act"];
  out ← set_defined out request "assignee";
  out ← set_defined out request "note";
  withOperator out request.

Definition socNotesToCbor : value → result value := copyToCbor ["request_id"; "incident"].

Definition socImpactToCbor : value → result value := copyToCbor ["request_id"; "incident"].

Definition socReportToCbor : value → result value := copyToCbor ["request_id"; "incident"].

Definition socUebaToCbor : value → result value := copyToCbor ["request_id"; "incident"].

Definition socWeeklyToCbor (request : value) : result value :=
  out ← fields request ["request_id"; "weeks"];
  out ← set_nonnull out request "until_seconds";
  withOperator out request.

Definition settingsReadToCbor (request : value) : result value :=
  out ← fields request ["request_id"];
  out ← set_nonnull out request "surface";
  withOperator out request.

(** [{ ..., k: [...request.k] }] *)
Definition set_spread (out : props) (request : value) (k : string) : result props :=
  v ← get request k; w ← js_spread v; Ok (obj_set out k w).

Definition settingsReportsToCbor (request : value) : result value :=
  out ← fields request ["request_id"];
  out ← set_spread out request "reports";
  withOperator out request.

Definition modelAccessReadToCbor : value → result value := copyToCbor ["request_id"; "from_unix_ms"; "to_unix_ms"].

Definition agentGrantSetToCbor (request : value) : result value :=
  out ← fields request ["request_id"; "agent"];
  out ← set_spread out request "models";
  out ← set_spread out request "tools";
  out ← set_spread out request "expected_models";
  out ← set_spread out request "expected_tools";
  withOperator out request.

Definition settingsApprovalsToCbor : value → result value := copyToCbor ["request_id"].

Definition settingsApproveToCbor : value → result value := copyToCbor ["request_id"; "proposal"].

Definition settingsHistoryToCbor (request : value) : result value :=
  out ← fields request ["request_id"];
  limit ← get request "limit";
  withOperator (obj_set out "limit" (if is_nullish limit then vint 0 else limit)) request.

Definition settingsRollbackToCbor : value → result value := copyToCbor ["request_id"; "to"].

(** [if (p.k != null) sections[k] = f(p.k)] *)
Definition section_field (sections : props) (p : value) (k : string)
    (f : value → result value) : result props :=
  v ← get p k; if is_nullish v then Ok sections else w ← f v; Ok (obj_set sections k w).

Definition sectionsToCbor (p : value) : result value :=
  sections ← section_field [] p "dual_control" js_spread;
  sections ← section_field sections p "egress_destinations" (js_map (literalToCbor ["id"; "ceiling"]));
  sections ← section_field sections p "lug_exposure"
    (literalToCbor ["enabled"; "resolution_enabled"; "max_accounts_per_namespace";
      "max_groups_per_namespace"; "max_sessions_per_device"; "last_seen_bucket_hours";
      "binding_confirm_threshold_permille"; "snapshot_cadence_hours"]);
  sections ← section_field sections p "disabled_decoder_families" js_spread;
  sections ← section_field sections p "source_format_map" (js_map (literalToCbor ["source"; "format"]));
  sections ← section_field sections p "soc_narrative_model_ref" Ok;
  Ok (VObj sections).

Definition settingsCommitToCbor (request : value) : result value :=
  out ← fields request ["request_id"];
  edits ← get request "edits"; edits' ← js_map (literalToCbor ["key"; "value"]) edits;
  let out := obj_set out "edits" edits' in
  out ← section_field out request "sections" sectionsToCbor;
  withOperator out request.

Definition socSettingsReadToCbor : value → result value := copyToCbor ["request_id"].

Definition socSettingsCommitToCbor (request : value) : result value :=
  out ← fields request ["request_id"];
  out ← section_field out request "tiers" (literalToCbor ["p_low_milli"; "p_high_milli"]);
  out ← section_field out request "siem_writeback"
    (literalToCbor ["enabled"; "vendor"; "host"; "stream"; "case_url_base"; "ceiling"]);
  withOperator out request.

Definition socCognitionRunToCbor : value → result value := copyToCbor ["request_id"; "incident"].

Definition policyDetailToCbor : value → result value := copyToCbor ["request_id"; "vtz"; "id"].

Definition policyEffectiveToCbor : value → result value := copyToCbor ["request_id"; "vtz"].

Definition policyRuleToCbor : value → result value :=
  literalToCbor ["source_kind"; "source_selector_kind"; "source_selector_value"; "destination_kind";
    "destination_selector_kind"; "destination_selector_value"; "action"].

Definition scopeMemberToCbor (member : value) : result value :=
  out ← fields member ["endpoint_cn"];
  out ← set_nonnull out member "agent";
  Ok (VObj out).

Definition domainPostureToCbor : value → result value := literalToCbor ["domain"; "posture"; "floor"].

Definition policySpecToCbor (spec : value) : result value :=
  out ← fields spec ["vtz"; "name"; "description"];
  rules ← get spec "rules";
  rules' ← js_map policyRuleToCbor (if is_nullish rules then VArr [] else rules);
  let out := obj_set out "rules" rules' in
  out ← set_nonempty out spec "protocols" Ok;
  out ← set_nonempty out spec "ports" Ok;
  out ← set_nonempty out spec "schedule_days" Ok;
  out ← set_nonnull out spec "schedule_start_minute";
  out ← set_nonnull out spec "schedule_end_minute";
  out ← set_nonnull out spec "active_from";
  out ← set_nonnull out spec "active_until";
  out ← set_nonempty out spec "geo" Ok;
  out ← set_nonempty out spec "restriction_tags" Ok;
  out ← set_field out spec "logging";
  out ← set_nonempty out spec "applied_to" (js_map scopeMemberToCbor);
  out ← set_field out spec "max_classification";
  out ← set_nonempty out spec "default_postures" (js_map domainPostureToCbor);
  Ok (VObj out).

Definition policyCreateToCbor (request : value) : result value :=
  out ← fields request ["request_id"];
  spec ← get request "spec"; spec' ← policySpecToCbor spec;
  withOperator (obj_set out "spec" spec') request.

Definition policyEditToCbor (request : value) : result value :=
  out ← fields request ["request_id"; "id"];
  spec ← get request "spec"; spec' ← policySpecToCbor spec;
  withOperator (obj_set out "spec" spec') request.

Definition policyPublishToCbor : value → result value := copyToCbor ["request_id"; "vtz"; "id"; "version"].

Definition policyDeleteToCbor : value → result value := copyToCbor ["request_id"; "vtz"; "id"].

(** The tests of [encodeWireRequest], in order: the tag and the encoder of its body. *)
Definition WIRE_ENCODERS : list (string * (value → result value)) :=
  [("QuerySubmit", submitToCbor);
   ("SubmitMemoryWrite", submitToCbor);
   ("ListAgents", listAgentsToCbor);
   ("ListPrincipals", directoryReadToCbor);
   ("ListGroups", directoryReadToCbor);
   ("ObjectList", objectListToCbor);
   ("IdamConnectors", idamConnectorsToCbor);
   ("IdamSync", idamSyncToCbor);
   ("IdamConnect", idamConnectToCbor);
   ("IdamConfigure", idamConfigureToCbor);
   ("ObjectDetail", objectDetailToCbor);
   ("ObjectCreate", objectWriteToCbor);
   ("ObjectEdit", objectWriteToCbor);
   ("ObjectDelete", objectDeleteToCbor);
   ("GroupCreate", groupWriteToCbor);
   ("GroupEdit", groupWriteToCbor);
   ("GroupSetMembers", groupSetMembersToCbor);
   ("PrincipalCreate", principalWriteToCbor);
   ("PrincipalEdit", principalWriteToCbor);
   ("PrincipalSetStatus", principalSetStatusToCbor);
   ("EntityDecisions", entityDecisionsToCbor);
   ("EntityConnections", entityConnectionsToCbor);
   ("ConnectivityGraph", connectivityQueryToCbor);
   ("ConnectivityMembers", connectivityMembersToCbor);
   ("LogQuery", logQueryToCbor);
   ("LogExplain", logExplainToCbor);
   ("LogExport", logExportToCbor);
   ("Contain", containToCbor);
   ("VtzTree", vtzTreeToCbor);
   ("VtzDetail", vtzDetailToCbor);
   ("VtzCreate", vtzSpecRequestToCbor);
   ("VtzEdit", vtzSpecRequestToCbor);
   ("VtzRescope", vtzRescopeToCbor);
   ("VtzDelete", vtzDeleteToCbor);
   ("BundleConvergence", bundleConvergenceToCbor);
   ("BundleCommit", bundleCommitToCbor);
   ("PolicyListByZone", policyListToCbor);
   ("PolicyDetail", policyDetailToCbor);
   ("PolicyEffective", policyEffectiveToCbor);
   ("PolicyCreate", policyCreateToCbor);
   ("PolicyEdit", policyEditToCbor);
   ("PolicyPublish", policyPublishToCbor);
   ("PolicyDelete", policyDeleteToCbor);
   ("DetectSummary", detectSummaryToCbor);
   ("SocIncidentList", socIncidentListToCbor);
   ("SocIncidentDetail", socIncidentDetailToCbor);
   ("SocNarrative", socNarrativeToCbor);
   ("SocTelemetry", socTelemetryToCbor);
   ("SocAudit", socAuditToCbor);
   ("SocImpact", socImpactToCbor);
   ("SocReport", socReportToCbor);
   ("SocUeba", socUebaToCbor);
   ("SocWeekly", socWeeklyToCbor);
   ("SettingsCommit", settingsCommitToCbor);
   ("SettingsRead", settingsReadToCbor);
   ("SettingsPropose", settingsCommitToCbor);
   ("SettingsApprovals", settingsApprovalsToCbor);
   ("SettingsApprove", settingsApproveToCbor);
   ("SettingsHistory", settingsHistoryToCbor);
   ("SettingsRollback", settingsRollbackToCbor);
   ("SettingsReports", settingsReportsToCbor);
   ("ModelAccessRead", modelAccessReadToCbor);
   ("AgentGrantSet", agentGrantSetToCbor);
   ("SocSettingsRead", socSettingsReadToCbor);
   ("SocSettingsCommit", socSettingsCommitToCbor);
   ("SocCognitionRun", socCognitionRunToCbor);
   ("SocPlanApprove", socPlanApproveToCbor);
   ("SocPlanModify", socPlanModifyToCbor);
   ("SocDisposition", socDispositionToCbor);
   ("SocIncidentAct", socIncidentActToCbor);
   ("SocNotes", socNotesToCbor);
   ("CursorFetch", literalToCbor ["handle"]);
   ("CursorClose", literalToCbor ["handle"])].

Definition encode_unsupported : exn :=
  Error "encodeWireRequest: this WireRequest variant is not yet supported (write path, F0.3b follow-on)".

(** The chain of [if (tag in request) return encode({ tag: toCbor(request[tag]) })]. *)
Fixpoint encodeTagged (table : list (string * (value → result value))) (request : value) : result bytes :=
  match table with
  | [] => Throw encode_unsupported
  | (tag, toCbor) :: table =>
      present ← has tag request;
      if (present : bool) then
        body ← get request tag; cbor ← toCbor body; encode (VObj [(tag, cbor)])
      else encodeTagged table request
  end.

Definition encodeWireRequest (request : value) : result bytes :=
  if is_str "TxnBegin" request then encode (VStr "TxnBegin")
  else encodeTagged WIRE_ENCODERS request.
End payload.

Definition decodeWireReply `{NumberToString} (payload : bytes) : result value := decode payload.
