(* ===== verification/Proto.v ===== *)
(** * Handshake and dispatch ([packages/wire/src/handshake.ts], [dispatch.ts])

    The protocol code is written against [FrameTransport]; here it is a tree of sends
    and receives ([proc]), run against the answers a transport gives ([exec]): each
    awaited send resolves or rejects, each awaited receive yields a frame or
    rejects. *)
From S2P Require Import Prelude Bytes Float64 Cbor Frame JsValue Payload.
Open Scope Z_scope.

(** ** Protocol code *)

Inductive proc (A : Type) :=
  | Ret (a : A)
  | Raise (e : exn)
  | Send (frame : OutboundFrame) (k : proc A)
  | Recv (k : WireFrame → proc A).
Arguments Ret {A} a.
Arguments Raise {A} e.
Arguments Send {A} frame k.
Arguments Recv {A} k.

#[global] Instance proc_ret : MRet proc := λ A a, Ret a.
#[global] Instance proc_bind : MBind proc := λ A B f,
  fix go m := match m with
              | Ret a => f a
              | Raise e => Raise e
              | Send o k => Send o (go k)
              | Recv k => Recv (λ w, go (k w))
              end.
Definition proc_lift {A} (r : result A) : proc A :=
  match r with Ok a => Ret a | Throw e => Raise e end.

(** How the transport answers one await. *)
Inductive answer :=
  | Sent
  | Received (frame : WireFrame)
  | Rejected (e : exn).

(** The outcome: settled, or still waiting for an answer. *)
Inductive status (A : Type) :=
  | Done (r : result A)
  | Waiting.
Arguments Done {A} r.
Arguments Waiting {A}.

(** [exec p answers]: the frames handed to [send], and how [p] ended. *)
Fixpoint exec {A} (p : proc A) (answers : list answer) : list OutboundFrame * status A :=
  match p with
  | Ret a => ([], Done (Ok a))
  | Raise e => ([], Done (Throw e))
  | Send o k =>
      match answers with
      | Sent :: answers => let '(os, r) := exec k answers in (o :: os, r)
      | Rejected e :: _ => ([o], Done (Throw e))
      | _ => ([o], Waiting)
      end
  | Recv k =>
      match answers with
      | Received w :: answers => exec (k w) answers
      | Rejected e :: _ => ([], Done (Throw e))
      | _ => ([], Waiting)
      end
  end.

(** ** The handshake *)

Record ClientHello := mkHello { major : Z; maxMinor : Z; required : list string; optional : list string }.
Definition DEFAULT_HELLO : ClientHello := mkHello 1 0 [] [].

(** Decoded fields are unchecked casts: they stay values. *)
Record Negotiated := mkNegotiated { version_major : value; version_minor : value; enabled : value }.
Record WireReady := mkReady {
  ready_major : value; ready_minor : value; ready_enabled : value; leaseTtlSecs : value }.

Definition encodeClientHello (hello : ClientHello) : result bytes :=
  encode (VObj [("major", vint (major hello)); ("max_minor", vint (maxMinor hello));
                ("required", VArr (map VStr (required hello)));
                ("optional", VArr (map VStr (optional hello)))]).

Section protocol.
Context `{NumberToString} `{ToNumberOther}.

Definition decodeNegotiated (payload : bytes) : result Negotiated :=
  raw ← decode payload;
  version ← get raw "version"; major ← get version "major";
  version' ← get raw "version"; minor ← get version' "minor";
  enabled ← get raw "enabled";
  Ok (mkNegotiated major minor enabled).

(** [packVersion] on decoded fields *)
Definition packVersionValue (major minor : value) : result Z :=
  a ← js_and_ff major; b ← js_and_ff minor; Ok (Z.lor (Z.shiftl a 8) b).

Definition unexpected (what : string) (frame : WireFrame) : exn :=
  WireProtocolError (what +:+ to_hex16 (frameType (header frame))).

Definition clientHandshake (hello : ClientHello) : proc Negotiated :=
  payload ← proc_lift (encodeClientHello hello);
  Send (mkOutbound FrameType.Hello payload None (Some Flags.END_STREAM)
          (Some (packVersion (major hello) (maxMinor hello))))
  (Recv (λ negotiateFrame,
    if negb (frameType (header negotiateFrame) =? FrameType.Negotiate) then
      Raise (unexpected "handshake: expected Negotiate, got frame 0x" negotiateFrame)
    else
      negotiated ← proc_lift (decodeNegotiated (Frame.payload negotiateFrame));
      version ← proc_lift (packVersionValue (version_major negotiated) (version_minor negotiated));
      Send (mkOutbound FrameType.Authenticate [] None (Some Flags.END_STREAM) (Some version))
      (Recv (λ readyFrame,
        if negb (frameType (header readyFrame) =? FrameType.Ready) then
          Raise (unexpected "handshake: expected Ready, got frame 0x" readyFrame)
        else Ret negotiated)))).

(** [raw.k ?? fallback] *)
Definition get_or (raw : value) (k : string) (fallback : value) : result value :=
  v ← get raw k; Ok (if is_nullish v then fallback else v).

Definition decodeReady (hello : ClientHello) (payload : bytes) : result WireReady :=
  match payload with
  | [] => Ok (mkReady (vint (major hello)) (vint (maxMinor hello)) (VArr []) (vint 0))
  | _ =>
      raw ← decode payload;
      major ← get_or raw "major" (vint (major hello));
      minor ← get_or raw "minor" (vint (maxMinor hello));
      enabled ← get_or raw "enabled" (VArr []);
      ttl ← get_or raw "lease_ttl_secs" (vint 0);
      Ok (mkReady major minor enabled ttl)
  end.

Definition wireHandshake (hello : ClientHello) : proc WireReady :=
  payload ← proc_lift (encodeClientHello hello);
  Send (mkOutbound FrameType.Hello payload None (Some Flags.END_STREAM)
          (Some (packVersion (major hello) (maxMinor hello))))
  (Recv (λ readyFrame,
    if negb (frameType (header readyFrame) =? FrameType.Ready) then
      Raise (unexpected "wire handshake: expected Ready, got frame 0x" readyFrame)
    else proc_lift (decodeReady hello (Frame.payload readyFrame)))).

(** ** Dispatch *)

(** The tags carried on the [QuerySubmit] opcode, in the order they are tested. *)
Definition QUERY_SUBMIT_TAGS : list string :=
  ["QuerySubmit"; "SubmitMemoryWrite"; "ListAgents"; "EntityDecisions"; "EntityConnections";
   "ConnectivityGraph"; "ConnectivityMembers"; "LogQuery"; "LogExplain"; "LogExport"; "Contain";
   "VtzTree"; "VtzDetail"; "VtzCreate"; "VtzEdit"; "VtzRescope"; "VtzDelete"; "BundleCommit";
   "BundleConvergence"; "ListPrincipals"; "ListGroups"; "ObjectList"; "ObjectDetail";
   "PolicyListByZone"; "PolicyDetail"; "PolicyEffective"; "PolicyCreate"; "PolicyEdit";
   "PolicyPublish"; "PolicyDelete"; "IdamConnectors"; "IdamSync"; "IdamConnect"; "IdamConfigure";
   "ObjectCreate"; "ObjectEdit"; "ObjectDelete"; "GroupCreate"; "GroupEdit"; "GroupSetMembers";
   "PrincipalCreate"; "PrincipalEdit"; "PrincipalSetStatus"; "DetectSummary"; "SocIncidentList";
   "SocIncidentDetail"; "SocNarrative"; "SocTelemetry"; "SocAudit"; "SocImpact";
   "SocCognitionRun"; "SocPlanApprove"; "SocPlanModify"; "SocDisposition"; "SocIncidentAct";
   "SocNotes"; "SocReport"; "SocUeba"; "SocWeekly"; "SocSettingsRead"; "SocSettingsCommit";
   "SettingsRead"; "SettingsReports"; "ModelAccessRead"; "AgentGrantSet"; "SettingsPropose";
   "SettingsApprovals"; "SettingsApprove"; "SettingsHistory"; "SettingsRollback"; "SettingsCommit"].

Definition dispatch_unsupported : exn :=
  WireProtocolError "dispatch: this WireRequest variant is not yet wired to a frame opcode".

Fixpoint has_any (tags : list string) (request : value) : result bool :=
  match tags with
  | [] => Ok false
  | tag :: tags => b ← has tag request; if (b : bool) then Ok true else has_any tags request
  end.

(** [typeof request === 'object' && (tests)] *)
Definition object_with (tags : list string) (request : value) : result bool :=
  if typeof_object request then has_any tags request else Ok false.

Definition frameTypeForRequest (request : value) : result Z :=
  if is_str "TxnBegin" request then Ok FrameType.TxnBegin
  else
    b ← object_with QUERY_SUBMIT_TAGS request;
    if (b : bool) then Ok FrameType.QuerySubmit
    else
      b ← object_with ["CursorFetch"] request;
      if (b : bool) then Ok FrameType.CursorFetch
      else
        b ← object_with ["CursorClose"] request;
        if (b : bool) then Ok FrameType.CursorClose else Throw dispatch_unsupported.

Definition dispatch (request : value) : proc value :=
  ft ← proc_lift (frameTypeForRequest request);
  payload ← proc_lift (encodeWireRequest request);
  Send (mkOutbound ft payload (Some 0) (Some Flags.END_STREAM) None)
  (Recv (λ frame, proc_lift (decodeWireReply (Frame.payload frame)))).

Definition heartbeat : proc unit :=
  Send (mkOutbound FrameType.Ping [] (Some 0) (Some Flags.END_STREAM) None)
  (Recv (λ frame,
    if negb (frameType (header frame) =? FrameType.Pong) then
      Raise (unexpected "heartbeat: expected a PONG reply, got frame type 0x" frame)
    else Ret tt)).
End protocol.
