(* ===== verification/WireProofs.v ===== *)
(** * Correctness of the request encoders and of the protocol code

    The opcode table and the encoder table agree; the operator delegation reaches the
    wire exactly when there is one; handshake, dispatch and heartbeat send the frames
    they should, in order, and only those. *)
From S2P Require Import Prelude Bytes Float64 Cbor CborProofs Frame JsValue Payload Proto.
Open Scope Z_scope.

(** ** Objects as maps *)

Lemma obj_get_insert o k v : obj_get (obj_insert o k v) k = Some v.
Proof.
  induction o as [|[k' v'] o IH]; cbn; [by rewrite bool_decide_true|].
  case_bool_decide; cbn; [by rewrite bool_decide_true|].
  destruct (key_before k k'); cbn; [by rewrite bool_decide_true|].
  by rewrite bool_decide_false.
Qed.

Lemma obj_get_insert_ne o k k' v : k ≠ k' → obj_get (obj_insert o k v) k' = obj_get o k'.
Proof.
  intros Hne. induction o as [|[k1 v1] o IH]; cbn; [by rewrite bool_decide_false|].
  case_bool_decide as Hk; cbn.
  - subst. by rewrite bool_decide_false.
  - destruct (key_before k k1); cbn; [by rewrite bool_decide_false|]. by rewrite IH.
Qed.

Lemma obj_get_set o k v : k ≠ "__proto__" → obj_get (obj_set o k v) k = Some v.
Proof. intros H. unfold obj_set. rewrite bool_decide_false by done. apply obj_get_insert. Qed.

Lemma obj_get_set_ne o k k' v : k ≠ k' → obj_get (obj_set o k v) k' = obj_get o k'.
Proof. intros H. unfold obj_set. case_bool_decide; [done|]. by apply obj_get_insert_ne. Qed.

Lemma bind_ext {A B} (r r' : result A) (f f' : A → result B) :
  r = r' → (∀ a, f a = f' a) → r ≫= f = r' ≫= f'.
Proof. intros -> Hf. destruct r'; cbn; auto. Qed.

(** ** The opcode table and the encoder table *)

Section tables.
Context `{ToNumberOther}.

Definition present (props : props) (tag : string) : bool :=
  match obj_get props tag with Some _ => true | None => false end.

(** The first of [tags] the request carries. *)
Definition first_tag (tags : list string) (props : props) : option string :=
  find (present props) tags.

Lemma has_any_find tags ps :
  has_any tags (VObj ps) = Ok (existsb (present ps) tags).
Proof.
  induction tags as [|t tags IH]; [done|]. cbn. fold (present ps t).
  by destruct (present ps t); cbn.
Qed.

Lemma encodeTagged_find table ps :
  NoDup table.*1 →
  match first_tag table.*1 ps with
  | Some tag => ∃ toCbor, In (tag, toCbor) table ∧
      encodeTagged table (VObj ps) =
        (body ← get (VObj ps) tag; cbor ← toCbor body; encode (VObj [(tag, cbor)]))
  | None => encodeTagged table (VObj ps) = Throw encode_unsupported
  end.
Proof.
  induction table as [|[t f] table IH]; [done|]. intros [_ Hnd]%list.NoDup_cons.
  cbn. fold (present ps t). unfold first_tag in *.
  destruct (present ps t) eqn:Hp; cbn; [eauto|].
  specialize (IH Hnd). destruct (find (present ps) table.*1) as [tag|]; [|done].
  destruct IH as (toCbor & Hin & E). eauto.
Qed.

Lemma existsb_set (ps : props) l l' :
  (∀ t, t ∈ l ↔ t ∈ l') → existsb (present ps) l = existsb (present ps) l'.
Proof.
  intros Hset. apply eq_true_iff_eq. rewrite !existsb_exists.
  setoid_rewrite <- list_elem_of_In. set_solver.
Qed.

Lemma first_tag_existsb tags ps :
  existsb (present ps) tags = bool_decide (is_Some (first_tag tags ps)).
Proof.
  unfold first_tag. induction tags as [|t tags IH]; [done|]. cbn.
  by destruct (present ps t).
Qed.

Definition CURSOR_TAGS : list string := ["CursorFetch"; "CursorClose"].

Lemma tags_agree : ∀ t, t ∈ WIRE_ENCODERS.*1 ↔ t ∈ QUERY_SUBMIT_TAGS ++ CURSOR_TAGS.
Proof.
  assert (∀ l k : list string, forallb (λ t, bool_decide (t ∈ k)) l = true → ∀ t, t ∈ l → t ∈ k) as Hsub.
  { intros l k Hf t Ht. rewrite forallb_forall in Hf.
    apply (bool_decide_eq_true_1 _ (Hf t (proj1 (list_elem_of_In _ _) Ht))). }
  intros t. split; apply Hsub; vm_compute; reflexivity.
Qed.

Lemma encoders_nodup : NoDup WIRE_ENCODERS.*1.
Proof. apply (bool_decide_eq_true_1 _). vm_compute. reflexivity. Qed.

(** The opcode of an object request. *)
Lemma frameType_obj ps :
  frameTypeForRequest (VObj ps) =
  if existsb (present ps) QUERY_SUBMIT_TAGS then Ok FrameType.QuerySubmit
  else if present ps "CursorFetch" then Ok FrameType.CursorFetch
  else if present ps "CursorClose" then Ok FrameType.CursorClose
  else Throw dispatch_unsupported.
Proof.
  unfold frameTypeForRequest, object_with. cbn [is_str typeof_object].
  rewrite !has_any_find. unfold mbind, result_bind. cbn [existsb].
  rewrite !orb_false_r. done.
Qed.
End tables.

(** ** The operator delegation *)

Section operator.
Context `{ToNumberOther}.

Lemma get_blind ps nul k :
  k ≠ "operator" → get (VObj (ps ++ [("operator", nul)])) k = get (VObj ps) k.
Proof.
  intros Hk. cbn. f_equal. f_equal. induction ps as [|[k' v'] ps IH]; cbn.
  - by rewrite bool_decide_false.
  - by rewrite IH.
Qed.

Lemma get_op ps nul :
  obj_get ps "operator" = None → is_nullish nul = true →
  ∃ nul', get (VObj (ps ++ [("operator", nul)])) "operator" = Ok nul' ∧ is_nullish nul' = true ∧
          get (VObj ps) "operator" = Ok VUndefined.
Proof.
  intros Hps Hn. exists nul. split; [|split; [done|cbn; by rewrite Hps]].
  cbn. f_equal. induction ps as [|[k' v'] ps IH]; cbn in *; [done|]. case_bool_decide; [done|auto].
Qed.

(** An absent operator and a nullish one are the same request. *)
Definition op_blind (f : value → result value) : Prop :=
  ∀ ps nul, obj_get ps "operator" = None → is_nullish nul = true →
  f (VObj (ps ++ [("operator", nul)])) = f (VObj ps).

Lemma fields_blind ps nul ks :
  forallb (λ k, negb (bool_decide (k = "operator"))) ks = true →
  fields (VObj (ps ++ [("operator", nul)])) ks = fields (VObj ps) ks.
Proof.
  induction ks as [|k ks IH]; [done|]. intros [Hk Hks]%andb_prop.
  cbn [fields]. rewrite get_blind, IH; [done..|].
  intros ->. by rewrite bool_decide_true in Hk.
Qed.

Lemma applyOperator_nullish out nul : is_nullish nul = true → applyOperator out nul = Ok out.
Proof. intros Hn. unfold applyOperator. by rewrite Hn. Qed.

Lemma operator_blind {A} ps nul out (k k' : props → result A) :
  obj_get ps "operator" = None → is_nullish nul = true → (∀ out, k' out = k out) →
  (op ← get (VObj (ps ++ [("operator", nul)])) "operator"; out ← applyOperator out op; k' out) =
  (op ← get (VObj ps) "operator"; out ← applyOperator out op; k out).
Proof.
  intros Hps Hn Hk. destruct (get_op ps nul Hps Hn) as (nul' & E1 & Hn' & E2).
  rewrite E1, E2. cbn. rewrite !applyOperator_nullish by done. cbn. apply Hk.
Qed.

Lemma withOperator_blind ps nul out :
  obj_get ps "operator" = None → is_nullish nul = true →
  withOperator out (VObj (ps ++ [("operator", nul)])) = withOperator out (VObj ps).
Proof. intros Hps Hn. unfold withOperator. by apply operator_blind. Qed.
End operator.

(** The reads of other fields, field by field. *)
Ltac blind_step :=
  first
    [ reflexivity
    | apply withOperator_blind; assumption
    | apply fields_blind; reflexivity
    | unfold set_field, set_nonnull, set_defined, set_nonempty, set_spread, section_field;
      rewrite get_blind by discriminate; reflexivity
    | rewrite get_blind by discriminate; reflexivity ].
Ltac blind :=
  intros ps nul Hps Hn;
  repeat first [ apply operator_blind; [assumption..|intros ?]
               | apply bind_ext; [blind_step|intros ?] ]; blind_step.

(** Unfold the encoder a statement [P f] is about, unless it is a generic one. *)
Ltac unfold_encoder P :=
  lazymatch goal with
  | |- P (copyToCbor _) => idtac
  | |- P (literalToCbor _) => idtac
  | |- P (?f _) => unfold f
  | |- P ?f => unfold f
  end.

Section operator_blind.
Context `{ToNumberOther}.

Lemma copy_blind ks :
  forallb (λ k, negb (bool_decide (k = "operator"))) ks = true → op_blind (copyToCbor ks).
Proof.
  intros Hks ps nul Hps Hn. unfold copyToCbor. rewrite fields_blind by done.
  apply bind_ext; [done|]. intros out. by apply withOperator_blind.
Qed.
Lemma literal_blind ks :
  forallb (λ k, negb (bool_decide (k = "operator"))) ks = true → op_blind (literalToCbor ks).
Proof. intros Hks ps nul Hps Hn. unfold literalToCbor. by rewrite fields_blind. Qed.


(** Every encoder treats a nullish operator as an absent one. *)
Lemma encoders_blind : Forall (λ e, op_blind e.2) WIRE_ENCODERS.
Proof.
  unfold WIRE_ENCODERS. repeat (apply Forall_cons_2; [cbn [snd]; unfold_encoder op_blind|]).
  all: lazymatch goal with
       | |- op_blind (copyToCbor _) => apply copy_blind; reflexivity
       | |- op_blind (literalToCbor _) => apply literal_blind; reflexivity
       | |- op_blind _ => blind
       | |- Forall _ _ => apply Forall_nil_2
       end.
Qed.
End operator_blind.

(** ** A delegation reaches the wire *)

Section carries.
Context `{ToNumberOther}.

(** [d] is the delegation map of the operator [op]: its principal and tenant, and
    its settings tier when it has one. *)
Record carries (op : value) (d : props) : Prop := {
  carries_principal : get (VObj d) "principal" = get op "principal";
  carries_tenant : get (VObj d) "tenant" = get op "tenant";
  carries_tier : ∀ t, get op "settings_tier" = Ok t →
    get (VObj d) "settings_tier" = Ok (if is_nullish t then VUndefined else t)
}.

Lemma applyOperator_carries out op out' :
  is_nullish op = false → applyOperator out op = Ok out' →
  ∃ d, out' = obj_set out "operator" (VObj d) ∧ carries op d.
Proof.
  intros Hn. unfold applyOperator. rewrite Hn.
  destruct (get op "principal") as [p|] eqn:Hp; [|destruct op; done].
  destruct (get op "tenant") as [t|] eqn:Ht; [|destruct op; done].
  destruct (get op "settings_tier") as [s|] eqn:Hs; [|destruct op; done].
  unfold set_nonnull. cbn [fields]. rewrite Hp, Ht, Hs. intros [= <-].
  eexists. split; [done|].
  constructor; [rewrite Hp|rewrite Ht|intros s' E; rewrite Hs in E; injection E as <-];
    by destruct (is_nullish s).
Qed.

(** The encoder [f] puts the request's delegation into the map it builds. *)
Definition op_carries (f : value → result value) : Prop :=
  ∀ body op out, get body "operator" = Ok op → is_nullish op = false → f body = Ok out →
  ∃ d, get out "operator" = Ok (VObj d) ∧ carries op d.

Lemma operator_carries body op out out' rest :
  get body "operator" = Ok op → is_nullish op = false →
  (op ← get body "operator"; applyOperator out op) = Ok out' →
  obj_get rest "operator" = obj_get out' "operator" →
  ∃ d, get (VObj rest) "operator" = Ok (VObj d) ∧ carries op d.
Proof.
  intros Hop Hn. rewrite Hop. cbn. intros (d & -> & Hd)%applyOperator_carries Hrest; [|done].
  exists d. split; [|done]. cbn. by rewrite Hrest, obj_get_set.
Qed.

Lemma withOperator_carries out : op_carries (withOperator out).
Proof.
  intros body op out' Hop Hn. unfold withOperator. rewrite Hop. cbn.
  intros (o & E & [= <-])%bind_Ok. eapply (operator_carries body op out o o); [done..| |done].
  by rewrite Hop.
Qed.

Lemma copy_carries ks : op_carries (copyToCbor ks).
Proof.
  intros body op out Hop Hn (o & _ & E)%bind_Ok. by eapply withOperator_carries.
Qed.

Lemma set_field_keeps out r k out' :
  k ≠ "operator" → set_field out r k = Ok out' → obj_get out' "operator" = obj_get out "operator".
Proof. intros Hk (v & _ & [= <-])%bind_Ok. by apply obj_get_set_ne. Qed.

Lemma set_nonnull_keeps out r k out' :
  k ≠ "operator" → set_nonnull out r k = Ok out' → obj_get out' "operator" = obj_get out "operator".
Proof. intros Hk (v & _ & [= <-])%bind_Ok. destruct (is_nullish v); [done|]. by apply obj_get_set_ne. Qed.

Lemma contain_carries : op_carries containToCbor.
Proof.
  intros body op out Hop Hn (op' & Hop' & (o & E & (o' & E' & [= <-])%bind_Ok)%bind_Ok)%bind_Ok.
  eapply (operator_carries body op [] o o'); [done..|by rewrite Hop'|]. by eapply set_field_keeps, E'.
Qed.

Lemma incidentList_carries : op_carries socIncidentListToCbor.
Proof.
  intros body op out Hop Hn
    (o & _ & (op' & Hop' & (o1 & E & (o2 & E' & [= <-])%bind_Ok)%bind_Ok)%bind_Ok)%bind_Ok.
  eapply (operator_carries body op o o1 o2); [done..|by rewrite Hop'|]. by eapply set_nonnull_keeps, E'.
Qed.

Lemma logExport_carries : op_carries logExportToCbor.
Proof.
  intros body op out Hop Hn (op' & Hop' & (o & E & E1)%bind_Ok)%bind_Ok.
  apply bind_Ok in E1 as (q & _ & (q' & _ & (o1 & E1 & (o2 & E2 & [= <-])%bind_Ok)%bind_Ok)%bind_Ok).
  eapply (operator_carries body op [] o o2); [done..|by rewrite Hop'|].
  rewrite (set_field_keeps o1 body "issued_at" o2) by done.
  rewrite (set_field_keeps (obj_set o "query" q') body "command_id" o1) by done.
  by apply obj_get_set_ne.
Qed.

(** The requests the wire format gives no operator field. *)
Definition OPERATOR_FREE : list string := ["BundleConvergence"; "CursorFetch"; "CursorClose"].

Lemma encoders_carry :
  Forall (λ e, e.1 ∉ OPERATOR_FREE → op_carries e.2) WIRE_ENCODERS.
Proof.
  unfold WIRE_ENCODERS. repeat (apply Forall_cons_2; [cbn [fst snd]; intros Hfree|]).
  all: lazymatch goal with
       | |- Forall _ _ => apply Forall_nil_2
       | |- op_carries (literalToCbor _) => exfalso; apply Hfree; vm_compute; set_solver
       | |- op_carries logExportToCbor => apply logExport_carries
       | |- op_carries containToCbor => apply contain_carries
       | |- op_carries socIncidentListToCbor => apply incidentList_carries
       | _ => unfold_encoder op_carries
       end.
  all: lazymatch goal with
       | |- op_carries (copyToCbor _) => apply copy_carries
       | |- op_carries (literalToCbor _) => exfalso; apply Hfree; vm_compute; set_solver
       | _ => idtac
       end.
  all: intros body op out Hop Hn E;
       repeat match type of E with _ ≫= _ = Ok _ => apply bind_Ok in E as (? & _ & E) end;
       by eapply withOperator_carries.
Qed.
End carries.

(** ** Theorems *)

Section headline.
Context `{NumberToString} `{ToNumberOther}.

(** The two request tables agree.  For every object request, either neither the
    opcode table nor the payload encoder knows any of its tags, and both refuse it,
    or the request has an opcode and its payload is the single-key map of its first
    known tag, built by that tag's encoder. *)
Theorem dispatch_tables_agree ps :
  match first_tag WIRE_ENCODERS.*1 ps with
  | Some tag => ∃ ft toCbor,
      frameTypeForRequest (VObj ps) = Ok ft ∧ In (tag, toCbor) WIRE_ENCODERS ∧
      encodeWireRequest (VObj ps) =
        (body ← get (VObj ps) tag; cbor ← toCbor body; encode (VObj [(tag, cbor)]))
  | None =>
      frameTypeForRequest (VObj ps) = Throw dispatch_unsupported ∧
      encodeWireRequest (VObj ps) = Throw encode_unsupported
  end.
Proof.
  pose proof (encodeTagged_find WIRE_ENCODERS ps encoders_nodup) as He.
  pose proof (existsb_set ps _ _ tags_agree) as Hs.
  rewrite first_tag_existsb, existsb_app in Hs.
  change (encodeWireRequest (VObj ps)) with (encodeTagged WIRE_ENCODERS (VObj ps)).
  rewrite frameType_obj. set (q := existsb (present ps) QUERY_SUBMIT_TAGS) in *. clearbody q.
  cbn [existsb CURSOR_TAGS] in Hs.
  destruct (first_tag WIRE_ENCODERS.*1 ps) as [tag|]; cbn in Hs.
  - destruct He as (toCbor & Hin & E).
    destruct q, (present ps "CursorFetch"), (present ps "CursorClose");
      try discriminate Hs; eexists _, toCbor; (split; [reflexivity|by split]).
  - rewrite He. by destruct q, (present ps "CursorFetch"), (present ps "CursorClose").
Qed.

(** A request whose operator is [null] or [undefined] is encoded to exactly the
    value of the same request without an operator, for every encoder. *)
Theorem absent_operator_neutral tag toCbor ps nul :
  In (tag, toCbor) WIRE_ENCODERS →
  obj_get ps "operator" = None → is_nullish nul = true →
  toCbor (VObj (ps ++ [("operator", nul)])) = toCbor (VObj ps).
Proof.
  intros Hin. pose proof encoders_blind as Hb. rewrite List.Forall_forall in Hb.
  apply (Hb _ Hin).
Qed.

(** The operator delegation is never lost: every encoder but the three whose
    wire form has no operator field emits the request's principal, tenant and
    settings tier in the map it builds. *)
Theorem delegation_reaches_wire tag toCbor body op out :
  In (tag, toCbor) WIRE_ENCODERS → tag ∉ OPERATOR_FREE →
  get body "operator" = Ok op → is_nullish op = false → toCbor body = Ok out →
  ∃ d, get out "operator" = Ok (VObj d) ∧ carries op d.
Proof.
  intros Hin Htag. pose proof encoders_carry as Hc. rewrite List.Forall_forall in Hc.
  apply (Hc _ Hin Htag).
Qed.

(** Dispatch is one request and one reply.  A request without an opcode or an
    encoding fails before anything is sent; any other sends exactly one frame, on
    stream 0, with its opcode and payload, and the call settles to the decoded
    payload of the next frame received. *)
Theorem dispatch_once request answers :
  exec (dispatch request) answers =
  match frameTypeForRequest request, encodeWireRequest request with
  | Throw e, _ | Ok _, Throw e => ([], Done (Throw e))
  | Ok ft, Ok bs =>
      ([mkOutbound ft bs (Some 0) (Some Flags.END_STREAM) None],
       match answers with
       | Sent :: Received f :: _ => Done (decode (Frame.payload f))
       | Rejected e :: _ | Sent :: Rejected e :: _ => Done (Throw e)
       | _ => Waiting
       end)
  end.
Proof.
  unfold dispatch. destruct (frameTypeForRequest request) as [ft|e]; [|done]. cbn.
  destruct (encodeWireRequest request) as [bs|e]; [|done]. cbn.
  destruct answers as [|[|f|e] [|[|f'|e'] answers]]; try done. cbn.
  unfold decodeWireReply. by destruct (decode (Frame.payload f')).
Qed.

(** The agent-plane handshake succeeds exactly when the server answers Negotiate
    and then Ready.  Authenticate is sent only after a Negotiate was received and
    decoded, carries no payload, and speaks the negotiated version. *)
Theorem client_handshake_success hello answers sent n :
  exec (clientHandshake hello) answers = (sent, Done (Ok n)) ↔
  ∃ hb nf rf v rest,
    encodeClientHello hello = Ok hb ∧
    answers = Sent :: Received nf :: Sent :: Received rf :: rest ∧
    frameType (header nf) = FrameType.Negotiate ∧ decodeNegotiated (Frame.payload nf) = Ok n ∧
    packVersionValue (version_major n) (version_minor n) = Ok v ∧
    frameType (header rf) = FrameType.Ready ∧
    sent = [mkOutbound FrameType.Hello hb None (Some Flags.END_STREAM)
              (Some (packVersion (major hello) (maxMinor hello)));
            mkOutbound FrameType.Authenticate [] None (Some Flags.END_STREAM) (Some v)].
Proof.
  unfold clientHandshake. split.
  - destruct (encodeClientHello hello) as [hb|e] eqn:Hh; [|done]. cbn.
    destruct answers as [|[|w|e] [|[|nf|e'] answers]]; try done; cbn.
    destruct (Z.eqb_spec (frameType (header nf)) FrameType.Negotiate) as [Hn|]; [|done]. cbn.
    destruct (decodeNegotiated (Frame.payload nf)) as [n'|] eqn:Hd; [|done]. cbn.
    destruct (packVersionValue _ _) as [v|] eqn:Hv; [|done]. cbn.
    destruct answers as [|[|w|e] [|[|rf|e'] answers]]; try done; cbn.
    destruct (Z.eqb_spec (frameType (header rf)) FrameType.Ready) as [Hr|]; [|done].
    intros [= <- <-]. by exists hb, nf, rf, v, answers.
  - intros (hb & nf & rf & v & rest & Hh & -> & Hn & Hd & Hv & Hr & ->).
    rewrite Hh. cbn. rewrite Hn. cbn. rewrite Hd. cbn. rewrite Hv. cbn. by rewrite Hr.
Qed.

(** A heartbeat sends one empty Ping and resolves only on a Pong. *)
Theorem heartbeat_pong answers sent r :
  exec heartbeat answers = (sent, Done r) →
  sent = [mkOutbound FrameType.Ping [] (Some 0) (Some Flags.END_STREAM) None] ∧
  (r = Ok tt ↔ ∃ f rest, answers = Sent :: Received f :: rest ∧ frameType (header f) = FrameType.Pong).
Proof.
  unfold heartbeat. cbn. destruct answers as [|[|w|e] answers]; try done; cbn.
  2:{ intros [= <- <-]. naive_solver. }
  destruct answers as [|[|f|e] answers]; try done; cbn; [|intros [= <- <-]; naive_solver].
  destruct (Z.eqb_spec (frameType (header f)) FrameType.Pong); cbn; intros [= <- <-]; naive_solver.
Qed.

(** The wire-plane handshake is a single round trip: one Hello is sent, and it
    succeeds exactly on a Ready frame whose profile decodes; an empty profile yields
    the client's own offer. *)
Theorem wire_handshake_success hello answers sent r :
  exec (wireHandshake hello) answers = (sent, Done (Ok r)) ↔
  ∃ hb f rest,
    encodeClientHello hello = Ok hb ∧ answers = Sent :: Received f :: rest ∧
    frameType (header f) = FrameType.Ready ∧ decodeReady hello (Frame.payload f) = Ok r ∧
    sent = [mkOutbound FrameType.Hello hb None (Some Flags.END_STREAM)
              (Some (packVersion (major hello) (maxMinor hello)))].
Proof.
  unfold wireHandshake. split.
  - destruct (encodeClientHello hello) as [hb|e] eqn:Hh; [|done]. cbn.
    destruct answers as [|[|w|e] [|[|f|e'] answers]]; try done; cbn.
    destruct (Z.eqb_spec (frameType (header f)) FrameType.Ready) as [Hr|]; [|done]. cbn.
    destruct (decodeReady hello (Frame.payload f)) as [r'|] eqn:Hd; [|done].
    intros [= <- <-]. by exists hb, f, answers.
  - intros (hb & f & rest & Hh & -> & Hr & Hd & ->). rewrite Hh. cbn. rewrite Hr. cbn. by rewrite Hd.
Qed.
End headline.

(** ** Witnesses *)

Definition sample_toNumber : ToNumberOther := λ _, f64_NaN.
Definition sample_operator : value := VObj [("principal", VStr "p-1"); ("tenant", VStr "t-1")].

Lemma absent_operator_neutral_witness :
  vtzDetailToCbor (VObj ([("request_id", vint 1); ("vtz_id", VStr "z")] ++ [("operator", VNull)]))
  = vtzDetailToCbor (VObj [("request_id", vint 1); ("vtz_id", VStr "z")]).
Proof.
  apply (@absent_operator_neutral sample_toNumber "VtzDetail"); [|reflexivity..].
  cbn. tauto.
Defined.

Lemma delegation_reaches_wire_witness :
  ∃ d, get (VObj [("operator", sample_operator); ("request", VStr "r")]) "operator" = Ok (VObj d) ∧
       carries sample_operator d.
Proof.
  apply (@delegation_reaches_wire sample_toNumber "Contain" containToCbor
    (VObj [("request", VStr "r"); ("operator", sample_operator)])); [cbn; tauto| |reflexivity..].
  apply (bool_decide_eq_true_1 _). vm_compute. reflexivity.
Defined.

Definition pong : WireFrame := mkFrame (mkHeader PROTOCOL_V1_0 FrameType.Pong 0 1 0) [].

Lemma heartbeat_pong_witness :
  [mkOutbound FrameType.Ping [] (Some 0) (Some Flags.END_STREAM) None]
    = [mkOutbound FrameType.Ping [] (Some 0) (Some Flags.END_STREAM) None] ∧
  (Ok tt = Ok tt ↔ ∃ f rest, [Sent; Received pong] = Sent :: Received f :: rest ∧
                             frameType (header f) = FrameType.Pong).
Proof. apply heartbeat_pong. reflexivity. Defined.
