(* ===== verification/JsString.v ===== *)
(** * JavaScript strings and the insertion-ordered [Map]

    The string operations the gateway uses, on the UTF-8 representation of
    [Bytes] (all separators it splits on are ASCII, so byte positions and code-unit
    positions cut the same pieces), and [Map<string, V>] as the list of its entries
    in insertion order. *)
From S2P Require Import Prelude Bytes.
Open Scope Z_scope.

(** ** Strings *)

Fixpoint str_rev_app (s acc : string) : string :=
  match s with EmptyString => acc | String c s => str_rev_app s (String c acc) end.

(** [s.split(sep)] for a one-character separator *)
Fixpoint split_on (sep : Ascii.ascii) (s : string) : list string :=
  match s with
  | EmptyString => [""]
  | String c s =>
      if Ascii.eqb c sep then "" :: split_on sep s
      else match split_on sep s with
           | w :: ws => String c w :: ws
           | [] => [String c ""]
           end
  end.

(** [s.slice(0, i), s.slice(i + 1)] for [i = s.indexOf(sep)]; [None] when it is -1. *)
Fixpoint cut_at (sep : Ascii.ascii) (s : string) : option (string * string) :=
  match s with
  | EmptyString => None
  | String c s =>
      if Ascii.eqb c sep then Some ("", s)
      else match cut_at sep s with
           | Some (a, b) => Some (String c a, b)
           | None => None
           end
  end.

Definition toLower_char (c : Ascii.ascii) : Ascii.ascii :=
  let b := byte_of_ascii c in if in_range 65 90 b then ascii_of_byte (b + 32) else c.

(** [s.toLowerCase()] on its ASCII letters.  Other letters are left alone: none of
    them lowers to an ASCII letter of a key the sources look up. *)
Fixpoint toLowerCase (s : string) : string :=
  match s with EmptyString => "" | String c s => String (toLower_char c) (toLowerCase s) end.

Definition toUpper_char (c : Ascii.ascii) : Ascii.ascii :=
  let b := byte_of_ascii c in if in_range 97 122 b then ascii_of_byte (b - 32) else c.

(** The UTF-8 encodings of the characters [trim] removes. *)
Definition WHITESPACE : list string :=
  map string_of_bytes
    ([[9]; [10]; [11]; [12]; [13]; [32]; [0xc2; 0xa0]; [0xe1; 0x9a; 0x80]] ++
     map (λ i, [0xe2; 0x80; 0x80 + Z.of_nat i]) (seq 0 11) ++
     [[0xe2; 0x80; 0xa8]; [0xe2; 0x80; 0xa9]; [0xe2; 0x80; 0xaf]; [0xe2; 0x81; 0x9f];
      [0xe3; 0x80; 0x80]; [0xef; 0xbb; 0xbf]]).

Fixpoint strip_prefix (p s : string) : option string :=
  match p, s with
  | EmptyString, _ => Some s
  | String a p, String b s => if Ascii.eqb a b then strip_prefix p s else None
  | String _ _, EmptyString => None
  end.

Definition startsWith (s p : string) : bool :=
  match strip_prefix p s with Some _ => true | None => false end.

Definition endsWith (s suffix : string) : bool := startsWith (str_rev_app s "") (str_rev_app suffix "").

Fixpoint strip_any (ps : list string) (s : string) : option string :=
  match ps with
  | [] => None
  | p :: ps => match strip_prefix p s with Some r => Some r | None => strip_any ps s end
  end.

(** Whitespace at the front; [fuel] is the length of [s]. *)
Fixpoint trim_front (ps : list string) (fuel : nat) (s : string) : string :=
  match fuel with
  | O => s
  | S fuel => match strip_any ps s with Some r => trim_front ps fuel r | None => s end
  end.

(** [s.trim()] *)
Definition trim (s : string) : string :=
  let s1 := trim_front WHITESPACE (String.length s) s in
  let r := str_rev_app s1 "" in
  str_rev_app (trim_front (map (λ p, str_rev_app p "") WHITESPACE) (String.length r) r) "".

Lemma str_app_cons c a b : String c a +:+ b = String c (a +:+ b).
Proof. done. Qed.

Lemma str_nil_app b : "" +:+ b = b.
Proof. done. Qed.

Lemma str_app_nil a : a +:+ "" = a.
Proof. induction a as [|c a IH]; [done|]. by rewrite str_app_cons, IH. Qed.

Lemma str_app_assoc (a b c : string) : (a +:+ b) +:+ c = a +:+ (b +:+ c).
Proof. induction a as [|x a IH]; [done|]. by rewrite !str_app_cons, IH. Qed.

Lemma str_rev_app_app a b acc : str_rev_app (a +:+ b) acc = str_rev_app b (str_rev_app a acc).
Proof. revert acc. induction a as [|c a IH]; intros acc; [done|]. apply IH. Qed.

Lemma str_rev_app_acc a acc : str_rev_app a acc = str_rev_app a "" +:+ acc.
Proof.
  revert acc. induction a as [|c a IH]; intros acc; [done|]. cbn.
  rewrite IH, (IH (String c "")), str_app_assoc. done.
Qed.

Lemma str_rev_involutive a : str_rev_app (str_rev_app a "") "" = a.
Proof.
  induction a as [|c a IH]; [done|]. cbn. rewrite (str_rev_app_acc a).
  by rewrite str_rev_app_app, IH.
Qed.

(** [trim] is idempotent: neither end of what it returns starts with whitespace. *)

Lemma strip_prefix_Some p s r : strip_prefix p s = Some r ↔ s = p +:+ r.
Proof.
  revert s. induction p as [|a p IH]; intros s; [rewrite str_nil_app; cbn; naive_solver|].
  rewrite str_app_cons. destruct s as [|b s]; cbn; [done|].
  destruct (Ascii.eqb_spec a b) as [->|Hne]; [rewrite IH; naive_solver|naive_solver].
Qed.

Lemma strip_any_Some ps s r : strip_any ps s = Some r → ∃ p, p ∈ ps ∧ s = p +:+ r.
Proof.
  induction ps as [|p ps IH]; cbn; [done|]. destruct (strip_prefix p s) eqn:E; intros Hr.
  - simplify_eq. apply strip_prefix_Some in E. set_solver.
  - apply IH in Hr as (q & ? & ?). set_solver.
Qed.

Lemma strip_any_prefix ps a b : strip_any ps (a +:+ b) = None → strip_any ps a = None.
Proof.
  induction ps as [|p ps IH]; cbn; [done|].
  destruct (strip_prefix p a) as [r|] eqn:E.
  - apply strip_prefix_Some in E as ->. rewrite str_app_assoc.
    by rewrite (proj2 (strip_prefix_Some p _ (r +:+ b)) eq_refl).
  - destruct (strip_prefix p (a +:+ b)); [done|apply IH].
Qed.

Lemma str_length_app a b : String.length (a +:+ b) = (String.length a + String.length b)%nat.
Proof. induction a as [|c a IH]; rewrite ?str_app_cons; cbn; [done|by rewrite IH]. Qed.

Section trim_front.
Context (ps : list string) (Hps : Forall (λ p, p ≠ "") ps).

Lemma trim_front_suffix n s : ∃ u, s = u +:+ trim_front ps n s.
Proof using.
  revert s. induction n as [|n IH]; intros s; cbn; [by exists ""|].
  destruct (strip_any ps s) as [r|] eqn:E; [|by exists ""].
  apply strip_any_Some in E as (p & _ & ->). destruct (IH r) as [u Hu].
  exists (p +:+ u). by rewrite str_app_assoc, <- Hu.
Qed.

Lemma trim_front_stuck n s : (String.length s ≤ n)%nat → strip_any ps (trim_front ps n s) = None.
Proof using Hps.
  assert (∀ s r, strip_any ps s = Some r → (String.length r < String.length s)%nat) as Hlt.
  { intros x r (p & Hp & ->)%strip_any_Some. rewrite Forall_forall in Hps.
    apply list_elem_of_In, Hps in Hp. destruct p; [done|]. rewrite str_length_app. cbn. lia. }
  revert s. induction n as [|n IH]; intros s Hs; cbn.
  - destruct (strip_any ps s) as [r|] eqn:E; [|done]. apply Hlt in E. lia.
  - destruct (strip_any ps s) as [r|] eqn:E; [|done]. apply IH. apply Hlt in E. lia.
Qed.

Lemma trim_front_fixed n s : strip_any ps s = None → trim_front ps n s = s.
Proof using. destruct n; cbn; [done|]. by intros ->. Qed.
End trim_front.

Lemma trim_idem s : trim (trim s) = trim s.
Proof.
  unfold trim at 2. unfold trim at 2. set (W := WHITESPACE). set (R := map (λ p, str_rev_app p "") W).
  assert (Forall (λ p, p ≠ "") W ∧ Forall (λ p, p ≠ "") R) as [HW HR].
  { split; apply Forall_forall; intros p Hp; vm_compute in Hp; naive_solver. }
  set (t := trim_front W (String.length s) s). set (r := str_rev_app t "").
  set (q := trim_front R (String.length r) r).
  assert (strip_any R q = None) as Hq by (by apply trim_front_stuck).
  destruct (trim_front_suffix R (String.length r) r) as [u Hu]. fold q in Hu.
  assert (t = str_rev_app q "" +:+ str_rev_app u "") as Ht.
  { rewrite <- (str_rev_involutive t). fold r. rewrite Hu, str_rev_app_app. apply str_rev_app_acc. }
  assert (strip_any W (str_rev_app q "") = None) as Hw.
  { apply (strip_any_prefix _ _ (str_rev_app u "")). rewrite <- Ht. by apply trim_front_stuck. }
  unfold trim. fold W R. rewrite (trim_front_fixed W) by done. rewrite str_rev_involutive.
  by rewrite (trim_front_fixed R).
Qed.

Arguments trim : simpl never.

(** [xs.join(sep)] *)
Definition join (sep : string) (xs : list string) : string := String.concat sep xs.

(** ** Splitting and joining *)

Fixpoint no_char (sep : Ascii.ascii) (s : string) : bool :=
  match s with EmptyString => true | String c s => negb (Ascii.eqb c sep) && no_char sep s end.

Lemma no_char_app sep a b : no_char sep (a +:+ b) = no_char sep a && no_char sep b.
Proof. induction a as [|c a IH]; [done|]. rewrite str_app_cons. cbn. by rewrite IH, andb_assoc. Qed.

Lemma no_char_rev c s acc : no_char c (str_rev_app s acc) = no_char c s && no_char c acc.
Proof. revert acc. induction s as [|d s IH]; intros acc; [done|]. cbn. rewrite IH. cbn. by destruct (negb (Ascii.eqb d c)), (no_char c s), (no_char c acc). Qed.

Lemma cut_at_None sep s : cut_at sep s = None → no_char sep s = true.
Proof.
  induction s as [|c s IH]; [done|]. cbn [cut_at no_char]. destruct (Ascii.eqb c sep); [done|].
  destruct (cut_at sep s) as [[]|]; [done|]. intros _. by apply IH.
Qed.

Lemma cut_at_first sep n v : no_char sep n = true → cut_at sep (n +:+ String sep v) = Some (n, v).
Proof.
  induction n as [|c n IH]; rewrite ?str_app_cons, ?str_nil_app; cbn; [by rewrite Ascii.eqb_refl|].
  intros [Hc Hn]%andb_prop.
  apply negb_true_iff in Hc. rewrite Hc. by rewrite (IH Hn).
Qed.

Lemma split_first sep s rest :
  no_char sep s = true → split_on sep (s +:+ String sep rest) = s :: split_on sep rest.
Proof.
  induction s as [|c s IH]; rewrite ?str_app_cons, ?str_nil_app; cbn; [by rewrite Ascii.eqb_refl|].
  intros [Hc Hs]%andb_prop.
  apply negb_true_iff in Hc. rewrite Hc. by rewrite (IH Hs).
Qed.

Lemma split_none sep s : no_char sep s = true → split_on sep s = [s].
Proof.
  induction s as [|c s IH]; cbn; [done|]. intros [Hc Hs]%andb_prop.
  apply negb_true_iff in Hc. rewrite Hc. by rewrite (IH Hs).
Qed.

Lemma no_char_spec sep s : (∀ a c b, s = a +:+ String c b → c ≠ sep) → no_char sep s = true.
Proof.
  induction s as [|c s IH]; intros H; [done|]. cbn. apply andb_true_intro. split.
  - destruct (Ascii.eqb_spec c sep) as [->|]; [|done]. by destruct (H "" sep s eq_refl).
  - apply IH. intros a d b ->. apply (H (String c a) d b). by rewrite str_app_cons.
Qed.

Lemma split_on_nonempty sep s : (1 ≤ length (split_on sep s))%nat.
Proof. destruct s; cbn; [lia|]. repeat case_match; cbn; lia. Qed.

Lemma join_prefix_length sep xs ys : (String.length (join sep xs) ≤ String.length (join sep (xs ++ ys)))%nat.
Proof.
  unfold join. induction xs as [|x xs IH]; [cbn; lia|]. destruct xs as [|x' xs].
  - destruct ys; cbn; [lia|]. rewrite str_length_app. lia.
  - change (String.concat sep (x :: x' :: xs)) with (x +:+ sep +:+ String.concat sep (x' :: xs)).
    change (String.concat sep ((x :: x' :: xs) ++ ys)) with (x +:+ sep +:+ String.concat sep ((x' :: xs) ++ ys)).
    rewrite !str_length_app. lia.
Qed.

(** Splitting and joining at a character are inverse to each other. *)
Lemma join_split sep s : join (String sep "") (split_on sep s) = s.
Proof.
  unfold join. induction s as [|c s IH]; [done|]. cbn [split_on].
  destruct (Ascii.eqb_spec c sep) as [->|Hne].
  - destruct (split_on sep s) as [|w ws] eqn:E; [by destruct s; cbn in E; repeat case_match|].
    cbn -[String.concat]. cbn. by rewrite <- IH.
  - destruct (split_on sep s) as [|w ws]; [by rewrite <- IH|].
    destruct ws; cbn in *; by rewrite <- IH.
Qed.

Lemma split_join sep ls :
  ls ≠ [] → Forall (λ l, no_char sep l = true) ls → split_on sep (join (String sep "") ls) = ls.
Proof.
  unfold join. induction ls as [|l ls IH]; intros Hne Hall; [done|].
  inversion Hall as [|? ? Hl Hls]; subst. destruct ls as [|l' ls]; [by apply split_none|].
  change (String.concat (String sep "") (l :: l' :: ls))
    with (l +:+ String sep (String.concat (String sep "") (l' :: ls))).
  rewrite split_first by done. by rewrite IH.
Qed.

Lemma split_app sep a b : split_on sep (a +:+ String sep b) = split_on sep a ++ split_on sep b.
Proof.
  induction a as [|c a IH]; rewrite ?str_app_cons, ?str_nil_app; cbn [split_on]; [by rewrite Ascii.eqb_refl|].
  rewrite IH. destruct (Ascii.eqb c sep); [done|]. pose proof (split_on_nonempty sep a). by destruct (split_on sep a); cbn in *; [lia|].
Qed.

(** ** [Map<string, V>] *)

Section ordered_map.
Context {V : Type}.
Implicit Types (m : list (string * V)) (k : string) (v : V).

Fixpoint map_get m k : option V :=
  match m with
  | [] => None
  | (k', v) :: m => if bool_decide (k = k') then Some v else map_get m k
  end.

Definition map_has m k : bool := match map_get m k with Some _ => true | None => false end.

(** An existing key keeps its place. *)
Fixpoint map_set m k v : list (string * V) :=
  match m with
  | [] => [(k, v)]
  | (k', v') :: m => if bool_decide (k = k') then (k, v) :: m else (k', v') :: map_set m k v
  end.

Fixpoint map_delete m k : list (string * V) :=
  match m with
  | [] => []
  | (k', v') :: m => if bool_decide (k = k') then map_delete m k else (k', v') :: map_delete m k
  end.

(** [m.keys().next().value] *)
Definition map_oldest m : option string := fst <$> head m.

Lemma map_get_set m k v : map_get (map_set m k v) k = Some v.
Proof.
  induction m as [|[k' v'] m IH]; cbn; [by rewrite bool_decide_true|].
  case_bool_decide; cbn; [by rewrite bool_decide_true|by rewrite bool_decide_false].
Qed.

Lemma map_get_set_ne m k k' v : k ≠ k' → map_get (map_set m k v) k' = map_get m k'.
Proof.
  intros Hne. induction m as [|[k1 v1] m IH]; cbn; [by rewrite bool_decide_false|].
  case_bool_decide; subst; cbn; [by rewrite bool_decide_false|by rewrite IH].
Qed.

Lemma map_get_delete m k : map_get (map_delete m k) k = None.
Proof.
  induction m as [|[k' v'] m IH]; cbn; [done|]. case_bool_decide; [done|].
  cbn. by rewrite bool_decide_false.
Qed.

Lemma map_get_delete_ne m k k' : k ≠ k' → map_get (map_delete m k) k' = map_get m k'.
Proof.
  intros Hne. induction m as [|[k1 v1] m IH]; cbn; [done|].
  case_bool_decide; subst; cbn; [|by rewrite IH]. by rewrite bool_decide_false.
Qed.

(** Deleting never adds an entry. *)
Lemma map_get_delete_Some m k k' v :
  map_get (map_delete m k) k' = Some v → map_get m k' = Some v ∧ k' ≠ k.
Proof.
  destruct (decide (k = k')) as [->|Hne]; [by rewrite map_get_delete|].
  rewrite map_get_delete_ne by done. auto.
Qed.

Lemma map_set_length m k v :
  length (map_set m k v) = (if map_has m k then length m else S (length m)).
Proof.
  unfold map_has. induction m as [|[k' v'] m IH]; cbn; [done|].
  case_bool_decide; cbn; [done|]. rewrite IH. by destruct (map_get m k).
Qed.

Lemma map_delete_length m k :
  (length (map_delete m k) ≤ length m)%nat ∧
  (map_has m k = true → length (map_delete m k) < length m)%nat.
Proof.
  unfold map_has. induction m as [|[k' v'] m [IH1 IH2]]; cbn; [done|].
  case_bool_decide; cbn; [lia|]. split; [lia|]. intros Hs. apply IH2 in Hs. lia.
Qed.

Lemma map_oldest_has m k : map_oldest m = Some k → map_has m k = true.
Proof.
  unfold map_has, map_oldest. destruct m as [|[k' v'] m]; cbn; [done|].
  intros [= ->]. by rewrite bool_decide_true.
Qed.

(** The eviction the bounded stores share: at capacity, drop the oldest entry. *)
Definition evict (max : Z) m : list (string * V) :=
  if Z.of_nat (length m) <? max then m
  else match map_oldest m with Some k => map_delete m k | None => m end.

Lemma evict_length max m :
  0 ≤ max → Z.of_nat (length m) ≤ Z.max 1 max → (length (evict max m) = 0%nat ∨ Z.of_nat (length (evict max m)) < max).
Proof.
  intros Hm Hlen. unfold evict. destruct (Z.ltb_spec (Z.of_nat (length m)) max); [lia|].
  destruct (map_oldest m) as [k|] eqn:Hk.
  - apply map_oldest_has in Hk. destruct (map_delete_length m k) as [_ Hd]. specialize (Hd Hk). lia.
  - destruct m; [by left|done].
Qed.

Lemma evict_get max m k v : map_get (evict max m) k = Some v → map_get m k = Some v.
Proof.
  unfold evict. case_match; [done|]. destruct (map_oldest m); [|done].
  intros E. by apply map_get_delete_Some in E as [? _].
Qed.

Lemma evict_set_length max m k v :
  0 ≤ max → Z.of_nat (length m) ≤ Z.max 1 max →
  Z.of_nat (length (map_set (evict max m) k v)) ≤ Z.max 1 max.
Proof.
  intros Hm Hlen. pose proof (evict_length max m Hm Hlen) as H. rewrite map_set_length.
  destruct (map_has (evict max m) k); lia.
Qed.
End ordered_map.

Create HintDb ordered_map discriminated.
#[export] Hint Rewrite @map_get_set @map_get_delete : ordered_map.
#[export] Hint Rewrite @map_get_set_ne @map_get_delete_ne using done : ordered_map.
