(* ===== verification/LineExchange.v ===== *)
(** * One line each way: the exchange with a sidecar

    [sign-client.ts], [secret-client.ts] and [session-client.ts] open a loopback connection
    per call, write one JSON line and settle a promise with the first line that comes back.
    The three closures differ in how the line is read and in the error they raise; the
    state machine is stated once over those two. *)
From S2P Require Import Prelude Bytes Float64 Cbor JsValue JsString.
Open Scope Z_scope.

(** ** Text of a chunk *)

Definition REPLACEMENT : bytes := [0xef; 0xbf; 0xbd].

(** The bytes that may follow a lead byte, and how many follow it in all. *)
Definition utf8_lead (b : Z) : option (Z * Z * nat) :=
  if in_range 0xc2 0xdf b then Some (0x80, 0xbf, 1%nat)
  else if b =? 0xe0 then Some (0xa0, 0xbf, 2%nat)
  else if b =? 0xed then Some (0x80, 0x9f, 2%nat)
  else if in_range 0xe1 0xef b then Some (0x80, 0xbf, 2%nat)
  else if b =? 0xf0 then Some (0x90, 0xbf, 3%nat)
  else if in_range 0xf1 0xf3 b then Some (0x80, 0xbf, 3%nat)
  else if b =? 0xf4 then Some (0x80, 0x8f, 3%nat)
  else None.

(** [chunk.toString('utf8')]: a maximal ill-formed piece becomes one U+FFFD. *)
Fixpoint utf8_lossy (bs : bytes) : bytes :=
  match bs with
  | [] => []
  | b0 :: r0 =>
      if b0 <? 0x80 then b0 :: utf8_lossy r0
      else match utf8_lead b0, r0 with
           | None, _ => REPLACEMENT ++ utf8_lossy r0
           | Some _, [] => REPLACEMENT
           | Some (lo, hi, n), b1 :: r1 =>
               if negb (in_range lo hi b1) then REPLACEMENT ++ utf8_lossy r0
               else if (n =? 1)%nat then b0 :: b1 :: utf8_lossy r1
               else match r1 with
                    | [] => REPLACEMENT
                    | b2 :: r2 =>
                        if negb (utf8_cont b2) then REPLACEMENT ++ utf8_lossy r1
                        else if (n =? 2)%nat then b0 :: b1 :: b2 :: utf8_lossy r2
                        else match r2 with
                             | [] => REPLACEMENT
                             | b3 :: r3 =>
                                 if negb (utf8_cont b3) then REPLACEMENT ++ utf8_lossy r2
                                 else b0 :: b1 :: b2 :: b3 :: utf8_lossy r3
                             end
                    end
           end
  end.

Definition chunk_text (chunk : bytes) : string := string_of_bytes (utf8_lossy chunk).

(** ** The exchange *)

Inductive sock_event :=
  | EvConnect
  | EvData (chunk : bytes)
  | EvError (message : string)
  | EvClose.

(** What one of the clients makes of a line, and the error it reports a failure with. *)
Class LineSeam (A : Type) := { parse_line : string → result A; unavailable : string → exn }.

Definition newline : Ascii.ascii := ascii_of_byte 10.

Section exchange.
Context {A : Type} {seam : LineSeam A}.

(** The closure of one call: the text received, and what the promise was settled with. *)
Record exchange_state := mkExchange { buffer : string; settled : option (result A) }.

Definition exchange_init : exchange_state := mkExchange "" None.

(** [settle]: only the first call has an effect. *)
Definition settle (s : exchange_state) (r : result A) : exchange_state :=
  match settled s with
  | Some _ => s
  | None => mkExchange (buffer s) (Some r)
  end.

Definition exchange_step (s : exchange_state) (e : sock_event) : exchange_state :=
  match e with
  | EvConnect => s
  | EvData chunk =>
      let s := mkExchange (buffer s +:+ chunk_text chunk) (settled s) in
      match cut_at newline (buffer s) with
      | None => s
      | Some (line, _) => settle s (parse_line line)
      end
  | EvError message => settle s (Throw (unavailable message))
  | EvClose => settle s (Throw (unavailable "connection closed before a response"))
  end.

(** What the timer settles the promise with. *)
Definition timed_out (timeoutMs : Z) : exn := unavailable ("timeout after " +:+ pretty timeoutMs +:+ "ms").

(** What the promise settles with, for the events of the socket until the timer fires:
    the timer ends an exchange that no event has ended. *)
Definition exchange (timeoutMs : Z) (events : list sock_event) : result A :=
  match settled (settle (foldl exchange_step exchange_init events) (Throw (timed_out timeoutMs))) with
  | Some r => r
  | None => Throw (timed_out timeoutMs)
  end.
End exchange.
#[global] Arguments exchange_state : clear implicits.

(** What the socket is written when it connects. *)
Definition line_write (line : string) (e : sock_event) : option string :=
  match e with EvConnect => Some (line +:+ String newline "") | _ => None end.

(** ** Facts *)

Lemma cut_at_app_None sep a b : cut_at sep (a +:+ b) = None → cut_at sep a = None.
Proof.
  induction a as [|c a IH]; [done|]. rewrite str_app_cons. cbn. destruct (Ascii.eqb c sep); [done|].
  destruct (cut_at sep (a +:+ b)) as [[]|]; [done|]. by intros _; rewrite IH.
Qed.

Lemma cut_at_Some sep s a b :
  cut_at sep s = Some (a, b) ↔ s = a +:+ String sep b ∧ no_char sep a = true.
Proof.
  split; [|intros [-> Ha]; by apply cut_at_first].
  revert a b. induction s as [|c s IH]; intros a b; [done|]. cbn.
  destruct (Ascii.eqb_spec c sep) as [->|Hne]; [by intros [= <- <-]|].
  destruct (cut_at sep s) as [[a' b']|]; [|done]. intros [= <- <-].
  destruct (IH a' b' eq_refl) as [-> Ha]. rewrite str_app_cons. cbn.
  by destruct (Ascii.eqb_spec c sep).
Qed.

#[global] Arguments newline : simpl never.

(** Text received by some events. *)
Fixpoint event_text (es : list sock_event) : string :=
  match es with
  | [] => ""
  | EvData chunk :: es => chunk_text chunk +:+ event_text es
  | _ :: es => event_text es
  end.

(** Events that do not end an exchange by themselves. *)
Definition quiet (e : sock_event) : Prop :=
  match e with EvConnect | EvData _ => True | _ => False end.

Section facts.
Context {A : Type} {seam : LineSeam A}.
Implicit Types (s : exchange_state A) (es : list sock_event).

Lemma settled_stays s r es : settled s = Some r → settled (foldl exchange_step s es) = Some r.
Proof using.
  revert s. induction es as [|e es IH]; intros s Hs; [done|]. apply IH.
  destruct e; cbn; unfold settle; rewrite ?Hs; [done| |by rewrite ?Hs..].
  destruct (cut_at _ _) as [[??]|]; cbn; by rewrite ?Hs.
Qed.

(** Until a newline arrives, the exchange only gathers text. *)
Lemma gather buf es :
  Forall quiet es → cut_at newline (buf +:+ event_text es) = None →
  foldl exchange_step (mkExchange buf None) es = mkExchange (buf +:+ event_text es) None.
Proof using.
  intros Hq. revert buf. induction Hq as [|e es He Hq IH]; intros buf Hc; cbn in *; [by rewrite str_app_nil|].
  destruct e as [|chunk| |]; try done; cbn.
  - by apply IH.
  - rewrite <- str_app_assoc in Hc |- *. rewrite (cut_at_app_None _ _ _ Hc). by apply IH.
Qed.

(** The data event that completes the first line settles the exchange. *)
Lemma first_line_settles buf es chunk more line tail :
  Forall quiet es → cut_at newline (buf +:+ event_text es) = None →
  buf +:+ event_text es +:+ chunk_text chunk = line +:+ String newline tail → no_char newline line = true →
  settled (foldl exchange_step (mkExchange buf None) (es ++ EvData chunk :: more)) = Some (parse_line line).
Proof using.
  intros Hq Hc Ht Hl. rewrite list.foldl_app, gather by done. cbn [foldl]. apply settled_stays.
  unfold exchange_step. cbn [buffer settled].
  rewrite str_app_assoc, Ht, (proj2 (cut_at_Some newline _ line tail) (conj eq_refl Hl)). done.
Qed.

(** A successful exchange, taken apart. *)
Lemma settled_Ok buf es a :
  cut_at newline buf = None → settled (foldl exchange_step (mkExchange buf None) es) = Some (Ok a) →
  ∃ pre chunk post line tail, es = pre ++ EvData chunk :: post ∧ Forall quiet pre ∧
    buf +:+ event_text pre +:+ chunk_text chunk = line +:+ String newline tail ∧
    no_char newline line = true ∧ parse_line line = Ok a.
Proof using.
  revert buf. induction es as [|e es IH]; intros buf Hb Hs; [done|]. cbn [foldl] in Hs.
  destruct e as [|chunk|m|]; cbn in Hs.
  - destruct (IH buf Hb Hs) as (pre & c & post & line & tail & -> & ? & ? & ? & ?).
    exists (EvConnect :: pre), c, post, line, tail. split_and!; try done. by constructor.
  - destruct (cut_at newline (buf +:+ chunk_text chunk)) as [[line tail]|] eqn:Hc.
    + erewrite settled_stays in Hs by reflexivity. injection Hs as Hp. apply cut_at_Some in Hc as [Ht Hl].
      exists [], chunk, es, line, tail. by split_and!.
    + destruct (IH _ Hc Hs) as (pre & c & post & line & tail & -> & Hq & Ht & ? & ?).
      exists (EvData chunk :: pre), c, post, line, tail. cbn. rewrite !str_app_assoc in *.
      split_and!; try done. by constructor.
  - by erewrite settled_stays in Hs by reflexivity.
  - by erewrite settled_stays in Hs by reflexivity.
Qed.

Lemma exchange_settled timeoutMs es r :
  settled (foldl exchange_step exchange_init es) = Some r → exchange timeoutMs es = r.
Proof using. intros E. unfold exchange, settle. by rewrite E, E. Qed.

Lemma exchange_waiting timeoutMs es :
  settled (foldl exchange_step exchange_init es) = None → exchange timeoutMs es = Throw (timed_out timeoutMs).
Proof using. intros E. unfold exchange, settle. by rewrite E. Qed.
End facts.

Lemma utf8_lossy_ascii bs : Forall (λ b, 0 ≤ b < 128) bs → utf8_lossy bs = bs.
Proof.
  induction 1 as [|b bs Hb _ IH]; [done|]. cbn.
  rewrite (proj2 (Z.ltb_lt b 128)) by lia. by rewrite IH.
Qed.

Lemma string_of_bytes_app a b : string_of_bytes (a ++ b) = string_of_bytes a +:+ string_of_bytes b.
Proof. induction a as [|x a IH]; [done|]. cbn. by rewrite IH. Qed.

Lemma event_text_chunks chunks :
  Forall (Forall (λ b, 0 ≤ b < 128)) chunks →
  event_text (map EvData chunks) = string_of_bytes (concat chunks).
Proof.
  induction 1 as [|c chunks Hc _ IH]; [done|]. cbn. rewrite string_of_bytes_app, IH.
  unfold chunk_text. by rewrite utf8_lossy_ascii.
Qed.

Lemma event_text_app a b : event_text (a ++ b) = event_text a +:+ event_text b.
Proof. induction a as [|[] a IH]; cbn; try done. by rewrite IH, str_app_assoc. Qed.

(** The chunk that completes a line, if the chunks together contain one. *)
Lemma first_line chunks line tail :
  event_text (map EvData chunks) = line +:+ String newline tail → no_char newline line = true →
  ∃ pre chunk post tail', chunks = pre ++ chunk :: post ∧
    cut_at newline (event_text (map EvData pre)) = None ∧
    event_text (map EvData pre) +:+ chunk_text chunk = line +:+ String newline tail'.
Proof.
  intros Ht Hl. revert tail Ht.
  induction chunks as [|c chunks IH] using rev_ind; intros tail Ht; [by destruct line|].
  rewrite map_app, event_text_app in Ht. cbn in Ht. rewrite str_app_nil in Ht.
  destruct (cut_at newline (event_text (map EvData chunks))) as [[a b]|] eqn:Hc.
  - apply cut_at_Some in Hc as [Ha Hna].
    assert (a = line ∧ b +:+ chunk_text c = tail) as [-> _].
    { assert (cut_at newline (line +:+ String newline tail) = Some (line, tail)) as E by by apply cut_at_Some.
      rewrite <- Ht, Ha, str_app_assoc, str_app_cons, cut_at_first in E by done. by injection E. }
    destruct (IH _ Ha) as (pre & chunk & post & t' & -> & ? & ?).
    exists pre, chunk, (post ++ [c]), t'. by rewrite <- app_assoc.
  - by exists chunks, c, [], tail.
Qed.

(** An exchange fails closed: it yields a value only from the first complete line, received
    before any error or close; an ASCII line is read the same however it is cut into chunks
    and whatever follows; with neither a line nor an end the timer ends it. *)
Definition fails_closed {A} {seam : LineSeam A} (run : list sock_event → result A) (timeout : exn) : Prop :=
  (∀ events a, run events = Ok a →
     ∃ pre chunk post line tail, events = pre ++ EvData chunk :: post ∧ Forall quiet pre ∧
       event_text pre +:+ chunk_text chunk = line +:+ String newline tail ∧
       no_char newline line = true ∧ parse_line line = Ok a) ∧
  (∀ chunks line tail more,
     Forall (Forall (λ b, 0 ≤ b < 128)) chunks →
     string_of_bytes (concat chunks) = line +:+ String newline tail → no_char newline line = true →
     run (EvConnect :: map EvData chunks ++ more) = parse_line line) ∧
  (∀ events, Forall quiet events → cut_at newline (event_text events) = None → run events = Throw timeout).

Lemma exchange_fails_closed {A} {seam : LineSeam A} timeoutMs :
  fails_closed (exchange timeoutMs) (timed_out timeoutMs).
Proof.
  unfold fails_closed. split_and!.
  - intros events a Ha. destruct (settled (foldl exchange_step exchange_init events)) as [r|] eqn:E.
    + rewrite (exchange_settled _ _ _ E) in Ha. subst. by apply (settled_Ok "").
    + by rewrite (exchange_waiting _ _ E) in Ha.
  - intros chunks line tail more Ha Ht Hl. rewrite <- event_text_chunks in Ht by done.
    destruct (first_line chunks line tail Ht Hl) as (pre & chunk & post & t' & -> & Hc & Hx).
    apply exchange_settled. rewrite map_app. cbn [map].
    rewrite <- app_assoc, app_comm_cons. apply first_line_settles with (tail := t'); [|done..].
    constructor; [done|]. clear. induction pre; by constructor.
  - intros events Hq Hc. apply exchange_waiting. unfold exchange_init. by rewrite (gather "" events Hq Hc).
Qed.

(** A character cut by a chunk boundary is read as replacement characters. *)
Example split_character_corrupted :
  chunk_text [0xc3; 0xa9] = string_of_bytes [0xc3; 0xa9] ∧
  chunk_text [0xc3] +:+ chunk_text [0xa9] = string_of_bytes (REPLACEMENT ++ REPLACEMENT).
Proof. done. Qed.
