(* ===== verification/Num64.v ===== *)
(** * Arithmetic on doubles and the conversion of strings to numbers

    The operations of the language the surfaces apply to numbers, on the 64-bit
    representation of [Float64]: sums, products and quotients rounded to nearest even,
    comparison, [Math.floor], [Number(text)] and [Number.parseInt(text, 10)].  Every
    result is the rounding [f64_ratio] of an exact quotient of integers. *)
From S2P Require Import Prelude Bytes Float64 JsString.
Open Scope Z_scope.

(** The double nearest to [(-1)^neg * n / d], ties to even, for [0 <= n] and [0 < d].
    [e] is the exponent of the last place, [q] the mantissa; a mantissa that rounds up to
    the next binade carries into the exponent field by itself. *)
Definition f64_ratio (neg : bool) (n d : Z) : Z :=
  (if neg then 2 ^ 63 else 0) +
  if n =? 0 then 0
  else
    let l := Z.log2 n - Z.log2 d in
    let k := if n * 2 ^ Z.max 0 (- l) <? d * 2 ^ Z.max 0 l then l - 1 else l in
    let e := Z.max (k - 52) (-1074) in
    let num := n * 2 ^ Z.max 0 (- e) in
    let den := d * 2 ^ Z.max 0 e in
    let q := num / den in
    let r := num mod den in
    let q := if (den <? 2 * r) || ((2 * r =? den) && Z.odd q) then q + 1 else q in
    Z.min ((e + 1074) * 2 ^ 52 + q) (f64_inf false).

(** ** Exact values *)

Definition f64_isFinite (x : Z) : bool := negb (f64_expo x =? 2047).
Definition f64_mant (x : Z) : Z := if f64_expo x =? 0 then f64_frac x else 2 ^ 52 + f64_frac x.
Definition f64_exp2 (x : Z) : Z := if f64_expo x =? 0 then -1074 else f64_expo x - 1075.
Definition f64_negate (x : Z) : Z := if f64_isNaN x then f64_NaN else if f64_sign x then x - 2 ^ 63 else x + 2 ^ 63.

(** [(-1)^neg * m * 2^e], rounded *)
Definition f64_dyadic (neg : bool) (m e : Z) : Z := f64_ratio neg (m * 2 ^ Z.max 0 e) (2 ^ Z.max 0 (- e)).

(** The mantissa with its sign. *)
Definition f64_signed (x : Z) : Z := if f64_sign x then - f64_mant x else f64_mant x.

Definition f64_add (a b : Z) : Z :=
  if f64_isNaN a || f64_isNaN b then f64_NaN
  else if negb (f64_isFinite a) then
    if negb (f64_isFinite b) && xorb (f64_sign a) (f64_sign b) then f64_NaN else a
  else if negb (f64_isFinite b) then b
  else
    let e := Z.min (f64_exp2 a) (f64_exp2 b) in
    let s := f64_signed a * 2 ^ (f64_exp2 a - e) + f64_signed b * 2 ^ (f64_exp2 b - e) in
    if s =? 0 then f64_ratio (f64_sign a && f64_sign b) 0 1 else f64_dyadic (s <? 0) (Z.abs s) e.

Definition f64_sub (a b : Z) : Z := f64_add a (f64_negate b).

Definition f64_mul (a b : Z) : Z :=
  let neg := xorb (f64_sign a) (f64_sign b) in
  if f64_isNaN a || f64_isNaN b then f64_NaN
  else if negb (f64_isFinite a) || negb (f64_isFinite b) then
    if (f64_mant a =? 0) || (f64_mant b =? 0) then f64_NaN else f64_inf neg
  else f64_dyadic neg (f64_mant a * f64_mant b) (f64_exp2 a + f64_exp2 b).

Definition f64_div (a b : Z) : Z :=
  let neg := xorb (f64_sign a) (f64_sign b) in
  if f64_isNaN a || f64_isNaN b then f64_NaN
  else if negb (f64_isFinite a) then if f64_isFinite b then f64_inf neg else f64_NaN
  else if negb (f64_isFinite b) then f64_ratio neg 0 1
  else if f64_mant b =? 0 then if f64_mant a =? 0 then f64_NaN else f64_inf neg
  else
    let e := f64_exp2 a - f64_exp2 b in
    f64_ratio neg (f64_mant a * 2 ^ Z.max 0 e) (f64_mant b * 2 ^ Z.max 0 (- e)).

(** [a < b] and [a <= b]; NaN compares with nothing *)
Definition f64_lt (a b : Z) : bool :=
  negb (f64_isNaN a) && negb (f64_isNaN b) && (f64_key a <? f64_key b).
Definition f64_le (a b : Z) : bool :=
  negb (f64_isNaN a) && negb (f64_isNaN b) && (f64_key a <=? f64_key b).
(** [a === b] for numbers *)
Definition f64_eq (a b : Z) : bool :=
  negb (f64_isNaN a) && negb (f64_isNaN b) && (f64_key a =? f64_key b).

(** [Math.floor(x)] *)
Definition f64_floor (x : Z) : Z :=
  if f64_isNaN x then f64_NaN
  else if f64_isInteger x || negb (f64_isFinite x) then x
  else
    let v := f64_signed x * 2 ^ Z.max 0 (f64_exp2 x) / 2 ^ Z.max 0 (- f64_exp2 x) in
    f64_ratio (f64_sign x) (Z.abs v) 1.

(** ** [Number(text)] *)

Definition digit_value (c : Ascii.ascii) : option Z :=
  let b := byte_of_ascii c in
  if in_range 48 57 b then Some (b - 48)
  else if in_range 97 122 b then Some (b - 87)
  else if in_range 65 90 b then Some (b - 55)
  else None.

(** The digits of a radix at the front: how many, their value, and what follows. *)
Fixpoint digit_run (radix acc : Z) (count : Z) (s : string) : Z * Z * string :=
  match s with
  | String c s' =>
      match digit_value c with
      | Some d => if d <? radix then digit_run radix (radix * acc + d) (count + 1) s' else (count, acc, s)
      | None => (count, acc, s)
      end
  | EmptyString => (count, acc, s)
  end.

(** A whole text of digits of a radix. *)
Definition radix_literal (radix : Z) (s : string) : Z :=
  let '(count, v, rest) := digit_run radix 0 0 s in
  if bool_decide (rest = "") && (0 <? count) then f64_ratio false v 1 else f64_NaN.

(** [+] or [-] at the front. *)
Definition sign_of (s : string) : bool * string :=
  match strip_prefix "-" s with
  | Some r => (true, r)
  | None => (false, default s (strip_prefix "+" s))
  end.

(** [(-1)^neg * v * 10^x], rounded *)
Definition f64_decimal (neg : bool) (v x : Z) : Z :=
  f64_ratio neg (v * 10 ^ Z.max 0 x) (10 ^ Z.max 0 (- x)).

(** The exponent part, if any, up to the end of the text. *)
Definition exponent_part (s : string) : option Z :=
  match s with
  | EmptyString => Some 0
  | String c s =>
      if bool_decide (toLower_char c = ascii_of_byte 101) then
        let '(neg, s) := sign_of s in
        let '(count, x, rest) := digit_run 10 0 0 s in
        if bool_decide (rest = "") && (0 <? count) then Some (if neg then - x else x) else None
      else None
  end.

Definition decimal_literal (neg : bool) (s : string) : Z :=
  let '(n1, v1, s1) := digit_run 10 0 0 s in
  let '(n2, v2, s2) := match strip_prefix "." s1 with
                       | Some r => let '(n, v, r) := digit_run 10 v1 0 r in (n, v, r)
                       | None => (0, v1, s1)
                       end in
  if n1 + n2 =? 0 then f64_NaN
  else match exponent_part s2 with
       | Some x => f64_decimal neg v2 (x - n2)
       | None => f64_NaN
       end.

Definition StringToNumber (text : string) : Z :=
  let s := trim text in
  if bool_decide (s = "") then 0
  else match strip_prefix "0x" (toLowerCase s), strip_prefix "0o" (toLowerCase s), strip_prefix "0b" (toLowerCase s) with
       | Some r, _, _ => radix_literal 16 r
       | _, Some r, _ => radix_literal 8 r
       | _, _, Some r => radix_literal 2 r
       | _, _, _ =>
           let '(neg, r) := sign_of s in
           if bool_decide (r = "Infinity") then f64_inf neg else decimal_literal neg r
       end.

(** [Number.parseInt(text, 10)]: leading digits, whatever follows *)
Definition parseInt10 (text : string) : Z :=
  let '(neg, s) := sign_of (trim text) in
  let '(count, v, _) := digit_run 10 0 0 s in
  if count =? 0 then f64_NaN else f64_ratio neg v 1.

(** ** Exactness on safe integers *)

Lemma pow2_pos k : 0 ≤ k → 0 < 2 ^ k.
Proof. intros. apply Z.pow_pos_nonneg; lia. Qed.

(** The rounding of a quotient depends on the quotient only. *)
Lemma f64_ratio_scale neg n d j : 0 ≤ n → 0 < d → 0 ≤ j → f64_ratio neg (n * 2 ^ j) (d * 2 ^ j) = f64_ratio neg n d.
Proof.
  intros Hn Hd Hj. pose proof (pow2_pos j Hj) as Hp. unfold f64_ratio. cbv zeta. f_equal.
  destruct (Z.eqb_spec n 0) as [->|Hn0]; [done|]. destruct (Z.eqb_spec (n * 2 ^ j) 0); [nia|].
  assert (∀ x, 0 < x → Z.log2 (x * 2 ^ j) = Z.log2 x + j) as Hlog.
  { intros x Hx. rewrite Z.log2_mul_pow2 by lia. lia. }
  rewrite !Hlog by lia. replace (Z.log2 n + j - (Z.log2 d + j)) with (Z.log2 n - Z.log2 d) by lia.
  set (l := Z.log2 n - Z.log2 d).
  assert (∀ a b, (a * 2 ^ j <? b * 2 ^ j) = (a <? b)) as Hlt.
  { intros a b. destruct (Z.ltb_spec (a * 2 ^ j) (b * 2 ^ j)), (Z.ltb_spec a b); nia. }
  assert (∀ a b, (a * 2 ^ j =? b * 2 ^ j) = (a =? b)) as Heq.
  { intros a b. destruct (Z.eqb_spec (a * 2 ^ j) (b * 2 ^ j)), (Z.eqb_spec a b); nia. }
  replace (n * 2 ^ j * 2 ^ Z.max 0 (- l)) with (n * 2 ^ Z.max 0 (- l) * 2 ^ j) by ring.
  replace (d * 2 ^ j * 2 ^ Z.max 0 l) with (d * 2 ^ Z.max 0 l * 2 ^ j) by ring.
  rewrite Hlt. set (k := if _ <? _ then _ else _). set (e := Z.max (k - 52) (-1074)).
  replace (n * 2 ^ j * 2 ^ Z.max 0 (- e)) with (n * 2 ^ Z.max 0 (- e) * 2 ^ j) by ring.
  replace (d * 2 ^ j * 2 ^ Z.max 0 e) with (d * 2 ^ Z.max 0 e * 2 ^ j) by ring.
  set (num := n * _). set (den := d * 2 ^ Z.max 0 e).
  assert (0 < den) by (unfold den; pose proof (pow2_pos (Z.max 0 e)); nia).
  rewrite Z.div_mul_cancel_r, Zmult_mod_distr_r by lia.
  replace (2 * (num mod den * 2 ^ j)) with (2 * (num mod den) * 2 ^ j) by ring.
  by rewrite Hlt, Heq.
Qed.

Lemma f64_ratio_int neg n : 0 ≤ n ≤ MAX_SAFE → f64_ratio neg n 1 = f64_make neg n 0.
Proof.
  unfold MAX_SAFE. intros Hn. unfold f64_ratio, f64_make. cbv zeta. f_equal.
  destruct (Z.eqb_spec n 0); [done|]. change (Z.log2 1) with 0. rewrite Z.sub_0_r.
  destruct (make_k n ltac:(lia)) as [Hk [Hlo Hhi]]. set (k := Z.log2 n) in *.
  rewrite (Z.max_l 0 (- k)), (Z.max_r 0 k) by lia. rewrite Z.mul_1_r, Z.mul_1_l.
  destruct (Z.ltb_spec n (2 ^ k)); [lia|].
  rewrite (Z.max_l (k - 52)) by lia. rewrite (Z.max_r 0 (- (k - 52))), (Z.max_l 0 (k - 52)) by lia.
  replace (- (k - 52)) with (52 - k) by lia. rewrite Z.mul_1_r, Z.div_1_r, Z.mod_1_r. rewrite Z.mul_0_r.
  change ((1 <? 0) || ((0 =? 1) && Z.odd (n * 2 ^ (52 - k)))) with false.
  pose proof (make_f n ltac:(lia)) as Hf. fold k in Hf.
  rewrite Z.min_l; [lia|]. unfold f64_inf. lia.
Qed.

Lemma f64_ofZ_parts v : Z.abs v ≤ MAX_SAFE →
  f64_isNaN (f64_ofZ v) = false ∧ f64_isFinite (f64_ofZ v) = true ∧ f64_exp2 (f64_ofZ v) ≤ 0 ∧
  f64_signed (f64_ofZ v) = v * 2 ^ (- f64_exp2 (f64_ofZ v)) ∧ (f64_sign (f64_ofZ v) = true ↔ v < 0).
Proof.
  unfold MAX_SAFE. intros Hv. destruct (decide (v = 0)) as [->|Hnz]; [by vm_compute|].
  assert (0 < Z.abs v < 2 ^ 53) as Hm by lia. destruct (make_k _ Hm) as [Hk _].
  destruct (make_fields _ Hm (v <? 0) 0 ltac:(lia)) as (Hs & He & Hf & Hb).
  unfold f64_isNaN, f64_isFinite, f64_exp2, f64_signed, f64_mant, f64_ofZ. rewrite Hs, He, Hf.
  set (k := Z.log2 (Z.abs v)) in *. destruct (Z.eqb_spec (k + 0 + 1023) 2047); [lia|].
  destruct (Z.eqb_spec (k + 0 + 1023) 0); [lia|]. replace (- (k + 0 + 1023 - 1075)) with (52 - k) by lia.
  split_and!; try done; try lia; destruct (Z.ltb_spec v 0); try lia; split; intros; try lia; done.
Qed.

(** [x] is finite, with the integer value [v]. *)
Definition f64_holds (x v : Z) : Prop :=
  f64_isNaN x = false ∧ f64_isFinite x = true ∧ f64_exp2 x ≤ 0 ∧ f64_signed x = v * 2 ^ (- f64_exp2 x).

(** A sum of integers is exact as long as it is safe. *)
Lemma f64_add_holds x y a b :
  f64_holds x a → f64_holds y b → Z.abs (a + b) ≤ MAX_SAFE → (f64_sign x && f64_sign y = true → a + b ≠ 0) →
  f64_add x y = f64_ofZ (a + b).
Proof.
  intros (Na & Fa & Ea & Sa) (Nb & Fb & Eb & Sb) Hab Hs.
  unfold f64_add. rewrite Na, Nb, Fa, Fb, Sa, Sb. cbn [orb negb]. cbv zeta.
  set (i := f64_exp2 x) in *. set (j := f64_exp2 y) in *. set (e := Z.min i j).
  replace (a * 2 ^ (- i) * 2 ^ (i - e)) with (a * 2 ^ (- e)) by (rewrite <- Z.mul_assoc, <- Z.pow_add_r by lia; do 2 f_equal; lia).
  replace (b * 2 ^ (- j) * 2 ^ (j - e)) with (b * 2 ^ (- e)) by (rewrite <- Z.mul_assoc, <- Z.pow_add_r by lia; do 2 f_equal; lia).
  rewrite <- Z.mul_add_distr_r. pose proof (pow2_pos (- e) ltac:(lia)) as Hp.
  destruct (Z.eqb_spec ((a + b) * 2 ^ (- e)) 0) as [E|E].
  - assert (a + b = 0) as Hz by nia. rewrite Hz. by destruct (f64_sign x && f64_sign y); [destruct Hs|].
  - assert (((a + b) * 2 ^ (- e) <? 0) = (a + b <? 0)) as ->.
    { destruct (Z.ltb_spec ((a + b) * 2 ^ (- e)) 0), (Z.ltb_spec (a + b) 0); nia. }
    rewrite Z.abs_mul, (Z.abs_eq (2 ^ (- e))) by lia. unfold f64_dyadic.
    rewrite (Z.max_l 0 e), (Z.max_r 0 (- e)) by lia. rewrite Z.mul_1_r.
    rewrite <- (Z.mul_1_l (2 ^ (- e))) at 2. rewrite f64_ratio_scale by lia. apply f64_ratio_int. lia.
Qed.

Lemma f64_holds_ofZ v : Z.abs v ≤ MAX_SAFE → f64_holds (f64_ofZ v) v.
Proof. intros Hv. by destruct (f64_ofZ_parts v Hv) as (? & ? & ? & ? & _). Qed.

Lemma f64_add_ofZ a b :
  Z.abs a ≤ MAX_SAFE → Z.abs b ≤ MAX_SAFE → Z.abs (a + b) ≤ MAX_SAFE →
  f64_add (f64_ofZ a) (f64_ofZ b) = f64_ofZ (a + b).
Proof.
  intros Ha Hb Hab. apply f64_add_holds; [by apply f64_holds_ofZ..|done|].
  destruct (f64_ofZ_parts a Ha) as (_ & _ & _ & _ & Ga), (f64_ofZ_parts b Hb) as (_ & _ & _ & _ & Gb).
  intros [?%Ga ?%Gb]%andb_prop. lia.
Qed.

Lemma f64_negate_ofZ v : Z.abs v ≤ MAX_SAFE → v ≠ 0 → f64_negate (f64_ofZ v) = f64_ofZ (- v).
Proof.
  intros Hv Hnz. destruct (f64_ofZ_parts v Hv) as (Hn & _ & _ & _ & Hs). unfold f64_negate. rewrite Hn.
  unfold f64_ofZ, f64_make in *. rewrite Z.abs_opp.
  destruct (f64_sign _); destruct (Z.ltb_spec v 0), (Z.ltb_spec (- v) 0); lia.
Qed.

(** So is a difference. *)
Lemma f64_sub_ofZ a b :
  Z.abs a ≤ MAX_SAFE → Z.abs b ≤ MAX_SAFE → Z.abs (a - b) ≤ MAX_SAFE →
  f64_sub (f64_ofZ a) (f64_ofZ b) = f64_ofZ (a - b).
Proof.
  intros Ha Hb Hab. unfold f64_sub. destruct (decide (b = 0)) as [->|Hnz].
  - rewrite <- (Z.add_opp_r a 0). apply f64_add_holds; [by apply f64_holds_ofZ|by vm_compute|by rewrite Z.add_opp_r|].
    destruct (f64_ofZ_parts a Ha) as (_ & _ & _ & _ & Ga). intros [?%Ga _]%andb_prop. lia.
  - rewrite f64_negate_ofZ by done. rewrite f64_add_ofZ by lia. done.
Qed.

(** The order of safe integers is that of their keys. *)
Lemma f64_key_ofZ v : Z.abs v ≤ MAX_SAFE →
  (f64_key (f64_ofZ v) < 0 ↔ v < 0) ∧ (f64_key (f64_ofZ v) = 0 ↔ v = 0).
Proof.
  unfold MAX_SAFE. intros Hv. destruct (decide (v = 0)) as [->|Hnz]; [by vm_compute|].
  assert (0 < Z.abs v < 2 ^ 53) as Hm by lia. destruct (make_k _ Hm) as [Hk _]. pose proof (make_f _ Hm) as Hf.
  destruct (make_fields _ Hm (v <? 0) 0 ltac:(lia)) as (Hs & _). unfold f64_key. unfold f64_ofZ. rewrite Hs.
  unfold f64_make. destruct (Z.eqb_spec (Z.abs v) 0); [lia|]. set (k := Z.log2 (Z.abs v)) in *.
  destruct (Z.ltb_spec v 0); lia.
Qed.

Example StringToNumber_samples :
  map StringToNumber ["250"; " 1e3 "; ".5"; "0x10"; "1.5e-3"; "abc"; "1_0"; "-0"; "Infinity"; ""] =
  [f64_ofZ 250; f64_ofZ 1000; 0x3fe0000000000000; f64_ofZ 16; 0x3f589374bc6a7efa; f64_NaN; f64_NaN; 2 ^ 63; f64_inf false; 0].
Proof. vm_compute. reflexivity. Qed.
