(* ===== verification/Cache.v ===== *)
(** * The ephemeral read cache ([apps/bff/src/cache.ts])

    [EphemeralCache]: a bounded, version-tagged, expiring map.  The clock is read by
    [get] and [set]; each operation here takes the time it reads. *)
From S2P Require Import Prelude Bytes JsString.
Open Scope Z_scope.

Section cache.
Context {V : Type} (ttlMs maxEntries : Z).

Record Entry := mkEntry { entry_value : V; entry_version : string; entry_expiresAt : Z }.

Definition cache : Type := list (string * Entry).

Definition cache_get (c : cache) (key version : string) (now : Z) : option V * cache :=
  match map_get c key with
  | None => (None, c)
  | Some entry =>
      if negb (bool_decide (entry_version entry = version)) || (entry_expiresAt entry <=? now)
      then (None, map_delete c key)
      else (Some (entry_value entry), c)
  end.

Definition cache_set (c : cache) (key : string) (v : V) (version : string) (now : Z) : cache :=
  let entries := map_delete c key in
  let entries :=
    if maxEntries <=? Z.of_nat (length entries)
    then match map_oldest entries with Some oldest => map_delete entries oldest | None => entries end
    else entries in
  map_set entries key (mkEntry v version (now + ttlMs)).

(** [for (const key of [...keys]) if (key.startsWith(prefix)) delete key] *)
Definition cache_deletePrefix (c : cache) (prefix : string) : cache :=
  foldl (λ (c : cache) key, if startsWith key prefix then map_delete c key else c) c c.*1.

Definition cache_clear (c : cache) : cache := [].
Definition cache_size (c : cache) : Z := Z.of_nat (length c).

(** ** Runs and their specification *)

Inductive cache_op :=
  | OpGet (key version : string) (now : Z)
  | OpSet (key : string) (v : V) (version : string) (now : Z)
  | OpDeletePrefix (prefix : string)
  | OpClear.

Definition cache_step (c : cache) (op : cache_op) : cache :=
  match op with
  | OpGet key version now => (cache_get c key version now).2
  | OpSet key v version now => cache_set c key v version now
  | OpDeletePrefix prefix => cache_deletePrefix c prefix
  | OpClear => cache_clear c
  end.

Definition cache_run (ops : list cache_op) : cache := foldl cache_step [] ops.

(** What an unbounded, never-expiring store would hold: the last write of each key
    that no later prefix deletion or clear removed. *)
Definition spec_step (s : string → option Entry) (op : cache_op) : string → option Entry :=
  match op with
  | OpGet _ _ _ => s
  | OpSet key v version now => λ k, if bool_decide (k = key) then Some (mkEntry v version (now + ttlMs)) else s k
  | OpDeletePrefix prefix => λ k, if startsWith k prefix then None else s k
  | OpClear => λ _, None
  end.

Definition spec_run (ops : list cache_op) : string → option Entry := foldl spec_step (λ _, None) ops.

(** [cache_set] evicts through [evict]. *)
Lemma cache_set_evict c key v version now :
  cache_set c key v version now =
  map_set (evict maxEntries (map_delete c key)) key (mkEntry v version (now + ttlMs)).
Proof.
  unfold cache_set, evict.
  destruct (Z.leb_spec maxEntries (Z.of_nat (length (map_delete c key)))),
    (Z.ltb_spec (Z.of_nat (length (map_delete c key))) maxEntries); lia || done.
Qed.

Lemma deletePrefix_fold (c : cache) prefix ks k :
  map_get (foldl (λ (c : cache) key, if startsWith key prefix then map_delete c key else c) c ks) k =
  if startsWith k prefix && bool_decide (k ∈ ks) then None else map_get c k.
Proof.
  revert c. induction ks as [|k' ks IH]; intros c.
  { cbn. by rewrite andb_false_r. }
  cbn [foldl]. rewrite IH. destruct (decide (k = k')) as [<-|Hne].
  - rewrite (bool_decide_true (k ∈ k :: ks)) by set_solver. rewrite andb_true_r.
    destruct (startsWith k prefix) eqn:Hp; cbn; [|done].
    rewrite map_get_delete. by destruct (bool_decide _).
  - assert (bool_decide (k ∈ k' :: ks) = bool_decide (k ∈ ks)) as ->
      by (apply bool_decide_ext; set_solver).
    case_match; [done|]. destruct (startsWith k' prefix); [|done]. by rewrite map_get_delete_ne.
Qed.

Lemma map_get_elem {A} (m : list (string * A)) k v : map_get m k = Some v → k ∈ m.*1.
Proof.
  induction m as [|[k' v'] m IH]; cbn; [done|]. case_bool_decide; set_solver.
Qed.

(** Prefix deletion removes exactly the keys with the prefix. *)
Lemma deletePrefix_get c prefix k :
  map_get (cache_deletePrefix c prefix) k = if startsWith k prefix then None else map_get c k.
Proof.
  unfold cache_deletePrefix. rewrite deletePrefix_fold.
  destruct (startsWith k prefix); [|done]. cbn.
  case_bool_decide as Hin; [done|]. destruct (map_get c k) as [e|] eqn:E; [|done].
  by apply map_get_elem in E.
Qed.

(** The cache never holds anything the specification does not. *)
Definition below (c : cache) (s : string → option Entry) : Prop :=
  ∀ k e, map_get c k = Some e → s k = Some e.

Lemma below_step c s op : below c s → below (cache_step c op) (spec_step s op).
Proof.
  intros Hb k e. destruct op as [key version now|key v version now|prefix|]; cbn [cache_step spec_step].
  - unfold cache_get. destruct (map_get c key); [|apply Hb]. case_match; cbn; [|apply Hb].
    intros [E _]%map_get_delete_Some. by apply Hb.
  - rewrite cache_set_evict. case_bool_decide as Hk.
    + subst. by rewrite map_get_set.
    + rewrite map_get_set_ne by done. intros [E _]%evict_get%map_get_delete_Some. by apply Hb.
  - rewrite deletePrefix_get. destruct (startsWith k prefix); [done|apply Hb].
  - done.
Qed.

Lemma below_run ops : below (cache_run ops) (spec_run ops).
Proof.
  unfold cache_run, spec_run.
  assert (∀ c s, below c s → below (foldl cache_step c ops) (foldl spec_step s ops)) as H.
  { induction ops as [|op ops IH]; [done|]. intros c s Hb. cbn. by apply IH, below_step. }
  apply H. done.
Qed.

Lemma foldl_delete_length (c : cache) prefix ks :
  (length (foldl (λ (c : cache) key, if startsWith key prefix then map_delete c key else c) c ks) ≤ length c)%nat.
Proof.
  revert c. induction ks as [|k ks IH]; intros c; cbn; [done|].
  etrans; [apply IH|]. destruct (startsWith k prefix); [|done]. apply map_delete_length.
Qed.

Lemma bound_step c op :
  0 ≤ maxEntries → cache_size c ≤ Z.max 1 maxEntries → cache_size (cache_step c op) ≤ Z.max 1 maxEntries.
Proof.
  intros Hm. unfold cache_size. intros Hb. destruct op as [key version now|key v version now|prefix|];
    cbn [cache_step].
  - unfold cache_get. destruct (map_get c key); [|done]. case_match; cbn; [|done].
    pose proof (map_delete_length c key). lia.
  - rewrite cache_set_evict. apply evict_set_length; [done|].
    pose proof (map_delete_length c key). lia.
  - pose proof (foldl_delete_length c prefix c.*1). unfold cache_deletePrefix. lia.
  - change (Z.of_nat (length (cache_clear c))) with 0. lia.
Qed.

(** every hit is right.  After any sequence of operations, a lookup returns a
    value only if it is what the last write of that key stored, that write was made
    at the requested engine version, no later prefix deletion or clear removed it,
    and its time to live has not passed. *)
Theorem cache_hit_sound ops key version now v :
  (cache_get (cache_run ops) key version now).1 = Some v →
  ∃ e, spec_run ops key = Some e ∧ entry_value e = v ∧ entry_version e = version ∧
       now < entry_expiresAt e.
Proof.
  unfold cache_get. destruct (map_get (cache_run ops) key) as [e|] eqn:E; [|done].
  case_bool_decide as Hv; [|done]. cbn. destruct (Z.leb_spec (entry_expiresAt e) now); [done|].
  intros [= <-]. exists e. apply below_run in E. auto.
Qed.

(** The cache is bounded: no sequence of operations makes it hold more than
    its capacity (or one entry, if the capacity is zero). *)
Theorem cache_bounded ops :
  0 ≤ maxEntries → cache_size (cache_run ops) ≤ Z.max 1 maxEntries.
Proof.
  intros Hm. unfold cache_run.
  assert (∀ c, cache_size c ≤ Z.max 1 maxEntries →
               cache_size (foldl cache_step c ops) ≤ Z.max 1 maxEntries) as H.
  { induction ops as [|op ops IH]; [done|]. intros c Hc. cbn. by apply IH, bound_step. }
  apply H. change (cache_size []) with 0. lia.
Qed.

(** A value just stored is found, until it expires. *)
Lemma cache_get_set c key v version now now' :
  now' < now + ttlMs → (cache_get (cache_set c key v version now) key version now').1 = Some v.
Proof.
  intros Ht. rewrite cache_set_evict. unfold cache_get. rewrite map_get_set. cbn.
  rewrite bool_decide_true by done. cbn. by destruct (Z.leb_spec (now + ttlMs) now'); [lia|].
Qed.
End cache.

Arguments Entry V : clear implicits.
Arguments cache V : clear implicits.
Arguments cache_op V : clear implicits.

(** ** Witnesses *)

Definition sample_ops : list (cache_op Z) :=
  [OpSet "vtz:a:1" 10 "v1" 0; OpSet "vtz:b:1" 20 "v1" 0; OpDeletePrefix "vtz:b:"; OpSet "x" 30 "v2" 5].

Lemma cache_hit_sound_witness :
  ∃ e, spec_run 100 sample_ops "vtz:a:1" = Some e ∧ entry_value e = 10 ∧ entry_version e = "v1" ∧
       50 < entry_expiresAt e.
Proof. apply (cache_hit_sound 100 8). vm_compute. reflexivity. Defined.

Lemma cache_bounded_witness : cache_size (cache_run 100 2 sample_ops) ≤ Z.max 1 2.
Proof. apply cache_bounded. lia. Defined.
