(* ===== verification/Rbac.v ===== *)
(** * Operator authority ([apps/bff/src/auth/tier.ts], [rbac.ts], [engine/principal.ts])

    How a verified operator's groups become a role, a tenant and an EXPLAIN tier, and
    how a session becomes the principal an engine call is made on behalf of.  The
    configuration maps are objects parsed from the deployment's configuration; a
    lookup that reaches [Object.prototype] instead ([constructor] and the like) finds
    no role, no tenant and no tier, so it is modelled as a miss. *)
From S2P Require Import Prelude Bytes JsString.
Open Scope Z_scope.

(** ** tier.ts *)

Inductive ExplainTier := User | Developer | Admin | SecurityAudit.
Inductive OperatorRole := global_admin | tenant_admin | tenant_user.

#[global] Instance ExplainTier_eq_dec : EqDecision ExplainTier.
Proof. solve_decision. Defined.
#[global] Instance OperatorRole_eq_dec : EqDecision OperatorRole.
Proof. solve_decision. Defined.

Definition TIER_ORDER : list ExplainTier := [User; Developer; Admin; SecurityAudit].

(** [xs.indexOf(x)] *)
Fixpoint index_of {A} `{EqDecision A} (x : A) (xs : list A) : Z :=
  match xs with
  | [] => -1
  | y :: ys => if bool_decide (x = y) then 0
               else let i := index_of x ys in if i =? -1 then -1 else i + 1
  end.

Definition DEFAULT_ROLE_TIERS : list (string * ExplainTier) :=
  [("console-user", User); ("console-developer", Developer); ("console-admin", Admin);
   ("console-security-audit", SecurityAudit)].

Definition tierForRole (role : OperatorRole) : ExplainTier :=
  match role with
  | global_admin => Admin
  | tenant_admin => Admin
  | tenant_user => User
  end.

Definition tier_rank (t : ExplainTier) : Z := index_of t TIER_ORDER.

Definition maxTier (a b : ExplainTier) : ExplainTier :=
  if tier_rank b <=? tier_rank a then a else b.

Definition deriveTier (roles : list string) (roleTiers : list (string * ExplainTier)) : ExplainTier :=
  foldl (λ tier role,
    match map_get roleTiers (toLowerCase role) with
    | Some mapped => if tier_rank tier <? tier_rank mapped then mapped else tier
    | None => tier
    end) User roles.

(** ** rbac.ts *)

Definition ROLE_ORDER : list OperatorRole := [tenant_user; tenant_admin; global_admin].
Definition role_rank (r : OperatorRole) : Z := index_of r ROLE_ORDER.

Record RoleGrant := mkGrant { grant_role : OperatorRole; grant_tenant : option string }.

Record RbacConfig := mkRbac {
  groupRoles : list (string * RoleGrant);
  localRbac : list (string * RoleGrant);
  defaultTenant : option string
}.

Record OperatorAuthority := mkAuthority {
  authority_role : OperatorRole;
  activeTenant : string;
  allTenants : bool
}.

Definition highestGroupGrant (groups : list string) (roles : list (string * RoleGrant)) : option RoleGrant :=
  foldl (λ best group,
    match map_get roles group with
    | Some grant =>
        match best with
        | None => Some grant
        | Some b => if role_rank (grant_role b) <? role_rank (grant_role grant) then Some grant else best
        end
    | None => best
    end) None groups.

Definition resolveAuthority (subject : string) (groups : list string) (config : RbacConfig)
    : option OperatorAuthority :=
  let grant := match groups with
               | _ :: _ => highestGroupGrant groups (groupRoles config)
               | [] => map_get (localRbac config) subject
               end in
  match grant with
  | None => None
  | Some g =>
      if bool_decide (grant_role g = global_admin) then
        match defaultTenant config with
        | None => None
        | Some t => Some (mkAuthority global_admin t true)
        end
      else match grant_tenant g with
           | None => None
           | Some t => Some (mkAuthority (grant_role g) t false)
           end
  end.

(** The Settings view: grants sorted by key, a global admin's tenant hidden. *)
Record RbacGrantRow := mkRow { row_key : string; row_role : OperatorRole; row_tenant : option string }.
Record RbacConfigView := mkView {
  view_groupRoles : list RbacGrantRow; view_localRbac : list RbacGrantRow;
  view_defaultTenant : option string }.

Fixpoint insert_sorted (k : string) (ks : list string) : list string :=
  match ks with
  | [] => [k]
  | k' :: ks => if String.leb k k' then k :: k' :: ks else k' :: insert_sorted k ks
  end.

(** [keys.sort()] *)
Definition sort_keys (ks : list string) : list string := foldr insert_sorted [] ks.

Definition grantRows (m : list (string * RoleGrant)) : list RbacGrantRow :=
  omap (λ key, match map_get m key with
               | Some g => Some (mkRow key (grant_role g)
                   (if bool_decide (grant_role g = global_admin) then None else grant_tenant g))
               | None => None
               end) (sort_keys m.*1).

Definition rbacConfigView (config : RbacConfig) : RbacConfigView :=
  mkView (grantRows (groupRoles config)) (grantRows (localRbac config)) (defaultTenant config).

(** ** Sessions and principals *)

Record OperatorIdentity := mkIdentity {
  id_subject : string; id_email : option string; id_tier : ExplainTier;
  id_principalId : string; id_tenant : string; id_role : OperatorRole }.

Record OperatorSession := mkSession {
  sessionId : string; subject : string; email : option string; tier : ExplainTier;
  principalId : string; tenant : string; role : OperatorRole; expiresAt : Z }.

Record OperatorPrincipal := mkPrincipal {
  p_subject : string; p_tier : ExplainTier; p_principalId : string; p_tenant : string;
  settingsTier : option ExplainTier }.

Definition principalFromSession (session : OperatorSession) (activeTenantOverride : option string)
    : OperatorPrincipal :=
  let override := trim <$> activeTenantOverride in
  let is_global := bool_decide (role session = global_admin) in
  let tenant :=
    match override with
    | Some o => if is_global && negb (bool_decide (o = "")) then o else tenant session
    | None => tenant session
    end in
  mkPrincipal (subject session) (tier session) (principalId session) tenant
    (if is_global then Some (tier session) else None).

(** ** Properties *)

Arguments tier_rank : simpl never.
Arguments role_rank : simpl never.

Lemma tier_rank_inj a b : tier_rank a = tier_rank b → a = b.
Proof. by destruct a, b. Qed.
Lemma tier_rank_bound t : 0 ≤ tier_rank t ≤ 3.
Proof. destruct t; vm_compute; split; congruence. Qed.
Lemma role_rank_inj a b : role_rank a = role_rank b → a = b.
Proof. by destruct a, b. Qed.

Lemma maxTier_rank a b : tier_rank (maxTier a b) = Z.max (tier_rank a) (tier_rank b).
Proof. by destruct a, b. Qed.

Section derive.
Context (roleTiers : list (string * ExplainTier)).

Let step := λ tier role,
  match map_get roleTiers (toLowerCase role) with
  | Some mapped => if tier_rank tier <? tier_rank mapped then mapped else tier
  | None => tier
  end.

(** The tier a single role grants. *)
Definition granted (role : string) : option ExplainTier := map_get roleTiers (toLowerCase role).

Lemma derive_fold roles t0 :
  let t := foldl step t0 roles in
  tier_rank t0 ≤ tier_rank t ∧
  (∀ r m, r ∈ roles → granted r = Some m → tier_rank m ≤ tier_rank t) ∧
  (t = t0 ∨ ∃ r, r ∈ roles ∧ granted r = Some t).
Proof.
  revert t0. induction roles as [|r roles IH]; intros t0; cbn.
  { split; [lia|]. split; [set_solver|by left]. }
  destruct (IH (step t0 r)) as (H1 & H2 & H3).
  assert (tier_rank t0 ≤ tier_rank (step t0 r) ∧
          (∀ m, granted r = Some m → tier_rank m ≤ tier_rank (step t0 r)) ∧
          (step t0 r = t0 ∨ granted r = Some (step t0 r))) as (S1 & S2 & S3).
  { unfold step, granted. destruct (map_get roleTiers (toLowerCase r)) as [m|].
    - destruct (Z.ltb_spec (tier_rank t0) (tier_rank m)); repeat split; try lia; try naive_solver lia.
    - repeat split; [lia|done|by left]. }
  split; [lia|]. split.
  - intros r' m [->|Hin]%elem_of_cons Hg; [|by apply (H2 r')]. apply S2 in Hg. lia.
  - destruct H3 as [->|(r' & Hin & Hg)]; [|right; set_solver].
    destruct S3 as [->|Hg]; [by left|]. right. exists r. set_solver.
Qed.
End derive.

(** The derived tier is exactly the highest tier any of the operator's roles
    maps to, and the least-privileged tier when none maps: nothing is granted that a
    role did not grant, and no granted role is ignored. *)
Theorem deriveTier_highest roles roleTiers t :
  deriveTier roles roleTiers = t ↔
  (∀ r m, r ∈ roles → granted roleTiers r = Some m → tier_rank m ≤ tier_rank t) ∧
  (t = User ∨ ∃ r, r ∈ roles ∧ granted roleTiers r = Some t).
Proof.
  destruct (derive_fold roleTiers roles User) as (H1 & H2 & H3). fold (deriveTier roles roleTiers) in H1, H2, H3.
  split; [by intros <-|]. intros [G1 G2]. apply tier_rank_inj.
  assert (tier_rank (deriveTier roles roleTiers) ≤ tier_rank t).
  { destruct H3 as [->|(r & Hr & Hg)]; [apply tier_rank_bound|by apply (G1 r)]. }
  assert (tier_rank t ≤ tier_rank (deriveTier roles roleTiers)).
  { destruct G2 as [->|(r & Hr & Hg)]; [apply tier_rank_bound|by apply (H2 r)]. }
  lia.
Qed.

(** [g] is the grant of the first group of the highest rank. *)
Definition best_grant (groups : list string) (roles : list (string * RoleGrant)) (g : RoleGrant) : Prop :=
  ∃ pre grp post, groups = pre ++ grp :: post ∧ map_get roles grp = Some g ∧
    (∀ x h, x ∈ pre → map_get roles x = Some h → role_rank (grant_role h) < role_rank (grant_role g)) ∧
    (∀ x h, x ∈ post → map_get roles x = Some h → role_rank (grant_role h) ≤ role_rank (grant_role g)).

Lemma highest_snoc groups x roles :
  highestGroupGrant (groups ++ [x]) roles =
  match map_get roles x, highestGroupGrant groups roles with
  | Some g, None => Some g
  | Some g, Some b => if role_rank (grant_role b) <? role_rank (grant_role g) then Some g else Some b
  | None, b => b
  end.
Proof. unfold highestGroupGrant. rewrite foldl_snoc. by repeat case_match. Qed.

Lemma highest_spec groups roles :
  match highestGroupGrant groups roles with
  | Some g => best_grant groups roles g
  | None => ∀ x, x ∈ groups → map_get roles x = None
  end.
Proof.
  induction groups as [|x groups IH] using rev_ind; [set_solver|]. rewrite highest_snoc.
  destruct (highestGroupGrant groups roles) as [b|].
  - destruct IH as (pre & grp & post & -> & Hg & Hpre & Hpost).
    destruct (map_get roles x) as [g|] eqn:Hx.
    + destruct (Z.ltb_spec (role_rank (grant_role b)) (role_rank (grant_role g))).
      * exists (pre ++ grp :: post), x, []. split_and!; [done|done| |set_solver].
        intros y h Hy Hh. apply elem_of_app in Hy as [Hy|[->|Hy]%elem_of_cons].
        -- specialize (Hpre _ _ Hy Hh). lia.
        -- rewrite Hg in Hh. by injection Hh as <-.
        -- specialize (Hpost _ _ Hy Hh). lia.
      * exists pre, grp, (post ++ [x]). split_and!; [by rewrite <- app_assoc|done|done|].
        intros y h [Hy|Hy]%elem_of_app Hh; [by apply (Hpost y)|].
        apply list_elem_of_singleton in Hy as ->. rewrite Hx in Hh. by injection Hh as <-.
    + exists pre, grp, (post ++ [x]). split_and!; [by rewrite <- app_assoc|done|done|].
      intros y h [Hy|Hy]%elem_of_app Hh; [by apply (Hpost y)|]. set_solver.
  - destruct (map_get roles x) as [g|] eqn:Hx.
    + exists groups, x, []. split_and!; [done|done| |set_solver]. intros y h Hy. by rewrite IH.
    + set_solver.
Qed.

Lemma best_grant_unique groups roles g :
  best_grant groups roles g → highestGroupGrant groups roles = Some g.
Proof.
  intros (pre & grp & post & -> & Hg & Hpre & Hpost). revert Hpost.
  induction post as [|x post IH] using rev_ind; intros Hpost.
  - rewrite highest_snoc, Hg. pose proof (highest_spec pre roles) as Hs.
    destruct (highestGroupGrant pre roles) as [b|]; [|done].
    destruct Hs as (p & q & r & -> & Hq & _). specialize (Hpre q b ltac:(set_solver) Hq).
    by destruct (Z.ltb_spec (role_rank (grant_role b)) (role_rank (grant_role g))); [|lia].
  - change (pre ++ grp :: post ++ [x]) with (pre ++ (grp :: post) ++ [x]).
    rewrite app_assoc, highest_snoc, IH by (intros y h Hy; apply (Hpost y h); set_solver).
    destruct (map_get roles x) as [h|] eqn:Hx; [|done].
    specialize (Hpost x h ltac:(set_solver) Hx).
    by destruct (Z.ltb_spec (role_rank (grant_role g)) (role_rank (grant_role h))); [lia|].
Qed.

(** The grant that decides: the best of the token's groups, or, for a token without
    groups only, the subject's local grant. *)
Definition deciding_grant (subject : string) (groups : list string) (config : RbacConfig) (g : RoleGrant) : Prop :=
  match groups with
  | [] => map_get (localRbac config) subject = Some g
  | _ => best_grant groups (groupRoles config) g
  end.

(** An authority is resolved exactly when there is a deciding grant with a tenant
    to act in: the configured default tenant for a global admin, the grant's own for
    everyone else.  In particular a token that carries groups, none of which maps,
    gets nothing, whatever the local map says about its subject. *)
Theorem resolveAuthority_exact subject groups config a :
  resolveAuthority subject groups config = Some a ↔
  ∃ g, deciding_grant subject groups config g ∧ authority_role a = grant_role g ∧
       (if bool_decide (grant_role g = global_admin)
        then defaultTenant config = Some (activeTenant a) ∧ allTenants a = true
        else grant_tenant g = Some (activeTenant a) ∧ allTenants a = false).
Proof.
  unfold resolveAuthority, deciding_grant. destruct a as [r t al]; cbn. split.
  - destruct (match groups with [] => _ | _ :: _ => _ end) as [g|] eqn:Hg; [|done].
    assert (match groups with
            | [] => map_get (localRbac config) subject = Some g
            | _ => best_grant groups (groupRoles config) g end) as Hd.
    { destruct groups as [|x groups]; [done|].
      pose proof (highest_spec (x :: groups) (groupRoles config)) as Hs. by rewrite Hg in Hs. }
    intros E. exists g. split; [done|]. case_bool_decide as Hr; rewrite ?Hr.
    + destruct (defaultTenant config); by simplify_eq.
    + destruct (grant_tenant g); by simplify_eq.
  - intros (g & Hd & Hr & Hrest).
    assert ((match groups with
             | [] => map_get (localRbac config) subject
             | _ :: _ => highestGroupGrant groups (groupRoles config) end) = Some g) as Eg.
    { destruct groups; [done|]. by apply best_grant_unique. }
    destruct groups; rewrite Eg; case_bool_decide as Hg; destruct Hrest as [-> ->]; congruence.
Qed.

(** A tenant-scoped operator is pinned to the tenant of the session: no override
    the client sends changes the tenant the principal names, and such an operator
    never asserts a settings tier. *)
Theorem tenant_scoped_pinned session override :
  role session ≠ global_admin →
  p_tenant (principalFromSession session override) = tenant session ∧
  settingsTier (principalFromSession session override) = None.
Proof.
  intros Hr. unfold principalFromSession. rewrite bool_decide_false by done.
  by destruct override.
Qed.

(** A global admin acts in the tenant chosen, or in the session's by default. *)
Lemma global_admin_tenant session o :
  role session = global_admin → trim o ≠ "" →
  p_tenant (principalFromSession session (Some o)) = trim o.
Proof.
  intros Hr Ho. unfold principalFromSession. cbn. rewrite Hr, bool_decide_true by done.
  by rewrite bool_decide_false.
Qed.

Definition sample_session : OperatorSession :=
  mkSession "sid" "auth0|1" None Admin "pid" "acme" tenant_admin 100.

Lemma tenant_scoped_pinned_witness :
  p_tenant (principalFromSession sample_session (Some "victim")) = "acme" ∧
  settingsTier (principalFromSession sample_session (Some "victim")) = None.
Proof. apply tenant_scoped_pinned. discriminate. Defined.
