(* ===== verification/Sessions.v ===== *)
(** * Session and pending-login stores ([apps/bff/src/auth/session.ts], [login-store.ts])

    Two bounded, expiring stores keyed by a random identifier.  The identifier drawn
    from [randomBytes] is an argument of [create], and so is the time the clock
    reads. *)
From S2P Require Import Prelude Bytes JsString Rbac.
Open Scope Z_scope.

Section sessions.
Context (maxSessions : Z).

Abbreviation sessions_map := (list (string * OperatorSession)).

Definition session_create (sessions : sessions_map) (identity : OperatorIdentity)
    (ttlMs now : Z) (sid : string) : OperatorSession * sessions_map :=
  let sessions := evict maxSessions sessions in
  let session :=
    mkSession sid (id_subject identity) (id_email identity) (id_tier identity)
      (id_principalId identity) (id_tenant identity) (id_role identity) (now + ttlMs) in
  (session, map_set sessions sid session).

Definition session_get (sessions : sessions_map) (sid : string) (now : Z)
    : option OperatorSession * sessions_map :=
  match map_get sessions sid with
  | None => (None, sessions)
  | Some session =>
      if expiresAt session <=? now then (None, map_delete sessions sid)
      else (Some session, sessions)
  end.

Definition session_destroy (sessions : sessions_map) (sid : string) : sessions_map :=
  map_delete sessions sid.

Definition session_size (sessions : sessions_map) : Z := Z.of_nat (length sessions).
End sessions.

Record PendingLogin := mkPending {
  loginId : string; deviceCode : string; intervalSecs : Z; login_expiresAt : Z }.

Section logins.
Context (maxLogins : Z).

Abbreviation logins_map := (list (string * PendingLogin)).

Definition login_create (logins : logins_map) (device_code : string) (interval : Z)
    (ttlMs now : Z) (lid : string) : PendingLogin * logins_map :=
  let logins := evict maxLogins logins in
  let login := mkPending lid device_code interval (now + ttlMs) in
  (login, map_set logins lid login).

Definition login_get (logins : logins_map) (lid : string) (now : Z)
    : option PendingLogin * logins_map :=
  match map_get logins lid with
  | None => (None, logins)
  | Some login =>
      if login_expiresAt login <=? now then (None, map_delete logins lid)
      else (Some login, logins)
  end.

Definition login_destroy (logins : logins_map) (lid : string) : logins_map :=
  map_delete logins lid.
End logins.

(** ** What the operations keep *)

Section facts.
Context (max : Z).

(** A property of sessions that [create]d ones have is kept by every operation. *)
Definition all_sessions (P : OperatorSession → Prop) (m : list (string * OperatorSession)) : Prop :=
  ∀ k s, map_get m k = Some s → P s.

Lemma create_all P m identity ttl now sid :
  all_sessions P m → P (session_create max m identity ttl now sid).1 →
  all_sessions P (session_create max m identity ttl now sid).2.
Proof.
  intros Hm HP k s. cbn. destruct (decide (sid = k)) as [->|Hne].
  - rewrite map_get_set. by intros [= <-].
  - rewrite map_get_set_ne by done. intros E%evict_get. by apply (Hm k).
Qed.

Lemma get_all P m sid now : all_sessions P m → all_sessions P (session_get m sid now).2.
Proof.
  intros Hm k s. unfold session_get. destruct (map_get m sid); [|apply Hm].
  case_match; cbn; [|apply Hm]. intros [E _]%map_get_delete_Some. by apply (Hm k).
Qed.

Lemma destroy_all P m sid : all_sessions P m → all_sessions P (session_destroy m sid).
Proof. intros Hm k s [E _]%map_get_delete_Some. by apply (Hm k). Qed.

(** A resolved session is live and is the one filed under the identifier. *)
Lemma session_get_Some m sid now s :
  (session_get m sid now).1 = Some s → map_get m sid = Some s ∧ now < expiresAt s.
Proof.
  unfold session_get. destruct (map_get m sid) as [s'|]; [|done].
  destruct (Z.leb_spec (expiresAt s') now); cbn; [done|]. by intros [= <-].
Qed.

Lemma login_get_Some m lid now l :
  (login_get m lid now).1 = Some l → map_get m lid = Some l ∧ now < login_expiresAt l.
Proof.
  unfold login_get. destruct (map_get m lid) as [l'|]; [|done].
  destruct (Z.leb_spec (login_expiresAt l') now); cbn; [done|]. by intros [= <-].
Qed.

Lemma create_bounded m identity ttl now sid :
  0 ≤ max → session_size m ≤ Z.max 1 max →
  session_size (session_create max m identity ttl now sid).2 ≤ Z.max 1 max.
Proof. apply evict_set_length. Qed.
End facts.

(** ** Histories of the session store *)

Inductive session_op :=
  | SCreate (identity : OperatorIdentity) (ttlMs now : Z) (sid : string)
  | SGet (sid : string) (now : Z)
  | SDestroy (sid : string).

Section history.
Context (max : Z).

Definition session_step (m : list (string * OperatorSession)) (op : session_op)
    : list (string * OperatorSession) :=
  match op with
  | SCreate identity ttl now sid => (session_create max m identity ttl now sid).2
  | SGet sid now => (session_get m sid now).2
  | SDestroy sid => session_destroy m sid
  end.
Definition session_run (ops : list session_op) := foldl session_step [] ops.

(** The session last created under [sid] and not destroyed since. *)
Definition created_step (s : string → option OperatorSession) (op : session_op)
    : string → option OperatorSession :=
  match op with
  | SCreate identity ttl now sid => λ k, if bool_decide (k = sid) then
      Some (mkSession sid (id_subject identity) (id_email identity) (id_tier identity)
        (id_principalId identity) (id_tenant identity) (id_role identity) (now + ttl)) else s k
  | SGet _ _ => s
  | SDestroy sid => λ k, if bool_decide (k = sid) then None else s k
  end.
Definition created (ops : list session_op) := foldl created_step (λ _, None) ops.

Lemma session_below m s op :
  (∀ k x, map_get m k = Some x → s k = Some x) →
  ∀ k x, map_get (session_step m op) k = Some x → created_step s op k = Some x.
Proof.
  intros Hb k x. destruct op as [identity ttl now sid|sid now|sid]; cbn [session_step created_step].
  - cbn. case_bool_decide as Hk; [subst; by rewrite map_get_set|].
    rewrite map_get_set_ne by done. intros E%evict_get. by apply Hb.
  - unfold session_get. destruct (map_get m sid); [|apply Hb]. case_match; cbn; [|apply Hb].
    intros [E _]%map_get_delete_Some. by apply Hb.
  - unfold session_destroy. intros [E Hk]%map_get_delete_Some. rewrite bool_decide_false by done. by apply Hb.
Qed.

Lemma session_bounded_step m op :
  0 ≤ max → session_size m ≤ Z.max 1 max → session_size (session_step m op) ≤ Z.max 1 max.
Proof.
  intros Hmax Hsz. destruct op as [identity ttl now sid|sid now|sid]; cbn [session_step].
  - by apply create_bounded.
  - unfold session_get, session_size in *. pose proof (map_delete_length m sid).
    destruct (map_get m sid); [|done]. case_match; cbn; lia.
  - unfold session_size, session_destroy in *. pose proof (map_delete_length m sid). lia.
Qed.

Lemma created_id ops sid s : created ops sid = Some s → sessionId s = sid.
Proof.
  unfold created. revert sid s. induction ops as [|op ops IH] using rev_ind; [done|].
  intros sid s. rewrite foldl_snoc. destruct op as [identity ttl now k|k now|k]; cbn.
  - case_bool_decide; [by intros [= <-]|apply IH].
  - apply IH.
  - case_bool_decide; [done|apply IH].
Qed.

Lemma session_run_inv ops :
  0 ≤ max →
  session_size (session_run ops) ≤ Z.max 1 max ∧
  ∀ k x, map_get (session_run ops) k = Some x → created ops k = Some x.
Proof.
  intros Hmax. unfold session_run, created. induction ops as [|op ops [IH1 IH2]] using rev_ind.
  { split; [unfold session_size; cbn [length foldl]; lia|done]. }
  rewrite !foldl_snoc. split; [by apply session_bounded_step|]. by apply session_below.
Qed.

(** A session lookup is sound over any history: what it returns is the session
    last created under that identifier, with the identity verified then, not
    destroyed since and not yet expired; and the store never exceeds its bound. *)
Theorem session_lookup_sound ops :
  0 ≤ max →
  session_size (session_run ops) ≤ Z.max 1 max ∧
  ∀ sid now s, (session_get (session_run ops) sid now).1 = Some s →
    created ops sid = Some s ∧ sessionId s = sid ∧ now < expiresAt s.
Proof.
  intros Hmax. destruct (session_run_inv ops Hmax) as [H1 H2]. split; [done|].
  intros sid now s [E Ht]%session_get_Some. apply H2 in E. eauto using created_id.
Qed.
End history.

Definition sample_identity : OperatorIdentity :=
  mkIdentity "auth0|1" (Some "o@acme.test") Admin "pid" "acme" tenant_admin.

Definition sample_session_ops : list session_op :=
  [SCreate sample_identity 1000 0 "s1"; SCreate sample_identity 1000 5 "s2"; SDestroy "s2"].

Lemma session_lookup_sound_witness :
  session_size (session_run 4 sample_session_ops) ≤ Z.max 1 4 ∧
  ∀ sid now s, (session_get (session_run 4 sample_session_ops) sid now).1 = Some s →
    created sample_session_ops sid = Some s ∧ sessionId s = sid ∧ now < expiresAt s.
Proof. apply session_lookup_sound. lia. Defined.
