(* ===== verification/Cookie.v ===== *)
(** * Session cookies ([apps/bff/src/auth/cookie.ts]) *)
From S2P Require Import Prelude Bytes JsString.
Open Scope Z_scope.

Record CookieOptions := mkCookieOptions { cookie_name : string; cookie_secure : bool }.

Definition semicolon : Ascii.ascii := ascii_of_byte 59.
Definition equals : Ascii.ascii := ascii_of_byte 61.

(** One iteration of the loop of [parseCookies]. *)
Definition parse_part (out : list (string * string)) (part : string) : list (string * string) :=
  match cut_at equals part with
  | None | Some ("", _) => out
  | Some (a, b) =>
      let name := trim a in
      let value := trim b in
      if negb (bool_decide (name = "")) && negb (map_has out name) then map_set out name value else out
  end.

Definition parseCookies (header : option string) : list (string * string) :=
  match header with
  | None => []
  | Some h => if bool_decide (h = "") then [] else foldl parse_part [] (split_on semicolon h)
  end.

Definition readCookie (header : option string) (name : string) : option string :=
  map_get (parseCookies header) name.

Definition BASE_ATTRS : string := "HttpOnly; SameSite=Strict; Path=/".

Definition serializeSessionCookie (value : string) (maxAgeSecs : Z) (opts : CookieOptions) : string :=
  join "; " ([cookie_name opts +:+ "=" +:+ value; BASE_ATTRS; "Max-Age=" +:+ pretty maxAgeSecs] ++
             (if cookie_secure opts then ["Secure"] else [])).

Definition clearSessionCookie (opts : CookieOptions) : string :=
  join "; " ([cookie_name opts +:+ "="; BASE_ATTRS; "Max-Age=0"] ++
             (if cookie_secure opts then ["Secure"] else [])).

(** ** Cookie headers *)

(** Visible ASCII other than the two separators. *)
Definition token_char (c : Ascii.ascii) : bool :=
  in_range 33 126 (byte_of_ascii c) && negb (Ascii.eqb c semicolon) && negb (Ascii.eqb c equals).
Fixpoint token (s : string) : bool :=
  match s with EmptyString => true | String c s => token_char c && token s end.

(** The [Cookie] header a browser sends for some cookies. *)
Definition cookie_header (cs : list (string * string)) : string :=
  join "; " (map (λ c, c.1 +:+ "=" +:+ c.2) cs).

Lemma token_rev a acc : token (str_rev_app a acc) = token a && token acc.
Proof.
  revert acc. induction a as [|c a IH]; intros acc; [done|]. cbn. rewrite IH. cbn.
  by destruct (token_char c), (token a), (token acc).
Qed.

(** A string of visible ASCII starts and ends with no whitespace. *)
Lemma strip_any_visible ps c s :
  forallb (λ p, match p with
                | EmptyString => false
                | String d _ => negb (in_range 33 126 (byte_of_ascii d)) end) ps = true →
  in_range 33 126 (byte_of_ascii c) = true → strip_any ps (String c s) = None.
Proof.
  intros Hps Hc. induction ps as [|p ps IH]; [done|]. cbn in Hps |- *.
  apply andb_prop in Hps as [Hp Hps]. destruct p as [|d p]; [done|]. cbn.
  destruct (Ascii.eqb_spec d c) as [->|]; [|by apply IH]. by rewrite Hc in Hp.
Qed.

Lemma trim_front_token ps n s :
  forallb (λ p, match p with
                | EmptyString => false
                | String d _ => negb (in_range 33 126 (byte_of_ascii d)) end) ps = true →
  strip_any ps "" = None → token s = true → trim_front ps n s = s.
Proof.
  intros Hps He Hs. destruct n as [|n]; [done|]. cbn. destruct s as [|c s]; [by rewrite He|].
  rewrite strip_any_visible; [done..|]. cbn in Hs. unfold token_char in Hs. by destruct (in_range 33 126 (byte_of_ascii c)).
Qed.

Lemma trim_token s : token s = true → trim s = s.
Proof.
  intros Hs. unfold trim. rewrite (trim_front_token WHITESPACE) by done.
  rewrite trim_front_token; [apply str_rev_involutive|done|done|].
  by rewrite token_rev, Hs.
Qed.

Lemma trim_space_token s : token s = true → trim (" " +:+ s) = s.
Proof.
  intros Hs. unfold trim. change (String.length (" " +:+ s)) with (S (String.length s)).
  cbn [trim_front]. change (strip_any WHITESPACE (" " +:+ s)) with (Some s). cbv iota beta.
  rewrite (trim_front_token WHITESPACE) by done.
  rewrite trim_front_token; [apply str_rev_involutive|done|done|]. by rewrite token_rev, Hs.
Qed.

Lemma token_no_char s : token s = true → no_char equals s = true ∧ no_char semicolon s = true.
Proof.
  induction s as [|c s IH]; [done|]. cbn [token no_char]. intros [Hc Hs]%andb_prop. apply IH in Hs as [-> ->].
  unfold token_char in Hc. by destruct (Ascii.eqb c equals), (Ascii.eqb c semicolon);
    rewrite ?andb_false_r in Hc.
Qed.

(** ** Parsing what a browser sends *)

Definition pair_ok (c : string * string) : bool :=
  token c.1 && token c.2 && negb (bool_decide (c.1 = "")).

(** First cookie of a name wins. *)
Definition first_wins (out : list (string * string)) (c : string * string) : list (string * string) :=
  if map_has out c.1 then out else map_set out c.1 c.2.

Lemma parse_part_pair out c sp :
  pair_ok c = true → sp = "" ∨ sp = " " →
  parse_part out (sp +:+ c.1 +:+ "=" +:+ c.2) = first_wins out c.
Proof.
  destruct c as [n v]. unfold pair_ok. cbn [fst snd]. intros [[Hn Hv]%andb_prop Hne]%andb_prop Hsp.
  destruct (token_no_char n Hn) as [Heq _].
  unfold parse_part.
  assert (cut_at equals (sp +:+ n +:+ "=" +:+ v) = Some (sp +:+ n, v)) as ->.
  { rewrite <- str_app_assoc. apply (cut_at_first equals). rewrite no_char_app, Heq.
    by destruct Hsp as [-> | ->]. }
  assert (trim (sp +:+ n) = n) as Ht.
  { destruct Hsp as [-> | ->]; [by apply trim_token|by apply trim_space_token]. }
  destruct (sp +:+ n) as [|a b] eqn:E.
  { destruct Hsp as [-> | ->]; [|done]. rewrite str_nil_app in E. by rewrite E in Hne. }
  rewrite Ht, (trim_token v Hv), Hne. unfold first_wins. cbn. by destruct (map_has out n).
Qed.

Lemma join_cons x y ys : join "; " (x :: y :: ys) = x +:+ String semicolon (" " +:+ join "; " (y :: ys)).
Proof. done. Qed.

Lemma cookie_header_cons c d cs :
  cookie_header (c :: d :: cs) = (c.1 +:+ "=" +:+ c.2) +:+ String semicolon (" " +:+ cookie_header (d :: cs)).
Proof. done. Qed.

Lemma pair_no_semicolon c : pair_ok c = true → no_char semicolon (c.1 +:+ "=" +:+ c.2) = true.
Proof.
  unfold pair_ok. intros [[Hn Hv]%andb_prop _]%andb_prop. rewrite !no_char_app.
  by rewrite (proj2 (token_no_char _ Hn)), (proj2 (token_no_char _ Hv)).
Qed.

Lemma parse_header sp c cs out :
  forallb pair_ok (c :: cs) = true → sp = "" ∨ sp = " " →
  foldl parse_part out (split_on semicolon (sp +:+ cookie_header (c :: cs))) = foldl first_wins out (c :: cs).
Proof.
  intros Hcs Hsp. revert sp out c Hcs Hsp. induction cs as [|d cs IH]; intros sp out c Hcs Hsp.
  - cbn [forallb] in Hcs. rewrite andb_true_r in Hcs.
    change (cookie_header [c]) with (c.1 +:+ "=" +:+ c.2).
    rewrite split_none; [cbn [foldl]; by apply parse_part_pair|].
    rewrite no_char_app, (pair_no_semicolon c Hcs). by destruct Hsp as [-> | ->].
  - cbn [forallb] in Hcs. apply andb_prop in Hcs as [Hc Hcs]. rewrite cookie_header_cons.
    rewrite <- str_app_assoc, split_first.
    2:{ rewrite no_char_app, (pair_no_semicolon c Hc). by destruct Hsp as [-> | ->]. }
    cbn [foldl]. rewrite parse_part_pair by done. apply IH; [done|by right].
Qed.

Lemma first_wins_get out cs k :
  map_get (foldl first_wins out cs) k = match map_get out k with Some v => Some v | None => map_get cs k end.
Proof.
  revert out. induction cs as [|[n v] cs IH]; intros out; [cbn; by destruct (map_get out k)|].
  cbn [foldl map_get]. rewrite IH. unfold first_wins, map_has. cbn [fst snd].
  case_bool_decide as Hk.
  - subst. destruct (map_get out n) eqn:E; [by rewrite E|]. by rewrite map_get_set.
  - destruct (map_get out n) eqn:E; [done|]. by rewrite map_get_set_ne.
Qed.

(** Cookies survive the trip through a browser: reading a name from the header
    made of any list of well-formed cookies gives the value of the first cookie of
    that name, and nothing when there is none. *)
Theorem readCookie_first cs name :
  forallb pair_ok cs = true → readCookie (Some (cookie_header cs)) name = map_get cs name.
Proof.
  intros Hcs. unfold readCookie, parseCookies. case_bool_decide as He.
  - destruct cs as [|[n v] cs]; [done|]. cbn [forallb] in Hcs. apply andb_prop in Hcs as [Hc _].
    unfold pair_ok in Hc. destruct n; [by rewrite andb_false_r in Hc|].
    destruct cs as [|[n' v'] cs]; discriminate He.
  - destruct cs as [|c cs]; [done|].
    pose proof (parse_header "" c cs [] Hcs (or_introl eq_refl)) as E. rewrite str_nil_app in E.
    rewrite E, first_wins_get. done.
Qed.

(** The established session cookie is the first attribute of the [Set-Cookie] value. *)
Lemma serialize_first value age opts :
  pair_ok (cookie_name opts, value) = true →
  head (split_on semicolon (serializeSessionCookie value age opts)) = Some (cookie_name opts +:+ "=" +:+ value).
Proof.
  intros Hok. unfold serializeSessionCookie.
  pose proof (pair_no_semicolon _ Hok) as Hs. cbn [fst snd] in Hs.
  cbn [app]. by rewrite join_cons, split_first.
Qed.

Lemma readCookie_first_witness :
  readCookie (Some (cookie_header [("theme", "dark"); ("fc_session", "ab12"); ("fc_session", "evil")])) "fc_session"
  = map_get [("theme", "dark"); ("fc_session", "ab12"); ("fc_session", "evil")] "fc_session".
Proof. apply readCookie_first. reflexivity. Defined.
