(* ===== verification/Oidc.v ===== *)
(** * Login claims ([apps/bff/src/auth/operator-id.ts], [oidc.ts], [provider.ts])

    The stable operator identifier, the token poll and the step from verified claims
    to an operator identity.  SHA-1 ([node:crypto]), the HTTP client and the JWT
    verification ([jose]) are parameters. *)
From S2P Require Import Prelude Bytes Float64 Cbor JsValue JsString Rbac.
Open Scope Z_scope.

(** ** operator-id.ts *)

(** [buffer.toString('hex')] *)
Definition hex_byte (b : Z) : string := hex_digit (b / 16) +:+ hex_digit (b mod 16).
Fixpoint to_hex (bs : bytes) : string :=
  match bs with [] => "" | b :: bs => hex_byte b +:+ to_hex bs end.

Definition hex_value (c : Ascii.ascii) : option Z :=
  let b := byte_of_ascii c in
  if in_range 48 57 b then Some (b - 48)
  else if in_range 97 102 b then Some (b - 87)
  else if in_range 65 70 b then Some (b - 55)
  else None.

(** [Buffer.from(hex, 'hex')] stops at the first pair that is not hexadecimal. *)
Fixpoint from_hex (s : string) : bytes :=
  match s with
  | String a (String b s) =>
      match hex_value a, hex_value b with
      | Some x, Some y => 16 * x + y :: from_hex s
      | _, _ => []
      end
  | _ => []
  end.

Definition hyphen : Ascii.ascii := ascii_of_byte 45.

Definition uuidToBytes (uuid : string) : result bytes :=
  let hex := String.concat "" (split_on hyphen uuid) in
  if negb (bool_decide (String.length hex = 32%nat)) then Throw (Error ("invalid UUID: " +:+ uuid))
  else Ok (from_hex hex).

(** [h.slice(i, j)] *)
Definition slice (i j : nat) (s : string) : string := String.substring i (j - i) s.

Definition bytesToUuid (bs : bytes) : string :=
  let h := to_hex bs in
  slice 0 8 h +:+ "-" +:+ slice 8 12 h +:+ "-" +:+ slice 12 16 h +:+ "-" +:+ slice 16 20 h +:+ "-" +:+ slice 20 32 h.

Definition OPERATOR_NAMESPACE : string := "a7c9e1f0-3b2d-4c5e-8f6a-1d2b3c4d5e6f".

Definition version_byte (b : Z) : Z := Z.lor (Z.land b 0x0f) 0x50.
Definition variant_byte (b : Z) : Z := Z.lor (Z.land b 0x3f) 0x80.

Section operator_id.
Context (sha1 : bytes → bytes).

Definition operatorPrincipalId (subject : string) : result string :=
  ns ← uuidToBytes OPERATOR_NAMESPACE;
  let hash := sha1 (ns ++ string_bytes subject) in
  let bytes := take 16 hash in
  let bytes := <[6%nat := version_byte (default 0 (bytes !! 6%nat))]> bytes in
  let bytes := <[8%nat := variant_byte (default 0 (bytes !! 8%nat))]> bytes in
  Ok (bytesToUuid bytes).
End operator_id.

(** The shape of an RFC 4122 version 5 identifier. *)
Definition is_hex (c : Ascii.ascii) : bool :=
  in_range 48 57 (byte_of_ascii c) || in_range 97 102 (byte_of_ascii c).
Definition is_char (b : Z) (c : Ascii.ascii) : bool := Ascii.eqb c (ascii_of_byte b).
Definition is_variant (c : Ascii.ascii) : bool :=
  in_range 56 57 (byte_of_ascii c) || in_range 97 98 (byte_of_ascii c).

Definition UUID_V5 : list (Ascii.ascii → bool) :=
  replicate 8 is_hex ++ [is_char 45] ++ replicate 4 is_hex ++ [is_char 45] ++
  [is_char 53] ++ replicate 3 is_hex ++ [is_char 45] ++
  [is_variant] ++ replicate 3 is_hex ++ [is_char 45] ++ replicate 12 is_hex.

Fixpoint matches (ps : list (Ascii.ascii → bool)) (s : string) : bool :=
  match ps, s with
  | [], EmptyString => true
  | p :: ps, String c s => p c && matches ps s
  | _, _ => false
  end.

(** A boolean fact about bytes holds of all of them when it holds of 0 to 255. *)
Lemma byte_cases (P : Z → bool) :
  forallb P (map Z.of_nat (seq 0 256)) = true → ∀ b, is_byte b → P b = true.
Proof.
  intros H b Hb. rewrite forallb_forall in H. apply H. apply in_map_iff.
  exists (Z.to_nat b). unfold is_byte in Hb. split; [lia|]. apply in_seq. lia.
Qed.

(** The two characters a byte is printed as. *)
Definition hex_pair (b : Z) : Ascii.ascii * Ascii.ascii :=
  match hex_byte b with String a (String c "") => (a, c) | _ => (hyphen, hyphen) end.

Lemma hex_byte_pair b : is_byte b →
  hex_byte b = String (hex_pair b).1 (String (hex_pair b).2 "") ∧
  is_hex (hex_pair b).1 = true ∧ is_hex (hex_pair b).2 = true.
Proof.
  intros Hb.
  assert (bool_decide (hex_byte b = String (hex_pair b).1 (String (hex_pair b).2 "")) &&
          is_hex (hex_pair b).1 && is_hex (hex_pair b).2 = true) as H.
  { revert b Hb. apply byte_cases. vm_compute. reflexivity. }
  apply andb_prop in H as [[H1 H2]%andb_prop H3]. by apply bool_decide_eq_true in H1.
Qed.

Lemma version_pair b : is_byte b →
  is_byte (version_byte b) ∧ (hex_pair (version_byte b)).1 = ascii_of_byte 53.
Proof.
  intros Hb.
  assert (bool_decide (0 ≤ version_byte b < 256) &&
          Ascii.eqb (hex_pair (version_byte b)).1 (ascii_of_byte 53) = true) as H.
  { revert b Hb. apply byte_cases. vm_compute. reflexivity. }
  apply andb_prop in H as [H1 H2]. apply bool_decide_eq_true in H1. by apply Ascii.eqb_eq in H2.
Qed.

Lemma variant_pair b : is_byte b →
  is_byte (variant_byte b) ∧ is_variant (hex_pair (variant_byte b)).1 = true.
Proof.
  intros Hb.
  assert (bool_decide (0 ≤ variant_byte b < 256) && is_variant (hex_pair (variant_byte b)).1 = true) as H.
  { revert b Hb. apply byte_cases. vm_compute. reflexivity. }
  apply andb_prop in H as [H1 H2]. by apply bool_decide_eq_true in H1.
Qed.

Lemma to_hex_cons b bs : is_byte b →
  to_hex (b :: bs) = String (hex_pair b).1 (String (hex_pair b).2 (to_hex bs)).
Proof. intros Hb. cbn [to_hex]. by rewrite (proj1 (hex_byte_pair b Hb)). Qed.

(** Sixteen bytes print as a version 5 UUID once the two fields are set. *)
Lemma uuid_shape h :
  (16 ≤ length h)%nat → Forall is_byte h →
  let bytes := take 16 h in
  let bytes := <[6%nat := version_byte (default 0 (bytes !! 6%nat))]> bytes in
  let bytes := <[8%nat := variant_byte (default 0 (bytes !! 8%nat))]> bytes in
  matches UUID_V5 (bytesToUuid bytes) = true.
Proof.
  intros Hlen Hb. do 16 (destruct h as [|? h]; [cbn in Hlen; lia|]). clear Hlen.
  do 16 (let H := fresh "B" in apply Forall_cons_1 in Hb as [H Hb]).
  cbn -[version_byte variant_byte bytesToUuid UUID_V5].
  repeat match goal with
  | |- context [version_byte ?b] =>
      let H1 := fresh in let H2 := fresh in
      destruct (version_pair b) as [H1 H2]; [assumption|]; set (version_byte b) in *
  | |- context [variant_byte ?b] =>
      let H1 := fresh in let H2 := fresh in
      destruct (variant_pair b) as [H1 H2]; [assumption|]; set (variant_byte b) in *
  end.
  unfold bytesToUuid. rewrite !to_hex_cons by assumption.
  repeat match goal with
  | H : is_byte ?b |- _ =>
      let H1 := fresh in let H2 := fresh in
      destruct (hex_byte_pair b H) as (_ & H1 & H2); clear H
  end.
  cbv [slice String.substring String.append Nat.sub to_hex matches UUID_V5 replicate app].
  repeat match goal with
  | H : ?x = true |- context [?x] => rewrite H
  | H : ?x = ascii_of_byte 53 |- context [?x] => rewrite H
  end. reflexivity.
Qed.

Section operator_id_proofs.
Context (sha1 : bytes → bytes)
  (sha1_length : ∀ bs, length (sha1 bs) = 20%nat)
  (sha1_bytes : ∀ bs, Forall is_byte (sha1 bs)).

(** The operator identifier is always a well-formed version 5 UUID, whatever the
    subject: 36 characters, hyphens in place, version digit 5 and an RFC 4122
    variant. *)
Theorem operatorPrincipalId_uuid subject :
  ∃ id, operatorPrincipalId sha1 subject = Ok id ∧ matches UUID_V5 id = true.
Proof using sha1_length sha1_bytes.
  eexists. split; [reflexivity|]. apply uuid_shape; [rewrite sha1_length; lia|apply sha1_bytes].
Qed.
End operator_id_proofs.

(** A stand-in digest of the right shape. *)
Definition sample_sha1 (bs : bytes) : bytes := replicate 20 (be_value (take 1 bs) mod 256).

Lemma operatorPrincipalId_uuid_witness :
  ∃ id, operatorPrincipalId sample_sha1 "auth0|1" = Ok id ∧ matches UUID_V5 id = true.
Proof.
  apply operatorPrincipalId_uuid.
  - intros bs. apply length_replicate.
  - intros bs. apply Forall_replicate. unfold is_byte. apply Z.mod_pos_bound. lia.
Defined.

(** ** oidc.ts *)

Record OidcConfig := mkOidc {
  issuer : string; clientId : string; jwksUri : string; deviceCodeEndpoint : string;
  tokenEndpoint : string; scope : string; roleClaim : string }.

(** What [fetch] resolves to, as far as the code reads it: [res.ok], [res.status] and
    the outcome of [res.json()]. *)
Record HttpResponse := mkResponse { res_ok : bool; res_status : Z; res_json : result value }.

Inductive PollResult :=
  | PollPending
  | PollComplete (idToken accessToken : value).

Definition js_truthy (v : value) : bool :=
  match v with
  | VUndefined | VNull => false
  | VBool b => b
  | VNum x => negb ((x =? 0) || (x =? 2 ^ 63) || f64_isNaN x)
  | VBigInt z => negb (z =? 0)
  | VStr s => negb (bool_decide (s = ""))
  | _ => true
  end.

Section poll.
Context `{NumberToString} (fetch : string → list (string * string) → result HttpResponse).

Definition pollToken (config : OidcConfig) (deviceCode : string) : result PollResult :=
  res ← fetch (tokenEndpoint config)
          [("grant_type", "urn:ietf:params:oauth:grant-type:device_code");
           ("device_code", deviceCode); ("client_id", clientId config)];
  body ← res_json res;
  complete ←
    (if res_ok res then
       id_token ← get body "id_token";
       access_token ← get body "access_token";
       Ok (if js_truthy id_token && js_truthy access_token
           then Some (PollComplete id_token access_token) else None)
     else Ok None);
  match complete with
  | Some r => Ok r
  | None =>
      error ← get body "error";
      if is_str "authorization_pending" error || is_str "slow_down" error then Ok PollPending
      else Throw (Error ("device token error: " +:+
                         (if is_nullish error then "HTTP " +:+ pretty (res_status res) else js_String error)))
  end.

End poll.

Section oidc.
Context `{NumberToString} (sha1 : bytes → bytes)
  (JWKS : Type) (createRemoteJWKSet : string → JWKS)
  (jwtVerify : value → JWKS → string → string → result value).

(** The key sets are cached by URI. *)
Definition verifyIdToken (jwksByUri : list (string * JWKS)) (config : OidcConfig) (idToken : value)
    : result value * list (string * JWKS) :=
  let '(jwks, jwksByUri) :=
    match map_get jwksByUri (jwksUri config) with
    | Some jwks => (jwks, jwksByUri)
    | None => let jwks := createRemoteJWKSet (jwksUri config) in
              (jwks, map_set jwksByUri (jwksUri config) jwks)
    end in
  (jwtVerify idToken jwks (issuer config) (clientId config), jwksByUri).

(** The string claims of an array claim. *)
Definition string_groups (v : value) : list string :=
  match v with
  | VArr items => omap (λ r, match r with VStr s => Some s | _ => None end) items
  | _ => []
  end.

Definition operatorFromClaims (payload : value) (roleClaim : string) (rbac : RbacConfig)
    : result (option OperatorIdentity) :=
  email ← get payload "email";
  let email := match email with VStr s => Some s | _ => None end in
  rawRoles ← get payload roleClaim;
  let groups := string_groups rawRoles in
  sub ← get payload "sub";
  let subject := js_String (if is_nullish sub then VStr "" else sub) in
  match resolveAuthority subject groups rbac with
  | None => Ok None
  | Some authority =>
      principalId ← operatorPrincipalId sha1 subject;
      Ok (Some (mkIdentity subject email
        (maxTier (deriveTier groups DEFAULT_ROLE_TIERS) (tierForRole (authority_role authority)))
        principalId (activeTenant authority) (authority_role authority)))
  end.

(** [createOidcProvider(config, rbac).verifyLogin] *)
Definition verifyLogin (jwksByUri : list (string * JWKS)) (config : OidcConfig) (rbac : RbacConfig)
    (idToken : value) : result (option OperatorIdentity) :=
  claims ← (verifyIdToken jwksByUri config idToken).1;
  operatorFromClaims claims (roleClaim config) rbac.

(** A tenant the configuration names. *)
Definition configured_tenant (rbac : RbacConfig) (t : string) : Prop :=
  defaultTenant rbac = Some t ∨
  ∃ k g, (map_get (groupRoles rbac) k = Some g ∨ map_get (localRbac rbac) k = Some g) ∧
         grant_tenant g = Some t.

Lemma highest_in groups roles g :
  highestGroupGrant groups roles = Some g → ∃ k, k ∈ groups ∧ map_get roles k = Some g.
Proof.
  intros E. pose proof (highest_spec groups roles) as Hs. rewrite E in Hs.
  destruct Hs as (pre & k & post & -> & Hk & _). exists k. set_solver.
Qed.

Lemma resolve_configured subject groups rbac a :
  resolveAuthority subject groups rbac = Some a → configured_tenant rbac (activeTenant a).
Proof.
  unfold resolveAuthority, configured_tenant. intros E.
  destruct (match groups with [] => _ | _ :: _ => _ end) as [g|] eqn:Hg; [|done].
  assert (∃ k, map_get (groupRoles rbac) k = Some g ∨ map_get (localRbac rbac) k = Some g) as [k Hk].
  { destruct groups; [eauto|]. apply highest_in in Hg as (k & _ & Hk). eauto. }
  case_bool_decide.
  - destruct (defaultTenant rbac) as [t|]; [|done]. injection E as <-. by left.
  - destruct (grant_tenant g) as [t|] eqn:Ht; [|done]. injection E as <-. right. eauto.
Qed.

(** The key set a token is checked with: the one cached for the URI, else a new one. *)
Definition key_set (jwksByUri : list (string * JWKS)) (uri : string) : JWKS :=
  match map_get jwksByUri uri with Some jwks => jwks | None => createRemoteJWKSet uri end.

(** The groups a role claim lists: the strings of an array, in order, and none for
    anything else. *)
Definition claim_groups (claim : value) (groups : list string) : Prop :=
  match claim with
  | VArr items => VStr <$> groups = List.filter (λ r, match r with VStr _ => true | _ => false end) items
  | _ => groups = []
  end.

(** What verified claims say of the operator. *)
Definition claims_say (config : OidcConfig) (claims : value) (email : option string)
    (groups : list string) (subject : string) : Prop :=
  ∃ mail roles sub,
    get claims "email" = Ok mail ∧ get claims (roleClaim config) = Ok roles ∧
    get claims "sub" = Ok sub ∧
    email = (match mail with VStr s => Some s | _ => None end) ∧
    claim_groups roles groups ∧
    subject = (if is_nullish sub then "" else js_String sub).

(** The role and the tenant the configuration gives a subject with these groups. *)
Definition authorised (rbac : RbacConfig) (subject : string) (groups : list string)
    (role : OperatorRole) (tenant : string) : Prop :=
  ∃ g, deciding_grant subject groups rbac g ∧ role = grant_role g ∧
       (if bool_decide (grant_role g = global_admin) then defaultTenant rbac else grant_tenant g)
       = Some tenant.

Lemma string_groups_claim v groups : claim_groups v groups ↔ groups = string_groups v.
Proof.
  destruct v as [| | | | | | | | |items|]; try done. cbn. split.
  - revert groups. induction items as [|[] items IH]; intros groups E; cbn in *; eauto;
      destruct groups; by simplify_eq/=; f_equal; eauto.
  - intros ->. induction items as [|[] items IH]; cbn; rewrite ?IH; done.
Qed.

Lemma resolve_authorised rbac subject groups :
  match resolveAuthority subject groups rbac with
  | Some a => ∀ r t, authorised rbac subject groups r t ↔ r = authority_role a ∧ t = activeTenant a
  | None => ∀ r t, ¬ authorised rbac subject groups r t
  end.
Proof.
  assert (∀ r t, authorised rbac subject groups r t ↔
            ∃ al, resolveAuthority subject groups rbac = Some (mkAuthority r t al)) as Hra.
  { intros r t. unfold authorised. setoid_rewrite resolveAuthority_exact. cbn. split.
    - intros (g & Hd & Hr & Ht). exists (bool_decide (grant_role g = global_admin)), g.
      split; [done|]. split; [done|]. by case_bool_decide.
    - intros (al & g & Hd & Hr & Ht). exists g. split; [done|]. split; [done|].
      case_bool_decide; by destruct Ht. }
  destruct (resolveAuthority subject groups rbac) as [a|]; setoid_rewrite Hra; [|naive_solver].
  intros r t. destruct a as [r' t' al]; cbn. naive_solver.
Qed.

Lemma verifyIdToken_keys jwksByUri config idToken :
  (verifyIdToken jwksByUri config idToken).1 =
  jwtVerify idToken (key_set jwksByUri (jwksUri config)) (issuer config) (clientId config).
Proof. unfold verifyIdToken, key_set. by destruct (map_get jwksByUri (jwksUri config)). Qed.

(** A verification taken apart: the claims, what they say and the authority resolved. *)
Lemma verifyLogin_inv jwksByUri config rbac idToken r :
  verifyLogin jwksByUri config rbac idToken = Ok r ↔
  ∃ claims email groups subject,
    jwtVerify idToken (key_set jwksByUri (jwksUri config)) (issuer config) (clientId config) = Ok claims ∧
    claims_say config claims email groups subject ∧
    match resolveAuthority subject groups rbac with
    | None => r = None
    | Some a => ∃ pid, operatorPrincipalId sha1 subject = Ok pid ∧
        r = Some (mkIdentity subject email
              (maxTier (deriveTier groups DEFAULT_ROLE_TIERS) (tierForRole (authority_role a)))
              pid (activeTenant a) (authority_role a))
    end.
Proof.
  unfold verifyLogin. rewrite verifyIdToken_keys.
  unfold claims_say. setoid_rewrite string_groups_claim. split.
  - intros (claims & Hv & E)%bind_Ok. unfold operatorFromClaims in E.
    apply bind_Ok in E as (em & He & E). apply bind_Ok in E as (raw & Hr & E).
    apply bind_Ok in E as (sub & Hs & E).
    exists claims, (match em with VStr s => Some s | _ => None end), (string_groups raw),
      (if is_nullish sub then "" else js_String sub).
    split; [done|]. split; [eauto 10|].
    assert (js_String (if is_nullish sub then VStr "" else sub) =
            if is_nullish sub then "" else js_String sub) as Hsub by by destruct (is_nullish sub).
    rewrite Hsub in E. destruct (resolveAuthority _ _ rbac) as [a|]; [|by injection E].
    apply bind_Ok in E as (pid & Hpid & [= <-]). eauto.
  - intros (claims & email & groups & subject & Hv & (em & raw & sub & He & Hr & Hs & -> & -> & Hsub) & Hres).
    rewrite Hv. cbn. unfold operatorFromClaims. rewrite He, Hr, Hs. cbn.
    assert (js_String (if is_nullish sub then VStr "" else sub) = subject) as -> by
      by rewrite Hsub; destruct (is_nullish sub).
    destruct (resolveAuthority subject (string_groups raw) rbac) as [a|]; [|by rewrite Hres].
    destruct Hres as (pid & Hp & ->). by rewrite Hp.
Qed.

Lemma verifyLogin_tenant jwksByUri config rbac idToken identity :
  verifyLogin jwksByUri config rbac idToken = Ok (Some identity) →
  configured_tenant rbac (id_tenant identity).
Proof.
  intros (claims & email & groups & subject & _ & _ & Hres)%verifyLogin_inv.
  destruct (resolveAuthority subject groups rbac) as [a|] eqn:Ha; [|done].
  destruct Hres as (pid & _ & [= ->]). by eapply resolve_configured.
Qed.

(** C38: a login is exactly what the verified token and the configuration give.  The
    token yields an identity precisely when it verifies, with the key set of the
    configured URI, for the configured issuer and client, and the configuration gives
    the subject of its [sub] claim with the groups of the configured role claim a role
    and a tenant; the identity then carries that subject, the [email] claim, that role
    and tenant, the identifier of that subject, and the higher of the tiers of the
    groups and of the role.  A verified token the configuration gives nothing yields
    no identity, and nothing else does without failing. *)
Theorem verifyLogin_authority jwksByUri config rbac idToken :
  (∀ identity, verifyLogin jwksByUri config rbac idToken = Ok (Some identity) ↔
     ∃ claims groups,
       jwtVerify idToken (key_set jwksByUri (jwksUri config)) (issuer config) (clientId config) = Ok claims ∧
       claims_say config claims (id_email identity) groups (id_subject identity) ∧
       authorised rbac (id_subject identity) groups (id_role identity) (id_tenant identity) ∧
       tier_rank (id_tier identity) =
         Z.max (tier_rank (deriveTier groups DEFAULT_ROLE_TIERS)) (tier_rank (tierForRole (id_role identity))) ∧
       operatorPrincipalId sha1 (id_subject identity) = Ok (id_principalId identity)) ∧
  (verifyLogin jwksByUri config rbac idToken = Ok None ↔
     ∃ claims email groups subject,
       jwtVerify idToken (key_set jwksByUri (jwksUri config)) (issuer config) (clientId config) = Ok claims ∧
       claims_say config claims email groups subject ∧
       ∀ role tenant, ¬ authorised rbac subject groups role tenant).
Proof.
  split; [intros identity|]; rewrite verifyLogin_inv.
  - split.
    + intros (claims & email & groups & subject & Hv & Hs & Hres).
      pose proof (resolve_authorised rbac subject groups) as Ha.
      destruct (resolveAuthority subject groups rbac) as [a|]; [|done].
      destruct Hres as (pid & Hp & [= ->]). exists claims, groups. cbn.
      rewrite maxTier_rank, Ha. done.
    + intros (claims & groups & Hv & Hs & Hauth & Ht & Hp).
      exists claims, (id_email identity), groups, (id_subject identity). do 2 (split; [done|]).
      pose proof (resolve_authorised rbac (id_subject identity) groups) as Ha.
      destruct (resolveAuthority _ groups rbac) as [a|]; [|by apply Ha in Hauth].
      apply Ha in Hauth as [Hr Htn]. exists (id_principalId identity). split; [done|].
      rewrite <- maxTier_rank in Ht. apply tier_rank_inj in Ht.
      rewrite <- Hr, <- Htn, <- Ht. by destruct identity.
  - split; intros (claims & email & groups & subject & Hv & Hs & Hres);
      exists claims, email, groups, subject; do 2 (split; [done|]);
      pose proof (resolve_authorised rbac subject groups) as Ha;
      destruct (resolveAuthority subject groups rbac) as [a|]; try done.
    + by destruct Hres as (pid & _ & ?).
    + destruct (Hres (authority_role a) (activeTenant a)). by apply Ha.
Qed.
End oidc.

Definition sample_rbac : RbacConfig :=
  mkRbac [("acme-admins", mkGrant tenant_admin (Some "acme"))] [] (Some "root").
Definition sample_oidc : OidcConfig := mkOidc "iss" "client" "uri" "dev" "tok" "openid" "groups".
Definition sample_claims : value :=
  VObj [("sub", VStr "auth0|1"); ("groups", VArr [VStr "acme-admins"])].
Definition sample_jwt (token : value) (_ : unit) (iss aud : string) : result value :=
  if is_str "good" token then Ok sample_claims else Throw (Error "bad token").
Definition sample_login : OperatorIdentity :=
  mkIdentity "auth0|1" None Admin "a7a7a7a7-a7a7-57a7-a7a7-a7a7a7a7a7a7" "acme" tenant_admin.

Lemma verifyLogin_authority_witness :
  ∃ claims groups,
    sample_jwt (VStr "good") tt (issuer sample_oidc) (clientId sample_oidc) = Ok claims ∧
    @claims_say (λ _, "") sample_oidc claims None groups "auth0|1" ∧
    authorised sample_rbac "auth0|1" groups tenant_admin "acme" ∧
    tier_rank Admin =
      Z.max (tier_rank (deriveTier groups DEFAULT_ROLE_TIERS)) (tier_rank (tierForRole tenant_admin)) ∧
    operatorPrincipalId sample_sha1 "auth0|1" = Ok (id_principalId sample_login).
Proof.
  apply (proj1 (proj1 (@verifyLogin_authority (λ _, "") sample_sha1 unit (λ _, tt) sample_jwt []
    sample_oidc sample_rbac (VStr "good")) sample_login)).
  vm_compute. reflexivity.
Defined.
