(* ===== verification/AuthRouter.v ===== *)
(** * The login surface ([apps/bff/src/auth/router.ts])

    The four [/auth] routes over the session and pending-login stores.  A handler
    that awaits the identity provider is cut at its awaits: [phase] is what it waits
    for, and its continuations run against whatever the stores have become, so
    requests interleave freely.  The provider is the interface [OidcProvider]: what
    its calls may answer, and the law the real one satisfies. *)
From S2P Require Import Prelude Bytes Float64 Cbor JsValue JsString Rbac Sessions Cookie Oidc.
Open Scope Z_scope.

Record DeviceCode := mkDevice {
  dc_deviceCode : string; dc_userCode : string; dc_verificationUri : string;
  dc_verificationUriComplete : string; dc_expiresInSecs : Z; dc_intervalSecs : Z }.

(** The identity provider, as the router may observe it. *)
Class OidcProvider := {
  may_device : result DeviceCode → Prop;
  may_poll : string → result PollResult → Prop;
  may_verify : value → result (option OperatorIdentity) → Prop;
  tenant_allowed : string → Prop;
  verify_tenant : ∀ token i, may_verify token (Ok (Some i)) → tenant_allowed (id_tenant i)
}.

Record AuthRouterDeps := mkDeps {
  maxSessions : Z; maxLogins : Z; sessionTtlMs : Z; cookie : CookieOptions }.

Record auth_state := mkAuth {
  sessions : list (string * OperatorSession);
  pending : list (string * PendingLogin) }.

Record response := mkResp { resp_status : Z; resp_body : value; set_cookie : option string }.

Definition sendJson (status : Z) (body : value) : response := mkResp status body None.

Definition error_body (e : string) : value := VObj [("error", VStr e)].

Definition MAX_BODY_BYTES : Z := 4096.

(** ** Requests *)

Record request := mkReq {
  req_url : option string; req_method : option string; req_cookie : option string;
  req_chunks : list bytes }.

Section router.
Context (deps : AuthRouterDeps).
(** [JSON.parse(buffer.toString('utf8'))] *)
Context (JSON_parse : bytes → result value).

(** [BodyTooLargeError] *)
Definition body_too_large : exn := Error "BodyTooLargeError".

Fixpoint read_chunks (total : Z) (chunks : list bytes) : result (Z * bytes) :=
  match chunks with
  | [] => Ok (total, [])
  | chunk :: chunks =>
      let total := total + byte_len chunk in
      if MAX_BODY_BYTES <? total then Throw body_too_large
      else r ← read_chunks total chunks; Ok (r.1, chunk ++ r.2)
  end.

Definition readJsonBody (chunks : list bytes) : result value :=
  r ← read_chunks 0 chunks;
  if r.1 =? 0 then Ok VUndefined else JSON_parse r.2.

Definition stringField (body : value) (field : string) : option string :=
  if negb (typeof_object body) || is_nullish body then None
  else match get body field with
       | Ok (VStr s) => if bool_decide (s = "") then None else Some s
       | _ => None
       end.

Definition tier_name (t : ExplainTier) : string :=
  match t with
  | User => "User" | Developer => "Developer" | Admin => "Admin" | SecurityAudit => "SecurityAudit"
  end.

Definition operatorDto (session : OperatorSession) : value :=
  VObj ([("subject", VStr (subject session)); ("tier", VStr (tier_name (tier session)))] ++
        match email session with Some e => [("email", VStr e)] | None => [] end).

Definition resolveSession (st : auth_state) (cookies : option string) (now : Z)
    : option OperatorSession * auth_state :=
  match readCookie cookies (cookie_name (cookie deps)) with
  | None => (None, st)
  | Some sid =>
      let '(s, m) := session_get (sessions st) sid now in (s, mkAuth m (pending st))
  end.

(** What a suspended handler waits for. *)
Inductive phase :=
  | AwaitDevice
  | AwaitPoll (login : string) (device : string)
  | AwaitVerify (login : string) (token : value).

(** The end of a handler's synchronous run: a response, or an await. *)
Definition outcome : Type := response + phase.

Definition handleLogin_resume (st : auth_state) (r : result DeviceCode) (now : Z) (lid : string)
    : auth_state * response :=
  match r with
  | Throw _ => (st, sendJson 502 (error_body "idp_unavailable"))
  | Ok dc =>
      let '(login, m) := login_create (maxLogins deps) (pending st) (dc_deviceCode dc)
                           (dc_intervalSecs dc) (dc_expiresInSecs dc * 1000) now lid in
      (mkAuth (sessions st) m,
       sendJson 200 (VObj
         [("loginId", VStr (loginId login)); ("userCode", VStr (dc_userCode dc));
          ("verificationUri", VStr (dc_verificationUri dc));
          ("verificationUriComplete", VStr (dc_verificationUriComplete dc));
          ("expiresInSecs", vint (dc_expiresInSecs dc)); ("intervalSecs", vint (dc_intervalSecs dc))]))
  end.

Definition handlePoll_start (st : auth_state) (chunks : list bytes) (now : Z) : auth_state * outcome :=
  match readJsonBody chunks with
  | Throw _ => (st, inl (sendJson 400 (error_body "bad_request")))
  | Ok body =>
      match stringField body "loginId" with
      | None => (st, inl (sendJson 400 (error_body "bad_request")))
      | Some lid =>
          let '(login, m) := login_get (pending st) lid now in
          let st := mkAuth (sessions st) m in
          match login with
          | None => (st, inl (sendJson 404 (error_body "login_expired")))
          | Some login => (st, inr (AwaitPoll lid (deviceCode login)))
          end
      end
  end.

Definition login_error (e : string) : value := VObj [("status", VStr "error"); ("error", VStr e)].

Definition drop_login (st : auth_state) (lid : string) : auth_state :=
  mkAuth (sessions st) (login_destroy (pending st) lid).

Definition handlePoll_polled (st : auth_state) (lid : string) (r : result PollResult)
    : auth_state * outcome :=
  match r with
  | Throw _ => (drop_login st lid, inl (sendJson 401 (login_error "login_failed")))
  | Ok PollPending => (st, inl (sendJson 200 (VObj [("status", VStr "pending")])))
  | Ok (PollComplete idToken _) => (st, inr (AwaitVerify lid idToken))
  end.

Definition handlePoll_verified (st : auth_state) (lid : string)
    (r : result (option OperatorIdentity)) (now : Z) (sid : string) : auth_state * response :=
  match r with
  | Throw _ => (drop_login st lid, sendJson 401 (login_error "token_invalid"))
  | Ok None => (drop_login st lid, sendJson 403 (login_error "no_authority"))
  | Ok (Some identity) =>
      let '(session, m) := session_create (maxSessions deps) (sessions st) identity (sessionTtlMs deps) now sid in
      let st := drop_login (mkAuth m (pending st)) lid in
      (st, mkResp 200
             (VObj [("status", VStr "complete"); ("operator", operatorDto session)])
             (Some (serializeSessionCookie (sessionId session) (sessionTtlMs deps / 1000) (cookie deps))))
  end.

Definition handleLogout (st : auth_state) (cookies : option string) : auth_state * response :=
  let st := match readCookie cookies (cookie_name (cookie deps)) with
            | Some sid => mkAuth (session_destroy (sessions st) sid) (pending st)
            | None => st
            end in
  (st, mkResp 200 (VObj [("ok", VBool true)]) (Some (clearSessionCookie (cookie deps)))).

Definition handleMe (st : auth_state) (cookies : option string) (now : Z) : auth_state * response :=
  let '(s, st) := resolveSession st cookies now in
  match s with
  | None => (st, sendJson 401 (error_body "unauthenticated"))
  | Some session => (st, sendJson 200 (VObj [("operator", operatorDto session)]))
  end.

(** [(url ?? '/').split('?')[0]] *)
Definition req_path (url : option string) : string :=
  default "/" (hd_error (split_on (ascii_of_byte 63) (default "/" url))).

(** [handle] up to its first await; [None] when the path is not the router's. *)
Definition handle (st : auth_state) (req : request) (now : Z) : option (auth_state * outcome) :=
  let path := req_path (req_url req) in
  let method := default "GET" (req_method req) in
  let not_allowed := (st, inl (sendJson 405 (error_body "method_not_allowed"))) in
  let sync r := (r.1, inl r.2) in
  if bool_decide (path = "/auth/login") then
    Some (if negb (bool_decide (method = "POST")) then not_allowed else (st, inr AwaitDevice))
  else if bool_decide (path = "/auth/login/poll") then
    Some (if negb (bool_decide (method = "POST")) then not_allowed
          else handlePoll_start st (req_chunks req) now)
  else if bool_decide (path = "/auth/logout") then
    Some (if negb (bool_decide (method = "POST")) then not_allowed
          else sync (handleLogout st (req_cookie req)))
  else if bool_decide (path = "/auth/me") then
    Some (if negb (bool_decide (method = "GET")) then not_allowed
          else sync (handleMe st (req_cookie req) now))
  else None.
End router.

(** ** Interleaved requests *)

Record system := mkSys { store : auth_state; inflight : list phase; responses : list response }.

Definition system_init : system := mkSys (mkAuth [] []) [] [].

(** Add the outcome of a handler's run. *)
Definition settle (s : system) (st : auth_state) (o : outcome) : system :=
  match o with
  | inl resp => mkSys st (inflight s) (resp :: responses s)
  | inr ph => mkSys st (ph :: inflight s) (responses s)
  end.

Section steps.
Context (deps : AuthRouterDeps) (JSON_parse : bytes → result value) `{OidcProvider}.

(** A step: a request arrives, or the provider answers some waiting handler.  Times
    and random identifiers are arbitrary. *)
Inductive sys_step (s : system) : system → Prop :=
  | step_request req now st o :
      handle deps JSON_parse (store s) req now = Some (st, o) →
      sys_step s (settle s st o)
  | step_device l1 l2 r now lid :
      inflight s = l1 ++ AwaitDevice :: l2 → may_device r →
      sys_step s (let '(st, resp) := handleLogin_resume deps (store s) r now lid in
                  settle (mkSys (store s) (l1 ++ l2) (responses s)) st (inl resp))
  | step_poll l1 l2 lid dc r :
      inflight s = l1 ++ AwaitPoll lid dc :: l2 → may_poll dc r →
      sys_step s (let '(st, o) := handlePoll_polled (store s) lid r in
                  settle (mkSys (store s) (l1 ++ l2) (responses s)) st o)
  | step_verify l1 l2 lid token r now sid :
      inflight s = l1 ++ AwaitVerify lid token :: l2 → may_verify token r →
      sys_step s (let '(st, resp) := handlePoll_verified deps (store s) lid r now sid in
                  settle (mkSys (store s) (l1 ++ l2) (responses s)) st (inl resp)).

Inductive reachable : system → Prop :=
  | reach_init : reachable system_init
  | reach_step s s' : reachable s → sys_step s s' → reachable s'.

(** ** The invariant *)

(** A device code the provider issued. *)
Definition issued (dc : string) : Prop := ∃ d, may_device (Ok d) ∧ dc = dc_deviceCode d.

(** A token the provider released for an issued device code. *)
Definition released (token : value) : Prop :=
  ∃ dc access, issued dc ∧ may_poll dc (Ok (PollComplete token access)).

(** [s] is a session of an identity the provider verified from such a token. *)
Definition verified (s : OperatorSession) : Prop :=
  ∃ token i, released token ∧ may_verify token (Ok (Some i)) ∧
    subject s = id_subject i ∧ email s = id_email i ∧ tier s = id_tier i ∧
    principalId s = id_principalId i ∧ tenant s = id_tenant i ∧ role s = id_role i.

Definition phase_ok (p : phase) : Prop :=
  match p with
  | AwaitDevice => True
  | AwaitPoll _ dc => issued dc
  | AwaitVerify _ token => released token
  end.

Definition logins_ok (m : list (string * PendingLogin)) : Prop :=
  ∀ k l, map_get m k = Some l → issued (deviceCode l).

Record sys_inv (s : system) : Prop := {
  inv_sessions : all_sessions verified (sessions (store s));
  inv_pending : logins_ok (pending (store s));
  inv_inflight : Forall phase_ok (inflight s)
}.

Lemma logins_delete m k : logins_ok m → logins_ok (map_delete m k).
Proof. intros Hm k' l [E _]%map_get_delete_Some. by apply (Hm k'). Qed.

Lemma logins_get m k now : logins_ok m → logins_ok (login_get m k now).2.
Proof.
  intros Hm. unfold login_get. destruct (map_get m k); [|done].
  case_match; cbn; auto using logins_delete.
Qed.

Definition state_ok (st : auth_state) : Prop :=
  all_sessions verified (sessions st) ∧ logins_ok (pending st).

(** A run that keeps the stores good and awaits only what it may. *)
Definition run_ok (r : auth_state * outcome) : Prop :=
  state_ok r.1 ∧ match r.2 with inl _ => True | inr p => phase_ok p end.

Lemma poll_start_ok st chunks now : state_ok st → run_ok (handlePoll_start JSON_parse st chunks now).
Proof.
  intros [Hs Hp]. unfold handlePoll_start. destruct (readJsonBody _ _) as [body|]; [|by repeat split].
  destruct (stringField body "loginId") as [lid|]; [|by repeat split].
  pose proof (logins_get (pending st) lid now Hp) as Hp'.
  destruct (login_get (pending st) lid now) as [[login|] m] eqn:E; [|by repeat split].
  repeat split; [done..|]. cbn.
  apply (Hp lid). apply (login_get_Some _ _ now). by rewrite E.
Qed.

Lemma resolve_ok st cookies now : state_ok st → state_ok (resolveSession deps st cookies now).2.
Proof.
  intros [Hs Hp]. unfold resolveSession. destruct (readCookie _ _) as [sid|]; [|done].
  pose proof (get_all verified (sessions st) sid now Hs) as Hg.
  by destruct (session_get (sessions st) sid now).
Qed.

Lemma logout_ok st cookies : state_ok st → state_ok (handleLogout deps st cookies).1.
Proof.
  intros [Hs Hp]. unfold handleLogout. destruct (readCookie _ _); [|done].
  split; [|done]. by apply destroy_all.
Qed.

Lemma me_ok st cookies now : state_ok st → state_ok (handleMe deps st cookies now).1.
Proof.
  intros Hst. unfold handleMe. pose proof (resolve_ok st cookies now Hst) as H'.
  by destruct (resolveSession deps st cookies now) as [[] ?].
Qed.

Lemma handle_ok st req now r :
  state_ok st → handle deps JSON_parse st req now = Some r → run_ok r.
Proof.
  intros Hst. unfold handle. cbv zeta.
  repeat (case_bool_decide; [intros [= <-]|]); [..|done].
  all: destruct (negb _); [by split|].
  - by split.
  - by apply poll_start_ok.
  - split; [by apply logout_ok|done].
  - split; [by apply me_ok|done].
Qed.

Lemma login_resume_ok st r now lid :
  may_device r → state_ok st → state_ok (handleLogin_resume deps st r now lid).1.
Proof.
  intros Hr [Hs Hp]. destruct r as [dc|e]; [|done]. split; [done|]. cbn.
  intros k l. destruct (decide (lid = k)) as [->|Hne].
  - rewrite map_get_set. intros [= <-]. by exists dc.
  - rewrite map_get_set_ne by done. intros E%evict_get. by apply (Hp k).
Qed.

Lemma polled_ok st lid dc r :
  issued dc → may_poll dc r → state_ok st → run_ok (handlePoll_polled st lid r).
Proof.
  intros Hdc Hr [Hs Hp]. destruct r as [[|token access]|e]; cbn.
  - by repeat split.
  - split; [done|]. by exists dc, access.
  - split; [|done]. split; [done|]. by apply logins_delete.
Qed.

Lemma verified_ok st lid token r now sid :
  released token → may_verify token r → state_ok st →
  state_ok (handlePoll_verified deps st lid r now sid).1.
Proof.
  intros Ht Hr [Hs Hp]. unfold handlePoll_verified.
  destruct r as [[i|]|e]; split; cbn; try done; try by apply logins_delete.
  apply (create_all (maxSessions deps) verified (sessions st) i (sessionTtlMs deps) now sid); [done|].
  exists token, i. by repeat split.
Qed.

Lemma settle_inv s st o :
  Forall phase_ok (inflight s) → run_ok (st, o) → sys_inv (settle s st o).
Proof. intros Hi [[Hs Hp] Ho]. destruct o; constructor; cbn; auto. Qed.

Lemma inflight_split s l1 p l2 :
  sys_inv s → inflight s = l1 ++ p :: l2 → Forall phase_ok (l1 ++ l2) ∧ phase_ok p ∧ state_ok (store s).
Proof.
  intros [Hs Hp Hi] E. rewrite E in Hi. apply Forall_app in Hi as [H1 H2].
  apply list.Forall_cons in H2 as [H2 H3]. split; [by apply Forall_app|by repeat split].
Qed.

Lemma step_inv s s' : sys_inv s → sys_step s s' → sys_inv s'.
Proof.
  intros Hinv Hstep. destruct Hstep as [req now st o E|l1 l2 r now lid E Hr|l1 l2 lid dc r E Hr
    |l1 l2 lid token r now sid E Hr].
  - destruct Hinv as [Hs Hp Hi]. apply settle_inv; [done|]. eapply handle_ok, E. by split.
  - destruct (inflight_split _ _ _ _ Hinv E) as (Hi & _ & Hst).
    pose proof (login_resume_ok (store s) r now lid Hr Hst) as Hok.
    destruct (handleLogin_resume _ _ _ _ _). by apply settle_inv.
  - destruct (inflight_split _ _ _ _ Hinv E) as (Hi & Hdc & Hst).
    pose proof (polled_ok (store s) lid dc r Hdc Hr Hst) as Hok.
    destruct (handlePoll_polled _ _ _). by apply settle_inv.
  - destruct (inflight_split _ _ _ _ Hinv E) as (Hi & Ht & Hst).
    pose proof (verified_ok (store s) lid token r now sid Ht Hr Hst) as Hok.
    destruct (handlePoll_verified _ _ _ _ _ _). by apply settle_inv.
Qed.

Lemma reachable_inv s : reachable s → sys_inv s.
Proof.
  induction 1 as [|s s' _ IH Hstep]; [|by eapply step_inv].
  constructor; [done|done|constructor].
Qed.

(** C5: sessions come only from verified logins.  However requests and provider
    answers interleave, every session in the store belongs to an identity the
    provider verified from a token it released for a device code it issued, and acts
    in a tenant the provider's configuration allows. *)
Theorem sessions_only_from_verified_logins s sid session :
  reachable s → map_get (sessions (store s)) sid = Some session →
  verified session ∧ tenant_allowed (tenant session).
Proof.
  intros Hr Hs. apply reachable_inv in Hr as [Hv _ _]. specialize (Hv _ _ Hs). split; [done|].
  destruct Hv as (token & i & _ & Hi & _ & _ & _ & _ & -> & _). by eapply verify_tenant.
Qed.
End steps.

(** ** The provider of [oidc.ts] implements the interface *)

Section real_provider.
Context `{NumberToString} (sha1 : bytes → bytes) (JWKS : Type) (createRemoteJWKSet : string → JWKS)
  (jwtVerify : value → JWKS → string → string → result value)
  (config : OidcConfig) (rbac : RbacConfig).

(** The network may answer anything; verification is [verifyLogin]. *)
#[export] Program Instance oidc_provider : OidcProvider := {
  may_device _ := True;
  may_poll dc r := ∃ fetch, pollToken fetch config dc = r;
  may_verify token r := ∃ cache, verifyLogin sha1 JWKS createRemoteJWKSet jwtVerify cache config rbac token = r;
  tenant_allowed := configured_tenant rbac
}.
Next Obligation. intros token i [cache E]. by eapply verifyLogin_tenant. Qed.
End real_provider.

(** ** Device codes stay on the server *)

Section secrecy.
Context (deps : AuthRouterDeps) (JSON_parse : bytes → result value) (f : string → string).

(** The same stores with other device codes. *)
Definition relabel_login (l : PendingLogin) : PendingLogin :=
  mkPending (loginId l) (f (deviceCode l)) (intervalSecs l) (login_expiresAt l).
Definition relabel_map (m : list (string * PendingLogin)) : list (string * PendingLogin) :=
  map (λ p, (p.1, relabel_login p.2)) m.
Definition relabel (st : auth_state) : auth_state := mkAuth (sessions st) (relabel_map (pending st)).
Definition relabel_dc (d : DeviceCode) : DeviceCode :=
  mkDevice (f (dc_deviceCode d)) (dc_userCode d) (dc_verificationUri d)
    (dc_verificationUriComplete d) (dc_expiresInSecs d) (dc_intervalSecs d).
Definition relabel_outcome (o : outcome) : outcome :=
  match o with inr (AwaitPoll lid dc) => inr (AwaitPoll lid (f dc)) | _ => o end.

Lemma relabel_get m k : map_get (relabel_map m) k = relabel_login <$> map_get m k.
Proof. induction m as [|[k' l] m IH]; cbn; [done|]. by case_bool_decide. Qed.
Lemma relabel_set m k l : map_set (relabel_map m) k (relabel_login l) = relabel_map (map_set m k l).
Proof. induction m as [|[k' l'] m IH]; cbn; [done|]. case_bool_decide; cbn; [done|]. f_equal. apply IH. Qed.
Lemma relabel_delete m k : map_delete (relabel_map m) k = relabel_map (map_delete m k).
Proof. induction m as [|[k' l'] m IH]; cbn; [done|]. case_bool_decide; cbn; [apply IH|]. f_equal. apply IH. Qed.
Lemma relabel_evict n m : evict n (relabel_map m) = relabel_map (evict n m).
Proof.
  unfold evict, relabel_map at 1. rewrite length_map. case_match; [done|].
  assert (map_oldest (relabel_map m) = map_oldest m) as -> by (by destruct m as [|[]]).
  destruct (map_oldest m); [apply relabel_delete|done].
Qed.

Lemma relabel_drop st lid : drop_login (relabel st) lid = relabel (drop_login st lid).
Proof. unfold drop_login, login_destroy, relabel. cbn. by rewrite relabel_delete. Qed.

Lemma poll_start_relabel st chunks now :
  handlePoll_start JSON_parse (relabel st) chunks now =
  let '(st', o) := handlePoll_start JSON_parse st chunks now in (relabel st', relabel_outcome o).
Proof.
  unfold handlePoll_start. destruct (readJsonBody _ _) as [body|]; [|done].
  destruct (stringField body "loginId") as [lid|]; [|done].
  unfold login_get. cbn [pending relabel sessions]. rewrite relabel_get.
  destruct (map_get (pending st) lid) as [l|]; [|done]. cbn.
  destruct (login_expiresAt l <=? now); [|done].
  unfold relabel. cbn. by rewrite relabel_delete.
Qed.

(** C39: the bearer-grade device code never reaches a client.  Changing the device
    codes held by the server, and the one the provider issues, changes no response:
    every handler commutes with the relabelling, which only shows in what it passes
    back to the provider. *)
Theorem device_code_never_returned st :
  (∀ d now lid,
    handleLogin_resume deps (relabel st) (Ok (relabel_dc d)) now lid =
    let '(st', resp) := handleLogin_resume deps st (Ok d) now lid in (relabel st', resp)) ∧
  (∀ req now,
    handle deps JSON_parse (relabel st) req now =
    (λ r, (relabel r.1, relabel_outcome r.2)) <$> handle deps JSON_parse st req now) ∧
  (∀ lid r, handlePoll_polled (relabel st) lid r =
    let '(st', o) := handlePoll_polled st lid r in (relabel st', relabel_outcome o)) ∧
  (∀ lid r now sid, handlePoll_verified deps (relabel st) lid r now sid =
    let '(st', resp) := handlePoll_verified deps st lid r now sid in (relabel st', resp)).
Proof.
  split_and!.
  - intros d now lid. unfold handleLogin_resume, login_create, relabel. cbn.
    rewrite relabel_evict. do 2 f_equal. apply (relabel_set _ _ (mkPending _ _ _ _)).
  - intros req now. unfold handle. cbv zeta.
    repeat (case_bool_decide; [destruct (negb _); [done|]; cbn|]); [..|done]; [done| | |].
    + rewrite poll_start_relabel. by destruct (handlePoll_start _ _ _ _).
    + unfold handleLogout. by destruct (readCookie _ _).
    + unfold handleMe, resolveSession. cbn. destruct (readCookie _ _) as [sid|]; [|done].
      by destruct (session_get (sessions st) sid now) as [[]].
  - intros lid [[|token access]|e]; cbn; [done..|]. by rewrite relabel_drop.
  - intros lid [[i|]|e] now sid; cbn; rewrite ?relabel_drop; [|done..].
    f_equal. apply (relabel_drop (mkAuth _ (pending st))).
Qed.
End secrecy.

(** ** Witness: one complete login *)

Definition sample_deps : AuthRouterDeps := mkDeps 10 10 3600000 (mkCookieOptions "fc_session" true).
Definition sample_device : DeviceCode := mkDevice "secret" "ABCD" "https://idp/x" "https://idp/x?c" 600 5.
Definition sample_parse (_ : bytes) : result value := Ok (VObj [("loginId", VStr "L")]).

#[local] Program Instance sample_provider : OidcProvider := {
  may_device r := r = Ok sample_device;
  may_poll dc r := r = Ok (PollComplete (VStr "good") (VStr "access"));
  may_verify token r := r = Ok (Some sample_identity);
  tenant_allowed t := t = "acme"
}.
Next Obligation. by intros token i [= ->]. Qed.

Definition post (url : string) (chunks : list bytes) : request := mkReq (Some url) (Some "POST") None chunks.

Definition sample_final_session : OperatorSession :=
  mkSession "S" "auth0|1" (Some "o@acme.test") Admin "pid" "acme" tenant_admin 3600005.
Definition sample_responses : list response :=
  [(handlePoll_verified sample_deps (mkAuth [] []) "L" (Ok (Some sample_identity)) 5 "S").2;
   (handleLogin_resume sample_deps (mkAuth [] []) (Ok sample_device) 1 "L").2].
Definition sample_final : system :=
  mkSys (mkAuth [("S", sample_final_session)] []) [] sample_responses.

Lemma reach_eq s s' : reachable sample_deps sample_parse s → s = s' → reachable sample_deps sample_parse s'.
Proof. by intros ? <-. Qed.

Lemma sample_reachable : reachable sample_deps sample_parse sample_final.
Proof.
  eapply reach_eq.
  - eapply reach_step.
    2: eapply (step_verify _ _ _ [] [] "L" (VStr "good") (Ok (Some sample_identity)) 5 "S"); [|reflexivity].
    + eapply reach_step. 2: eapply (step_poll _ _ _ [] [] "L" "secret"); [|reflexivity].
      * eapply reach_step. 2: eapply (step_request _ _ _ (post "/auth/login/poll?x=1" [[123]]) 2).
        -- eapply reach_step. 2: eapply (step_device _ _ _ [] [] (Ok sample_device) 1 "L"); [|reflexivity].
           ++ eapply reach_step; [apply reach_init|].
              eapply (step_request _ _ _ (post "/auth/login" []) 0). reflexivity.
           ++ reflexivity.
        -- reflexivity.
      * reflexivity.
    + reflexivity.
  - vm_compute. reflexivity.
Qed.

Lemma sessions_only_from_verified_logins_witness :
  verified sample_final_session ∧ tenant_allowed (tenant sample_final_session).
Proof.
  apply (sessions_only_from_verified_logins sample_deps sample_parse sample_final "S").
  - exact sample_reachable.
  - reflexivity.
Defined.
