(* ===== verification/WireClient.v ===== *)
(** * The engine client ([apps/bff/src/engine/wire-client.ts])

    The reply converters, the retrying [call], one definition per client verb, and the
    connection's state machine (dial, heartbeat, invalidation, close).  A verb is
    protocol code ([Proto]) run over a transport; [call] runs it once or twice. *)
From S2P Require Import Prelude Bytes Float64 Cbor Frame JsValue Payload Proto.
Open Scope Z_scope.

(** ** Replies *)

(** [throw new EngineRefusedError(error)]: the constructor reads the class of the error. *)
Definition newEngineRefusedError {A} (error : value) : result A :=
  _ ← get error "class"; _ ← get error "code"; Throw (EngineRefusedError error).

(** The converters differ in the tag they expect and in the message. *)
Definition replyTo (tag message : string) (reply : value) : result value :=
  expected ← object_with [tag] reply;
  if (expected : bool) then get reply tag
  else
    refused ← object_with ["Refused"] reply;
    if (refused : bool) then
      r ← get reply "Refused"; error ← get r "error"; newEngineRefusedError error
    else Throw (Error message).

Definition replyToQueryRows : value → result value :=
  replyTo "QueryRows" "engine returned an unexpected reply for a query".
Definition replyToAgentList : value → result value :=
  replyTo "AgentList" "engine returned an unexpected reply for a list-agents read".
Definition replyToPrincipalList : value → result value :=
  replyTo "PrincipalList" "engine returned an unexpected reply for a list-principals read".
Definition replyToGroupList : value → result value :=
  replyTo "GroupList" "engine returned an unexpected reply for a list-groups read".
Definition replyToLugProvisioned : value → result value :=
  replyTo "LugProvisioned" "engine returned an unexpected reply for a provisioning command".
Definition replyToObjectCatalog : value → result value :=
  replyTo "ObjectCatalog" "engine returned an unexpected reply for an object-list read".
Definition replyToIdamConnectors : value → result value :=
  replyTo "IdamConnectors" "engine returned an unexpected reply for an idam-connectors read".
Definition replyToIdamSyncStarted : value → result value :=
  replyTo "IdamSyncStarted" "engine returned an unexpected reply for an idam-sync command".
Definition replyToObjectMutated : value → result value :=
  replyTo "ObjectMutated" "engine returned an unexpected reply for an object command".
Definition replyToObjectDetail : value → result value :=
  replyTo "ObjectDetail" "engine returned an unexpected reply for an object-detail read".
Definition replyToDetectSummary : value → result value :=
  replyTo "DetectSummary" "engine returned an unexpected reply for a detect-summary read".
Definition replyToSocIncidentList : value → result value :=
  replyTo "SocIncidentList" "engine returned an unexpected reply for a SOC incident-list read".
Definition replyToSocIncidentDetail : value → result value :=
  replyTo "SocIncidentDetail" "engine returned an unexpected reply for a SOC incident-detail read".
Definition replyToSocTelemetry : value → result value :=
  replyTo "SocTelemetry" "engine returned an unexpected reply for a SOC telemetry read".
Definition replyToSocAudit : value → result value :=
  replyTo "SocAudit" "engine returned an unexpected reply for a SOC audit read".
Definition replyToSocActOutcome : value → result value :=
  replyTo "SocActed" "engine returned an unexpected reply for a SOC case act".
Definition replyToSocNotes : value → result value :=
  replyTo "SocNotes" "engine returned an unexpected reply for a SOC notes read".
Definition replyToSocDispositionOutcome : value → result value :=
  replyTo "SocDispositioned" "engine returned an unexpected reply for a SOC disposition".
Definition replyToSocImpact : value → result value :=
  replyTo "SocImpact" "engine returned an unexpected reply for a SOC impact read".
Definition replyToSocReport : value → result value :=
  replyTo "SocReport" "engine returned an unexpected reply for a SOC report read".
Definition replyToSocWeekly : value → result value :=
  replyTo "SocWeekly" "engine returned an unexpected reply for a SOC weekly read".
Definition replyToSettingsCommitted : value → result value :=
  replyTo "SettingsCommitted" "engine returned an unexpected reply for a settings commit".
Definition replyToSettings : value → result value :=
  replyTo "Settings" "engine returned an unexpected reply for a settings read".
Definition replyToSettingsProposed : value → result value :=
  replyTo "SettingsProposed" "engine returned an unexpected reply for a settings proposal".
Definition replyToSettingsApprovals : value → result value :=
  replyTo "SettingsApprovals" "engine returned an unexpected reply for a settings approvals read".
Definition replyToSettingsHistory : value → result value :=
  replyTo "SettingsHistory" "engine returned an unexpected reply for a settings history read".
Definition replyToSettingsReports : value → result value :=
  replyTo "SettingsReports" "engine returned an unexpected reply for a settings reports read".
Definition replyToModelAccess : value → result value :=
  replyTo "ModelAccess" "engine returned an unexpected reply for a model access read".
Definition replyToAgentGrantReceipt : value → result value :=
  replyTo "AgentGrantReceipt" "engine returned an unexpected reply for an agent grant set".
Definition replyToSocSettings : value → result value :=
  replyTo "SocSettings" "engine returned an unexpected reply for a SOC settings read".
Definition replyToSocSettingsCommitted : value → result value :=
  replyTo "SocSettingsCommitted" "engine returned an unexpected reply for a SOC settings commit".
Definition replyToSocRunState : value → result value :=
  replyTo "SocRunState" "engine returned an unexpected reply for a SOC cognition run".
Definition replyToSocNarrative : value → result value :=
  replyTo "SocNarrative" "engine returned an unexpected reply for a SOC narrative read".
Definition replyToSocPlanEffect : value → result value :=
  replyTo "SocPlanMutated" "engine returned an unexpected reply for a SOC plan command".
Definition replyToPolicyList : value → result value :=
  replyTo "PolicyList" "engine returned an unexpected reply for a policy-list read".
Definition replyToPolicyDetail : value → result value :=
  replyTo "PolicyDetail" "engine returned an unexpected reply for a policy-detail read".
Definition replyToPolicyEffective : value → result value :=
  replyTo "PolicyEffective" "engine returned an unexpected reply for a policy-effective read".
Definition replyToPolicyMutated : value → result value :=
  replyTo "PolicyMutated" "engine returned an unexpected reply for a policy command".
Definition replyToDecisionList : value → result value :=
  replyTo "DecisionList" "engine returned an unexpected reply for an entity-decisions read".
Definition replyToConnectionList : value → result value :=
  replyTo "ConnectionList" "engine returned an unexpected reply for an entity-connections read".
Definition replyToConnectivityGraph : value → result value :=
  replyTo "ConnectivityGraph" "engine returned an unexpected reply for a connectivity-graph read".
Definition replyToMemberList : value → result value :=
  replyTo "MemberList" "engine returned an unexpected reply for a connectivity-members read".
Definition replyToContainEffect : value → result value :=
  replyTo "Contained" "engine returned an unexpected reply for a contain command".
Definition replyToDecisionDetail : value → result value :=
  replyTo "DecisionDetail" "engine returned an unexpected reply for a log-explain read".
Definition replyToLogExported : value → result value :=
  replyTo "LogExported" "engine returned an unexpected reply for a log-export command".
Definition replyToVtzTree : value → result value :=
  replyTo "VtzTree" "engine returned an unexpected reply for a vtz-tree read".
Definition replyToVtzDetail : value → result value :=
  replyTo "VtzDetail" "engine returned an unexpected reply for a vtz-detail read".
Definition replyToBundleConvergence : value → result value :=
  replyTo "BundleConvergence" "engine returned an unexpected reply for a bundle convergence read".
Definition replyToBundleCommitted : value → result value :=
  replyTo "BundleCommitted" "engine returned an unexpected reply for a bundle commit".
Definition replyToVtzMutation : value → result value :=
  replyTo "VtzMutated" "engine returned an unexpected reply for a vtz mutation".

(** ** Calls *)

Definition call_timed_out : exn := Error "engine call timed out".

(** [withTimeout]: an operation that has not settled when the timer fires rejects. *)
Definition withTimeout {A} (s : status A) : result A :=
  match s with Done r => r | Waiting => Throw call_timed_out end.

(** What one attempt meets: the outcome of [ensureTransport] (a transport's number),
    then the answers of that transport until the timer fires. *)
Record attempt := mkAttempt { att_connect : result nat; att_answers : list answer }.

(** What a call did: the frames it handed to a transport, with that transport, and the
    transports it invalidated. *)
Record call_trace := mkTrace { tr_sent : list (nat * OutboundFrame); tr_invalidated : list nat }.

Definition is_refusal (e : exn) : bool :=
  match e with EngineRefusedError _ => true | _ => false end.

(** The loop of [call], [n] attempts to go.  [None] is "the next attempt has not
    been made yet". *)
Fixpoint call_loop {A} (n : nat) (lastError : exn) (op : proc A) (attempts : list attempt)
    : call_trace * option (result A) :=
  match n with
  | O => (mkTrace [] [], Some (Throw lastError))
  | S n =>
      match attempts with
      | [] => (mkTrace [] [], None)
      | att :: attempts =>
          match att_connect att with
          | Throw e => (mkTrace [] [], Some (Throw e))
          | Ok t =>
              let '(sent, s) := exec op (att_answers att) in
              let sent := map (pair t) sent in
              match withTimeout s with
              | Ok a => (mkTrace sent [], Some (Ok a))
              | Throw e =>
                  if is_refusal e then (mkTrace sent [], Some (Throw e))
                  else
                    let '(tr, r) := call_loop n e op attempts in
                    (mkTrace (sent ++ tr_sent tr) (t :: tr_invalidated tr), r)
              end
          end
      end
  end.

Definition call {A} (op : proc A) (attempts : list attempt) : call_trace * option (result A) :=
  call_loop 2 OutOfFuel op attempts.

Section verbs.
Context `{NumberToString} `{ToNumberOther}.

(** [async (transport) => convert(await dispatch(transport, { tag: request }))] *)
Definition verb (tag : string) (convert : value → result value) (request : value) : proc value :=
  reply ← dispatch (VObj [(tag, request)]); proc_lift (convert reply).

Definition ping : proc unit := heartbeat.

(** [{ handle: [...handle] }]: a handle is an array of numbers. *)
Definition cursor_request (handle : value) : result value :=
  h ← js_spread handle; Ok (VObj [("handle", h)]).
Definition cursorFetch (handle : value) : proc value :=
  body ← proc_lift (cursor_request handle); verb "CursorFetch" replyToQueryRows body.
Definition cursorClose (handle : value) : proc value :=
  body ← proc_lift (cursor_request handle); verb "CursorClose" Ok body.

Definition querySubmit : value → proc value := verb "QuerySubmit" replyToQueryRows.
Definition listAgents : value → proc value := verb "ListAgents" replyToAgentList.
Definition listPrincipals : value → proc value := verb "ListPrincipals" replyToPrincipalList.
Definition listGroups : value → proc value := verb "ListGroups" replyToGroupList.
Definition groupCreate : value → proc value := verb "GroupCreate" replyToLugProvisioned.
Definition principalCreate : value → proc value := verb "PrincipalCreate" replyToLugProvisioned.
Definition principalEdit : value → proc value := verb "PrincipalEdit" replyToLugProvisioned.
Definition principalSetStatus : value → proc value := verb "PrincipalSetStatus" replyToLugProvisioned.
Definition groupEdit : value → proc value := verb "GroupEdit" replyToLugProvisioned.
Definition groupSetMembers : value → proc value := verb "GroupSetMembers" replyToLugProvisioned.
Definition objectList : value → proc value := verb "ObjectList" replyToObjectCatalog.
Definition idamConnectors : value → proc value := verb "IdamConnectors" replyToIdamConnectors.
Definition idamSync : value → proc value := verb "IdamSync" replyToIdamSyncStarted.
Definition idamConnect : value → proc value := verb "IdamConnect" replyToLugProvisioned.
Definition idamConfigure : value → proc value := verb "IdamConfigure" replyToLugProvisioned.
Definition objectDetail : value → proc value := verb "ObjectDetail" replyToObjectDetail.
Definition objectCreate : value → proc value := verb "ObjectCreate" replyToObjectMutated.
Definition objectEdit : value → proc value := verb "ObjectEdit" replyToObjectMutated.
Definition objectDelete : value → proc value := verb "ObjectDelete" replyToObjectMutated.
Definition detectSummary : value → proc value := verb "DetectSummary" replyToDetectSummary.
Definition socIncidentList : value → proc value := verb "SocIncidentList" replyToSocIncidentList.
Definition socIncidentDetail : value → proc value := verb "SocIncidentDetail" replyToSocIncidentDetail.
Definition socNarrative : value → proc value := verb "SocNarrative" replyToSocNarrative.
Definition socTelemetry : value → proc value := verb "SocTelemetry" replyToSocTelemetry.
Definition socAudit : value → proc value := verb "SocAudit" replyToSocAudit.
Definition socImpact : value → proc value := verb "SocImpact" replyToSocImpact.
Definition socReport : value → proc value := verb "SocReport" replyToSocReport.
Definition socWeekly : value → proc value := verb "SocWeekly" replyToSocWeekly.
Definition settingsCommit : value → proc value := verb "SettingsCommit" replyToSettingsCommitted.
Definition settingsPropose : value → proc value := verb "SettingsPropose" replyToSettingsProposed.
Definition settingsApprovals : value → proc value := verb "SettingsApprovals" replyToSettingsApprovals.
Definition settingsApprove : value → proc value := verb "SettingsApprove" replyToSettingsCommitted.
Definition settingsHistory : value → proc value := verb "SettingsHistory" replyToSettingsHistory.
Definition settingsRollback : value → proc value := verb "SettingsRollback" replyToSettingsCommitted.
Definition settingsReports : value → proc value := verb "SettingsReports" replyToSettingsReports.
Definition modelAccessRead : value → proc value := verb "ModelAccessRead" replyToModelAccess.
Definition agentGrantSet : value → proc value := verb "AgentGrantSet" replyToAgentGrantReceipt.
Definition settingsRead : value → proc value := verb "SettingsRead" replyToSettings.
Definition socSettingsRead : value → proc value := verb "SocSettingsRead" replyToSocSettings.
Definition socSettingsCommit : value → proc value := verb "SocSettingsCommit" replyToSocSettingsCommitted.
Definition socCognitionRun : value → proc value := verb "SocCognitionRun" replyToSocRunState.
Definition socPlanApprove : value → proc value := verb "SocPlanApprove" replyToSocPlanEffect.
Definition socPlanModify : value → proc value := verb "SocPlanModify" replyToSocPlanEffect.
Definition socIncidentAct : value → proc value := verb "SocIncidentAct" replyToSocActOutcome.
Definition socNotes : value → proc value := verb "SocNotes" replyToSocNotes.
Definition socDisposition : value → proc value := verb "SocDisposition" replyToSocDispositionOutcome.
Definition policyListByZone : value → proc value := verb "PolicyListByZone" replyToPolicyList.
Definition policyDetail : value → proc value := verb "PolicyDetail" replyToPolicyDetail.
Definition policyEffective : value → proc value := verb "PolicyEffective" replyToPolicyEffective.
Definition policyCreate : value → proc value := verb "PolicyCreate" replyToPolicyMutated.
Definition policyEdit : value → proc value := verb "PolicyEdit" replyToPolicyMutated.
Definition policyPublish : value → proc value := verb "PolicyPublish" replyToPolicyMutated.
Definition policyDelete : value → proc value := verb "PolicyDelete" replyToPolicyMutated.
Definition entityDecisions : value → proc value := verb "EntityDecisions" replyToDecisionList.
Definition entityConnections : value → proc value := verb "EntityConnections" replyToConnectionList.
Definition connectivityGraph : value → proc value := verb "ConnectivityGraph" replyToConnectivityGraph.
Definition connectivityMembers : value → proc value := verb "ConnectivityMembers" replyToMemberList.
Definition contain : value → proc value := verb "Contain" replyToContainEffect.
Definition logQuery : value → proc value := verb "LogQuery" replyToDecisionList.
Definition logExplain : value → proc value := verb "LogExplain" replyToDecisionDetail.
Definition logExport : value → proc value := verb "LogExport" replyToLogExported.
Definition vtzTree : value → proc value := verb "VtzTree" replyToVtzTree.
Definition bundleConvergence : value → proc value := verb "BundleConvergence" replyToBundleConvergence.
Definition vtzDetail : value → proc value := verb "VtzDetail" replyToVtzDetail.
Definition bundleCommit : value → proc value := verb "BundleCommit" replyToBundleCommitted.
Definition vtzCreate : value → proc value := verb "VtzCreate" replyToVtzMutation.
Definition vtzEdit : value → proc value := verb "VtzEdit" replyToVtzMutation.
Definition vtzRescope : value → proc value := verb "VtzRescope" replyToVtzMutation.
Definition vtzDelete : value → proc value := verb "VtzDelete" replyToVtzMutation.
End verbs.

(** ** The connection *)

(** The mutable fields of [WireCrucibleClient].  Transports and dials are numbered;
    [dials] are the dials in flight, [ended] the transports told to close. *)
Record client := mkClient {
  cl_transport : option nat;
  cl_connecting : option nat;
  cl_heartbeat : bool;
  cl_dials : list nat;
  cl_next : nat;
  cl_ended : list nat
}.

Definition client_init : client := mkClient None None false [] 0 [].

Definition startHeartbeat (c : client) : client :=
  mkClient (cl_transport c) (cl_connecting c) true (cl_dials c) (cl_next c) (cl_ended c).
Definition stopHeartbeat (c : client) : client :=
  mkClient (cl_transport c) (cl_connecting c) false (cl_dials c) (cl_next c) (cl_ended c).

(** [ensureTransport], up to its await: the live transport, or the dial to wait for. *)
Definition ensureTransport (c : client) : client * (nat + nat) :=
  match cl_transport c with
  | Some t => (c, inl t)
  | None =>
      match cl_connecting c with
      | Some d => (c, inr d)
      | None =>
          let d := cl_next c in
          (mkClient None (Some d) (cl_heartbeat c) (d :: cl_dials c) (S d) (cl_ended c), inr d)
      end
  end.

(** A dial settles: its continuations run whatever happened meanwhile. *)
Definition dial_resolved (c : client) (d t : nat) : client :=
  startHeartbeat (mkClient (Some t) None (cl_heartbeat c)
    (filter (λ x, x ≠ d) (cl_dials c)) (cl_next c) (cl_ended c)).
Definition dial_rejected (c : client) (d : nat) : client :=
  mkClient (cl_transport c) None (cl_heartbeat c)
    (filter (λ x, x ≠ d) (cl_dials c)) (cl_next c) (cl_ended c).

Definition invalidate (c : client) (dead : nat) : client :=
  if bool_decide (cl_transport c = Some dead) then
    let c := stopHeartbeat c in
    mkClient None (cl_connecting c) (cl_heartbeat c) (cl_dials c) (cl_next c) (dead :: cl_ended c)
  else c.

Definition client_close (c : client) : client :=
  let c := stopHeartbeat c in
  mkClient None None (cl_heartbeat c) (cl_dials c) (cl_next c)
    (option_list (cl_transport c) ++ cl_ended c).

(** A heartbeat tick on the live transport: a failed PING invalidates it. *)
Definition beat (c : client) (failed : nat → bool) : client :=
  match cl_transport c with
  | Some t => if failed t then invalidate c t else c
  | None => c
  end.

Inductive client_event :=
  | EvEnsure | EvDialOk (d t : nat) | EvDialFail (d : nat) | EvInvalidate (t : nat)
  | EvBeat (failed : nat → bool) | EvClose.

Definition client_step (c : client) (ev : client_event) : client :=
  match ev with
  | EvEnsure => (ensureTransport c).1
  | EvDialOk d t => if bool_decide (d ∈ cl_dials c) then dial_resolved c d t else c
  | EvDialFail d => if bool_decide (d ∈ cl_dials c) then dial_rejected c d else c
  | EvInvalidate t => invalidate c t
  | EvBeat failed => beat c failed
  | EvClose => client_close c
  end.

Definition client_run (evs : list client_event) : client := foldl client_step client_init evs.

(** ** Properties *)

(** One dial at a time, never beside a live transport, and a heartbeat exactly while
    there is a transport. *)
Record client_inv (c : client) : Prop := {
  inv_dials : cl_dials c = option_list (cl_connecting c);
  inv_excl : is_Some (cl_transport c) → cl_connecting c = None;
  inv_beat : cl_heartbeat c = true ↔ is_Some (cl_transport c)
}.

Definition not_close (ev : client_event) : Prop := match ev with EvClose => False | _ => True end.

Lemma invalidate_inv c t : client_inv c → client_inv (invalidate c t).
Proof.
  intros [H1 H2 H3]. unfold invalidate. case_bool_decide as Ht; [|done].
  constructor; cbn; [done|by intros []|]. split; [done|by intros []].
Qed.

Lemma filter_self (d : nat) : filter (λ x, x ≠ d) [d] = [].
Proof. rewrite filter_cons_False; [done|]. intros H. by apply H. Qed.

Lemma client_step_inv c ev : not_close ev → client_inv c → client_inv (client_step c ev).
Proof.
  intros Hev Hinv. destruct ev as [|d t|d|t|failed|]; cbn [client_step]; [| | |by apply invalidate_inv| |done].
  - destruct c as [[t|] [d|] hb ds nx en], Hinv as [H1 H2 H3]; cbn in *; [by constructor..|].
    constructor; cbn; [by rewrite H1|by intros []|done].
  - case_bool_decide as Hd; [|done]. destruct Hinv as [H1 H2 H3]. rewrite H1 in Hd.
    destruct (cl_connecting c) as [d'|]; [|set_solver]. apply list_elem_of_singleton in Hd as ->.
    constructor; cbn; [by rewrite H1, filter_self|done|]. split; [by eexists|done].
  - case_bool_decide as Hd; [|done]. destruct Hinv as [H1 H2 H3]. rewrite H1 in Hd.
    destruct (cl_connecting c) as [d'|]; [|set_solver]. apply list_elem_of_singleton in Hd as ->.
    constructor; cbn; [by rewrite H1, filter_self|done|done].
  - unfold beat. destruct (cl_transport c); [|done]. case_match; [by apply invalidate_inv|done].
Qed.

(** while the client is not closed, its connection is well managed whatever the
    order of calls, dial outcomes, heartbeats and failures: at most one dial is in
    flight and never beside a live transport (a burst of calls shares it), and the
    heartbeat runs exactly while there is a transport. *)
Theorem connection_managed evs :
  Forall not_close evs →
  let c := client_run evs in
  (length (cl_dials c) ≤ 1)%nat ∧ (is_Some (cl_transport c) → cl_dials c = []) ∧
  (cl_heartbeat c = true ↔ is_Some (cl_transport c)).
Proof.
  intros Hevs. assert (client_inv (client_run evs)) as [H1 H2 H3].
  { unfold client_run. assert (client_inv client_init) as Hi by (constructor; cbn; [done..|by split; [|intros []]]).
    revert Hi. generalize client_init. induction Hevs as [|ev evs Hev _ IH]; [done|].
    intros c Hc. cbn. by apply IH, client_step_inv. }
  cbv zeta. rewrite H1. split_and!; [by destruct (cl_connecting _); cbn; lia| |done].
  intros Ht. by rewrite (H2 Ht).
Qed.

(** Closing a client while a dial is in flight does not stop the dial: when it
    succeeds, the closed client has a live transport and a running heartbeat. *)
Theorem close_during_dial_resurrects c t :
  cl_transport c = None → cl_connecting c = None → cl_heartbeat c = false →
  let d := cl_next c in
  let c' := foldl client_step c [EvEnsure; EvClose; EvDialOk d t] in
  cl_transport c' = Some t ∧ cl_heartbeat c' = true ∧ cl_ended c' = cl_ended c.
Proof.
  intros Ht Hc Hb. cbv zeta. cbn [foldl client_step]. unfold ensureTransport. rewrite Ht, Hc.
  cbn [fst client_close cl_dials cl_transport]. rewrite bool_decide_true by (cbn; set_solver).
  done.
Qed.

Section call_proofs.
Context {A : Type}.

(** A call makes at most two attempts, an engine refusal is never retried, and
    only a transport the operation failed on is invalidated: a call that succeeds on
    its first attempt, or is refused there, invalidates nothing. *)
Theorem call_retries_once (op : proc A) t1 a1 rest tr r :
  call op (mkAttempt (Ok t1) a1 :: rest) = (tr, Some r) →
  let first := exec op a1 in
  (∀ a, first.2 = Done (Ok a) → r = Ok a ∧ tr = mkTrace (map (pair t1) first.1) []) ∧
  (∀ err, first.2 = Done (Throw (EngineRefusedError err)) →
     r = Throw (EngineRefusedError err) ∧ tr = mkTrace (map (pair t1) first.1) []) ∧
  (∀ e, withTimeout first.2 = Throw e → is_refusal e = false →
     ∃ att rest', rest = att :: rest' ∧
     match att_connect att with
     | Throw e' => r = Throw e' ∧ tr = mkTrace (map (pair t1) first.1) [t1]
     | Ok t2 =>
         let second := exec op (att_answers att) in
         r = withTimeout second.2 ∧
         tr_sent tr = map (pair t1) first.1 ++ map (pair t2) second.1 ∧
         tr_invalidated tr = t1 :: (match withTimeout second.2 with
                                    | Throw e' => if is_refusal e' then [] else [t2]
                                    | Ok _ => [] end)
     end).
Proof.
  unfold call. cbn [call_loop att_connect att_answers]. cbv zeta.
  destruct (exec op a1) as [sent s] eqn:E1. cbn [fst snd].
  intros H. split_and!.
  - intros a ->. cbn in H. by simplify_eq.
  - intros err ->. cbn in H. by simplify_eq.
  - intros e He Hr. rewrite He, Hr in H.
    destruct rest as [|[c2 a2] rest]; [by simplify_eq/=|].
    exists (mkAttempt c2 a2), rest. split; [done|]. cbn [att_connect att_answers] in *.
    destruct c2 as [t2|e2]; [|by simplify_eq/=; rewrite app_nil_r].
    destruct (exec op a2) as [sent2 s2] eqn:E2. cbn [fst snd].
    destruct (withTimeout s2) as [a|e2]; [by simplify_eq/=|].
    destruct (is_refusal e2); by simplify_eq/=; rewrite ?app_nil_r.
Qed.
End call_proofs.

(** a mutating request may be executed twice.  If the connection fails after the
    request frame was sent, the call sends the same frame again on a new connection,
    for any request the dispatcher knows, writes included. *)
Theorem write_may_be_sent_twice `{NumberToString} `{ToNumberOther} tag convert request ft bs t1 t2 e answers :
  frameTypeForRequest (VObj [(tag, request)]) = Ok ft →
  encodeWireRequest (VObj [(tag, request)]) = Ok bs → is_refusal e = false →
  let frame := mkOutbound ft bs (Some 0) (Some Flags.END_STREAM) None in
  tr_sent (call (verb tag convert request)
    [mkAttempt (Ok t1) [Sent; Rejected e]; mkAttempt (Ok t2) answers]).1 = [(t1, frame); (t2, frame)].
Proof.
  intros Hft Hbs He. cbv zeta.
  assert (∀ ans, (exec (verb tag convert request) ans).1 = [mkOutbound ft bs (Some 0) (Some Flags.END_STREAM) None]) as Hsent.
  { intros ans. unfold verb, dispatch. rewrite Hft, Hbs. cbn.
    destruct ans as [|[|f|e'] ans]; try done. destruct ans as [|[|f'|e'] ans]; try done. cbn.
    destruct (decodeWireReply (Frame.payload f')) as [v|]; [|done]. cbn. by destruct (convert v). }
  unfold call. cbn [call_loop att_connect att_answers].
  pose proof (Hsent [Sent; Rejected e]) as H1. pose proof (Hsent answers) as H2.
  assert ((exec (verb tag convert request) [Sent; Rejected e]).2 = Done (Throw e)) as H3.
  { unfold verb, dispatch. rewrite Hft, Hbs. done. }
  destruct (exec (verb tag convert request) [Sent; Rejected e]) as [s1 r1].
  destruct (exec (verb tag convert request) answers) as [s2 r2]. cbn in *. subst. cbn. rewrite He.
  destruct (withTimeout r2) as [v|e2]; [done|]. by destruct (is_refusal e2).
Qed.

(** ** Witnesses *)

Definition sample_events : list client_event :=
  [EvEnsure; EvEnsure; EvDialFail 0; EvEnsure; EvDialOk 1 7; EvBeat (λ _, true); EvEnsure].

Lemma connection_managed_witness :
  let c := client_run sample_events in
  (length (cl_dials c) ≤ 1)%nat ∧ (is_Some (cl_transport c) → cl_dials c = []) ∧
  (cl_heartbeat c = true ↔ is_Some (cl_transport c)).
Proof. apply connection_managed. repeat constructor. Defined.

Lemma close_during_dial_resurrects_witness :
  let c' := foldl client_step client_init [EvEnsure; EvClose; EvDialOk (cl_next client_init) 7] in
  cl_transport c' = Some 7%nat ∧ cl_heartbeat c' = true ∧ cl_ended c' = cl_ended client_init.
Proof. apply close_during_dial_resurrects; reflexivity. Defined.

Definition sample_ping_call : call_trace * option (result unit) :=
  call heartbeat [mkAttempt (Ok 1%nat) [Sent; Rejected (Error "reset")]; mkAttempt (Throw (Error "down")) []].

Lemma call_retries_once_witness :
  ∃ tr r, sample_ping_call = (tr, Some r) ∧
    ∀ a, (exec heartbeat [Sent; Rejected (Error "reset")]).2 = Done (Ok a) → r = Ok a.
Proof.
  eexists _, _. split; [reflexivity|].
  exact (λ a H, proj1 (proj1 (call_retries_once heartbeat 1 [Sent; Rejected (Error "reset")]
    [mkAttempt (Throw (Error "down")) []] _ _ eq_refl) a H)).
Defined.

Definition sample_write : value := VObj [("request_id", vint 1); ("vtz_id", VStr "z")].

Lemma write_may_be_sent_twice_witness :
  ∃ bs, let frame := mkOutbound FrameType.QuerySubmit bs (Some 0) (Some Flags.END_STREAM) None in
  tr_sent (call (@verb (λ _, "") (λ _, 0) "VtzDelete" replyToVtzMutation sample_write)
    [mkAttempt (Ok 1%nat) [Sent; Rejected (Error "reset")]; mkAttempt (Ok 2%nat) []]).1
  = [(1%nat, frame); (2%nat, frame)].
Proof.
  eexists. apply (@write_may_be_sent_twice (λ _, "") (λ _, 0) "VtzDelete" replyToVtzMutation sample_write);
    [vm_compute; reflexivity..|reflexivity].
Defined.
