(* ===== verification/OperatorEngine.v ===== *)
(** * The operator engine ([apps/bff/src/engine/operator-engine.ts])

    The facade every surface goes through.  Each method records who acts and passes
    the request on with the operator delegation of the principal.  The client is a
    parameter, its methods called by name; [wire_client] gives them the verbs of
    [WireClient]. *)
From S2P Require Import Prelude Bytes Float64 Cbor JsValue JsString Rbac AuthRouter Payload Proto WireProofs WireClient.
Open Scope Z_scope.

Record EngineDelegation := mkDelegation {
  del_operator : string; del_tier : ExplainTier; del_action : string;
  del_requestId : option value; del_tenant : option string }.

(** [requestId !== undefined] keeps the request id; the principal's tenant is always set. *)
Definition delegationFor (principal : OperatorPrincipal) (action : string) (requestId : value) : EngineDelegation :=
  mkDelegation (p_subject principal) (p_tier principal) action
    (if is_undefined requestId then None else Some requestId) (Some (p_tenant principal)).

(** [{ principal: principal.principalId, tenant: principal.tenant }] *)
Definition plainDelegation (principal : OperatorPrincipal) : value :=
  VObj [("principal", VStr (p_principalId principal)); ("tenant", VStr (p_tenant principal))].

Definition settingsDelegation (principal : OperatorPrincipal) : value :=
  VObj ([("principal", VStr (p_principalId principal)); ("tenant", VStr (p_tenant principal))] ++
        match settingsTier principal with
        | Some t => [("settings_tier", VStr (tier_name t))]
        | None => []
        end).

(** The own properties [...v] copies: those of an object; an array has its indices. *)
Definition spread_props (v : value) : props :=
  match v with
  | VObj ps => ps
  | VArr items => imap (λ i w, (pretty (Z.of_nat i), w)) items
  | VBytes bs => imap (λ i b, (pretty (Z.of_nat i), vint b)) bs
  | _ => []
  end.

(** [{ ...request, operator }]: the operator overrides one already on the request. *)
Definition with_operator (request operator : value) : value :=
  VObj (obj_set (spread_props request) "operator" operator).

Section facade.
(** The result of a client call. *)
Context {M : Type} (client : string → value → M).

Definition brokered (action : string) (operator : OperatorPrincipal → value)
    (principal : OperatorPrincipal) (request : value) : result (EngineDelegation * M) :=
  requestId ← get request "request_id";
  Ok (delegationFor principal action requestId, client action (with_operator request (operator principal))).

Definition querySubmit := brokered "querySubmit" plainDelegation.
Definition listAgents := brokered "listAgents" plainDelegation.
Definition listPrincipals := brokered "listPrincipals" plainDelegation.
Definition listGroups := brokered "listGroups" plainDelegation.
Definition groupCreate := brokered "groupCreate" plainDelegation.
Definition objectList := brokered "objectList" plainDelegation.
Definition idamConnectors := brokered "idamConnectors" plainDelegation.
Definition idamSync := brokered "idamSync" plainDelegation.
Definition idamConnect := brokered "idamConnect" plainDelegation.
Definition idamConfigure := brokered "idamConfigure" plainDelegation.
Definition objectDetail := brokered "objectDetail" plainDelegation.
Definition detectSummary := brokered "detectSummary" plainDelegation.
Definition socIncidentList := brokered "socIncidentList" plainDelegation.
Definition socIncidentDetail := brokered "socIncidentDetail" plainDelegation.
Definition socNarrative := brokered "socNarrative" plainDelegation.
Definition socTelemetry := brokered "socTelemetry" plainDelegation.
Definition socAudit := brokered "socAudit" plainDelegation.
Definition socImpact := brokered "socImpact" plainDelegation.
Definition socReport := brokered "socReport" plainDelegation.
Definition socWeekly := brokered "socWeekly" plainDelegation.
Definition socSettingsRead := brokered "socSettingsRead" settingsDelegation.
Definition settingsRead := brokered "settingsRead" settingsDelegation.
Definition settingsPropose := brokered "settingsPropose" settingsDelegation.
Definition settingsApprovals := brokered "settingsApprovals" settingsDelegation.
Definition settingsApprove := brokered "settingsApprove" settingsDelegation.
Definition settingsHistory := brokered "settingsHistory" settingsDelegation.
Definition settingsRollback := brokered "settingsRollback" settingsDelegation.
Definition settingsReports := brokered "settingsReports" settingsDelegation.
Definition modelAccessRead := brokered "modelAccessRead" settingsDelegation.
Definition agentGrantSet := brokered "agentGrantSet" settingsDelegation.
Definition settingsCommit := brokered "settingsCommit" settingsDelegation.
Definition socSettingsCommit := brokered "socSettingsCommit" settingsDelegation.
Definition socCognitionRun := brokered "socCognitionRun" plainDelegation.
Definition socPlanApprove := brokered "socPlanApprove" plainDelegation.
Definition socPlanModify := brokered "socPlanModify" plainDelegation.
Definition socIncidentAct := brokered "socIncidentAct" plainDelegation.
Definition socNotes := brokered "socNotes" plainDelegation.
Definition socDisposition := brokered "socDisposition" plainDelegation.
Definition policyListByZone := brokered "policyListByZone" plainDelegation.
Definition policyDetail := brokered "policyDetail" plainDelegation.
Definition policyEffective := brokered "policyEffective" plainDelegation.
Definition policyCreate := brokered "policyCreate" plainDelegation.
Definition policyEdit := brokered "policyEdit" plainDelegation.
Definition policyPublish := brokered "policyPublish" plainDelegation.
Definition policyDelete := brokered "policyDelete" plainDelegation.
Definition objectCreate := brokered "objectCreate" plainDelegation.
Definition objectEdit := brokered "objectEdit" plainDelegation.
Definition objectDelete := brokered "objectDelete" plainDelegation.
Definition groupEdit := brokered "groupEdit" plainDelegation.
Definition groupSetMembers := brokered "groupSetMembers" plainDelegation.
Definition principalCreate := brokered "principalCreate" plainDelegation.
Definition principalEdit := brokered "principalEdit" plainDelegation.
Definition principalSetStatus := brokered "principalSetStatus" plainDelegation.
Definition entityDecisions := brokered "entityDecisions" plainDelegation.
Definition entityConnections := brokered "entityConnections" plainDelegation.
Definition connectivityGraph := brokered "connectivityGraph" plainDelegation.
Definition connectivityMembers := brokered "connectivityMembers" plainDelegation.
Definition contain (principal : OperatorPrincipal) (request : value) : result (EngineDelegation * M) :=
  Ok (delegationFor principal "contain" VUndefined,
      client "contain" (with_operator request (plainDelegation principal))).
Definition logQuery := brokered "logQuery" plainDelegation.
Definition logExplain := brokered "logExplain" plainDelegation.
Definition logExport (principal : OperatorPrincipal) (request : value) : result (EngineDelegation * M) :=
  query ← get request "query"; requestId ← get query "request_id";
  Ok (delegationFor principal "logExport" requestId,
      client "logExport" (with_operator request (plainDelegation principal))).
Definition vtzTree := brokered "vtzTree" plainDelegation.
Definition vtzDetail := brokered "vtzDetail" plainDelegation.
Definition bundleCommit := brokered "bundleCommit" plainDelegation.
Definition bundleConvergence (principal : OperatorPrincipal) (request : value) : result (EngineDelegation * M) :=
  requestId ← get request "request_id";
  Ok (delegationFor principal "bundleConvergence" requestId, client "bundleConvergence" request).
Definition vtzCreate := brokered "vtzCreate" plainDelegation.
Definition vtzEdit := brokered "vtzEdit" plainDelegation.
Definition vtzRescope := brokered "vtzRescope" plainDelegation.
Definition vtzDelete := brokered "vtzDelete" plainDelegation.
Definition cursorFetch (principal : OperatorPrincipal) (handle : value) : result (EngineDelegation * M) :=
  Ok (delegationFor principal "cursorFetch" VUndefined, client "cursorFetch" handle).
Definition cursorClose (principal : OperatorPrincipal) (handle : value) : result (EngineDelegation * M) :=
  Ok (delegationFor principal "cursorClose" VUndefined, client "cursorClose" handle).

(** Every method, with the delegation it injects. *)
Definition FACADE : list (string * (OperatorPrincipal → value) *
                          (OperatorPrincipal → value → result (EngineDelegation * M))) :=
  [("querySubmit", plainDelegation, querySubmit);
   ("listAgents", plainDelegation, listAgents);
   ("listPrincipals", plainDelegation, listPrincipals);
   ("listGroups", plainDelegation, listGroups);
   ("groupCreate", plainDelegation, groupCreate);
   ("objectList", plainDelegation, objectList);
   ("idamConnectors", plainDelegation, idamConnectors);
   ("idamSync", plainDelegation, idamSync);
   ("idamConnect", plainDelegation, idamConnect);
   ("idamConfigure", plainDelegation, idamConfigure);
   ("objectDetail", plainDelegation, objectDetail);
   ("detectSummary", plainDelegation, detectSummary);
   ("socIncidentList", plainDelegation, socIncidentList);
   ("socIncidentDetail", plainDelegation, socIncidentDetail);
   ("socNarrative", plainDelegation, socNarrative);
   ("socTelemetry", plainDelegation, socTelemetry);
   ("socAudit", plainDelegation, socAudit);
   ("socImpact", plainDelegation, socImpact);
   ("socReport", plainDelegation, socReport);
   ("socWeekly", plainDelegation, socWeekly);
   ("socSettingsRead", settingsDelegation, socSettingsRead);
   ("settingsRead", settingsDelegation, settingsRead);
   ("settingsPropose", settingsDelegation, settingsPropose);
   ("settingsApprovals", settingsDelegation, settingsApprovals);
   ("settingsApprove", settingsDelegation, settingsApprove);
   ("settingsHistory", settingsDelegation, settingsHistory);
   ("settingsRollback", settingsDelegation, settingsRollback);
   ("settingsReports", settingsDelegation, settingsReports);
   ("modelAccessRead", settingsDelegation, modelAccessRead);
   ("agentGrantSet", settingsDelegation, agentGrantSet);
   ("settingsCommit", settingsDelegation, settingsCommit);
   ("socSettingsCommit", settingsDelegation, socSettingsCommit);
   ("socCognitionRun", plainDelegation, socCognitionRun);
   ("socPlanApprove", plainDelegation, socPlanApprove);
   ("socPlanModify", plainDelegation, socPlanModify);
   ("socIncidentAct", plainDelegation, socIncidentAct);
   ("socNotes", plainDelegation, socNotes);
   ("socDisposition", plainDelegation, socDisposition);
   ("policyListByZone", plainDelegation, policyListByZone);
   ("policyDetail", plainDelegation, policyDetail);
   ("policyEffective", plainDelegation, policyEffective);
   ("policyCreate", plainDelegation, policyCreate);
   ("policyEdit", plainDelegation, policyEdit);
   ("policyPublish", plainDelegation, policyPublish);
   ("policyDelete", plainDelegation, policyDelete);
   ("objectCreate", plainDelegation, objectCreate);
   ("objectEdit", plainDelegation, objectEdit);
   ("objectDelete", plainDelegation, objectDelete);
   ("groupEdit", plainDelegation, groupEdit);
   ("groupSetMembers", plainDelegation, groupSetMembers);
   ("principalCreate", plainDelegation, principalCreate);
   ("principalEdit", plainDelegation, principalEdit);
   ("principalSetStatus", plainDelegation, principalSetStatus);
   ("entityDecisions", plainDelegation, entityDecisions);
   ("entityConnections", plainDelegation, entityConnections);
   ("connectivityGraph", plainDelegation, connectivityGraph);
   ("connectivityMembers", plainDelegation, connectivityMembers);
   ("contain", plainDelegation, contain);
   ("logQuery", plainDelegation, logQuery);
   ("logExplain", plainDelegation, logExplain);
   ("logExport", plainDelegation, logExport);
   ("vtzTree", plainDelegation, vtzTree);
   ("vtzDetail", plainDelegation, vtzDetail);
   ("bundleCommit", plainDelegation, bundleCommit);
   ("vtzCreate", plainDelegation, vtzCreate);
   ("vtzEdit", plainDelegation, vtzEdit);
   ("vtzRescope", plainDelegation, vtzRescope);
   ("vtzDelete", plainDelegation, vtzDelete)].

(** The methods that inject none. *)
Definition UNDELEGATED : list (string * (OperatorPrincipal → value → result (EngineDelegation * M))) :=
  [("bundleConvergence", bundleConvergence); ("cursorFetch", cursorFetch); ("cursorClose", cursorClose)].
End facade.

Section wire_client.
Context `{NumberToString} `{ToNumberOther}.

(** The wire client's methods by name. *)
Definition CLIENT_VERBS : list (string * (value → proc value)) :=
  [("querySubmit", WireClient.querySubmit);
   ("listAgents", WireClient.listAgents);
   ("listPrincipals", WireClient.listPrincipals);
   ("listGroups", WireClient.listGroups);
   ("groupCreate", WireClient.groupCreate);
   ("principalCreate", WireClient.principalCreate);
   ("principalEdit", WireClient.principalEdit);
   ("principalSetStatus", WireClient.principalSetStatus);
   ("groupEdit", WireClient.groupEdit);
   ("groupSetMembers", WireClient.groupSetMembers);
   ("objectList", WireClient.objectList);
   ("idamConnectors", WireClient.idamConnectors);
   ("idamSync", WireClient.idamSync);
   ("idamConnect", WireClient.idamConnect);
   ("idamConfigure", WireClient.idamConfigure);
   ("objectDetail", WireClient.objectDetail);
   ("objectCreate", WireClient.objectCreate);
   ("objectEdit", WireClient.objectEdit);
   ("objectDelete", WireClient.objectDelete);
   ("detectSummary", WireClient.detectSummary);
   ("socIncidentList", WireClient.socIncidentList);
   ("socIncidentDetail", WireClient.socIncidentDetail);
   ("socNarrative", WireClient.socNarrative);
   ("socTelemetry", WireClient.socTelemetry);
   ("socAudit", WireClient.socAudit);
   ("socImpact", WireClient.socImpact);
   ("socReport", WireClient.socReport);
   ("socWeekly", WireClient.socWeekly);
   ("settingsCommit", WireClient.settingsCommit);
   ("settingsPropose", WireClient.settingsPropose);
   ("settingsApprovals", WireClient.settingsApprovals);
   ("settingsApprove", WireClient.settingsApprove);
   ("settingsHistory", WireClient.settingsHistory);
   ("settingsRollback", WireClient.settingsRollback);
   ("settingsReports", WireClient.settingsReports);
   ("modelAccessRead", WireClient.modelAccessRead);
   ("agentGrantSet", WireClient.agentGrantSet);
   ("settingsRead", WireClient.settingsRead);
   ("socSettingsRead", WireClient.socSettingsRead);
   ("socSettingsCommit", WireClient.socSettingsCommit);
   ("socCognitionRun", WireClient.socCognitionRun);
   ("socPlanApprove", WireClient.socPlanApprove);
   ("socPlanModify", WireClient.socPlanModify);
   ("socIncidentAct", WireClient.socIncidentAct);
   ("socNotes", WireClient.socNotes);
   ("socDisposition", WireClient.socDisposition);
   ("policyListByZone", WireClient.policyListByZone);
   ("policyDetail", WireClient.policyDetail);
   ("policyEffective", WireClient.policyEffective);
   ("policyCreate", WireClient.policyCreate);
   ("policyEdit", WireClient.policyEdit);
   ("policyPublish", WireClient.policyPublish);
   ("policyDelete", WireClient.policyDelete);
   ("entityDecisions", WireClient.entityDecisions);
   ("entityConnections", WireClient.entityConnections);
   ("connectivityGraph", WireClient.connectivityGraph);
   ("connectivityMembers", WireClient.connectivityMembers);
   ("contain", WireClient.contain);
   ("logQuery", WireClient.logQuery);
   ("logExplain", WireClient.logExplain);
   ("logExport", WireClient.logExport);
   ("vtzTree", WireClient.vtzTree);
   ("bundleConvergence", WireClient.bundleConvergence);
   ("vtzDetail", WireClient.vtzDetail);
   ("bundleCommit", WireClient.bundleCommit);
   ("vtzCreate", WireClient.vtzCreate);
   ("vtzEdit", WireClient.vtzEdit);
   ("vtzRescope", WireClient.vtzRescope);
   ("vtzDelete", WireClient.vtzDelete);
   ("cursorFetch", WireClient.cursorFetch); ("cursorClose", WireClient.cursorClose)].

Definition wire_client (name : string) (request : value) : proc value :=
  match map_get CLIENT_VERBS name with
  | Some v => v request
  | None => Raise (TypeError (name +:+ " is not a function"))
  end.
End wire_client.

(** ** What a facade method passes on *)

(** The method records the principal and hands the client the request with its
    delegation, every other field unchanged. *)
Definition delegates {M} (client : string → value → M) (name : string) (op : OperatorPrincipal → value)
    (f : OperatorPrincipal → value → result (EngineDelegation * M)) : Prop :=
  ∀ principal request d m, f principal request = Ok (d, m) →
  m = client name (with_operator request (op principal)) ∧
  del_operator d = p_subject principal ∧ del_tier d = p_tier principal ∧ del_action d = name ∧
  del_tenant d = Some (p_tenant principal).

Lemma brokered_delegates {M} (client : string → value → M) name op :
  delegates client name op (brokered client name op).
Proof. intros principal request d m (rid & _ & [= <- <-])%bind_Ok. done. Qed.

Lemma facade_delegates {M} (client : string → value → M) :
  Forall (λ e, delegates client e.1.1 e.1.2 e.2) (FACADE client).
Proof.
  unfold FACADE. repeat (apply Forall_cons_2; [cbn [fst snd]|]).
  all: lazymatch goal with
       | |- Forall _ _ => apply Forall_nil_2
       | |- delegates _ _ _ (contain _) => intros principal request d m [= <- <-]; done
       | |- delegates _ _ _ (logExport _) =>
           intros principal request d m (q & _ & (rid & _ & [= <- <-])%bind_Ok)%bind_Ok; done
       | _ => apply brokered_delegates
       end.
Qed.

Lemma with_operator_get request op :
  get (with_operator request op) "operator" = Ok op.
Proof. unfold with_operator. cbn. by rewrite obj_get_set. Qed.

(** ** What reaches the wire *)

Section end_to_end.
Context `{NumberToString} `{ToNumberOther}.

(** The frames a verb sends carry its encoded request and nothing else. *)
Lemma exec_verb tag convert request answers frame :
  frame ∈ (exec (verb tag convert request) answers).1 →
  encodeWireRequest (VObj [(tag, request)]) = Ok (Frame.out_payload frame).
Proof.
  unfold verb, dispatch. generalize (VObj [(tag, request)]). intros v.
  destruct (frameTypeForRequest v) as [ft|e]; [|intros Hin; inversion Hin].
  destruct (encodeWireRequest v) as [bs|e]; [|intros Hin; inversion Hin].
  intros Hin.
  assert (frame ∈ [Frame.mkOutbound ft bs (Some 0) (Some Frame.Flags.END_STREAM) None]) as Hf.
  { destruct answers as [|[|f|e] answers]; try exact Hin.
    destruct answers as [|[|f'|e'] answers]; try exact Hin. cbn in Hin.
    destruct (decodeWireReply (Frame.payload f')) as [w|]; [|exact Hin]. cbn in Hin.
    destruct (convert w); exact Hin. }
  apply list_elem_of_singleton in Hf as ->. done.
Qed.

Lemma encode_single tag request bs :
  encodeWireRequest (VObj [(tag, request)]) = Ok bs →
  ∃ toCbor out, In (tag, toCbor) WIRE_ENCODERS ∧ toCbor request = Ok out ∧ encode (VObj [(tag, out)]) = Ok bs.
Proof.
  change (encodeWireRequest (VObj [(tag, request)])) with (encodeTagged WIRE_ENCODERS (VObj [(tag, request)])).
  intros E. pose proof (encodeTagged_find WIRE_ENCODERS [(tag, request)] encoders_nodup) as Hf.
  destruct (first_tag WIRE_ENCODERS.*1 [(tag, request)]) as [tag'|] eqn:Ht.
  - apply find_some in Ht as [_ Hp]. unfold present in Hp. cbn in Hp.
    case_bool_decide; [|done]. subst tag'. destruct Hf as (toCbor & Hin & E').
    rewrite E' in E. apply bind_Ok in E as (body & Hb & (out & Ho & He)%bind_Ok).
    cbn in Hb. rewrite bool_decide_true in Hb by done. injection Hb as <-. eauto.
  - rewrite E in Hf. discriminate.
Qed.

(** Every delegating method is a verb whose tag has an operator field. *)
Lemma facade_verbs :
  Forall (λ name, ∃ tag convert, map_get CLIENT_VERBS name = Some (verb tag convert) ∧ tag ∉ OPERATOR_FREE)
    (map (λ e, e.1.1) (FACADE (M:=unit) (λ _ _, tt))).
Proof.
  unfold FACADE. cbn [map fst]. repeat apply Forall_cons_2; [..|apply Forall_nil_2].
  all: eexists _, _; split; [reflexivity|]; apply (bool_decide_eq_true_1 _); reflexivity.
Qed.
End end_to_end.

(** ** Theorems *)

(** The delegation object on the wire: who acts, in which tenant, and at which
    settings tier ([VUndefined] when none is asserted). *)
Record names_operator (principal : OperatorPrincipal) (tier : value) (d : props) : Prop := {
  names_principal : get (VObj d) "principal" = Ok (VStr (p_principalId principal));
  names_tenant : get (VObj d) "tenant" = Ok (VStr (p_tenant principal));
  names_tier : get (VObj d) "settings_tier" = Ok tier
}.

Definition asserted_tier (principal : OperatorPrincipal) (op : OperatorPrincipal → value) : value :=
  match get (op principal) "settings_tier" with Ok t => t | Throw _ => VUndefined end.

Section headline.
Context `{NumberToString} `{ToNumberOther}.

Lemma facade_ops : Forall (λ e, e.1.2 = plainDelegation ∨ e.1.2 = settingsDelegation) (FACADE wire_client).
Proof. unfold FACADE. repeat apply Forall_cons_2; cbn; auto. Qed.

Lemma carries_names principal op d :
  op = plainDelegation ∨ op = settingsDelegation → carries (op principal) d →
  names_operator principal (asserted_tier principal op) d.
Proof.
  intros Hop [Hp Ht Hs]. destruct Hop as [-> | ->]; constructor.
  1, 2, 4, 5: by rewrite ?Hp, ?Ht.
  - by rewrite (Hs VUndefined).
  - unfold asserted_tier, settingsDelegation in *.
    destruct (settingsTier principal) as [t|]; cbn in *; by rewrite (Hs _ eq_refl).
Qed.

(** C3: every frame the console sends for an operator names that operator.  Through
    any delegating method of the facade, whatever the request says (an operator of
    its own included), whatever the transport answers, each frame handed to the
    transport is the CBOR of a single-tag request whose operator field holds the
    principal's engine id and tenant. *)
Theorem every_frame_names_operator name op f principal request d p answers frame :
  In (name, op, f) (FACADE wire_client) →
  f principal request = Ok (d, p) → frame ∈ (exec p answers).1 →
  ∃ tag out del,
    encode (VObj [(tag, out)]) = Ok (Frame.out_payload frame) ∧
    get out "operator" = Ok (VObj del) ∧ names_operator principal (asserted_tier principal op) del.
Proof.
  intros Hin Hf Hframe.
  pose proof (facade_delegates wire_client) as Hd. rewrite List.Forall_forall in Hd.
  destruct (Hd _ Hin principal request d p Hf) as [-> _]. cbn [fst snd] in *.
  pose proof facade_verbs as Hv. rewrite List.Forall_forall in Hv.
  destruct (Hv name) as (tag & convert & Hget & Hfree).
  { change (map (λ e, e.1.1) (FACADE (λ _ _, ()))) with (map (λ e, e.1.1) (FACADE wire_client)).
    apply in_map_iff. by exists (name, op, f). }
  unfold wire_client in Hframe. rewrite Hget in Hframe. apply exec_verb in Hframe.
  apply encode_single in Hframe as (toCbor & out & Henc & Hout & Hbs).
  pose proof facade_ops as Ho. rewrite List.Forall_forall in Ho. specialize (Ho _ Hin). cbn in Ho.
  pose proof encoders_carry as Hc. rewrite List.Forall_forall in Hc.
  destruct (Hc _ Henc Hfree (with_operator request (op principal)) (op principal) out
    (with_operator_get request (op principal))) as (del & Hdel & Hcar); [|done|].
  { by destruct Ho as [-> | ->]. }
  exists tag, out, del. eauto using carries_names.
Qed.

(** A settings tier is asserted only by the settings operations and only for a
    global administrator's session: for any other session, whatever the method and
    the tenant override the client sent, the delegation carries no settings tier and
    names the session's own tenant. *)
Theorem settings_tier_only_global_admin session override name op f :
  In (name, op, f) (FACADE wire_client) →
  (role session ≠ global_admin →
     asserted_tier (principalFromSession session override) op = VUndefined ∧
     get (op (principalFromSession session override)) "tenant" = Ok (VStr (tenant session))) ∧
  (op = plainDelegation → asserted_tier (principalFromSession session override) op = VUndefined).
Proof.
  intros Hin. pose proof facade_ops as Ho. rewrite List.Forall_forall in Ho. specialize (Ho _ Hin).
  cbn in Ho. split; [|by intros ->]. intros Hr.
  unfold principalFromSession. rewrite bool_decide_false by done.
  destruct Ho as [-> | ->]; destruct override; done.
Qed.
End headline.

(** Three facade methods pass the request on without the operator delegation
    (the bundle-convergence read and the two cursor calls): what they hand the client
    does not depend on the principal. *)
Theorem undelegated_methods {M} (client : string → value → M) name f p1 p2 request d1 m1 d2 m2 :
  In (name, f) (UNDELEGATED client) →
  f p1 request = Ok (d1, m1) → f p2 request = Ok (d2, m2) → m1 = m2.
Proof.
  intros [[= <- <-]|[[= <- <-]|[[= <- <-]|[]]]] H1 H2.
  - apply bind_Ok in H1 as (r1 & _ & [= <- <-]). by apply bind_Ok in H2 as (r2 & _ & [= <- <-]).
  - unfold cursorFetch in *. congruence.
  - unfold cursorClose in *. congruence.
Qed.

(** ** Witnesses *)

Definition sample_principal : OperatorPrincipal := principalFromSession sample_session (Some "victim").
Definition sample_request : value :=
  VObj [("request_id", vint 4); ("operator", VObj [("principal", VStr "evil")]); ("vtz_id", VStr "z")].
Definition vtzDetail_call : result (EngineDelegation * proc value) :=
  vtzDetail (@wire_client (λ _, "") (λ _, 0)) sample_principal sample_request.

Lemma every_frame_names_operator_witness :
  ∃ d p frame, vtzDetail_call = Ok (d, p) ∧ frame ∈ (exec p []).1 ∧
  ∃ tag out del,
    encode (VObj [(tag, out)]) = Ok (Frame.out_payload frame) ∧
    get out "operator" = Ok (VObj del) ∧
    names_operator sample_principal (asserted_tier sample_principal plainDelegation) del.
Proof.
  eexists _, _, _. split; [reflexivity|]. split; [apply list_elem_of_singleton; reflexivity|].
  eapply (@every_frame_names_operator (λ _, "") (λ _, 0) "vtzDetail" plainDelegation _ sample_principal
    sample_request _ _ []); [cbn; tauto|reflexivity|apply list_elem_of_singleton; reflexivity].
Defined.

Lemma settings_tier_only_global_admin_witness :
  (role sample_session ≠ global_admin →
     asserted_tier (principalFromSession sample_session (Some "x")) settingsDelegation = VUndefined ∧
     get (settingsDelegation (principalFromSession sample_session (Some "x"))) "tenant"
       = Ok (VStr (tenant sample_session))) ∧
  (settingsDelegation = plainDelegation →
     asserted_tier (principalFromSession sample_session (Some "x")) settingsDelegation = VUndefined).
Proof.
  eapply (@settings_tier_only_global_admin (λ _, "") (λ _, 0) sample_session (Some "x") "settingsRead").
  cbn. do 20 right. tauto.
Defined.

Lemma undelegated_methods_witness :
  (("bundleConvergence", sample_request) : string * value) = ("bundleConvergence", sample_request).
Proof.
  eapply (undelegated_methods pair "bundleConvergence" _ sample_principal
    (principalFromSession sample_session None) sample_request); [by left|reflexivity..].
Defined.
