(* ===== verification/Vtz.v ===== *)
(** * Virtual trust zones ([packages/contracts/src/vtz.ts], [apps/bff/src/engine/vtz.ts])

    The projection of the engine's zone reads to the view models, the narrowing of an
    authored zone, and the resolvers that broker reads and audited writes through the
    operator engine.  Replies and request bodies are dynamic values; a field the code
    only passes through stays one. *)
From S2P Require Import Prelude Bytes Float64 Cbor JsValue JsString Rbac OperatorEngine.
Open Scope Z_scope.

(** ** Tags *)

Inductive VtzObjectDomain :=
  | governed_egress | execution | privilege_escalation | kernel_module | credential_store
  | persistence | ordinary_network | file_and_config | memory | ipc | device.

#[global] Instance VtzObjectDomain_eq_dec : EqDecision VtzObjectDomain.
Proof. solve_decision. Defined.

Definition VTZ_OBJECT_DOMAINS : list VtzObjectDomain :=
  [governed_egress; execution; privilege_escalation; kernel_module; credential_store;
   persistence; ordinary_network; file_and_config; memory; ipc; device].

Definition domain_tag (d : VtzObjectDomain) : string :=
  match d with
  | governed_egress => "governed-egress"
  | execution => "execution"
  | privilege_escalation => "privilege-escalation"
  | kernel_module => "kernel-module"
  | credential_store => "credential-store"
  | persistence => "persistence"
  | ordinary_network => "ordinary-network"
  | file_and_config => "file-and-config"
  | memory => "memory"
  | ipc => "ipc"
  | device => "device"
  end.

Inductive VtzPosture := deny | permit_deny_risky.
Definition posture_tag (p : VtzPosture) : string :=
  match p with deny => "deny" | permit_deny_risky => "permit-deny-risky" end.

Inductive VtzLifecycle := draft | published.
Definition lifecycle_tag (l : VtzLifecycle) : string :=
  match l with draft => "draft" | published => "published" end.

Inductive VtzArchetype := standard | quarantine | isolation | public | observability.
Definition archetype_tag (a : VtzArchetype) : string :=
  match a with
  | standard => "standard" | quarantine => "quarantine" | isolation => "isolation"
  | public => "public" | observability => "observability"
  end.

Inductive VtzTelemetry := full | sampled | off.
Definition telemetry_tag (t : VtzTelemetry) : string :=
  match t with full => "full" | sampled => "sampled" | off => "off" end.

#[global] Instance VtzPosture_eq_dec : EqDecision VtzPosture.
Proof. solve_decision. Defined.

Definition toVtzObjectDomain : value → option VtzObjectDomain := narrow domain_tag VTZ_OBJECT_DOMAINS.
Definition toVtzPosture : value → option VtzPosture := narrow posture_tag [deny; permit_deny_risky].
Definition toVtzLifecycle : value → option VtzLifecycle := narrow lifecycle_tag [draft; published].
Definition VTZ_ARCHETYPES : list VtzArchetype := [standard; quarantine; isolation; public; observability].
Definition toVtzArchetype : value → option VtzArchetype := narrow archetype_tag VTZ_ARCHETYPES.
Definition toVtzTelemetry : value → option VtzTelemetry := narrow telemetry_tag [full; sampled; off].

(** ** View models *)

Record DomainPosture := mkPosture { domain : VtzObjectDomain; posture : VtzPosture; floor : value }.

Record VtzZone := mkZone {
  zone_id : value; zone_name : value; parent : value; zoneType : VtzArchetype;
  lifecycle : VtzLifecycle; microSegmentation : value; telemetry : VtzTelemetry;
  reauthIntervalHours : value; ownPostures : list DomainPosture;
  effectivePostures : list DomainPosture; subZoneCount : value }.

Record VtzTree := mkTree { zones : list VtzZone; truncated : value }.
Record VtzAncestorRef := mkAncestor { anc_id : value; anc_name : value }.
Record VtzDetailView := mkDetail {
  detail_zone : option VtzZone; ancestors : list VtzAncestorRef; commitVersion : value }.
Record VtzMutationResult := mkMutation { mutation_id : value; mutation_lifecycle : option VtzLifecycle }.

(** ** Reads *)

Definition toDomainPosture (wire : value) : result (option DomainPosture) :=
  d ← get wire "domain";
  p ← get wire "posture";
  match toVtzObjectDomain d, toVtzPosture p with
  | Some domain, Some posture => floor ← get wire "floor"; Ok (Some (mkPosture domain posture floor))
  | _, _ => Ok None
  end.

Definition rank (d : VtzObjectDomain) : Z := index_of d VTZ_OBJECT_DOMAINS.

(** [projected.sort((a, b) => rank(a) - rank(b))]: the sort of the language is stable. *)
Fixpoint insert_posture (x : DomainPosture) (l : list DomainPosture) : list DomainPosture :=
  match l with
  | [] => [x]
  | y :: l => if rank (domain x) <=? rank (domain y) then x :: y :: l else y :: insert_posture x l
  end.
Definition sort_postures : list DomainPosture → list DomainPosture := foldr insert_posture [].

Definition toDomainPostures (wire : value) : result (option (list DomainPosture)) :=
  items ← js_iterate wire;
  projected ← project_all toDomainPosture items;
  Ok (option_map sort_postures projected).

Definition toVtzZone (node : value) : result (option VtzZone) :=
  zt ← get node "zone_type";
  lc ← get node "lifecycle";
  tm ← get node "telemetry";
  own ← get node "own_postures"; own ← toDomainPostures own;
  eff ← get node "effective_postures"; eff ← toDomainPostures eff;
  match toVtzArchetype zt, toVtzLifecycle lc, toVtzTelemetry tm, own, eff with
  | Some zt, Some lc, Some tm, Some own, Some eff =>
      id ← get node "id";
      name ← get node "name";
      par ← get node "parent";
      micro ← get node "micro_segmentation";
      hours ← get node "reauth_interval_hours";
      subs ← get node "sub_zone_count";
      Ok (Some (mkZone id name (if is_nullish par then VNull else par) zt lc micro tm hours own eff subs))
  | _, _, _, _, _ => Ok None
  end.

Definition toVtzTree (reply : value) : result (option VtzTree) :=
  nodes ← get reply "nodes";
  items ← js_iterate nodes;
  zs ← project_all toVtzZone items;
  match zs with
  | None => Ok None
  | Some zs => tr ← get reply "truncated"; Ok (Some (mkTree zs tr))
  end.

Definition toAncestor (ancestor : value) : result VtzAncestorRef :=
  id ← get ancestor "id"; name ← get ancestor "name"; Ok (mkAncestor id name).

Definition toVtzDetail (reply : value) : result (option VtzDetailView) :=
  wireZone ← get reply "zone";
  zone ← (if is_nullish wireZone then Ok (Some None)
          else z ← toVtzZone wireZone; Ok (option_map Some z));
  match zone with
  | None => Ok None
  | Some zone =>
      l ← get reply "ancestors";
      anc ← match l with
            | VArr items => mapM toAncestor items
            | VNull | VUndefined => Throw (TypeError "Cannot read properties of undefined (reading 'map')")
            | _ => Throw (TypeError "map is not a function")
            end;
      version ← get reply "commit_version";
      Ok (Some (mkDetail zone anc version))
  end.

Definition toVtzMutation (reply : value) : result (option VtzMutationResult) :=
  lc ← get reply "lifecycle";
  if is_str "" lc then id ← get reply "id"; Ok (Some (mkMutation id None))
  else match toVtzLifecycle lc with
       | None => Ok None
       | Some l => id ← get reply "id"; Ok (Some (mkMutation id (Some l)))
       end.

(** ** Authoring *)

Definition MIN_REAUTH_INTERVAL_HOURS : Z := 1.
Definition MAX_REAUTH_INTERVAL_HOURS : Z := 24.
Definition VTZ_NAME_MAX_BYTES : Z := 255.
Definition VTZ_NAME_MAX_LABELS : Z := 16.
Definition VTZ_LABEL_MAX_BYTES : Z := 63.

Definition utf8ByteLength (text : string) : Z := byte_len (string_bytes text).

Definition alnum (c : Ascii.ascii) : bool :=
  let b := byte_of_ascii c in in_range 65 90 b || in_range 97 122 b || in_range 48 57 b.
Definition hyphen : Ascii.ascii := ascii_of_byte 45.
Definition dot : Ascii.ascii := ascii_of_byte 46.

(** [[A-Za-z0-9-]*[A-Za-z0-9]], to the end of the string *)
Fixpoint label_tail (s : string) : bool :=
  match s with
  | EmptyString => false
  | String c EmptyString => alnum c
  | String c s => (alnum c || Ascii.eqb c hyphen) && label_tail s
  end.

(** [VTZ_LABEL_SHAPE.test(label)] *)
Definition VTZ_LABEL_SHAPE (label : string) : bool :=
  match label with
  | EmptyString => false
  | String c s => alnum c && (bool_decide (s = "") || label_tail s)
  end.

Fixpoint labels_problem (labels : list string) : option string :=
  match labels with
  | [] => None
  | label :: labels =>
      if bool_decide (label = "") then Some "A level of the name is empty."
      else if VTZ_LABEL_MAX_BYTES <? utf8ByteLength label
           then Some ("A level of the name is longer than " +:+ pretty VTZ_LABEL_MAX_BYTES +:+ " characters.")
      else if negb (VTZ_LABEL_SHAPE label)
           then Some "Use only ASCII letters, digits and hyphens, starting and ending with a letter or digit."
      else labels_problem labels
  end.

Definition vtzNameProblem (name : string) : option string :=
  if bool_decide (name = "") then Some "Enter a name."
  else if VTZ_NAME_MAX_BYTES <? utf8ByteLength name
       then Some ("The full name is longer than " +:+ pretty VTZ_NAME_MAX_BYTES +:+ " bytes.")
  else
    let labels := split_on dot name in
    if VTZ_NAME_MAX_LABELS <? Z.of_nat (length labels)
    then Some ("The name has more than " +:+ pretty VTZ_NAME_MAX_LABELS +:+ " levels.")
    else labels_problem labels.

Record VtzSpecInput := mkSpec {
  spec_name : string; spec_description : string; spec_zoneType : VtzArchetype;
  spec_ownPostures : list DomainPosture; spec_microSegmentation : bool;
  spec_telemetry : VtzTelemetry; spec_reauthIntervalHours : Z; spec_lifecycle : VtzLifecycle }.

Definition wirePosture (p : DomainPosture) : value :=
  VObj [("domain", VStr (domain_tag (domain p))); ("posture", VStr (posture_tag (posture p)));
        ("floor", floor p)].

Definition toWireVtzSpec (spec : VtzSpecInput) : value :=
  VObj [("name", VStr (spec_name spec)); ("description", VStr (spec_description spec));
        ("zone_type", VStr (archetype_tag (spec_zoneType spec)));
        ("own_postures", VArr (map wirePosture (spec_ownPostures spec)));
        ("micro_segmentation", VBool (spec_microSegmentation spec));
        ("telemetry", VStr (telemetry_tag (spec_telemetry spec)));
        ("reauth_interval_hours", VNum (spec_reauthIntervalHours spec));
        ("lifecycle", VStr (lifecycle_tag (spec_lifecycle spec)))].

(** [typeof hours === 'number'], an integer from 1 to 24 *)
Definition hours_ok (x : Z) : bool :=
  f64_isInteger x && negb (f64_toZ x <? MIN_REAUTH_INTERVAL_HOURS)
  && negb (MAX_REAUTH_INTERVAL_HOURS <? f64_toZ x).

(** One entry of the authored list. *)
Definition toPostureInput (raw : value) : result (option DomainPosture) :=
  if negb (typeof_object raw) || is_null raw then Ok None
  else
    d ← get raw "domain"; p ← get raw "posture"; f ← get raw "floor";
    match toVtzObjectDomain d, toVtzPosture p, f with
    | Some domain, Some posture, VBool b => Ok (Some (mkPosture domain posture (VBool b)))
    | _, _, _ => Ok None
    end.

Definition toVtzSpecInput (body : value) : result (option VtzSpecInput) :=
  if negb (typeof_object body) || is_null body then Ok None
  else
    name ← get body "name";
    description ← get body "description";
    zt ← get body "zoneType";
    tm ← get body "telemetry";
    lc ← get body "lifecycle";
    micro ← get body "microSegmentation";
    match name, description, micro with
    | VStr name, VStr description, VBool micro =>
        if bool_decide (trim name = "") then Ok None
        else
          match toVtzArchetype zt, toVtzTelemetry tm, toVtzLifecycle lc with
          | Some archetype, Some mode, Some state =>
              hours ← get body "reauthIntervalHours";
              match hours with
              | VNum hours =>
                  if negb (hours_ok hours) then Ok None
                  else
                    raw ← get body "ownPostures";
                    match (if is_nullish raw then VArr [] else raw) with
                    | VArr items =>
                        own ← project_all toPostureInput items;
                        Ok (option_map (λ own, mkSpec (trim name) description archetype own micro mode hours state) own)
                    | _ => Ok None
                    end
              | _ => Ok None
              end
          | _, _, _ => Ok None
          end
    | _, _, _ => Ok None
    end.

(** ** Resolvers *)

Definition MAX_VTZ_TREE_LIMIT : Z := 500.

Definition classifyVtzRefusal (error : exn) : result (option VtzRefusalKind) :=
  match error with
  | EngineRefusedError wireError =>
      class ← get wireError "class";
      Ok (if is_str "Conflict" class then Some conflict
          else if is_str "Denied" class then Some denied else None)
  | _ => Ok None
  end.

Definition commit (run : result value) : result VtzMutationResult :=
  reply ← match run with
          | Ok reply => Ok reply
          | Throw err =>
              kind ← classifyVtzRefusal err;
              match kind with Some kind => Throw (VtzMutationRefusedError kind) | None => Throw err end
          end;
  view ← toVtzMutation reply;
  match view with None => Throw VtzUnavailableError | Some view => Ok view end.

(** A projection that failed is reported as unavailable. *)
Definition or_unavailable {A} (view : option A) : result A :=
  match view with None => Throw VtzUnavailableError | Some view => Ok view end.

Section resolvers.
(** The client the engine calls, with the outcome of each call. *)
Context (client : string → value → result value).

(** [await engine.method(principal, request, opts)] *)
Definition awaited (call : result (EngineDelegation * result value)) : result value :=
  r ← call; r.2.

Definition resolveVtzTree (principal : OperatorPrincipal) (limit : Z) : result VtzTree :=
  let request := VObj [("request_id", vint 0); ("operator", VNull);
                       ("limit", VNum (Math_min (Math_max (f64_ofZ 1) limit) (f64_ofZ MAX_VTZ_TREE_LIMIT)))] in
  reply ← awaited (vtzTree client principal request);
  view ← toVtzTree reply;
  or_unavailable view.

Definition resolveVtzDetail (principal : OperatorPrincipal) (id : string) : result VtzDetailView :=
  let request := VObj [("request_id", vint 0); ("operator", VNull); ("vtz_id", VStr id)] in
  reply ← awaited (vtzDetail client principal request);
  view ← toVtzDetail reply;
  or_unavailable view.

Definition resolveVtzCreate (principal : OperatorPrincipal) (spec : VtzSpecInput) : result VtzMutationResult :=
  commit (awaited (vtzCreate client principal
    (VObj [("request_id", vint 0); ("operator", VNull); ("spec", toWireVtzSpec spec)]))).

Definition resolveVtzEdit (principal : OperatorPrincipal) (spec : VtzSpecInput) : result VtzMutationResult :=
  commit (awaited (vtzEdit client principal
    (VObj [("request_id", vint 0); ("operator", VNull); ("spec", toWireVtzSpec spec)]))).

Definition resolveVtzRescope (principal : OperatorPrincipal) (id newName : string) : result VtzMutationResult :=
  commit (awaited (vtzRescope client principal
    (VObj [("request_id", vint 0); ("operator", VNull); ("vtz_id", VStr id); ("new_name", VStr newName)]))).

Definition resolveVtzDelete (principal : OperatorPrincipal) (id : string) : result VtzMutationResult :=
  commit (awaited (vtzDelete client principal
    (VObj [("request_id", vint 0); ("operator", VNull); ("vtz_id", VStr id)]))).
End resolvers.
