(* ===== verification/VtzProofs.v ===== *)
(** * Correctness of the zone surface

    What the projections accept, exactly; that authored zones pass the boundary check
    unchanged; how audited writes end; and which names the editor accepts. *)
From Stdlib Require Import Sorted.
From S2P Require Import Prelude Bytes Float64 Cbor JsValue JsString Rbac OperatorEngine Vtz.
Open Scope Z_scope.

(** ** Narrowing *)

Arguments toVtzObjectDomain : simpl never.
Arguments toVtzPosture : simpl never.
Arguments toVtzLifecycle : simpl never.
Arguments toVtzArchetype : simpl never.
Arguments toVtzTelemetry : simpl never.
Arguments rank : simpl never.

Lemma toVtzObjectDomain_iff v d : toVtzObjectDomain v = Some d ↔ v = VStr (domain_tag d).
Proof. apply narrow_iff. by intros []. Qed.
Lemma toVtzPosture_iff v p : toVtzPosture v = Some p ↔ v = VStr (posture_tag p).
Proof. apply narrow_iff. by intros []. Qed.
Lemma toVtzLifecycle_iff v l : toVtzLifecycle v = Some l ↔ v = VStr (lifecycle_tag l).
Proof. apply narrow_iff. by intros []. Qed.
Lemma toVtzArchetype_iff v a : toVtzArchetype v = Some a ↔ v = VStr (archetype_tag a).
Proof. apply narrow_iff. by intros []. Qed.
Lemma toVtzTelemetry_iff v t : toVtzTelemetry v = Some t ↔ v = VStr (telemetry_tag t).
Proof. apply narrow_iff. by intros []. Qed.

Create HintDb narrowing discriminated.
#[export] Hint Rewrite toVtzObjectDomain_iff toVtzPosture_iff toVtzLifecycle_iff toVtzArchetype_iff
  toVtzTelemetry_iff : narrowing.

(** The tag functions compute on their own tags. *)
Lemma toVtzObjectDomain_tag d : toVtzObjectDomain (VStr (domain_tag d)) = Some d.
Proof. by apply toVtzObjectDomain_iff. Qed.
Lemma toVtzPosture_tag p : toVtzPosture (VStr (posture_tag p)) = Some p.
Proof. by apply toVtzPosture_iff. Qed.
Lemma toVtzLifecycle_tag l : toVtzLifecycle (VStr (lifecycle_tag l)) = Some l.
Proof. by apply toVtzLifecycle_iff. Qed.
Lemma toVtzArchetype_tag a : toVtzArchetype (VStr (archetype_tag a)) = Some a.
Proof. by apply toVtzArchetype_iff. Qed.
Lemma toVtzTelemetry_tag t : toVtzTelemetry (VStr (telemetry_tag t)) = Some t.
Proof. by apply toVtzTelemetry_iff. Qed.

(** One entry of a matrix, as the engine sent it. *)
Definition narrows (wire : value) (p : DomainPosture) : Prop :=
  get wire "domain" = Ok (VStr (domain_tag (domain p))) ∧
  get wire "posture" = Ok (VStr (posture_tag (posture p))) ∧
  get wire "floor" = Ok (floor p).

Lemma toDomainPosture_iff wire p : toDomainPosture wire = Ok (Some p) ↔ narrows wire p.
Proof.
  unfold toDomainPosture, narrows. split.
  - intros (d & Hd & E)%bind_Ok. apply bind_Ok in E as (q & Hq & E).
    destruct (toVtzObjectDomain d) as [d'|] eqn:Ed; [|done].
    destruct (toVtzPosture q) as [q'|] eqn:Eq; [|done].
    autorewrite with narrowing in Ed, Eq. subst.
    apply bind_Ok in E as (f & Hf & [= <-]). done.
  - intros (-> & -> & ->). cbn. rewrite toVtzObjectDomain_tag, toVtzPosture_tag. cbn. by destruct p.
Qed.

(** ** The order of a matrix *)

Definition of_domain (d : VtzObjectDomain) (ps : list DomainPosture) : list DomainPosture :=
  filter (λ p, domain p = d) ps.
Definition rank_le (p q : DomainPosture) : Prop := rank (domain p) ≤ rank (domain q).

Lemma rank_inj d d' : rank d = rank d' → d = d'.
Proof. by destruct d, d'. Qed.

Lemma insert_posture_perm x l : insert_posture x l ≡ₚ x :: l.
Proof.
  induction l as [|y l IH]; cbn; [done|]. case_match; [done|]. rewrite IH. apply Permutation_swap.
Qed.

Lemma sort_postures_perm l : sort_postures l ≡ₚ l.
Proof. induction l as [|x l IH]; cbn; [done|]. by rewrite insert_posture_perm, IH. Qed.

Lemma insert_posture_sorted x l : StronglySorted rank_le l → StronglySorted rank_le (insert_posture x l).
Proof.
  induction 1 as [|y l Hl IH Hy]; cbn; [repeat constructor|].
  destruct (Z.leb_spec (rank (domain x)) (rank (domain y))) as [Hxy|Hxy].
  - constructor; [by constructor|]. constructor; [done|].
    revert Hy. apply Forall_impl. unfold rank_le. intros z. lia.
  - constructor; [done|]. rewrite insert_posture_perm. constructor; [|done]. unfold rank_le. lia.
Qed.

Lemma sort_postures_sorted l : StronglySorted rank_le (sort_postures l).
Proof. induction l; cbn; [constructor|by apply insert_posture_sorted]. Qed.

(** Stability: the entries of one domain keep their order. *)
Lemma of_domain_insert d x l : of_domain d (insert_posture x l) = of_domain d (x :: l).
Proof.
  unfold of_domain. induction l as [|y l IH]; [done|]. cbn [insert_posture].
  destruct (Z.leb_spec (rank (domain x)) (rank (domain y))) as [|Hxy]; [done|].
  rewrite filter_cons, IH, !filter_cons.
  destruct (decide (domain y = d)) as [Ey|], (decide (domain x = d)) as [Ex|]; try done.
  rewrite Ex, Ey in Hxy. lia.
Qed.

Lemma of_domain_sort d l : of_domain d (sort_postures l) = of_domain d l.
Proof.
  induction l as [|x l IH]; [done|].
  change (sort_postures (x :: l)) with (insert_posture x (sort_postures l)). rewrite of_domain_insert.
  unfold of_domain in *. by rewrite !filter_cons, IH.
Qed.

(** A list sorted by rank is determined by the entries of each domain, in order. *)
Lemma sorted_by_domain l l' :
  StronglySorted rank_le l → StronglySorted rank_le l' →
  (∀ d, of_domain d l = of_domain d l') → l = l'.
Proof.
  assert (∀ x l, StronglySorted rank_le (x :: l) → ∀ d, rank d < rank (domain x) → of_domain d (x :: l) = []) as Hlow.
  { intros x k Hk d Hd. unfold of_domain. apply filter_none. intros y Hy <-.
    apply StronglySorted_inv in Hk as [_ Hk]. rewrite Forall_forall in Hk.
    apply elem_of_cons in Hy as [->|Hy]; [lia|]. apply list_elem_of_In, Hk in Hy. unfold rank_le in Hy. lia. }
  revert l'. induction l as [|x l IH]; intros [|y l'] Hl Hl' E; [done| | |].
  - specialize (E (domain y)). unfold of_domain in E. rewrite filter_cons_True in E by done. done.
  - specialize (E (domain x)). unfold of_domain in E. rewrite filter_cons_True in E by done. done.
  - assert (domain x = domain y) as Hd.
    { apply rank_inj. destruct (Z.lt_trichotomy (rank (domain x)) (rank (domain y))) as [Hlt|[|Hlt]]; [|done|].
      - specialize (E (domain x)). rewrite (Hlow y l' Hl' _ Hlt) in E.
        unfold of_domain in E. by rewrite filter_cons_True in E by done.
      - specialize (E (domain y)). rewrite (Hlow x l Hl _ Hlt) in E.
        unfold of_domain in E. by rewrite filter_cons_True in E by done. }
    assert (x = y) as ->.
    { specialize (E (domain x)). unfold of_domain in E. rewrite !filter_cons_True in E by done. by injection E. }
    f_equal. apply StronglySorted_inv in Hl as [Hl _]. apply StronglySorted_inv in Hl' as [Hl' _].
    apply IH; [done..|]. intros d. specialize (E d). unfold of_domain in *.
    rewrite !filter_cons in E. by destruct (decide (domain y = d)); [injection E|].
Qed.

(** What a projected matrix is: every entry of the list, narrowed, in the order of the
    domains, entries of one domain in the order the engine sent them. *)
Definition matrix_of (wire : value) (ps : list DomainPosture) : Prop :=
  ∃ items entries,
    js_iterate wire = Ok items ∧ Forall2 narrows items entries ∧
    StronglySorted rank_le ps ∧ ∀ d, of_domain d ps = of_domain d entries.

Lemma toDomainPostures_iff wire ps : toDomainPostures wire = Ok (Some ps) ↔ matrix_of wire ps.
Proof.
  unfold toDomainPostures, matrix_of. split.
  - intros (items & Hi & E)%bind_Ok. apply bind_Ok in E as ([l|] & Hl & [= <-]).
    apply (project_all_iff _ narrows) in Hl; [|apply toDomainPosture_iff].
    exists items, l. repeat split; [done..| |].
    + apply sort_postures_sorted.
    + intros d. apply of_domain_sort.
  - intros (items & l & -> & Hl & Hs & Hd). cbn.
    assert (project_all toDomainPosture items = Ok (Some l)) as ->.
    { by apply (project_all_iff _ narrows); [apply toDomainPosture_iff|]. }
    cbn. do 2 f_equal. apply sorted_by_domain; [apply sort_postures_sorted|done|].
    intros d. by rewrite of_domain_sort, Hd.
Qed.

(** A zone as the engine stated it. *)
Definition zone_of (node : value) (z : VtzZone) : Prop :=
  get node "zone_type" = Ok (VStr (archetype_tag (zoneType z))) ∧
  get node "lifecycle" = Ok (VStr (lifecycle_tag (lifecycle z))) ∧
  get node "telemetry" = Ok (VStr (telemetry_tag (telemetry z))) ∧
  (∃ w, get node "own_postures" = Ok w ∧ matrix_of w (ownPostures z)) ∧
  (∃ w, get node "effective_postures" = Ok w ∧ matrix_of w (effectivePostures z)) ∧
  get node "id" = Ok (zone_id z) ∧ get node "name" = Ok (zone_name z) ∧
  (∃ p, get node "parent" = Ok p ∧ parent z = if is_nullish p then VNull else p) ∧
  get node "micro_segmentation" = Ok (microSegmentation z) ∧
  get node "reauth_interval_hours" = Ok (reauthIntervalHours z) ∧
  get node "sub_zone_count" = Ok (subZoneCount z).

Lemma toVtzZone_iff node z : toVtzZone node = Ok (Some z) ↔ zone_of node z.
Proof.
  unfold toVtzZone, zone_of. split.
  - intros H. bind_step H zt. bind_step H lc. bind_step H tm. bind_step H ow. bind_step H own.
    bind_step H ew. bind_step H eff.
    destruct (toVtzArchetype zt) eqn:?, (toVtzLifecycle lc) eqn:?, (toVtzTelemetry tm) eqn:?, own, eff; try done.
    bind_step H id. bind_step H name. bind_step H par. bind_step H micro. bind_step H hours. bind_step H subs.
    injection H as <-. autorewrite with narrowing in *. subst. cbn.
    repeat split; eauto.
    + exists ow. by rewrite <- toDomainPostures_iff.
    + exists ew. by rewrite <- toDomainPostures_iff.
  - intros (-> & -> & -> & (ow & -> & Ho) & (ew & -> & He) & -> & -> & (p & -> & Hp) & -> & -> & ->). cbn.
    apply toDomainPostures_iff in Ho, He. rewrite Ho. cbn. rewrite He. cbn.
    rewrite toVtzArchetype_tag, toVtzLifecycle_tag, toVtzTelemetry_tag, <- Hp. cbn. by destruct z.
Qed.

(** The request the client sees for a read or a write. *)
Definition sent (principal : OperatorPrincipal) (fields : props) : value :=
  VObj (("request_id", vint 0) :: ("operator", plainDelegation principal) :: fields).

(** ** Authored zones *)

(** What the boundary check guarantees of a zone it lets through. *)
Definition spec_ok (spec : VtzSpecInput) : Prop :=
  trim (spec_name spec) = spec_name spec ∧ spec_name spec ≠ "" ∧
  hours_ok (spec_reauthIntervalHours spec) = true ∧
  Forall (λ p, ∃ b, floor p = VBool b) (spec_ownPostures spec).

(** The request body that authors a zone. *)
Definition authored (spec : VtzSpecInput) : value :=
  VObj [("name", VStr (spec_name spec)); ("description", VStr (spec_description spec));
        ("zoneType", VStr (archetype_tag (spec_zoneType spec)));
        ("ownPostures", VArr (map wirePosture (spec_ownPostures spec)));
        ("microSegmentation", VBool (spec_microSegmentation spec));
        ("telemetry", VStr (telemetry_tag (spec_telemetry spec)));
        ("reauthIntervalHours", VNum (spec_reauthIntervalHours spec));
        ("lifecycle", VStr (lifecycle_tag (spec_lifecycle spec)))].

Lemma authored_get spec :
  get (authored spec) "name" = Ok (VStr (spec_name spec)) ∧
  get (authored spec) "description" = Ok (VStr (spec_description spec)) ∧
  get (authored spec) "zoneType" = Ok (VStr (archetype_tag (spec_zoneType spec))) ∧
  get (authored spec) "telemetry" = Ok (VStr (telemetry_tag (spec_telemetry spec))) ∧
  get (authored spec) "lifecycle" = Ok (VStr (lifecycle_tag (spec_lifecycle spec))) ∧
  get (authored spec) "microSegmentation" = Ok (VBool (spec_microSegmentation spec)) ∧
  get (authored spec) "reauthIntervalHours" = Ok (VNum (spec_reauthIntervalHours spec)) ∧
  get (authored spec) "ownPostures" = Ok (VArr (map wirePosture (spec_ownPostures spec))).
Proof. done. Qed.

Lemma toPostureInput_total raw : ∃ o, toPostureInput raw = Ok o.
Proof.
  unfold toPostureInput. destruct (typeof_object raw) eqn:Ho, (is_null raw) eqn:Hn; cbn; eauto.
  destruct (get_object raw "domain" Ho Hn) as [d ->], (get_object raw "posture" Ho Hn) as [p ->],
    (get_object raw "floor" Ho Hn) as [f ->]. cbn. repeat case_match; eauto.
Qed.

Lemma toVtzSpecInput_total body : ∃ o, toVtzSpecInput body = Ok o.
Proof.
  unfold toVtzSpecInput. destruct (typeof_object body) eqn:Ho, (is_null body) eqn:Hn; cbn; eauto.
  pose proof (λ k, get_object body k Ho Hn) as Hg.
  destruct (Hg "name") as [nm ->], (Hg "description") as [ds ->], (Hg "zoneType") as [zt ->],
    (Hg "telemetry") as [tm ->], (Hg "lifecycle") as [lc ->], (Hg "microSegmentation") as [mi ->],
    (Hg "reauthIntervalHours") as [hr ->], (Hg "ownPostures") as [ow ->]. cbn.
  pose proof (λ l, project_all_total toPostureInput l toPostureInput_total) as Hp.
  repeat match goal with
  | |- context [project_all toPostureInput ?l] => destruct (Hp l) as [? ->]; cbn
  | _ => case_match
  end; eauto.
Qed.

Lemma toPostureInput_iff raw p :
  toPostureInput raw = Ok (Some p) ↔ narrows raw p ∧ ∃ b, floor p = VBool b.
Proof.
  unfold toPostureInput, narrows. split.
  - destruct (negb (typeof_object raw) || is_null raw); [done|]. intros H.
    bind_step H d. bind_step H q. bind_step H f.
    destruct (toVtzObjectDomain d) eqn:?, (toVtzPosture q) eqn:?, f; simplify_eq.
    autorewrite with narrowing in *. subst. cbn. eauto.
  - intros [(Hd & Hp & Hf) [b Hb]].
    assert (negb (typeof_object raw) || is_null raw = false) as -> by (destruct raw; done).
    rewrite Hd, Hp, Hf. cbn. rewrite toVtzObjectDomain_tag, toVtzPosture_tag, Hb, <- Hb. by destruct p.
Qed.

Lemma wirePosture_narrows p : narrows (wirePosture p) p.
Proof. by destruct p. Qed.

Lemma hours_ok_range x : hours_ok x = true ↔ f64_isInteger x = true ∧ 1 ≤ f64_toZ x ≤ 24.
Proof.
  unfold hours_ok, MIN_REAUTH_INTERVAL_HOURS, MAX_REAUTH_INTERVAL_HOURS.
  rewrite !andb_true_iff, !negb_true_iff, !Z.ltb_ge. tauto.
Qed.

(** An accepted body, field by field. *)
Lemma toVtzSpecInput_inv body spec :
  toVtzSpecInput body = Ok (Some spec) →
  ∃ name raw items,
    get body "name" = Ok (VStr name) ∧ spec_name spec = trim name ∧ trim name ≠ "" ∧
    get body "description" = Ok (VStr (spec_description spec)) ∧
    get body "zoneType" = Ok (VStr (archetype_tag (spec_zoneType spec))) ∧
    get body "telemetry" = Ok (VStr (telemetry_tag (spec_telemetry spec))) ∧
    get body "lifecycle" = Ok (VStr (lifecycle_tag (spec_lifecycle spec))) ∧
    get body "microSegmentation" = Ok (VBool (spec_microSegmentation spec)) ∧
    get body "reauthIntervalHours" = Ok (VNum (spec_reauthIntervalHours spec)) ∧
    hours_ok (spec_reauthIntervalHours spec) = true ∧
    get body "ownPostures" = Ok raw ∧ (raw = VArr items ∨ is_nullish raw = true ∧ items = []) ∧
    Forall2 (λ raw p, narrows raw p ∧ ∃ b, floor p = VBool b) items (spec_ownPostures spec).
Proof.
  unfold toVtzSpecInput. destruct (negb (typeof_object body) || is_null body); [done|]. intros H.
  bind_step H nm. bind_step H ds. bind_step H zt. bind_step H tm. bind_step H lc. bind_step H mi.
  destruct nm as [| | | | |nm| | | | |], ds as [| | | | |ds| | | | |], mi; try done.
  case_bool_decide; [done|].
  destruct (toVtzArchetype zt) eqn:?, (toVtzTelemetry tm) eqn:?, (toVtzLifecycle lc) eqn:?; try done.
  bind_step H hr. destruct hr as [| | |hr| | | | | | |]; try done.
  destruct (hours_ok hr) eqn:Hh; [|done]. cbn in H. bind_step H raw.
  destruct (if is_nullish raw then VArr [] else raw) as [| | | | | | | | |items|] eqn:Hr; try done.
  bind_step H own. destruct own as [own|]; [|done]. injection H as <-.
  apply (project_all_iff _ _ _ _ toPostureInput_iff) in Eown.
  autorewrite with narrowing in *. subst. cbn. exists nm, raw, items. repeat split; try done.
  destruct (is_nullish raw); [injection Hr as <-; auto|auto].
Qed.

(** ** Properties *)

(** C33: the zone tree shown is the zone tree the engine stated.  The resolver asks on
    behalf of the operator, and it answers with a tree exactly when every node of the
    reply narrows: then the zones are those nodes, in order, each with its tags, its
    fields and its two matrices, no entry dropped, invented or reordered within a
    domain. *)
Theorem zone_tree_exact client principal limit t :
  resolveVtzTree client principal limit = Ok t ↔
  ∃ reply nodes items,
    client "vtzTree" (sent principal [("limit", VNum (Math_min (Math_max (f64_ofZ 1) limit) (f64_ofZ 500)))])
      = Ok reply ∧
    get reply "nodes" = Ok nodes ∧ js_iterate nodes = Ok items ∧
    Forall2 zone_of items (zones t) ∧ get reply "truncated" = Ok (truncated t).
Proof.
  unfold resolveVtzTree, awaited, sent. cbn -[Math_min Math_max vint f64_ofZ toVtzTree].
  unfold MAX_VTZ_TREE_LIMIT.
  set (r := client _ _). clearbody r. unfold or_unavailable, toVtzTree. split.
  - intros H. bind_step H reply. bind_step H view. bind_step Eview nodes. bind_step Eview items.
    bind_step Eview zs. destruct zs as [zs|]; [|by simplify_eq]. bind_step Eview tr.
    simplify_eq. exists reply, nodes, items. repeat split; try done. cbn.
    by apply (project_all_iff _ zone_of) in Ezs; [|apply toVtzZone_iff].
  - intros (reply & nodes & items & -> & Hn & Hi & Hz & Ht). cbn. rewrite Hn. cbn. rewrite Hi. cbn.
    assert (project_all toVtzZone items = Ok (Some (zones t))) as ->.
    { by apply (project_all_iff _ zone_of); [apply toVtzZone_iff|]. }
    cbn. rewrite Ht. cbn. by destruct t.
Qed.

(** C34: the boundary check of an authored zone is exact.  It never throws; it accepts
    the body of every well-formed zone and gives that zone back; and whatever it
    accepts is well formed (a trimmed, non-empty name, known tags, an interval of 1 to
    24 whole hours, boolean floors) and says what the body said, no field defaulted but
    an absent posture list. *)
Theorem spec_input_exact :
  (∀ body, ∃ o, toVtzSpecInput body = Ok o) ∧
  (∀ spec, spec_ok spec → toVtzSpecInput (authored spec) = Ok (Some spec)) ∧
  (∀ body spec, toVtzSpecInput body = Ok (Some spec) →
     spec_ok spec ∧ 1 ≤ f64_toZ (spec_reauthIntervalHours spec) ≤ 24 ∧
     (∃ name, get body "name" = Ok (VStr name) ∧ spec_name spec = trim name) ∧
     (∀ k, k ∈ ["description"; "zoneType"; "microSegmentation"; "telemetry"; "reauthIntervalHours"; "lifecycle"] →
        get body k = get (authored spec) k) ∧
     ∃ raw items, get body "ownPostures" = Ok raw ∧
       (raw = VArr items ∨ is_nullish raw = true ∧ items = []) ∧
       Forall2 narrows items (spec_ownPostures spec)).
Proof.
  split_and!; [apply toVtzSpecInput_total| |].
  - intros spec (Ht & Hne & Hh & Hf). unfold toVtzSpecInput.
    destruct (authored_get spec) as (-> & -> & -> & -> & -> & -> & -> & ->). cbn.
    rewrite Ht, (bool_decide_false (spec_name spec = "")) by done.
    rewrite toVtzArchetype_tag, toVtzTelemetry_tag, toVtzLifecycle_tag, Hh. cbn.
    assert (project_all toPostureInput (map wirePosture (spec_ownPostures spec)) =
            Ok (Some (spec_ownPostures spec))) as ->.
    { apply (project_all_iff _ _ _ _ toPostureInput_iff).
      induction Hf; constructor; eauto using wirePosture_narrows. }
    by destruct spec.
  - intros body spec (nm & raw & items & Hn & Hnm & Hne & Hds & Hzt & Htm & Hlc & Hmi & Hhr & Hh & Hr & Hi & Hp)%toVtzSpecInput_inv.
    refine (conj _ (conj _ (conj _ (conj _ _)))).
    + repeat split; [by rewrite Hnm, trim_idem|by rewrite Hnm|done|].
      clear Hi. induction Hp as [|? ? ? ? [_ ?]]; [apply Forall_nil_2|by apply Forall_cons_2].
    + by apply hours_ok_range in Hh as [_ Hh].
    + by exists nm.
    + intros k Hk. repeat (apply elem_of_cons in Hk as [->|Hk]; [done|]). by apply elem_of_nil in Hk.
    + exists raw, items. repeat split; try done. revert Hp. apply Forall2_impl. naive_solver.
Qed.

(** The error class the engine gives a refusal of each kind. *)
Definition refusal_class (k : VtzRefusalKind) : string :=
  match k with conflict => "Conflict" | denied => "Denied" end.

(** The lifecycle field of a mutation reply. *)
Definition lifecycle_field (l : option VtzLifecycle) : value :=
  VStr (match l with Some l => lifecycle_tag l | None => "" end).

Lemma toVtzMutation_iff reply m :
  toVtzMutation reply = Ok (Some m) ↔
  get reply "id" = Ok (mutation_id m) ∧ get reply "lifecycle" = Ok (lifecycle_field (mutation_lifecycle m)).
Proof.
  unfold toVtzMutation, lifecycle_field. split.
  - intros H. bind_step H lc. destruct (is_str "" lc) eqn:Hs.
    + apply is_str_iff in Hs as ->. bind_step H id. injection H as <-. done.
    + destruct (toVtzLifecycle lc) eqn:Hl; [|done]. bind_step H id. injection H as <-.
      autorewrite with narrowing in Hl. by subst.
  - intros [Hi ->]. cbn -[toVtzLifecycle]. destruct m as [id [l|]]; cbn in *.
    + rewrite bool_decide_false by (by destruct l). by rewrite toVtzLifecycle_tag, Hi.
    + by rewrite Hi.
Qed.

(** How an audited write ends, by what the engine answered. *)
Inductive commit_spec : result value → result VtzMutationResult → Prop :=
  | commit_done reply m :
      get reply "id" = Ok (mutation_id m) →
      get reply "lifecycle" = Ok (lifecycle_field (mutation_lifecycle m)) →
      commit_spec (Ok reply) (Ok m)
  | commit_unknown reply lc :
      get reply "lifecycle" = Ok lc → (∀ l, lc ≠ lifecycle_field l) →
      commit_spec (Ok reply) (Throw VtzUnavailableError)
  | commit_unreadable reply e :
      get reply "lifecycle" = Throw e → commit_spec (Ok reply) (Throw e)
  | commit_refused w k :
      get w "class" = Ok (VStr (refusal_class k)) →
      commit_spec (Throw (EngineRefusedError w)) (Throw (VtzMutationRefusedError k))
  | commit_other_refusal w c :
      get w "class" = Ok c → (∀ k, c ≠ VStr (refusal_class k)) →
      commit_spec (Throw (EngineRefusedError w)) (Throw (EngineRefusedError w))
  | commit_unreadable_refusal w e :
      get w "class" = Throw e → commit_spec (Throw (EngineRefusedError w)) (Throw e)
  | commit_failed e :
      (∀ w, e ≠ EngineRefusedError w) → commit_spec (Throw e) (Throw e).

Lemma get_ok_id reply lc : get reply "lifecycle" = Ok lc → ∃ id, get reply "id" = Ok id.
Proof. destruct reply; cbn; eauto; done. Qed.

Lemma commit_sound run : commit_spec run (commit run).
Proof.
  destruct run as [reply|e]; cbn.
  - destruct (toVtzMutation reply) as [[m|]|e] eqn:Hm; cbn.
    + apply toVtzMutation_iff in Hm as [??]. by econstructor.
    + unfold toVtzMutation in Hm. bind_step Hm lc. eapply commit_unknown; [done|].
      destruct (get_ok_id _ _ Elc) as [id Hid]. rewrite Hid in Hm.
      intros [l|] ->; cbn in Hm; [|done]. by destruct l.
    + unfold toVtzMutation in Hm. destruct (get reply "lifecycle") as [lc|e'] eqn:Elc.
      * destruct (get_ok_id _ _ Elc) as [id Hid]. rewrite Hid in Hm. cbn in Hm. by repeat case_match.
      * injection Hm as <-. by constructor.
  - destruct e; try (by apply commit_failed). cbn. destruct (get wireError "class") as [c|e] eqn:Hc; cbn.
    + destruct (is_str "Conflict" c) eqn:Hs1; [apply is_str_iff in Hs1 as ->; by apply (commit_refused _ conflict)|].
      destruct (is_str "Denied" c) eqn:Hs2; [apply is_str_iff in Hs2 as ->; by apply (commit_refused _ denied)|].
      eapply commit_other_refusal; [done|]. intros [] ->; done.
    + by constructor.
Qed.

(** The four audited writes, each with the answer of the one client call it makes. *)
Definition mutations (client : string → value → result value) (principal : OperatorPrincipal)
    (spec : VtzSpecInput) (id newName : string) : list (result value * result VtzMutationResult) :=
  [(client "vtzCreate" (sent principal [("spec", toWireVtzSpec spec)]), resolveVtzCreate client principal spec);
   (client "vtzEdit" (sent principal [("spec", toWireVtzSpec spec)]), resolveVtzEdit client principal spec);
   (client "vtzRescope" (sent principal [("vtz_id", VStr id); ("new_name", VStr newName)]),
    resolveVtzRescope client principal id newName);
   (client "vtzDelete" (sent principal [("vtz_id", VStr id)]), resolveVtzDelete client principal id)].

(** audited zone writes are reported honestly.  Each of the four sends one request
    in the name of the operator, carrying exactly what was authored; it reports a
    committed zone only if the engine answered with that identifier and a lifecycle it
    knows, a refusal only if the engine refused with that class, unavailability only
    for an unknown lifecycle, and every other failure as it came. *)
Theorem zone_mutations_honest client principal spec id newName :
  Forall (λ m, commit_spec m.1 m.2) (mutations client principal spec id newName).
Proof. repeat constructor; apply commit_sound. Qed.

(** ** Names *)

(** A label: ASCII letters, digits and inner hyphens, 1 to 63 bytes. *)
Definition label_ok (l : string) : Prop :=
  (1 ≤ String.length l ≤ 63)%nat ∧
  (∀ a c b, l = a +:+ String c b → alnum c = true ∨ c = hyphen ∧ a ≠ "" ∧ b ≠ "").

Lemma label_tail_spec s :
  label_tail s = true ↔
  s ≠ "" ∧ ∀ a c b, s = a +:+ String c b → alnum c = true ∨ c = hyphen ∧ b ≠ "".
Proof.
  induction s as [|c s IH]; [cbn; naive_solver|].
  destruct s as [|c' s].
  - cbn. split.
    + intros Hc. split; [done|]. intros [|x a] d b E; rewrite ?str_app_cons, ?str_nil_app in E; simplify_eq; [auto|].
      by destruct a.
    + intros [_ H]. destruct (H "" c "" eq_refl) as [|[_ ?]]; done.
  - change (label_tail (String c (String c' s))) with ((alnum c || Ascii.eqb c hyphen) && label_tail (String c' s)).
    rewrite andb_true_iff, orb_true_iff, Ascii.eqb_eq, IH. split.
    + intros [Hc [_ H]]. split; [done|]. intros [|x a] d b E; rewrite ?str_app_cons, ?str_nil_app in E; simplify_eq.
      * destruct Hc; auto.
      * eauto.
    + intros [_ H]. split_and!; [destruct (H "" c (String c' s) eq_refl) as [|[??]]; auto|done|].
      intros a d b E. apply (H (String c a) d b). by rewrite str_app_cons, E.
Qed.

Lemma VTZ_LABEL_SHAPE_spec s :
  VTZ_LABEL_SHAPE s = true ↔
  s ≠ "" ∧ ∀ a c b, s = a +:+ String c b → alnum c = true ∨ c = hyphen ∧ a ≠ "" ∧ b ≠ "".
Proof.
  destruct s as [|c s]; [cbn; naive_solver|]. cbn.
  rewrite andb_true_iff, orb_true_iff, bool_decide_eq_true, label_tail_spec. split.
  - intros [Hc Hs]. split; [done|]. intros [|x a] d b E; rewrite ?str_app_cons, ?str_nil_app in E; simplify_eq; [auto|].
    destruct Hs as [E|[_ H]]; [by destruct a|]. destruct (H a d b eq_refl) as [|[??]]; [auto|].
    right. split_and!; [done| |done]. by destruct a.
  - intros [_ H]. split; [destruct (H "" c s eq_refl) as [|(_ & ? & _)]; done|].
    destruct s as [|c' s]; [by left|]. right. split; [done|]. intros a d b E.
    destruct (H (String c a) d b) as [|(?&_&?)]; [by rewrite str_app_cons, E|auto|auto].
Qed.

Lemma label_ok_no_dot l : label_ok l → no_char dot l = true.
Proof.
  intros [_ H]. apply no_char_spec. intros a c b E. destruct (H a c b E) as [Hc|[-> _]]; [|done].
  by intros ->.
Qed.

Lemma labels_problem_None labels : labels_problem labels = None ↔ Forall label_ok labels.
Proof.
  induction labels as [|l labels IH]; cbn; [split; [constructor|done]|].
  rewrite list.Forall_cons. unfold label_ok, utf8ByteLength, byte_len, VTZ_LABEL_MAX_BYTES.
  rewrite string_bytes_length. case_bool_decide as Hl; [subst; cbn; split; [done|intros [[? _] _]; lia]|].
  assert (1 ≤ String.length l)%nat by (destruct l; cbn; [done|lia]).
  destruct (Z.ltb_spec 63 (Z.of_nat (String.length l))); [split; [done|intros [[? _] _]; lia]|].
  destruct (VTZ_LABEL_SHAPE l) eqn:Hs; cbn.
  - apply VTZ_LABEL_SHAPE_spec in Hs as [_ Hs]. rewrite IH. split; [|by intros []].
    intros ?. split; [|done]. split; [lia|done].
  - split; [done|]. intros [[_ H1] _]. assert (VTZ_LABEL_SHAPE l = true) by by apply VTZ_LABEL_SHAPE_spec.
    congruence.
Qed.

(** A zone name: 1 to 16 labels joined by dots, at most 255 bytes. *)
Definition name_ok (labels : list string) : Prop :=
  (1 ≤ length labels ≤ 16)%nat ∧ Forall label_ok labels ∧ (String.length (join "." labels) ≤ 255)%nat.

Lemma vtzNameProblem_None name :
  vtzNameProblem name = None ↔ ∃ labels, name = join "." labels ∧ name_ok labels.
Proof.
  unfold vtzNameProblem, VTZ_NAME_MAX_BYTES, VTZ_NAME_MAX_LABELS, utf8ByteLength, byte_len, name_ok.
  rewrite string_bytes_length. split.
  - case_bool_decide; [done|]. destruct (Z.ltb_spec 255 (Z.of_nat (String.length name))); [done|].
    destruct (Z.ltb_spec 16 (Z.of_nat (length (split_on dot name)))); [done|].
    rewrite labels_problem_None. intros Hl. exists (split_on dot name). change "." with (String dot "").
    rewrite join_split. pose proof (split_on_nonempty dot name). split_and!; [done|lia|lia|done|lia].
  - intros (labels & -> & Hn & Hl & Hlen). change "." with (String dot "") in *.
    rewrite split_join; [|by destruct labels; cbn in Hn; [lia|]|].
    2: { revert Hl. apply Forall_impl. intros l. apply label_ok_no_dot. }
    rewrite bool_decide_false.
    2: { destruct Hl as [|l labels' [Hl _] _]; cbn in Hn; [lia|]. destruct l; cbn in Hl; [lia|].
         unfold join. by destruct labels'. }
    rewrite (proj2 (Z.ltb_ge _ _)) by lia. rewrite (proj2 (Z.ltb_ge _ _)) by lia.
    by apply labels_problem_None.
Qed.

(** The editor's name check accepts exactly the zone names.  No problem is
    reported precisely for 1 to 16 dot-separated labels of letters, digits and inner
    hyphens, each of 1 to 63 bytes and 255 bytes in all; and the zones above an
    accepted name, its lexical prefixes, have accepted names too. *)
Theorem vtz_name_exact :
  (∀ name, vtzNameProblem name = None ↔ ∃ labels, name = join "." labels ∧ name_ok labels) ∧
  (∀ labels more, labels ≠ [] → vtzNameProblem (join "." (labels ++ more)) = None →
     Forall (λ l, no_char dot l = true) (labels ++ more) →
     vtzNameProblem (join "." labels) = None).
Proof.
  split; [apply vtzNameProblem_None|].
  intros labels more Hne (ls & E & Hn & Hl & Hlen)%vtzNameProblem_None Hdots.
  apply vtzNameProblem_None. exists labels. split; [done|].
  change "." with (String dot "") in E, Hlen. assert (ls = labels ++ more) as ->.
  { rewrite <- (split_join dot ls), <- E, split_join; [done|by destruct labels|done| |].
    - by destruct ls; cbn in Hn; [lia|].
    - revert Hl. apply Forall_impl. intros l. apply label_ok_no_dot. }
  rewrite length_app in Hn. apply Forall_app in Hl as [Hl _].
  split_and!; [destruct labels; cbn; [done|lia]|lia|done|].
  etrans; [apply (join_prefix_length "." labels more)|exact Hlen].
Qed.
