(* ===== verification/Policies.v ===== *)
(** * Policies ([packages/contracts/src/policies.ts], [apps/bff/src/engine/policies.ts])

    The projection of the engine's policy records, the boundary check of an authored
    draft, its translation to the wire, and the resolvers.  Tags are narrowed to the
    strings of their registry; a field the code only passes through stays a value. *)
From S2P Require Import Prelude Bytes Float64 Cbor JsValue JsString Num64 Rbac OperatorEngine Vtz.
Open Scope Z_scope.

Definition POLICY_ACTIONS : list string := ["permit"; "monitor"; "quarantine"; "deny"].
Definition POLICY_LOGGING : list string := ["full"; "sampled"; "off"].
Definition POLICY_PROTOCOLS : list string := ["tcp"; "udp"; "https"; "ssh"].
Definition POLICY_LIFECYCLES : list string := ["draft"; "published"].
Definition SCHEDULE_DAYS : list string := ["mon"; "tue"; "wed"; "thu"; "fri"; "sat"; "sun"].
Definition POLICY_CLASSIFICATIONS : list string :=
  ["unclassified"; "internal"; "confidential"; "restricted"; "secret"].
Definition OBJECT_KINDS : list string :=
  ["user"; "group"; "agent"; "service"; "server"; "application"; "uri"; "network";
   "registry_key"; "certificate"; "script"; "data_store"].
Definition SELECTOR_KINDS : list string := ["exact"; "glob"; "group_ref"; "cidr"].

Record RuleEndpoint := mkEndpoint { kind : string; selectorKind : string; selectorValue : value }.
Record PolicyRule := mkRule { source : RuleEndpoint; destination : RuleEndpoint; action : string }.
Record NetworkMatchView := mkNetwork { protocols : list string; ports : value }.
Record PolicyRestrictionsView := mkRestrictions {
  scheduleDays : list string; scheduleStartMinute : value; scheduleEndMinute : value;
  activeFrom : value; activeUntil : value; geo : value; tags : value }.
Record AppliedToMember := mkMember { endpointCn : value; agent : value }.

(** A policy as its author wrote it. *)
Record PolicyDraft := mkDraft {
  vtz : value; name : value; description : value; rules : list PolicyRule;
  network : NetworkMatchView; restrictions : PolicyRestrictionsView; logging : string;
  appliedTo : list AppliedToMember; maxClassification : string }.

(** A row is the authored fields with the identity the store gave the policy. *)
Record PolicyRow := mkRow {
  row_id : value; row_version : value; row_lifecycle : string; row_draft : PolicyDraft }.

Record PolicyZoneGroup := mkGroup { group_vtz : value; policies : list PolicyRow }.
Record PolicyVersionView := mkVersionView { pv_version : value; pv_lifecycle : string }.
Record PolicyDetailView := mkPolicyDetail { policy : option PolicyRow; versions : list PolicyVersionView }.
Record PolicyMutation := mkPolicyMutation {
  pm_id : value; pm_version : value; pm_lifecycle : string; pm_breaking : value }.

(** [v ?? d] *)
Definition or_else (v d : value) : value := if is_nullish v then d else v.

(** ** Engine records *)

Definition toRuleEndpoint (k sk sv : value) : option RuleEndpoint :=
  match toTag OBJECT_KINDS k, toTag SELECTOR_KINDS sk with
  | Some k, Some sk => Some (mkEndpoint k sk sv)
  | _, _ => None
  end.

Definition toPolicyRule (rule : value) : result (option PolicyRule) :=
  sk ← get rule "source_kind"; ss ← get rule "source_selector_kind"; sv ← get rule "source_selector_value";
  dk ← get rule "destination_kind"; ds ← get rule "destination_selector_kind";
  dv ← get rule "destination_selector_value";
  a ← get rule "action";
  Ok match toRuleEndpoint sk ss sv, toRuleEndpoint dk ds dv, toTag POLICY_ACTIONS a with
     | Some s, Some d, Some a => Some (mkRule s d a)
     | _, _, _ => None
     end.

(** [toProtocols] and [toScheduleDays]: every tag of the list, or none. *)
Definition toTags (known : list string) (tags : value) : result (option (list string)) :=
  items ← js_iterate (or_else tags (VArr []));
  project_all (λ v, Ok (toTag known v)) items.

Definition toAppliedToMember (member : value) : result AppliedToMember :=
  cn ← get member "endpoint_cn"; a ← get member "agent"; Ok (mkMember cn (or_else a VNull)).

(** [v.map(f)], into the model's records *)
Definition js_map_to {A} (f : value → result A) (v : value) : result (list A) :=
  match v with
  | VArr items => mapM f items
  | VNull | VUndefined => Throw (TypeError "Cannot read properties of undefined (reading 'map')")
  | _ => Throw (TypeError "map is not a function")
  end.

Definition toPolicyRow (record : value) : result (option PolicyRow) :=
  lc ← get record "lifecycle";
  lg ← get record "logging";
  mc ← get record "max_classification";
  pr ← get record "protocols"; pr ← toTags POLICY_PROTOCOLS pr;
  sd ← get record "schedule_days"; sd ← toTags SCHEDULE_DAYS sd;
  match toTag POLICY_LIFECYCLES lc, toTag POLICY_LOGGING lg, toTag POLICY_CLASSIFICATIONS mc, pr, sd with
  | Some lc, Some lg, Some mc, Some pr, Some sd =>
      rs ← get record "rules";
      items ← js_iterate rs;
      rs ← project_all toPolicyRule items;
      match rs with
      | None => Ok None
      | Some rs =>
          id ← get record "id"; z ← get record "vtz"; nm ← get record "name";
          version ← get record "version"; ds ← get record "description";
          po ← get record "ports";
          sm ← get record "schedule_start_minute"; em ← get record "schedule_end_minute";
          af ← get record "active_from"; au ← get record "active_until";
          ge ← get record "geo"; ta ← get record "restriction_tags";
          ap ← get record "applied_to";
          ap ← js_map_to toAppliedToMember (or_else ap (VArr []));
          Ok (Some (mkRow id version lc
            (mkDraft z nm ds rs (mkNetwork pr (or_else po (VStr "")))
               (mkRestrictions sd (or_else sm VNull) (or_else em VNull) (or_else af VNull) (or_else au VNull)
                  (or_else ge (VArr [])) (or_else ta (VArr [])))
               lg ap mc)))
      end
  | _, _, _, _, _ => Ok None
  end.

Definition toPolicyZone (zone : value) : result (option PolicyZoneGroup) :=
  records ← get zone "policies";
  items ← js_iterate records;
  rows ← project_all toPolicyRow items;
  match rows with
  | None => Ok None
  | Some rows => z ← get zone "vtz"; Ok (Some (mkGroup z rows))
  end.

Definition toPolicyZones (reply : value) : result (option (list PolicyZoneGroup)) :=
  zs ← get reply "zones"; items ← js_iterate zs; project_all toPolicyZone items.

Definition toPolicyVersion (version : value) : result (option PolicyVersionView) :=
  lc ← get version "lifecycle";
  match toTag POLICY_LIFECYCLES lc with
  | None => Ok None
  | Some lc => n ← get version "version"; Ok (Some (mkVersionView n lc))
  end.

Definition toPolicyDetail (detail : value) : result (option PolicyDetailView) :=
  vs ← get detail "versions";
  items ← js_iterate vs;
  vs ← project_all toPolicyVersion items;
  match vs with
  | None => Ok None
  | Some vs =>
      record ← get detail "record";
      if is_nullish record then Ok (Some (mkPolicyDetail None vs))
      else row ← toPolicyRow record; Ok (option_map (λ row, mkPolicyDetail (Some row) vs) row)
  end.

Definition toPolicyDeleted (reply : value) : result (option value) :=
  id ← get reply "id"; Ok (if is_str "" id then None else Some id).

Definition toPolicyMutation (reply : value) : result (option PolicyMutation) :=
  lc ← get reply "lifecycle";
  match toTag POLICY_LIFECYCLES lc with
  | None => Ok None
  | Some lc =>
      id ← get reply "id"; version ← get reply "version"; br ← get reply "breaking";
      Ok (Some (mkPolicyMutation id version lc (or_else br (VBool false))))
  end.

(** ** Drafts on the wire *)

Definition wireRule (rule : PolicyRule) : value :=
  VObj [("source_kind", VStr (kind (source rule)));
        ("source_selector_kind", VStr (selectorKind (source rule)));
        ("source_selector_value", selectorValue (source rule));
        ("destination_kind", VStr (kind (destination rule)));
        ("destination_selector_kind", VStr (selectorKind (destination rule)));
        ("destination_selector_value", selectorValue (destination rule));
        ("action", VStr (action rule))].

Definition wireMember (member : AppliedToMember) : value :=
  VObj (("endpoint_cn", endpointCn member) ::
        (if is_null (agent member) then [] else [("agent", agent member)])).

(** [if (c) out[k] = v] *)
Definition set_if (c : bool) (k : string) (v : value) (out : props) : props :=
  if c then obj_set out k v else out.

Section wire.
Context `{ToNumberOther}.

(** [if (v.length > 0) out[k] = [...v]] *)
Definition set_spread (k : string) (v : value) (out : props) : result props :=
  ne ← js_nonempty v;
  if (ne : bool) then w ← js_spread v; Ok (obj_set out k w) else Ok out.

Definition toWirePolicySpec (draft : PolicyDraft) : result value :=
  let r := restrictions draft in
  let out := [("name", name draft); ("vtz", vtz draft); ("description", description draft);
              ("logging", VStr (logging draft)); ("max_classification", VStr (maxClassification draft));
              ("rules", VArr (map wireRule (rules draft)))] in
  let out := set_if (0 <? length (protocols (network draft)))%nat "protocols"
               (VArr (map VStr (protocols (network draft)))) out in
  let out := set_if (negb (is_str "" (ports (network draft)))) "ports" (ports (network draft)) out in
  let out := set_if (0 <? length (scheduleDays r))%nat "schedule_days" (VArr (map VStr (scheduleDays r))) out in
  let out := set_if (negb (is_null (scheduleStartMinute r))) "schedule_start_minute" (scheduleStartMinute r) out in
  let out := set_if (negb (is_null (scheduleEndMinute r))) "schedule_end_minute" (scheduleEndMinute r) out in
  let out := set_if (negb (is_null (activeFrom r))) "active_from" (activeFrom r) out in
  let out := set_if (negb (is_null (activeUntil r))) "active_until" (activeUntil r) out in
  out ← set_spread "geo" (geo r) out;
  out ← set_spread "restriction_tags" (tags r) out;
  let out := set_if (0 <? length (appliedTo draft))%nat "applied_to" (VArr (map wireMember (appliedTo draft))) out in
  Ok (VObj out).
End wire.

(** ** Untrusted drafts *)

(** [typeof raw !== 'object' || raw === null] *)
Definition not_object (raw : value) : bool := negb (typeof_object raw) || is_null raw.

Definition toEndpointInput (raw : value) : result (option RuleEndpoint) :=
  if not_object raw then Ok None
  else
    k ← get raw "kind"; sk ← get raw "selectorKind"; sv ← get raw "selectorValue";
    Ok match toTag OBJECT_KINDS k, toTag SELECTOR_KINDS sk, sv with
       | Some k, Some sk, VStr s => Some (mkEndpoint k sk (VStr s))
       | _, _, _ => None
       end.

Definition toRuleInput (raw : value) : result (option PolicyRule) :=
  if not_object raw then Ok None
  else
    s ← get raw "source"; s ← toEndpointInput s;
    d ← get raw "destination"; d ← toEndpointInput d;
    a ← get raw "action";
    Ok match s, d, toTag POLICY_ACTIONS a with
       | Some s, Some d, Some a => Some (mkRule s d a)
       | _, _, _ => None
       end.

(** The tags of an array that may be absent. *)
Definition toTagsInput (known : list string) (raw : value) : result (option (list string)) :=
  match or_else raw (VArr []) with
  | VArr items => project_all (λ v, Ok (toTag known v)) items
  | _ => Ok None
  end.

Definition toNetworkInput (raw : value) : result (option NetworkMatchView) :=
  if is_nullish raw then Ok (Some (mkNetwork [] (VStr "")))
  else if negb (typeof_object raw) then Ok None
  else
    pr ← get raw "protocols"; pr ← toTagsInput POLICY_PROTOCOLS pr;
    match pr with
    | None => Ok None
    | Some pr =>
        po ← get raw "ports";
        Ok match po with
           | VStr s => Some (mkNetwork pr (VStr s))
           | VUndefined => Some (mkNetwork pr (VStr ""))
           | _ => None
           end
    end.

(** [Number.isFinite] *)
Definition toEpochInput (raw : value) : option value :=
  match raw with
  | VUndefined | VNull => Some VNull
  | VNum x => if f64_isFinite x then Some (VNum x) else None
  | _ => None
  end.

Definition is_string (v : value) : bool := match v with VStr _ => true | _ => false end.

Definition toStringArrayInput (raw : value) : option value :=
  match raw with
  | VUndefined | VNull => Some (VArr [])
  | VArr items => if forallb is_string items then Some (VArr items) else None
  | _ => None
  end.

Definition toRestrictionsInput (raw : value) : result (option PolicyRestrictionsView) :=
  if is_nullish raw then Ok (Some (mkRestrictions [] VNull VNull VNull VNull (VArr []) (VArr [])))
  else if negb (typeof_object raw) then Ok None
  else
    sd ← get raw "scheduleDays"; sd ← toTagsInput SCHEDULE_DAYS sd;
    match sd with
    | None => Ok None
    | Some sd =>
        sm ← get raw "scheduleStartMinute"; em ← get raw "scheduleEndMinute";
        af ← get raw "activeFrom"; au ← get raw "activeUntil";
        ge ← get raw "geo"; ta ← get raw "tags";
        Ok match toEpochInput sm, toEpochInput em, toEpochInput af, toEpochInput au,
                 toStringArrayInput ge, toStringArrayInput ta with
           | Some sm, Some em, Some af, Some au, Some ge, Some ta =>
               Some (mkRestrictions sd sm em af au ge ta)
           | _, _, _, _, _, _ => None
           end
    end.

Definition toMemberInput (m : value) : result (option AppliedToMember) :=
  if not_object m then Ok None
  else
    cn ← get m "endpointCn"; a ← get m "agent";
    Ok match cn, a with
       | VStr cn, VStr a => Some (mkMember (VStr cn) (VStr a))
       | VStr cn, (VUndefined | VNull) => Some (mkMember (VStr cn) VNull)
       | _, _ => None
       end.

Definition toAppliedToInput (raw : value) : result (option (list AppliedToMember)) :=
  match or_else raw (VArr []) with
  | VArr items => project_all toMemberInput items
  | _ => Ok None
  end.

Definition toPolicyDraftInput (body : value) : result (option PolicyDraft) :=
  if not_object body then Ok None
  else
    nm ← get body "name"; z ← get body "vtz"; ds ← get body "description";
    let nm := match nm with VStr s => trim s | _ => "" end in
    let z := match z with VStr s => trim s | _ => "" end in
    let ds := match ds with VStr s => s | _ => "" end in
    if bool_decide (nm = "") || bool_decide (z = "") then Ok None
    else
      lg ← get body "logging"; mc ← get body "maxClassification";
      match toTag POLICY_LOGGING lg, toTag POLICY_CLASSIFICATIONS mc with
      | Some lg, Some mc =>
          raw ← get body "rules";
          match raw with
          | VArr (x :: items) =>
              rs ← project_all toRuleInput (x :: items);
              match rs with
              | None => Ok None
              | Some rs =>
                  nw ← get body "network"; nw ← toNetworkInput nw;
                  re ← get body "restrictions"; re ← toRestrictionsInput re;
                  ap ← get body "appliedTo"; ap ← toAppliedToInput ap;
                  Ok match nw, re, ap with
                     | Some nw, Some re, Some ap =>
                         Some (mkDraft (VStr z) (VStr nm) (VStr ds) rs nw re lg ap mc)
                     | _, _, _ => None
                     end
              end
          | _ => Ok None
          end
      | _, _ => Ok None
      end.

(** ** Resolvers *)

(** [requestId()] on the module's counter *)
Definition requestId (nextRequestId : Z) : Z * Z :=
  let next := nextRequestId + 1 in (next mod 1000000000, next).

Section resolvers.
Context `{ToNumberOther} (client : string → value → result value).

Definition resolvePolicyZones (next : Z) (principal : OperatorPrincipal)
    : result (list PolicyZoneGroup) * Z :=
  let '(rid, next) := requestId next in
  (reply ← awaited (policyListByZone client principal (VObj [("request_id", vint rid)]));
   zones ← toPolicyZones reply;
   match zones with
   | None => Throw (PoliciesUnavailableError "a policy record carries an unknown engine tag")
   | Some zones => Ok zones
   end, next).

Definition resolvePolicyDetail (next : Z) (principal : OperatorPrincipal) (z id : string)
    : result PolicyDetailView * Z :=
  let '(rid, next) := requestId next in
  (detail ← awaited (policyDetail client principal
             (VObj [("request_id", vint rid); ("vtz", VStr z); ("id", VStr id)]));
   view ← toPolicyDetail detail;
   match view with
   | None => Throw (PoliciesUnavailableError "the policy record carries an unknown engine tag")
   | Some view => Ok view
   end, next).

Definition mutation (reply : value) : result PolicyMutation :=
  view ← toPolicyMutation reply;
  match view with
  | None => Throw (PoliciesUnavailableError "the command ack carries an unknown lifecycle")
  | Some view => Ok view
  end.

Definition resolveCreatePolicy (next : Z) (principal : OperatorPrincipal) (draft : PolicyDraft)
    : result PolicyMutation * Z :=
  let '(rid, next) := requestId next in
  (spec ← toWirePolicySpec draft;
   reply ← awaited (policyCreate client principal (VObj [("request_id", vint rid); ("spec", spec)]));
   mutation reply, next).

Definition resolveEditPolicy (next : Z) (principal : OperatorPrincipal) (id : string) (draft : PolicyDraft)
    : result PolicyMutation * Z :=
  let '(rid, next) := requestId next in
  (spec ← toWirePolicySpec draft;
   reply ← awaited (policyEdit client principal
             (VObj [("request_id", vint rid); ("id", VStr id); ("spec", spec)]));
   mutation reply, next).

Definition resolvePublishPolicy (next : Z) (principal : OperatorPrincipal) (z id version : string)
    : result PolicyMutation * Z :=
  let '(rid, next) := requestId next in
  (reply ← awaited (policyPublish client principal
             (VObj [("request_id", vint rid); ("vtz", VStr z); ("id", VStr id); ("version", VStr version)]));
   mutation reply, next).

Definition resolveDeletePolicy (next : Z) (principal : OperatorPrincipal) (z id : string)
    : result value * Z :=
  let '(rid, next) := requestId next in
  (reply ← awaited (policyDelete client principal
             (VObj [("request_id", vint rid); ("vtz", VStr z); ("id", VStr id)]));
   receipt ← toPolicyDeleted reply;
   match receipt with
   | None => Throw (PoliciesUnavailableError "the delete ack names no policy")
   | Some id => Ok id
   end, next).
End resolvers.
