(* ===== verification/PoliciesProofs.v ===== *)
(** * Correctness of the policy surface

    A draft the boundary check accepts is well formed, is sent to the engine in full,
    and is read back from a record that stores it as exactly the draft authored. *)
From S2P Require Import Prelude Bytes Float64 Cbor JsValue JsString Rbac Payload WireProofs OperatorEngine Vtz Policies.
Open Scope Z_scope.

Arguments toTag : simpl never.

(** ** Well-formed drafts *)

Definition endpoint_ok (e : RuleEndpoint) : Prop :=
  kind e ∈ OBJECT_KINDS ∧ selectorKind e ∈ SELECTOR_KINDS.
Definition rule_ok (r : PolicyRule) : Prop :=
  endpoint_ok (source r) ∧ endpoint_ok (destination r) ∧ action r ∈ POLICY_ACTIONS.
(** [null] or a defined value *)
Definition nullable (v : value) : Prop := v = VNull ∨ is_nullish v = false.
Definition array (v : value) : Prop := ∃ items, v = VArr items.

Definition restrictions_ok (r : PolicyRestrictionsView) : Prop :=
  Forall (λ d, d ∈ SCHEDULE_DAYS) (scheduleDays r) ∧
  nullable (scheduleStartMinute r) ∧ nullable (scheduleEndMinute r) ∧
  nullable (activeFrom r) ∧ nullable (activeUntil r) ∧ array (geo r) ∧ array (tags r).

Definition draft_ok (d : PolicyDraft) : Prop :=
  Forall rule_ok (rules d) ∧
  (Forall (λ p, p ∈ POLICY_PROTOCOLS) (protocols (network d)) ∧ is_nullish (ports (network d)) = false) ∧
  restrictions_ok (restrictions d) ∧
  logging d ∈ POLICY_LOGGING ∧ maxClassification d ∈ POLICY_CLASSIFICATIONS ∧
  Forall (λ m, nullable (agent m)) (appliedTo d).

(** ** The boundary check accepts only well-formed drafts *)

Lemma project_all_Forall {A} (f : value → result (option A)) (P : A → Prop) items l :
  (∀ x a, f x = Ok (Some a) → P a) → project_all f items = Ok (Some l) → Forall P l.
Proof. intros HP H%project_all_Some. induction H; constructor; eauto. Qed.

Lemma toTags_known known items l :
  project_all (λ v, Ok (toTag known v)) items = Ok (Some l) → Forall (λ t, t ∈ known) l.
Proof. apply project_all_Forall. intros x a [= H]. by apply toTag_iff in H as [_ ?]. Qed.

Lemma toTagsInput_known known raw l : toTagsInput known raw = Ok (Some l) → Forall (λ t, t ∈ known) l.
Proof. unfold toTagsInput. destruct (or_else _ _); try done. apply toTags_known. Qed.

Lemma toEndpointInput_ok raw e : toEndpointInput raw = Ok (Some e) → endpoint_ok e.
Proof.
  unfold toEndpointInput. destruct (not_object raw); [done|]. intros H.
  bind_step H k. bind_step H sk. bind_step H sv.
  destruct (toTag OBJECT_KINDS k) eqn:Hk, (toTag SELECTOR_KINDS sk) eqn:Hs, sv; simplify_eq.
  by apply toTag_iff in Hk as [_ ?], Hs as [_ ?].
Qed.

Lemma toRuleInput_ok raw r : toRuleInput raw = Ok (Some r) → rule_ok r.
Proof.
  unfold toRuleInput. destruct (not_object raw); [done|]. intros H.
  bind_step H s. bind_step H so. bind_step H d. bind_step H de. bind_step H a.
  destruct so, de, (toTag POLICY_ACTIONS a) eqn:Ha; simplify_eq.
  apply toTag_iff in Ha as [_ ?]. repeat split; try done; by eapply toEndpointInput_ok.
Qed.

Lemma toNetworkInput_ok raw n :
  toNetworkInput raw = Ok (Some n) →
  Forall (λ p, p ∈ POLICY_PROTOCOLS) (protocols n) ∧ is_nullish (ports n) = false.
Proof.
  unfold toNetworkInput. destruct (is_nullish raw); [intros [= <-]; by repeat constructor|].
  destruct (negb _); [done|]. intros H. bind_step H w. bind_step H pr.
  destruct pr; [|done]. bind_step H po. apply toTagsInput_known in Epr.
  destruct po; simplify_eq; done.
Qed.

Lemma toEpochInput_ok raw v : toEpochInput raw = Some v → nullable v.
Proof. unfold nullable. destruct raw; cbn; intros; repeat case_match; simplify_eq; auto. Qed.

Lemma toStringArrayInput_ok raw v : toStringArrayInput raw = Some v → array v.
Proof. unfold array. destruct raw; cbn; intros; repeat case_match; simplify_eq; eauto. Qed.

Lemma toRestrictionsInput_ok raw r : toRestrictionsInput raw = Ok (Some r) → restrictions_ok r.
Proof.
  unfold toRestrictionsInput, restrictions_ok. destruct (is_nullish raw).
  { intros [= <-]. unfold nullable, array. cbn. split_and!; eauto; constructor. }
  destruct (negb _); [done|]. intros H. bind_step H w. bind_step H sd. destruct sd as [sd|]; [|done].
  bind_step H sm. bind_step H em. bind_step H af. bind_step H au. bind_step H ge. bind_step H ta.
  apply toTagsInput_known in Esd.
  destruct (toEpochInput sm) eqn:?, (toEpochInput em) eqn:?, (toEpochInput af) eqn:?, (toEpochInput au) eqn:?,
    (toStringArrayInput ge) eqn:?, (toStringArrayInput ta) eqn:?; simplify_eq. cbn.
  split_and!; eauto using toEpochInput_ok, toStringArrayInput_ok.
Qed.

Lemma toAppliedToInput_ok raw ms :
  toAppliedToInput raw = Ok (Some ms) → Forall (λ m, nullable (agent m)) ms.
Proof.
  unfold toAppliedToInput. destruct (or_else _ _); try done. apply project_all_Forall.
  intros x m. unfold toMemberInput, nullable. destruct (not_object x); [done|]. intros H.
  bind_step H cn. bind_step H a. destruct cn, a; simplify_eq; auto.
Qed.

Lemma toPolicyDraftInput_ok body d :
  toPolicyDraftInput body = Ok (Some d) →
  draft_ok d ∧ rules d ≠ [] ∧ ∃ nm z, name d = VStr nm ∧ vtz d = VStr z ∧
    nm ≠ "" ∧ z ≠ "" ∧ trim nm = nm ∧ trim z = z.
Proof.
  unfold toPolicyDraftInput. destruct (not_object body); [done|]. intros H.
  bind_step H nm. bind_step H z. bind_step H ds.
  assert (∀ v, trim (match v with VStr s => trim s | _ => "" end) = match v with VStr s => trim s | _ => "" end) as Ht.
  { by intros []; rewrite ?trim_idem. }
  pose proof (Ht nm) as Hn. pose proof (Ht z) as Hz. clear Ht.
  set (n' := match nm with VStr s => trim s | _ => "" end) in *.
  set (z' := match z with VStr s => trim s | _ => "" end) in *. clearbody n' z'.
  destruct (bool_decide (n' = "")) eqn:Hn', (bool_decide (z' = "")) eqn:Hz'; try done. cbn [orb] in H.
  apply bool_decide_eq_false in Hn', Hz'.
  bind_step H lg. bind_step H mc.
  destruct (toTag POLICY_LOGGING lg) eqn:Hlg, (toTag POLICY_CLASSIFICATIONS mc) eqn:Hmc; try done.
  apply toTag_iff in Hlg as [_ Hlg], Hmc as [_ Hmc]. bind_step H raw.
  destruct raw as [| | | | | | | | |[|x items]|]; try done.
  bind_step H rs. destruct rs as [rs|]; [|done].
  bind_step H w1. bind_step H nw. bind_step H w2. bind_step H re. bind_step H w3. bind_step H ap.
  destruct nw, re, ap; simplify_eq. cbn. split_and!; cbn.
  - split_and!; cbn; eauto using toRestrictionsInput_ok, toAppliedToInput_ok.
    + eapply project_all_Forall; [exact toRuleInput_ok|done].
    + eapply proj1, toNetworkInput_ok. done.
    + eapply proj2, toNetworkInput_ok. done.
  - intros ->. apply project_all_Some in Ers. inversion Ers.
  - by exists n', z'.
Qed.

(** ** What is sent is read back *)

Lemma obj_get_set_if c k v out :
  k ≠ "__proto__" → obj_get (set_if c k v out) k = if c then Some v else obj_get out k.
Proof.
  intros Hk. unfold set_if, obj_set. rewrite bool_decide_false by done.
  destruct c; [apply obj_get_insert|done].
Qed.

Lemma obj_get_set_if_ne c k v out k' : k ≠ k' → obj_get (set_if c k v out) k' = obj_get out k'.
Proof.
  intros Hk. unfold set_if, obj_set. destruct c; [|done]. case_bool_decide; [done|].
  by apply obj_get_insert_ne.
Qed.

Lemma set_spread_array `{ToNumberOther} k items out :
  set_spread k (VArr items) out = Ok (set_if (0 <? length items)%nat k (VArr items) out).
Proof. unfold set_spread. cbn. by destruct items. Qed.

(** The fields of a record the author wrote. *)
Definition AUTHORED_KEYS : list string :=
  ["name"; "vtz"; "description"; "logging"; "max_classification"; "rules"; "protocols"; "ports";
   "schedule_days"; "schedule_start_minute"; "schedule_end_minute"; "active_from"; "active_until";
   "geo"; "restriction_tags"; "applied_to"].

(** A field left out when it is empty reads back as empty. *)
Definition opt (c : bool) (v : value) : value := if c then v else VUndefined.

(** Read one key of a specification built by [set_if]s over a literal. *)
Ltac read_key :=
  repeat (rewrite obj_get_set_if_ne by discriminate);
  try (rewrite obj_get_set_if by discriminate; repeat (rewrite obj_get_set_if_ne by discriminate));
  try match goal with |- default _ (if ?c then _ else _) = _ => destruct c end; reflexivity.

Lemma wire_spec `{ToNumberOther} d ge ta :
  geo (restrictions d) = VArr ge → tags (restrictions d) = VArr ta →
  ∃ out, toWirePolicySpec d = Ok (VObj out) ∧
    map (λ k, default VUndefined (obj_get out k)) AUTHORED_KEYS =
      [name d; vtz d; description d; VStr (logging d); VStr (maxClassification d);
       VArr (map wireRule (rules d));
       opt (0 <? length (protocols (network d)))%nat (VArr (map VStr (protocols (network d))));
       opt (negb (is_str "" (ports (network d)))) (ports (network d));
       opt (0 <? length (scheduleDays (restrictions d)))%nat (VArr (map VStr (scheduleDays (restrictions d))));
       opt (negb (is_null (scheduleStartMinute (restrictions d)))) (scheduleStartMinute (restrictions d));
       opt (negb (is_null (scheduleEndMinute (restrictions d)))) (scheduleEndMinute (restrictions d));
       opt (negb (is_null (activeFrom (restrictions d)))) (activeFrom (restrictions d));
       opt (negb (is_null (activeUntil (restrictions d)))) (activeUntil (restrictions d));
       opt (0 <? length ge)%nat (VArr ge); opt (0 <? length ta)%nat (VArr ta);
       opt (0 <? length (appliedTo d))%nat (VArr (map wireMember (appliedTo d)))].
Proof.
  intros Hg Ht. unfold toWirePolicySpec. rewrite Hg, set_spread_array. cbn [mbind result_bind].
  rewrite Ht, set_spread_array. cbn [mbind result_bind]. eexists. split; [reflexivity|].
  unfold AUTHORED_KEYS, opt. cbn [map]. repeat (apply (f_equal2 cons); [read_key|]). reflexivity.
Qed.

Lemma toTag_known known s : s ∈ known → toTag known (VStr s) = Some s.
Proof. intros. by apply toTag_iff. Qed.

Lemma toTags_opt known l :
  Forall (λ s, s ∈ known) l →
  toTags known (opt (0 <? length l)%nat (VArr (map VStr l))) = Ok (Some l).
Proof.
  intros Hl. unfold toTags.
  assert (or_else (opt (0 <? length l)%nat (VArr (map VStr l))) (VArr []) = VArr (map VStr l)) as ->.
  { by destruct l. }
  cbn. apply (project_all_iff _ (λ v s, v = VStr s ∧ s ∈ known)).
  - intros x a. rewrite <- toTag_iff. split; [by intros [= ->]|by intros ->].
  - induction Hl; constructor; auto.
Qed.

Lemma toPolicyRule_wire r : rule_ok r → toPolicyRule (wireRule r) = Ok (Some r).
Proof.
  intros ((Hk & Hs) & (Hdk & Hds) & Ha). destruct r as [[k s v] [k' s' v'] a]; cbn in Hk, Hs, Hdk, Hds, Ha.
  change (toPolicyRule _) with
    (Ok match toRuleEndpoint (VStr k) (VStr s) v, toRuleEndpoint (VStr k') (VStr s') v', toTag POLICY_ACTIONS (VStr a) with
     | Some s, Some d, Some a => Some (mkRule s d a)
     | _, _, _ => None
     end).
  unfold toRuleEndpoint. by rewrite !toTag_known.
Qed.

Lemma rules_wire rs : Forall rule_ok rs → project_all toPolicyRule (map wireRule rs) = Ok (Some rs).
Proof.
  intros Hrs. apply project_all_Some.
  induction Hrs; constructor; [by apply toPolicyRule_wire|done].
Qed.

Lemma or_else_ports p : is_nullish p = false → or_else (opt (negb (is_str "" p)) p) (VStr "") = p.
Proof.
  intros Hp. destruct (is_str "" p) eqn:E; [by apply is_str_iff in E as ->|].
  cbn. unfold or_else. by rewrite Hp.
Qed.

Lemma or_else_nullable v : nullable v → or_else (opt (negb (is_null v)) v) VNull = v.
Proof.
  intros [->|Hv]; [done|]. destruct v; cbn in *; done.
Qed.

Lemma or_else_array l : or_else (opt (0 <? length l)%nat (VArr l)) (VArr []) = VArr l.
Proof. by destruct l. Qed.

Lemma applied_wire ms :
  Forall (λ m, nullable (agent m)) ms →
  js_map_to toAppliedToMember
    (or_else (opt (0 <? length ms)%nat (VArr (map wireMember ms))) (VArr [])) = Ok ms.
Proof.
  intros Hms.
  assert (or_else (opt (0 <? length ms)%nat (VArr (map wireMember ms))) (VArr []) = VArr (map wireMember ms)) as ->.
  { by destruct ms. }
  cbn. induction Hms as [|m ms Hm Hms IH]; [done|]. cbn [map mapM].
  assert (toAppliedToMember (wireMember m) = Ok m) as ->; [|cbn; by rewrite IH].
  destruct m as [cn a]. unfold wireMember. cbn in Hm |- *. destruct Hm as [->|Ha]; [done|].
  by destruct a; cbn in Ha |- *.
Qed.

Lemma policy_reads_back `{ToNumberOther} d :
  draft_ok d →
  ∃ spec, toWirePolicySpec d = Ok spec ∧
    ∀ record id version lc,
      (∀ k, k ∈ AUTHORED_KEYS → get record k = get spec k) →
      get record "id" = Ok id → get record "version" = Ok version →
      get record "lifecycle" = Ok (VStr lc) → lc ∈ POLICY_LIFECYCLES →
      toPolicyRow record = Ok (Some (mkRow id version lc d)).
Proof.
  intros (Hr & (Hpr & Hpo) & (Hsd & Hsm & Hem & Haf & Hau & [ge Hge] & [ta Hta]) & Hlg & Hmc & Hap).
  destruct (wire_spec d ge ta Hge Hta) as (out & Hspec & Hkeys). exists (VObj out). split; [done|].
  intros record id version lc Hrec Hid Hver Hlc Hlct.
  assert (map (get record) AUTHORED_KEYS = map Ok (map (λ k, default VUndefined (obj_get out k)) AUTHORED_KEYS)) as Hm.
  { rewrite map_map. apply map_ext_in. intros k Hk. apply list_elem_of_In, Hrec in Hk. by rewrite Hk. }
  rewrite Hkeys in Hm. unfold AUTHORED_KEYS in Hm. cbn [map] in Hm.
  injection Hm as Hnm Hz Hds Hlog Hcls Hrules Hprot Hports Hdays Hstart Hend Hfrom Huntil Hgeo Htags Happ.
  unfold toPolicyRow. rewrite Hlc, Hlog, Hcls, Hprot. cbn [mbind result_bind].
  rewrite (toTags_opt _ _ Hpr), Hdays. cbn [mbind result_bind].
  rewrite (toTags_opt _ _ Hsd). cbn [mbind result_bind]. rewrite !toTag_known by done.
  rewrite Hrules. cbn [mbind result_bind]. change (js_iterate (VArr ?l)) with (Ok l). cbn [mbind result_bind].
  rewrite (rules_wire _ Hr). cbn [mbind result_bind].
  rewrite Hid, Hz, Hnm, Hver, Hds, Hports, Hstart, Hend, Hfrom, Huntil, Hgeo, Htags, Happ. cbn [mbind result_bind].
  rewrite (applied_wire _ Hap). cbn [mbind result_bind].
  rewrite or_else_ports, !or_else_nullable, !or_else_array by done. rewrite <- Hge, <- Hta.
  by destruct d as [? ? ? ? [] [] ? ? ?].
Qed.

(** ** Properties *)

(** C23: a policy is what its author wrote.  Whatever body the boundary check accepts,
    the draft is sent to the engine without an exception, and any record that stores
    the fields sent, under whatever identity, version and lifecycle, is shown as
    exactly that draft: rules, qualifiers, restrictions and scope, with the fields left
    out of the request reading back as empty. *)
Theorem authored_policy_reads_back `{ToNumberOther} body d :
  toPolicyDraftInput body = Ok (Some d) →
  ∃ spec, toWirePolicySpec d = Ok spec ∧
    ∀ record id version lc,
      (∀ k, k ∈ AUTHORED_KEYS → get record k = get spec k) →
      get record "id" = Ok id → get record "version" = Ok version →
      get record "lifecycle" = Ok (VStr lc) → lc ∈ POLICY_LIFECYCLES →
      toPolicyRow record = Ok (Some (mkRow id version lc d)).
Proof. intros [Hok _]%toPolicyDraftInput_ok. by apply policy_reads_back. Qed.

Definition sample_body : value :=
  VObj [("name", VStr " allow "); ("vtz", VStr "Corp"); ("logging", VStr "full");
        ("maxClassification", VStr "internal");
        ("rules", VArr [VObj [
           ("source", VObj [("kind", VStr "user"); ("selectorKind", VStr "exact"); ("selectorValue", VStr "ada")]);
           ("destination", VObj [("kind", VStr "uri"); ("selectorKind", VStr "glob"); ("selectorValue", VStr "*")]);
           ("action", VStr "permit")]]);
        ("restrictions", VObj [("scheduleDays", VArr [VStr "mon"]); ("activeUntil", vint 9)])].

Lemma authored_policy_reads_back_witness :
  ∃ d spec, name d = VStr "allow" ∧ @toWirePolicySpec (λ _, 0) d = Ok spec.
Proof.
  assert (∃ d, toPolicyDraftInput sample_body = Ok (Some d) ∧ name d = VStr "allow") as (d & Hd & Hn).
  { eexists. split; vm_compute; reflexivity. }
  destruct (@authored_policy_reads_back (λ _, 0) sample_body d Hd) as (spec & Hs & _).
  by exists d, spec.
Defined.
