(* ===== verification/Forge.v ===== *)
(** * Bundle composition ([packages/contracts/src/forge.ts])

    The flat endpoint policy composed from a zone, the authored rules composed from the
    zone's effective policies, and the convergence ledger of a distributed bundle. *)
From S2P Require Import Prelude Bytes Float64 Cbor JsValue JsString Rbac OperatorEngine Vtz VtzProofs Policies.
Open Scope Z_scope.

(** ** The endpoint policy *)

Definition EXPRESSIBLE_DOMAINS : list (VtzObjectDomain * string) :=
  [(ordinary_network, "allow_ordinary_internet"); (execution, "exec")].

Definition UNEXPRESSIBLE_ZONE_FIELDS : list string :=
  ["microSegmentation"; "telemetry"; "reauthIntervalHours"; "zoneType"].

Definition unexpressibleDomains : list VtzObjectDomain :=
  filter (λ d, d ∉ EXPRESSIBLE_DOMAINS.*1) VTZ_OBJECT_DOMAINS.

Record UnexpressedDomain := mkUnexpressed { un_domain : VtzObjectDomain; un_posture : option VtzPosture }.

(** [ResourceBound], its seven ceilings *)
Record ResourceBound := mkBound {
  cpu_millicores : Z; memory_bytes : Z; pids : Z; io_bytes_per_sec : Z; cost_micros : Z;
  storage_bytes : Z; rate_per_sec : Z }.

Record EndpointPolicy := mkEndpointPolicy {
  max_classification : string; brokered_destinations : list string; restricted : list string;
  allow_ordinary_internet : bool; exec : string; resource_bound : ResourceBound }.

Record ComposedEndpointPolicy := mkComposed {
  composed_policy : EndpointPolicy; unexpressedDomains : list UnexpressedDomain;
  unexpressedFields : list string }.

Definition FAIL_CLOSED_RESOURCE_BOUND : ResourceBound := mkBound 0 0 0 0 0 0 0.
Definition EXEC_FLOOR : string := "DenyUnwrappedExec".
Definition FAIL_CLOSED_CLASSIFICATION : string := "Unclassified".

(** [new Map(postures.map(e => [e.domain, e.posture])).get(d)]: the last entry of a
    domain is the one the map keeps. *)
Definition effective_get (ps : list DomainPosture) (d : VtzObjectDomain) : option VtzPosture :=
  foldl (λ acc p, if decide (domain p = d) then Some (posture p) else acc) None ps.

Definition composeEndpointPolicy (zone : VtzZone) : ComposedEndpointPolicy :=
  let effective := effective_get (effectivePostures zone) in
  let allowOrdinaryInternet := bool_decide (effective ordinary_network = Some permit_deny_risky) in
  mkComposed
    (mkEndpointPolicy FAIL_CLOSED_CLASSIFICATION [] [] allowOrdinaryInternet EXEC_FLOOR FAIL_CLOSED_RESOURCE_BOUND)
    (map (λ d, mkUnexpressed d (effective d)) unexpressibleDomains)
    UNEXPRESSIBLE_ZONE_FIELDS.

(** The policy as the draft carries it, in the property order of the source. *)
Definition policy_value (p : EndpointPolicy) : value :=
  let b := resource_bound p in
  VObj [("max_classification", VStr (max_classification p));
        ("brokered", VObj [("destinations", VArr (map VStr (brokered_destinations p)))]);
        ("restricted", VArr (map VStr (restricted p)));
        ("allow_ordinary_internet", VBool (allow_ordinary_internet p));
        ("exec", VStr (exec p));
        ("resource_bound", VObj
           [("cpu_millicores", vint (cpu_millicores b)); ("memory_bytes", vint (memory_bytes b));
            ("pids", vint (pids b)); ("io_bytes_per_sec", vint (io_bytes_per_sec b));
            ("cost_micros", vint (cost_micros b)); ("storage_bytes", vint (storage_bytes b));
            ("rate_per_sec", vint (rate_per_sec b))])].

(** ** The authored rules *)

(** [\d+] from the front: the digits and what follows them *)
Fixpoint digits (s : string) : string * string :=
  match s with
  | EmptyString => ("", "")
  | String c r =>
      if in_range 48 57 (byte_of_ascii c) then let '(d, r) := digits r in (String c d, r) else ("", s)
  end.

(** The value of a run of digits. *)
Fixpoint digits_value (acc : Z) (s : string) : Z :=
  match s with EmptyString => acc | String c s => digits_value (10 * acc + (byte_of_ascii c - 48)) s end.

(** [Number(digits)]: the nearest double, ties to even *)
Definition f64_round (m : Z) : Z :=
  if m <? 2 ^ 53 then f64_make false m 0
  else
    let e := Z.log2 m - 52 in
    let q := m / 2 ^ e in
    let r := m mod 2 ^ e in
    let up := (2 ^ (e - 1) <? r) || ((r =? 2 ^ (e - 1)) && Z.odd q) in
    let q := if up then q + 1 else q in
    let '(q, e) := if q =? 2 ^ 53 then (2 ^ 52, e + 1) else (q, e) in
    if 971 <? e then f64_inf false else f64_make false q e.

Definition Number_digits (s : string) : Z := f64_round (digits_value 0 s).

Record Version := mkVersion { major : Z; minor : Z; patch : Z }.

Section compose.
Context `{NumberToString}.

(** [exec] converts its argument to a string. *)
Definition parseSemver (version : value) : option Version :=
  let '(a, r1) := digits (js_String version) in
  match a, r1 with
  | String _ _, String c1 r1 =>
      if Ascii.eqb c1 dot then
        let '(b, r2) := digits r1 in
        match b, r2 with
        | String _ _, String c2 r2 =>
            if Ascii.eqb c2 dot then
              let '(c, r3) := digits r2 in
              match c, r3 with
              | String _ _, EmptyString => Some (mkVersion (Number_digits a) (Number_digits b) (Number_digits c))
              | _, _ => None
              end
            else None
        | _, _ => None
        end
      else None
  | _, _ => None
  end.

Definition version_value (v : Version) : value :=
  VObj [("major", VNum (major v)); ("minor", VNum (minor v)); ("patch", VNum (patch v))].

Definition bundleRule (policy : PolicyRow) (rule : PolicyRule) : value :=
  let d := row_draft policy in
  VObj [("policy_id", row_id policy); ("policy_version", row_version policy);
        ("source_kind", VStr (kind (source rule)));
        ("source_selector_kind", VStr (selectorKind (source rule)));
        ("source_selector_value", selectorValue (source rule));
        ("destination_kind", VStr (kind (destination rule)));
        ("destination_selector_kind", VStr (selectorKind (destination rule)));
        ("destination_selector_value", selectorValue (destination rule));
        ("action", VStr (action rule));
        ("protocols", VArr (map VStr (protocols (network d))));
        ("ports", ports (network d)); ("logging", VStr (logging d))].

Record ComposedBundleRules := mkBundleRules { bundle_rules : list value; contributors : list value }.

Fixpoint composeBundleRules (policies : list PolicyRow) : option ComposedBundleRules :=
  match policies with
  | [] => Some (mkBundleRules [] [])
  | policy :: policies =>
      match parseSemver (row_version policy) with
      | None => None
      | Some version =>
          option_map (λ rest,
            mkBundleRules (map (bundleRule policy) (rules (row_draft policy)) ++ bundle_rules rest)
              (VObj [("policy", row_id policy); ("version", version_value version)] :: contributors rest))
            (composeBundleRules policies)
      end
  end.
End compose.

(** ** Convergence *)

Inductive EndpointConvergenceState := applied | rejected | silent.
Definition state_tag (s : EndpointConvergenceState) : string :=
  match s with applied => "applied" | rejected => "rejected" | silent => "silent" end.
Definition CONVERGENCE_STATES : list EndpointConvergenceState := [applied; rejected; silent].

Record ConvergenceMemberView := mkConvergence {
  member_endpointCn : value; state : EndpointConvergenceState; reason : value }.
Record BundleConvergenceView := mkConvergenceView {
  hasBundle : value; version : value; members : list ConvergenceMemberView }.

Definition toConvergenceMember (member : value) : result (option ConvergenceMemberView) :=
  s ← get member "state";
  match narrow state_tag CONVERGENCE_STATES s with
  | None => Ok None
  | Some s =>
      r ← get member "reason";
      let r := or_else r VNull in
      let is_rejected := match s with rejected => true | _ => false end in
      if is_rejected && is_null r then Ok None
      else if negb is_rejected && negb (is_null r) then Ok None
      else cn ← get member "endpoint_cn"; Ok (Some (mkConvergence cn s r))
  end.

Definition toBundleConvergence (reply : value) : result (option BundleConvergenceView) :=
  ms ← get reply "members";
  items ← js_iterate ms;
  ms ← project_all toConvergenceMember items;
  match ms with
  | None => Ok None
  | Some ms =>
      has ← get reply "has_bundle"; v ← get reply "version";
      Ok (Some (mkConvergenceView has v ms))
  end.

(** [resolveBundleConvergence] of [engine/vtz.ts] *)
Definition resolveBundleConvergence (client : string → value → result value)
    (principal : OperatorPrincipal) (id : string) : result BundleConvergenceView :=
  reply ← awaited (bundleConvergence client principal
            (VObj [("request_id", vint 0); ("vtz_id", VStr id)]));
  view ← toBundleConvergence reply;
  or_unavailable view.

(** ** Facts *)

Lemma effective_get_last ps d : effective_get ps d = posture <$> list.last (of_domain d ps).
Proof.
  unfold effective_get, of_domain. induction ps as [|p ps IH] using rev_ind; [done|].
  rewrite list.foldl_app, list.filter_app, filter_cons, filter_nil. cbn [foldl].
  destruct (decide (domain p = d)); [by rewrite last_snoc|by rewrite app_nil_r].
Qed.

Lemma last_of_domain items entries d p :
  Forall2 narrows items entries → list.last (of_domain d entries) = Some p →
  ∃ pre x post, items = pre ++ x :: post ∧ narrows x p ∧ domain p = d ∧
    ∀ y, y ∈ post → get y "domain" ≠ Ok (VStr (domain_tag d)).
Proof.
  unfold of_domain. induction 1 as [|x q items entries Hx Hr IH]; [done|]. rewrite filter_cons.
  intros Hlast. destruct (list.last (filter (λ p, domain p = d) entries)) as [r|] eqn:Er.
  - assert (r = p) as ->.
    { destruct (decide (domain q = d)); [|congruence]. rewrite last_cons, Er in Hlast. congruence. }
    destruct IH as (pre & y & post & -> & Hy & Hd & Hp); [done|]. by exists (x :: pre), y, post.
  - destruct (decide (domain q = d)) as [Hd|]; [|congruence]. apply last_None in Er.
    rewrite Er in Hlast. injection Hlast as <-. exists [], x, items. split_and!; [done..|].
    intros y Hy. clear IH. induction Hr as [|y' q' items entries Hy' Hr IH]; [by apply elem_of_nil in Hy|].
    rewrite filter_cons in Er. destruct (decide (domain q' = d)) as [|Hne]; [done|].
    apply elem_of_cons in Hy as [->|Hy]; [|by apply IH].
    destruct Hy' as [-> _]. intros [= E]. apply Hne.
    assert (toVtzObjectDomain (VStr (domain_tag d)) = Some (domain q')) as E' by (by apply toVtzObjectDomain_iff; f_equal).
    rewrite toVtzObjectDomain_tag in E'. congruence.
Qed.

(** The posture a zone's node states for a domain: its last entry for it. *)
Definition states (node : value) (d : VtzObjectDomain) (p : VtzPosture) : Prop :=
  ∃ w items pre x post,
    get node "effective_postures" = Ok w ∧ js_iterate w = Ok items ∧ items = pre ++ x :: post ∧
    get x "domain" = Ok (VStr (domain_tag d)) ∧ get x "posture" = Ok (VStr (posture_tag p)) ∧
    ∀ y, y ∈ post → get y "domain" ≠ Ok (VStr (domain_tag d)).

Lemma posture_tag_inj p q : posture_tag p = posture_tag q → p = q.
Proof. by destruct p, q. Qed.

Lemma domain_tag_inj d d' : domain_tag d = domain_tag d' → d = d'.
Proof. by destruct d, d'. Qed.

Lemma last_unique (pre pre' post post' : list value) x x' (P : value → Prop) :
  pre ++ x :: post = pre' ++ x' :: post' → P x → P x' →
  (∀ y, y ∈ post → ¬ P y) → (∀ y, y ∈ post' → ¬ P y) → x = x'.
Proof.
  revert pre'. induction pre as [|a pre IH]; intros [|b pre'] E Hx Hx' Hp Hp'; simplify_eq/=; [done|..].
  - destruct (Hp x'); [set_solver|done].
  - destruct (Hp' x); [set_solver|done].
  - by eapply IH.
Qed.

(** The composed posture of a projected zone is the one the engine stated. *)
Lemma effective_get_states node z d p :
  toVtzZone node = Ok (Some z) →
  effective_get (effectivePostures z) d = Some p ↔ states node d p.
Proof.
  intros Hz%toVtzZone_iff. destruct Hz as (_ & _ & _ & _ & (w & Hw & items & entries & Hi & Hn & _ & Hd) & _).
  rewrite effective_get_last, Hd. split.
  - intros (q & Hq & ->)%fmap_Some.
    destruct (last_of_domain _ _ _ _ Hn Hq) as (pre & x & post & -> & (Hxd & Hxp & _) & <- & Hpost).
    by exists w, (pre ++ x :: post), pre, x, post.
  - intros (w' & items' & pre & x & post & Hw' & Hi' & -> & Hxd & Hxp & Hpost).
    rewrite Hw in Hw'. injection Hw' as <-. rewrite Hi in Hi'. injection Hi' as ->.
    destruct (list.last (of_domain d entries)) as [q|] eqn:Hq.
    + destruct (last_of_domain _ _ _ _ Hn Hq) as (pre' & x' & post' & E & (Hqd & Hqp & _) & Hdq & Hpost').
      rewrite Hdq in Hqd.
      assert (x = x') as <- by (by eapply (last_unique _ _ _ _ _ _ (λ y, get y "domain" = Ok (VStr (domain_tag d))))).
      cbn. f_equal. apply posture_tag_inj. congruence.
    + apply last_None in Hq. apply Forall2_app_inv_l in Hn as (e1 & e2 & _ & Hn & ->).
      inversion Hn as [|? q ? ? (Hqd & _) _]; subst. unfold of_domain in Hq. rewrite list.filter_app in Hq.
      apply app_nil in Hq as [_ Hq]. rewrite filter_cons_True in Hq; [done|].
      apply domain_tag_inj. congruence.
Qed.

(** One endpoint as the engine stated it: a reason precisely when it rejected. *)
Definition member_of (member : value) (m : ConvergenceMemberView) : Prop :=
  get member "state" = Ok (VStr (state_tag (state m))) ∧
  (∃ r, get member "reason" = Ok r ∧ reason m = or_else r VNull) ∧
  get member "endpoint_cn" = Ok (member_endpointCn m) ∧
  (state m = rejected ↔ reason m ≠ VNull).

Lemma state_iff v s : narrow state_tag CONVERGENCE_STATES v = Some s ↔ v = VStr (state_tag s).
Proof. apply narrow_iff. by intros []. Qed.

Lemma toConvergenceMember_iff x m : toConvergenceMember x = Ok (Some m) ↔ member_of x m.
Proof.
  unfold toConvergenceMember, member_of. split.
  - intros H. bind_step H s. destruct (narrow state_tag CONVERGENCE_STATES s) as [s'|] eqn:Hs; [|done].
    apply state_iff in Hs as ->. bind_step H r.
    destruct s', (or_else r VNull) eqn:Hr; cbn in H; try done; bind_step H cn; simplify_eq; cbn;
      split_and!; eauto; done.
  - intros (-> & (r & -> & Hr) & Hcn & Hst). cbn [mbind result_bind].
    rewrite (proj2 (state_iff _ _) eq_refl). cbn [mbind result_bind]. rewrite <- Hr, Hcn.
    destruct m as [cn s rs]. cbn in Hst |- *. destruct s, rs; cbn; try done; naive_solver.
Qed.

(** ** Properties *)

(** C24: a composed endpoint policy grants nothing the zone did not.  For a zone
    projected from an engine record, ordinary internet is allowed exactly when the
    record's effective posture for that domain is an explicit permit; every other field
    is the most restrictive value; and the record of what the bundle cannot carry lists
    each of the nine other domains with the posture the engine stated for it. *)
Theorem compose_grants_nothing node z :
  toVtzZone node = Ok (Some z) →
  let c := composeEndpointPolicy z in
  (allow_ordinary_internet (composed_policy c) = true ↔ states node ordinary_network permit_deny_risky) ∧
  composed_policy c =
    mkEndpointPolicy "Unclassified" [] [] (allow_ordinary_internet (composed_policy c)) "DenyUnwrappedExec"
      (mkBound 0 0 0 0 0 0 0) ∧
  (∀ d, d ∈ un_domain <$> unexpressedDomains c ↔ d ≠ ordinary_network ∧ d ≠ execution) ∧
  ∀ u, u ∈ unexpressedDomains c → ∀ p, un_posture u = Some p ↔ states node (un_domain u) p.
Proof.
  intros Hz c. pose proof (effective_get_states node z) as He. split_and!.
  - unfold c. cbn -[effective_get]. rewrite bool_decide_eq_true. by apply He.
  - done.
  - intros d. unfold c. cbn -[effective_get]. destruct d; set_solver.
  - intros u Hu p. unfold c in Hu. cbn [composeEndpointPolicy unexpressedDomains] in Hu.
    apply list_elem_of_In, in_map_iff in Hu as (d & <- & _). by apply He.
Qed.

(** The convergence ledger never reads silence as delivery.  The projection succeeds
    exactly when every member carries a known state and a reason precisely when it
    rejected; the members shown are the engine's, in order. *)
Theorem convergence_exact client principal id view :
  resolveBundleConvergence client principal id = Ok view ↔
  ∃ reply ms items,
    client "bundleConvergence" (VObj [("request_id", vint 0); ("vtz_id", VStr id)]) = Ok reply ∧
    get reply "members" = Ok ms ∧ js_iterate ms = Ok items ∧
    get reply "has_bundle" = Ok (hasBundle view) ∧ get reply "version" = Ok (version view) ∧
    Forall2 member_of items (members view).
Proof.
  unfold resolveBundleConvergence, awaited, toBundleConvergence, or_unavailable. cbn -[vint].
  set (r := client _ _). clearbody r. split.
  - intros H. bind_step H reply. bind_step H v. bind_step Ev ms. bind_step Ev items. bind_step Ev l.
    destruct l as [l|]; [|by simplify_eq]. bind_step Ev has. bind_step Ev ver. simplify_eq.
    exists reply, ms, items. split_and!; try done. by apply (project_all_iff _ _ _ _ toConvergenceMember_iff) in El.
  - intros (reply & ms & items & -> & Hms & Hi & Hh & Hv & Hl). cbn. rewrite Hms. cbn. rewrite Hi. cbn.
    apply (project_all_iff _ _ _ _ toConvergenceMember_iff) in Hl. rewrite Hl. cbn. rewrite Hh. cbn. rewrite Hv. cbn. by destruct view.
Qed.

Definition sample_node : value :=
  VObj [("id", VStr "Corp.Lab"); ("name", VStr "Corp.Lab"); ("parent", VStr "Corp"); ("zone_type", VStr "standard");
        ("lifecycle", VStr "published"); ("telemetry", VStr "full"); ("micro_segmentation", VBool true);
        ("reauth_interval_hours", vint 8); ("sub_zone_count", vint 0); ("own_postures", VArr []);
        ("effective_postures", VArr
           [VObj [("domain", VStr "ordinary-network"); ("posture", VStr "permit-deny-risky"); ("floor", VBool false)];
            VObj [("domain", VStr "execution"); ("posture", VStr "deny"); ("floor", VBool true)]])].

Lemma compose_grants_nothing_witness :
  ∃ z, toVtzZone sample_node = Ok (Some z) ∧
    (allow_ordinary_internet (composed_policy (composeEndpointPolicy z)) = true ↔
     states sample_node ordinary_network permit_deny_risky) ∧
    domain <$> effectivePostures z = [execution; ordinary_network].
Proof.
  eexists. split; [vm_compute; reflexivity|]. split; [|vm_compute; reflexivity].
  apply (compose_grants_nothing sample_node). vm_compute. reflexivity.
Defined.
