(* ===== verification/Distribute.v ===== *)
(** * Signing and distributing a bundle ([apps/bff/src/engine/sign-client.ts], [distribute.ts])

    The signing exchange (over [LineExchange]) and the producer
    that reads a zone, composes its bundle, has it signed and commits it.  The producer
    records the calls it makes, so that what reaches the engine can be stated.
    [JSON.parse] and [JSON.stringify] are parameters. *)
From S2P Require Import Prelude Bytes Float64 Cbor JsValue JsString LineExchange Rbac OperatorEngine Vtz VtzProofs Policies Forge.
Open Scope Z_scope.

(** ** The signing exchange *)

Record SignedBundleResult := mkSigned { signed_bundle : value; cbor : list value }.

Definition is_number (v : value) : bool := match v with VNum _ => true | _ => false end.

Section signing.
Context (JSON_parse : string → result value) (JSON_stringify : value → string).

Definition parseResponse (line : string) : result SignedBundleResult :=
  match JSON_parse line with
  | Throw _ => Throw (SigningUnavailableError "unparseable response line")
  | Ok parsed =>
      let neither := Throw (SigningUnavailableError "response is neither signed nor refused") in
      if not_object parsed then neither
      else
        is_signed ← has "signed" parsed;
        if (is_signed : bool) then
          signed ← get parsed "signed";
          c ← get signed "cbor";
          b ← get signed "bundle";
          match c with
          | VArr items =>
              if not_object b || negb (forallb is_number items)
              then Throw (SigningUnavailableError "signed response missing bundle or canonical cbor bytes")
              else Ok (mkSigned b items)
          | _ => Throw (SigningUnavailableError "signed response missing bundle or canonical cbor bytes")
          end
        else
          is_refused ← has "refused" parsed;
          if (is_refused : bool) then
            refused ← get parsed "refused";
            r ← get refused "reason";
            Throw (SigningRefusedError match r with VStr s => s | _ => "unknown" end)
          else neither
  end.

#[local] Instance sign_seam : LineSeam SignedBundleResult :=
  { parse_line := parseResponse; unavailable := SigningUnavailableError }.

(** What the socket is written when it connects. *)
Definition sign_write (draft : value) : sock_event → option string := line_write (JSON_stringify draft).

Definition signBundle (timeoutMs : Z) (events : list sock_event) : result SignedBundleResult :=
  exchange timeoutMs events.
End signing.

(** ** The producer *)

(** A call the producer makes. *)
Inductive producer_call :=
  | EngineCall (action : string) (request : value)
  | SignCall (draft : value).

(** The calls made, in order, and how the run ended. *)
Definition traced (A : Type) : Type := list producer_call * result A.

#[global] Instance traced_bind : MBind traced := λ A B f m,
  match m with
  | (t, Ok a) => let '(t', r) := f a in (t ++ t', r)
  | (t, Throw e) => (t, Throw e)
  end.

Definition lift {A} (r : result A) : traced A := ([], r).

Lemma lift_bind {A B} (r : result A) (f : A → traced B) :
  lift r ≫= f = match r with Ok a => f a | Throw e => ([], Throw e) end.
Proof. destruct r; cbn; [by destruct (f a)|done]. Qed.

Definition LEASE_WINDOW_MS : Z := 24 * 60 * 60 * 1000.

Record DistributeResult := mkDistributed {
  dist_version : value; dist_commitVersion : value; carriedRules : nat; carriedPolicies : nat;
  dist_unexpressedDomains : list UnexpressedDomain; dist_unexpressedFields : list string }.

Definition scopeMember (cn : string) : value :=
  VObj [("endpoint", VObj [("cn", VStr cn); ("sans", VArr [VStr cn])]); ("agent", VNull)].

Definition draftForZone (zone : VtzZone) (version : value) (members : list string)
    (composed : ComposedBundleRules) (nowMs : Z) : value * ComposedEndpointPolicy :=
  let record := composeEndpointPolicy zone in
  (VObj [("version", version); ("policy", policy_value (composed_policy record));
         ("rules", VArr (bundle_rules composed)); ("contributors", VArr (contributors composed));
         ("scope", VObj [("vtz", zone_id zone); ("members", VArr (map scopeMember members))]);
         ("lease", VObj [("issued_at", vint nowMs); ("not_after", vint (nowMs + LEASE_WINDOW_MS))])],
   record).

Section producer.
Context `{NumberToString}.
(** The engine's answers, and the events of the exchange a draft is sent in. *)
Context (client : string → value → result value)
  (JSON_parse : string → result value) (timeoutMs : Z) (signer : value → list sock_event).

(** [await signBundle(signer.host, signer.port, draft, signer.timeoutMs)] *)
Definition sign (draft : value) : result SignedBundleResult :=
  signBundle JSON_parse timeoutMs (signer draft).

Definition traced_client (action : string) (request : value) : traced value :=
  ([EngineCall action request], client action request).

(** [await engine.method(principal, request, opts)] *)
Definition engine_call (r : result (EngineDelegation * traced value)) : traced value :=
  match r with Ok (_, m) => m | Throw e => ([], Throw e) end.

Definition resolveDistribute (principal : OperatorPrincipal) (zoneId : string) (members : list string)
    (nowMs : Z) : traced DistributeResult :=
  wire ← engine_call (vtzDetail traced_client principal
           (VObj [("request_id", vint 0); ("vtz_id", VStr zoneId); ("operator", VNull)]));
  detail ← lift (toVtzDetail wire);
  match detail with
  | Some (mkDetail (Some zone) _ version) =>
      effective ← engine_call (policyEffective traced_client principal
                    (VObj [("request_id", vint 0); ("vtz", VStr zoneId)]));
      records ← lift (get effective "policies");
      items ← lift (js_iterate records);
      rows ← lift (project_all toPolicyRow items);
      match rows with
      | None => lift (Throw (DistributeCompositionError "an effective policy carries an unknown engine tag"))
      | Some rows =>
          match composeBundleRules rows with
          | None => lift (Throw (DistributeCompositionError "an effective policy version is unparseable"))
          | Some composed =>
              let '(bundleDraft, record) := draftForZone zone version members composed nowMs in
              signed ← ([SignCall bundleDraft], sign bundleDraft);
              ack ← engine_call (bundleCommit traced_client principal
                      (VObj [("request_id", vint 0); ("bundle", VArr (cbor signed)); ("operator", VNull)]));
              v ← lift (get ack "version");
              cv ← lift (get ack "commit_version");
              lift (Ok (mkDistributed v cv (length (bundle_rules composed)) (length (contributors composed))
                          (unexpressedDomains record) (unexpressedFields record)))
          end
      end
  | _ => lift (Throw (DistributeZoneUnknownError zoneId))
  end.
End producer.

(** ** Facts about the producer *)

Section facts.
Context `{NumberToString} (client : string → value → result value)
  (JSON_parse : string → result value) (timeoutMs : Z) (signer : value → list sock_event)
  (principal : OperatorPrincipal).
Notation sign := (sign JSON_parse timeoutMs signer).

(** The three requests the producer makes, in the operator's name. *)
Definition detail_request (zoneId : string) : value :=
  VObj [("request_id", vint 0); ("vtz_id", VStr zoneId); ("operator", plainDelegation principal)].
Definition effective_request (zoneId : string) : value :=
  VObj [("request_id", vint 0); ("vtz", VStr zoneId); ("operator", plainDelegation principal)].
Definition commit_request (bytes : list value) : value :=
  VObj [("request_id", vint 0); ("bundle", VArr bytes); ("operator", plainDelegation principal)].

(** What a composition carries: every rule of every row, in order, and one contributor
    per row. *)
Definition carries (rows : list PolicyRow) (c : ComposedBundleRules) : Prop :=
  bundle_rules c = rows ≫= (λ row, map (bundleRule row) (rules (row_draft row))) ∧
  Forall2 (λ row x, ∃ v, parseSemver (row_version row) = Some v ∧
    x = VObj [("policy", row_id row); ("version", version_value v)]) rows (contributors c).

Lemma composeBundleRules_iff rows c : composeBundleRules rows = Some c ↔ carries rows c.
Proof using.
  unfold carries. revert c. induction rows as [|row rows IH]; intros c; cbn.
  - split; [intros [= <-]; by repeat constructor|]. destruct c as [rs cs]; cbn. by intros [-> ->%Forall2_nil_inv_l].
  - destruct (parseSemver (row_version row)) as [v|] eqn:Hv; cbn.
    + destruct (composeBundleRules rows) as [c'|] eqn:Hc; cbn.
      * destruct (proj1 (IH c') eq_refl) as [Hr Hf]. split.
        -- intros [= <-]. cbn. split; [by f_equal|]. constructor; eauto.
        -- intros [Hr' Hf']. inversion Hf' as [|? x ? cs (v' & Hv' & ->) Hf'' Heq]; subst.
           assert (contributors c' = cs) as <-.
           { clear -Hf Hf''. revert cs Hf''. induction Hf as [|row x rows xs (v & Hv & ->) _ IH]; intros cs Hcs.
             - by inversion Hcs.
             - inversion Hcs as [|? y ? ys (v' & Hv' & ->) Hys]; subst. rewrite Hv in Hv'. injection Hv' as <-.
               f_equal. by apply IH. }
           destruct c as [rs cs']; cbn in *. subst. rewrite Hv in Hv'. injection Hv' as <-.
           by rewrite Hr.
      * split; [done|]. intros [_ Hf]. inversion Hf as [|? x ? cs _ Hf' Heq]; subst.
        assert (∃ c, Some c = None :> option ComposedBundleRules) as [? ?]; [|done].
        exists (mkBundleRules (rows ≫= (λ row, map (bundleRule row) (rules (row_draft row)))) cs).
        symmetry. by apply IH.
    + split; [done|]. intros [_ Hf]. inversion Hf as [|? x ? cs (v' & Hv' & _)]; subst. congruence.
Qed.

(** The facts behind a commit of [bytes]: they are what the signer returned for the
    draft of the zone and the policies the engine stated. *)
Definition produced (zoneId : string) (members : list string) (nowMs : Z)
    (draft : value) (bytes : list value) (c : ComposedBundleRules) : Prop :=
  ∃ wire node z version effective records items rows b,
    client "vtzDetail" (detail_request zoneId) = Ok wire ∧
    get wire "zone" = Ok node ∧ toVtzZone node = Ok (Some z) ∧ get wire "commit_version" = Ok version ∧
    client "policyEffective" (effective_request zoneId) = Ok effective ∧
    get effective "policies" = Ok records ∧ js_iterate records = Ok items ∧
    Forall2 (λ record row, toPolicyRow record = Ok (Some row)) items rows ∧ carries rows c ∧
    draft = (draftForZone z version members c nowMs).1 ∧ sign draft = Ok (mkSigned b bytes).

Lemma toVtzDetail_zone wire z anc version :
  toVtzDetail wire = Ok (Some (mkDetail (Some z) anc version)) →
  ∃ node, get wire "zone" = Ok node ∧ toVtzZone node = Ok (Some z) ∧ get wire "commit_version" = Ok version.
Proof using.
  unfold toVtzDetail. intros Hd. bind_step Hd node. bind_step Hd zone. destruct zone as [zone|]; [|done].
  bind_step Hd l. bind_step Hd ancs. bind_step Hd v. injection Hd as -> <- <-. exists node.
  destruct (is_nullish node); [done|]. bind_step Ezone z'. destruct z'; simplify_eq/=. done.
Qed.

(** How a run can end. *)
Inductive distribute_spec (zoneId : string) (members : list string) (nowMs : Z)
    : traced DistributeResult → Prop :=
  | distribute_stopped tr e :
      (∀ request, EngineCall "bundleCommit" request ∉ tr) →
      distribute_spec zoneId members nowMs (tr, Throw e)
  | distribute_committed draft bytes c r :
      produced zoneId members nowMs draft bytes c →
      (∀ res, r = Ok res → ∃ ack,
         client "bundleCommit" (commit_request bytes) = Ok ack ∧
         get ack "version" = Ok (dist_version res) ∧ get ack "commit_version" = Ok (dist_commitVersion res) ∧
         carriedRules res = length (bundle_rules c) ∧ carriedPolicies res = length (contributors c)) →
      distribute_spec zoneId members nowMs
        ([EngineCall "vtzDetail" (detail_request zoneId); EngineCall "policyEffective" (effective_request zoneId);
          SignCall draft; EngineCall "bundleCommit" (commit_request bytes)], r).

Lemma engine_detail zoneId :
  engine_call (vtzDetail (traced_client client) principal
    (VObj [("request_id", vint 0); ("vtz_id", VStr zoneId); ("operator", VNull)])) =
  traced_client client "vtzDetail" (detail_request zoneId).
Proof using. done. Qed.

Lemma engine_effective zoneId :
  engine_call (policyEffective (traced_client client) principal
    (VObj [("request_id", vint 0); ("vtz", VStr zoneId)])) =
  traced_client client "policyEffective" (effective_request zoneId).
Proof using. done. Qed.

Lemma engine_commit bytes :
  engine_call (bundleCommit (traced_client client) principal
    (VObj [("request_id", vint 0); ("bundle", VArr bytes); ("operator", VNull)])) =
  traced_client client "bundleCommit" (commit_request bytes).
Proof using. done. Qed.

Lemma traced_client_bind {B} action request (f : value → traced B) :
  traced_client client action request ≫= f =
  match client action request with
  | Ok v => let '(t, r) := f v in (EngineCall action request :: t, r)
  | Throw e => ([EngineCall action request], Throw e)
  end.
Proof using. done. Qed.

Lemma sign_bind {B} d (f : SignedBundleResult → traced B) :
  ([SignCall d], sign d) ≫= f =
  match sign d with
  | Ok v => let '(t, r) := f v in (SignCall d :: t, r)
  | Throw e => ([SignCall d], Throw e)
  end.
Proof using. done. Qed.

Ltac stopped :=
  apply distribute_stopped; intros request Hin;
  repeat (apply elem_of_cons in Hin as [Hin|Hin]; [discriminate Hin|]); by apply elem_of_nil in Hin.

Lemma resolveDistribute_sound zoneId members nowMs :
  distribute_spec zoneId members nowMs (resolveDistribute client JSON_parse timeoutMs signer principal zoneId members nowMs).
Proof using.
  unfold resolveDistribute. rewrite engine_detail, traced_client_bind.
  destruct (client "vtzDetail" (detail_request zoneId)) as [wire|e] eqn:Hw; [|stopped].
  rewrite lift_bind. destruct (toVtzDetail wire) as [[[[z|] anc version]|]|e] eqn:Hd; try stopped.
  apply toVtzDetail_zone in Hd as (node & Hn & Hz & Hv).
  rewrite engine_effective, traced_client_bind.
  destruct (client "policyEffective" (effective_request zoneId)) as [eff|e] eqn:He; [|stopped].
  rewrite lift_bind. destruct (get eff "policies") as [records|e] eqn:Hr; [|stopped].
  rewrite lift_bind. destruct (js_iterate records) as [items|e] eqn:Hi; [|stopped].
  rewrite lift_bind. destruct (project_all toPolicyRow items) as [[rows|]|e] eqn:Hrows; try stopped.
  destruct (composeBundleRules rows) as [c|] eqn:Hc; [|stopped].
  destruct (draftForZone z version members c nowMs) as [d record] eqn:Hdraft.
  rewrite sign_bind. destruct (sign d) as [[b bytes]|e] eqn:Hs; [|stopped].
  cbn [cbor]. rewrite engine_commit, traced_client_bind.
  assert (produced zoneId members nowMs d bytes c) as Hp.
  { exists wire, node, z, version, eff, records, items, rows, b. split_and!; try done.
    - by apply project_all_Some.
    - by apply composeBundleRules_iff.
    - by rewrite Hdraft. }
  destruct (client "bundleCommit" (commit_request bytes)) as [ack|e] eqn:Ha;
    [|by apply distribute_committed with (c := c)].
  rewrite lift_bind. destruct (get ack "version") as [v|] eqn:Hav; [|by apply distribute_committed with (c := c)].
  rewrite lift_bind. destruct (get ack "commit_version") as [cv|] eqn:Hacv;
    [|by apply distribute_committed with (c := c)].
  apply distribute_committed with (c := c); [done|]. intros res [= <-]. by exists ack.
Qed.
End facts.

(** ** Properties *)

(** C4: nothing unsigned reaches the carrier.  Whatever the engine and the signer
    answer, a bundle is committed only as the last of exactly four calls, and what is
    committed is, byte for byte, what the signer returned for the draft composed from
    the zone the engine stated and from every rule of every effective policy, none
    dropped; a reported distribution was acknowledged by the engine, with the version
    it acknowledged. *)
Theorem only_signed_bundles_committed `{NumberToString} client JSON_parse timeoutMs signer principal
    zoneId members nowMs :
  let run := resolveDistribute client JSON_parse timeoutMs signer principal zoneId members nowMs in
  (∀ request, EngineCall "bundleCommit" request ∈ run.1 →
     ∃ draft bytes c, produced client JSON_parse timeoutMs signer principal zoneId members nowMs draft bytes c ∧
       request = commit_request principal bytes ∧
       run.1 = [EngineCall "vtzDetail" (detail_request principal zoneId);
                EngineCall "policyEffective" (effective_request principal zoneId);
                SignCall draft; EngineCall "bundleCommit" request]) ∧
  (∀ res, run.2 = Ok res →
     ∃ draft bytes c ack, produced client JSON_parse timeoutMs signer principal zoneId members nowMs draft bytes c ∧
       client "bundleCommit" (commit_request principal bytes) = Ok ack ∧
       get ack "version" = Ok (dist_version res) ∧ get ack "commit_version" = Ok (dist_commitVersion res) ∧
       carriedRules res = length (bundle_rules c) ∧ carriedPolicies res = length (contributors c)).
Proof.
  intros run. unfold run. destruct (resolveDistribute_sound client JSON_parse timeoutMs signer principal zoneId members nowMs)
    as [tr e Hno|draft bytes c r Hp Hres]; cbn.
  - split; [|done]. intros request Hin. by destruct (Hno request).
  - split.
    + intros request Hin. exists draft, bytes, c.
      repeat (apply elem_of_cons in Hin as [Hin|Hin]; [try discriminate Hin|]); [|by apply elem_of_nil in Hin].
      by injection Hin as ->.
    + intros res ->. destruct (Hres res eq_refl) as (ack & ?). by exists draft, bytes, c, ack.
Qed.

(** A run that goes through: one zone, one policy, a signer that signs. *)
Definition sample_client (action : string) (request : value) : result value :=
  if bool_decide (action = "vtzDetail") then
    Ok (VObj [("zone", sample_node); ("ancestors", VArr []); ("commit_version", vint 7)])
  else if bool_decide (action = "policyEffective") then
    Ok (VObj [("policies", VArr [VObj
      [("id", VStr "p1"); ("vtz", VStr "Corp.Lab"); ("name", VStr "allow"); ("version", VStr "1.0.2");
       ("lifecycle", VStr "published"); ("description", VStr ""); ("logging", VStr "full");
       ("max_classification", VStr "internal");
       ("rules", VArr [wireRule (mkRule (mkEndpoint "user" "exact" (VStr "ada"))
                                        (mkEndpoint "uri" "glob" (VStr "*")) "permit")])]])])
  else Ok (VObj [("version", vint 7); ("commit_version", vint 8)]).

Example distribute_runs `{NumberToString} principal :
  let run := resolveDistribute sample_client
               (λ _, Ok (VObj [("signed", VObj [("bundle", VObj []); ("cbor", VArr [vint 1; vint 2])])])) 2000
               (λ _, [EvConnect; EvData [123; 125]; EvData [10]]) principal "Corp.Lab" ["host-1"] 0 in
  length run.1 = 4%nat ∧ (carriedRules <$> run.2) = Ok 1%nat ∧
  EngineCall "bundleCommit" (commit_request principal [vint 1; vint 2]) ∈ run.1.
Proof.
  intros run. split_and!; [vm_compute; reflexivity|vm_compute; reflexivity|].
  apply list_elem_of_In. do 3 right. left. vm_compute. reflexivity.
Qed.
