(* ===== verification/Sidecar.v ===== *)
(** * The other two sidecar clients ([apps/bff/src/engine/secret-client.ts], [session-client.ts])

    The connector secret is handed to the crypto sidecar, and the key exchange of the
    operator's tunnel is looked up there, over the exchange of [LineExchange]. *)
From S2P Require Import Prelude Bytes Float64 Cbor JsValue JsString LineExchange Rbac OperatorEngine Vtz Policies Forge Distribute.
Open Scope Z_scope.

Section secret.
Context (JSON_parse : string → result value) (JSON_stringify : value → string).

Definition parseSecretResponse (line : string) : result () :=
  match JSON_parse line with
  | Throw _ => Throw (SecretUnavailableError "unparseable response line")
  | Ok parsed =>
      if is_str "ok" parsed then Ok ()
      else if not_object parsed then Throw (SecretUnavailableError "response is neither ok nor refused")
      else
        is_refused ← has "refused" parsed;
        if (is_refused : bool) then
          refused ← get parsed "refused"; r ← get refused "reason";
          Throw (SecretRefusedError match r with VStr s => s | _ => "unknown" end)
        else Throw (SecretUnavailableError "response is neither ok nor refused")
  end.

#[local] Instance secret_seam : LineSeam () :=
  { parse_line := parseSecretResponse; unavailable := SecretUnavailableError }.

Definition secret_write (provider secret : string) : sock_event → option string :=
  line_write (JSON_stringify (VObj [("provider", VStr provider); ("secret", VStr secret)])).

Definition setConnectorSecret (timeoutMs : Z) (events : list sock_event) : result () := exchange timeoutMs events.
End secret.

Section session.
Context (JSON_parse : string → result value) (JSON_stringify : value → string).

(** [None] is the group [null]: no live tunnel uses the port. *)
Definition parseSessionResponse (line : string) : result (option string) :=
  match JSON_parse line with
  | Throw _ => Throw (SessionLookupError "unparseable response line")
  | Ok parsed =>
      if not_object parsed then Throw (SessionLookupError "response carries no group")
      else
        has_group ← has "group" parsed; group ← get parsed "group";
        match has_group, group with
        | true, VNull => Ok None
        | true, VStr g => Ok (Some g)
        | _, _ =>
            has_error ← has "error" parsed;
            if (has_error : bool) then Throw (SessionLookupError "the sidecar refused the lookup")
            else Throw (SessionLookupError "response carries no group")
        end
  end.

#[local] Instance session_seam : LineSeam (option string) :=
  { parse_line := parseSessionResponse; unavailable := SessionLookupError }.

Definition session_write (remotePort : Z) : sock_event → option string :=
  line_write (JSON_stringify (VObj [("port", vint remotePort)])).

Definition lookupSessionGroup (timeoutMs : Z) (events : list sock_event) : result (option string) :=
  exchange timeoutMs events.
End session.

(** ** What a client takes for a success *)

Lemma secret_ok JSON_parse line : parseSecretResponse JSON_parse line = Ok () ↔ JSON_parse line = Ok (VStr "ok").
Proof.
  unfold parseSecretResponse. destruct (JSON_parse line) as [parsed|]; [|done].
  destruct (is_str "ok" parsed) eqn:E; [apply is_str_iff in E as ->; done|].
  split; [|intros [= ->]; done]. destruct (not_object parsed); [done|].
  intros ([] & _ & E')%bind_Ok; [|done]. by apply bind_Ok in E' as (r & _ & (x & _ & ?)%bind_Ok).
Qed.

Lemma session_ok JSON_parse line g :
  parseSessionResponse JSON_parse line = Ok g →
  ∃ ps, JSON_parse line = Ok (VObj ps) ∧ obj_get ps "group" = Some (match g with Some s => VStr s | None => VNull end).
Proof.
  unfold parseSessionResponse. destruct (JSON_parse line) as [parsed|]; [|done].
  destruct (not_object parsed); [done|]. intros (h & Hh & (v & Hv & E)%bind_Ok)%bind_Ok.
  assert (h = true ∧ v = match g with Some s => VStr s | None => VNull end) as [-> ->].
  { destruct h, v; try (by injection E as <-); by (apply bind_Ok in E as ([] & _ & E)). }
  destruct parsed as [| | | | | | | | | |ps]; try discriminate Hh. cbn in Hh, Hv.
  exists ps. split; [done|]. destruct (obj_get ps "group"); [by injection Hv as ->|done].
Qed.

(** The three sidecar seams fail closed.  The signer, the secret store and the session
    lookup each yield a value only if the first complete line received, before any error or
    close of the socket, is a well-formed response; an ASCII response is read the same
    however the stream cuts it into chunks and whatever follows it; an exchange in which
    neither a line nor an end of the connection arrives ends with the timer, as the client's
    own error.  A secret counts as stored only for the answer ["ok"], and the group of a
    session is the one the response object carries. *)
Theorem sidecar_seams JSON_parse timeoutMs :
  fails_closed (seam := sign_seam JSON_parse) (signBundle JSON_parse timeoutMs)
    (SigningUnavailableError ("timeout after " +:+ pretty timeoutMs +:+ "ms")) ∧
  fails_closed (seam := secret_seam JSON_parse) (setConnectorSecret JSON_parse timeoutMs)
    (SecretUnavailableError ("timeout after " +:+ pretty timeoutMs +:+ "ms")) ∧
  fails_closed (seam := session_seam JSON_parse) (lookupSessionGroup JSON_parse timeoutMs)
    (SessionLookupError ("timeout after " +:+ pretty timeoutMs +:+ "ms")) ∧
  (∀ line, parseSecretResponse JSON_parse line = Ok () ↔ JSON_parse line = Ok (VStr "ok")) ∧
  (∀ line g, parseSessionResponse JSON_parse line = Ok g →
     ∃ ps, JSON_parse line = Ok (VObj ps) ∧ obj_get ps "group" = Some (match g with Some s => VStr s | None => VNull end)).
Proof.
  split; [exact (exchange_fails_closed (seam := sign_seam JSON_parse) timeoutMs)|].
  split; [exact (exchange_fails_closed (seam := secret_seam JSON_parse) timeoutMs)|].
  split; [exact (exchange_fails_closed (seam := session_seam JSON_parse) timeoutMs)|].
  split; [exact (secret_ok JSON_parse)|exact (session_ok JSON_parse)].
Qed.
