(* ===== verification/ReverseDns.v ===== *)
(** * Reverse DNS ([apps/bff/src/engine/reverse-dns.ts])

    The cached, background PTR resolver as a state machine.  A read answers from the
    cache and starts a batch for what is missing; each batch keeps a few lookups
    running, and a lookup that settles lets its worker take the next address.  The PTR
    answers and the clock are arguments of the steps. *)
From S2P Require Import Prelude Bytes JsString.
From stdpp Require Import list.
Open Scope Z_scope.

(** ** Endpoints *)

Fixpoint all_digits (s : string) : bool :=
  match s with EmptyString => true | String c s => in_range 48 57 (byte_of_ascii c) && all_digits s end.

(** [\d{1,3}] *)
Definition octet_text (s : string) : bool :=
  all_digits s && (1 <=? String.length s)%nat && (String.length s <=? 3)%nat.

(** [/^(\d{1,3}(?:\.\d{1,3}){3}):\d+$/.exec(address)], its first group *)
Definition ipv4_port (address : string) : option (string * string) :=
  match cut_at (ascii_of_byte 58) address with
  | Some (ip, port) =>
      let octets := split_on (ascii_of_byte 46) ip in
      if (length octets =? 4)%nat && forallb octet_text octets
         && all_digits port && negb (bool_decide (port = ""))
      then Some (ip, port) else None
  | None => None
  end.

Definition ipOf (address : string) : string :=
  match ipv4_port address with Some (ip, _) => ip | None => address end.

(** ** State *)

Record CacheEntry := mkCacheEntry { entry_name : option string; resolvedAtMs : Z }.

(** One call of [resolveInBackground]: what it resolves, the next index a worker takes,
    and the lookups its workers await. *)
Record batch := mkBatch { pending : list string; cursor : nat; running : list string }.

Record resolver := mkResolver {
  dns_cache : list (string * CacheEntry); inflight : list string; batches : list batch }.

Definition dns_init : resolver := mkResolver [] [] [].

(** [[...new Set(ips)]] *)
Fixpoint dedupe (seen : list string) (ips : list string) : list string :=
  match ips with
  | [] => []
  | ip :: ips => if decide (ip ∈ seen) then dedupe seen ips else ip :: dedupe (ip :: seen) ips
  end.

(** [names.find((n) => n.trim().length > 0)?.trim()], a failed lookup being a miss *)
Definition lookupOne (reply : result (list string)) : option string :=
  match reply with
  | Ok names => trim <$> List.find (λ n, negb (bool_decide (trim n = ""))) names
  | Throw _ => None
  end.

Section resolver.
Context (ttlMs maxConcurrent : Z).

(** One address of a read, at the time the clock shows. *)
Definition read_one (cache : list (string * CacheEntry)) (acc : list (string * string) * list string)
    (query : string * Z) : list (string * string) * list string :=
  let '(names, toResolve) := acc in
  let '(address, now) := query in
  let ip := ipOf address in
  match map_get cache ip with
  | Some entry =>
      if now - resolvedAtMs entry <? ttlMs
      then (match entry_name entry with Some n => map_set names address n | None => names end, toResolve)
      else (names, toResolve ++ [ip])
  | None => (names, toResolve ++ [ip])
  end.

(** Up to its first await: the addresses are marked, the workers each take one. *)
Definition resolveInBackground (st : resolver) (ips : list string) : resolver :=
  let pending := filter (λ ip, ip ∉ inflight st) (dedupe [] ips) in
  let workers := Nat.min (Z.to_nat maxConcurrent) (length pending) in
  mkResolver (dns_cache st) (inflight st ++ pending)
    (batches st ++ [mkBatch pending workers (take workers pending)]).

Definition namesFor (st : resolver) (queries : list (string * Z)) : resolver * list (string * string) :=
  let '(names, toResolve) := foldl (read_one (dns_cache st)) ([], []) queries in
  (match toResolve with [] => st | _ => resolveInBackground st toResolve end, names).

(** A worker of a batch resumes with the answer for [ip] and takes the next address. *)
Definition worker_next (b : batch) (ip : string) : batch :=
  mkBatch (pending b) (S (cursor b))
    (filter (λ x, x ≠ ip) (running b) ++ match pending b !! cursor b with Some x => [x] | None => [] end).

Definition lookup_settled (st : resolver) (i : nat) (ip : string) (reply : result (list string)) (now : Z)
    : option resolver :=
  match batches st !! i with
  | Some b =>
      if decide (ip ∈ running b) then
        Some (mkResolver (map_set (dns_cache st) ip (mkCacheEntry (lookupOne reply) now))
                (filter (λ x, x ≠ ip) (inflight st)) (<[i := worker_next b ip]> (batches st)))
      else None
  | None => None
  end.

Inductive dns_op :=
  | Read (queries : list (string * Z))
  | Settle (i : nat) (ip : string) (reply : result (list string)) (now : Z).

(** [None] when the operation is not enabled: no such lookup is running. *)
Definition dns_step (st : resolver) (op : dns_op) : option resolver :=
  match op with
  | Read queries => Some (namesFor st queries).1
  | Settle i ip reply now => lookup_settled st i ip reply now
  end.

Fixpoint dns_run (st : resolver) (ops : list dns_op) : option resolver :=
  match ops with
  | [] => Some st
  | op :: ops => st ← dns_step st op; dns_run st ops
  end.

(** ** The invariant *)

(** What a batch has still to resolve. *)
Definition unfinished (b : batch) : list string := running b ++ drop (cursor b) (pending b).

Definition batch_ok (b : batch) : Prop :=
  (length (running b) ≤ Z.to_nat maxConcurrent)%nat ∧
  (drop (cursor b) (pending b) ≠ [] → length (running b) = Z.to_nat maxConcurrent).

Definition dns_ok (st : resolver) : Prop :=
  NoDup (inflight st) ∧ inflight st ≡ₚ batches st ≫= unfinished ∧ Forall batch_ok (batches st).

Lemma dedupe_spec seen ips :
  NoDup (dedupe seen ips) ∧ ∀ x, x ∈ dedupe seen ips ↔ x ∈ ips ∧ x ∉ seen.
Proof using.
  revert seen. induction ips as [|ip ips IH]; intros seen; cbn; [split; [constructor|set_solver]|].
  destruct (decide (ip ∈ seen)) as [Hin|Hin].
  - destruct (IH seen) as [Hn He]. split; [done|]. intros x. rewrite He. set_solver.
  - destruct (IH (ip :: seen)) as [Hn He]. split.
    + constructor; [|done]. rewrite He. set_solver.
    + intros x. rewrite elem_of_cons, He. destruct (decide (x = ip)); set_solver.
Qed.

Lemma resolveInBackground_ok st ips : dns_ok st → dns_ok (resolveInBackground st ips).
Proof using.
  intros (Hn & Hp & Hb). unfold resolveInBackground.
  set (p := filter (λ ip, ip ∉ inflight st) (dedupe [] ips)).
  set (w := Nat.min (Z.to_nat maxConcurrent) (length p)).
  assert (NoDup p) as Hp' by apply NoDup_filter, dedupe_spec.
  split_and!; cbn.
  - apply NoDup_app. split_and!; [done| |done]. intros x Hx Hx'.
    apply list_elem_of_filter in Hx' as [? _]. done.
  - rewrite bind_app, <- Hp. apply Permutation_app_head. cbn. unfold unfinished. cbn.
    by rewrite app_nil_r, take_drop.
  - apply Forall_app. split; [done|]. constructor; [|constructor]. unfold batch_ok. cbn.
    rewrite length_take. split; [lia|]. intros Hd.
    destruct (decide (length p ≤ w)%nat) as [Hle|]; [by rewrite drop_ge in Hd|lia].
Qed.

Lemma namesFor_ok st queries : dns_ok st → dns_ok (namesFor st queries).1.
Proof using.
  intros H. unfold namesFor. destruct (foldl _ _ _) as [names [|ip ips]]; cbn [fst]; [done|].
  by apply resolveInBackground_ok.
Qed.

Lemma filter_ne (x : string) (l : list string) : x ∉ l → filter (λ y, y ≠ x) l = l.
Proof using.
  induction l as [|y l IH]; intros Hx; [done|]. rewrite filter_cons_True by set_solver.
  f_equal. apply IH. set_solver.
Qed.

Lemma filter_ne_perm (x : string) (l : list string) : NoDup l → x ∈ l → l ≡ₚ x :: filter (λ y, y ≠ x) l.
Proof using.
  induction 1 as [|y l Hy Hl IH]; intros Hx; [by apply elem_of_nil in Hx|].
  destruct (decide (y = x)) as [->|Hne].
  - rewrite filter_cons_False by naive_solver. by rewrite filter_ne.
  - rewrite filter_cons_True by done. rewrite Permutation_swap. constructor. apply IH. set_solver.
Qed.

Lemma unfinished_next b ip :
  NoDup (running b) → ip ∈ running b → unfinished b ≡ₚ ip :: unfinished (worker_next b ip).
Proof using.
  intros Hn Hin. unfold unfinished, worker_next. cbn. rewrite (filter_ne_perm ip (running b)) at 1 by done.
  cbn. constructor. rewrite <- app_assoc. apply Permutation_app_head.
  destruct (pending b !! cursor b) as [x|] eqn:Hx.
  - by rewrite (drop_S _ _ _ Hx).
  - apply lookup_ge_None in Hx. rewrite !drop_ge by lia. done.
Qed.

Lemma worker_next_ok b ip :
  NoDup (running b) → ip ∈ running b → batch_ok b → batch_ok (worker_next b ip).
Proof using.
  intros Hn Hin [Hle Heq]. pose proof (filter_ne_perm ip (running b) Hn Hin) as Hf%Permutation_length.
  unfold batch_ok, worker_next in *. cbn in Hf |- *. rewrite length_app.
  destruct (pending b !! cursor b) as [x|] eqn:Hx; cbn.
  - rewrite (drop_S _ _ _ Hx) in Heq. specialize (Heq ltac:(done)). split; intros; lia.
  - apply lookup_ge_None in Hx. rewrite drop_ge by lia. split; [lia|done].
Qed.

Lemma lookup_settled_ok st i ip reply now st' :
  dns_ok st → lookup_settled st i ip reply now = Some st' →
  dns_ok st' ∧ inflight st ≡ₚ ip :: inflight st' ∧ ip ∉ inflight st'.
Proof using.
  intros (Hn & Hp & Hb) Hs. unfold lookup_settled in Hs.
  destruct (batches st !! i) as [b|] eqn:Hi; [|done]. destruct (decide (ip ∈ running b)) as [Hin|]; [|done].
  injection Hs as <-. cbn.
  set (others := (take i (batches st) ++ drop (S i) (batches st)) ≫= unfinished).
  assert (∀ b', (take i (batches st) ++ b' :: drop (S i) (batches st)) ≫= unfinished ≡ₚ unfinished b' ++ others) as Hmid.
  { intros b'. unfold others. rewrite !bind_app. cbn.
    rewrite !app_assoc. apply Permutation_app_tail, Permutation_app_comm. }
  assert (batches st = take i (batches st) ++ b :: drop (S i) (batches st)) as Hbs by by rewrite take_drop_middle.
  assert (inflight st ≡ₚ unfinished b ++ others) as Hinf by by rewrite Hp, Hbs at 1; apply Hmid.
  assert (NoDup (unfinished b ++ others)) as Hnu by by rewrite <- Hinf.
  assert (NoDup (running b)) as Hnr.
  { apply NoDup_app in Hnu as [Hnu _]. by apply NoDup_app in Hnu as [? _]. }
  rewrite (unfinished_next b ip Hnr Hin) in Hinf, Hnu. cbn in Hinf, Hnu. apply NoDup_cons in Hnu as [Hnot Hnu].
  assert (filter (λ x, x ≠ ip) (inflight st) ≡ₚ unfinished (worker_next b ip) ++ others) as Hfin.
  { rewrite Hinf. rewrite filter_cons_False by naive_solver. by rewrite filter_ne. }
  split_and!.
  - split_and!; cbn.
    + by apply NoDup_filter.
    + rewrite Hfin. rewrite insert_take_drop by by eapply lookup_lt_Some. by rewrite Hmid.
    + apply Forall_insert; [done|]. apply worker_next_ok; [done..|]. by eapply Forall_lookup_1.
  - by rewrite Hfin, Hinf.
  - by rewrite Hfin.
Qed.

Lemma dns_step_ok st op st' : dns_ok st → dns_step st op = Some st' → dns_ok st'.
Proof using.
  intros Hok. destruct op; cbn.
  - intros [= <-]. by apply namesFor_ok.
  - intros Hs. by eapply lookup_settled_ok.
Qed.

Lemma dns_run_ok ops st st' : dns_ok st → dns_run st ops = Some st' → dns_ok st'.
Proof using.
  revert st. induction ops as [|op ops IH]; intros st Hok; cbn; [by intros [= <-]|].
  intros (st1 & Hs & Hr)%bind_Some. eapply IH; [|done]. by eapply dns_step_ok.
Qed.

Lemma dns_init_ok : dns_ok dns_init.
Proof using. split_and!; constructor. Qed.
End resolver.

(** ** History of the cache *)

Section history.
Context (ttlMs maxConcurrent : Z).
Notation step := (dns_step ttlMs maxConcurrent).
Notation run := (dns_run ttlMs maxConcurrent).

Lemma dns_run_snoc st ops op : run st (ops ++ [op]) = run st ops ≫= λ s, step s op.
Proof using.
  revert st. induction ops as [|o ops IH]; intros st; cbn.
  - by destruct (step st op).
  - destruct (step st o) as [s|]; cbn; [apply IH|done].
Qed.

(** The operation does not settle a lookup of [ip]. *)
Definition not_settling (ip : string) (op : dns_op) : Prop :=
  match op with Settle _ ip' _ _ => ip' ≠ ip | Read _ => True end.

(** An entry is the answer of the last lookup of its address. *)
Definition last_answer (ops : list dns_op) (ip : string) (e : CacheEntry) : Prop :=
  ∃ pre i reply t0 post, ops = pre ++ Settle i ip reply t0 :: post ∧
    Forall (not_settling ip) post ∧ e = mkCacheEntry (lookupOne reply) t0.

Lemma last_answer_snoc ops ip e op :
  last_answer ops ip e → not_settling ip op → last_answer (ops ++ [op]) ip e.
Proof using.
  intros (pre & i & reply & t0 & post & -> & Hp & ->) Hop. exists pre, i, reply, t0, (post ++ [op]).
  rewrite <- app_assoc. split_and!; [done| |done]. apply Forall_app. by repeat constructor.
Qed.

Lemma namesFor_cache st queries : dns_cache (namesFor ttlMs maxConcurrent st queries).1 = dns_cache st.
Proof using. unfold namesFor. by destruct (foldl _ _ _) as [names []]. Qed.

Lemma cache_history ops st ip e :
  run dns_init ops = Some st → map_get (dns_cache st) ip = Some e → last_answer ops ip e.
Proof using.
  revert st. induction ops as [|op ops IH] using rev_ind; intros st; [by intros [= <-]|].
  rewrite dns_run_snoc. intros (s & Hs & Hstep)%bind_Some He. destruct op as [queries|i ip' reply now].
  - injection Hstep as <-. rewrite namesFor_cache in He. apply last_answer_snoc; [by eapply IH|done].
  - unfold dns_step, lookup_settled in Hstep. destruct (batches s !! i); [|done].
    destruct (decide (ip' ∈ running _)); [|done]. injection Hstep as <-. cbn in He.
    destruct (decide (ip' = ip)) as [->|Hne].
    + rewrite map_get_set in He. injection He as <-. exists ops, i, reply, now, []. by repeat constructor.
    + rewrite map_get_set_ne in He by done. apply last_answer_snoc; [by eapply IH|done].
Qed.

Lemma read_names cache queries names tr address n :
  map_get (foldl (read_one ttlMs cache) (names, tr) queries).1 address = Some n →
  map_get names address = Some n ∨
  ∃ now e, (address, now) ∈ queries ∧ map_get cache (ipOf address) = Some e ∧
    entry_name e = Some n ∧ now - resolvedAtMs e < ttlMs.
Proof using.
  revert names tr. induction queries as [|[a now] queries IH]; intros names tr; cbn; [auto|].
  destruct (map_get cache (ipOf a)) as [e|] eqn:He;
    [destruct (Z.ltb_spec (now - resolvedAtMs e) ttlMs); [destruct (entry_name e) as [m|] eqn:Hm|]|];
    intros [Hn|(now' & e' & Hin & ?)]%IH;
    try (by left); try (right; exists now', e'; split; [by right|done]).
  destruct (decide (a = address)) as [->|Hne].
  - rewrite map_get_set in Hn. injection Hn as ->. right. exists now, e. split; [by left|done].
  - rewrite map_get_set_ne in Hn by done. by left.
Qed.
End history.

Lemma lookupOne_spec reply n :
  lookupOne reply = Some n → ∃ names m, reply = Ok names ∧ m ∈ names ∧ n = trim m ∧ n ≠ "".
Proof.
  destruct reply as [names|]; [|done]. cbn. intros (m & Hm & ->)%fmap_Some.
  apply find_some in Hm as [Hin Hne]. exists names, m. split_and!; [done|by apply list_elem_of_In|done|].
  by apply negb_true_iff, bool_decide_eq_false in Hne.
Qed.

Lemma resolve_one maxConcurrent st a :
  1 ≤ maxConcurrent → a ∉ inflight st →
  resolveInBackground maxConcurrent st [a] =
  mkResolver (dns_cache st) (inflight st ++ [a]) (batches st ++ [mkBatch [a] 1 [a]]).
Proof.
  intros Hm Ha. unfold resolveInBackground.
  assert (filter (λ ip, ip ∉ inflight st) (dedupe [] [a]) = [a]) as ->.
  { change (dedupe [] [a]) with [a]. by rewrite filter_cons_True. }
  by assert (Nat.min (Z.to_nat maxConcurrent) (length [a]) = 1%nat) as -> by (cbn; lia).
Qed.

(** ** Properties *)

(** Background lookups are disjoint, bounded per read and always progress.  In every
    reachable state no address is looked up twice at once, no batch runs more lookups
    than configured, some lookup is running while any address waits, and each answer
    removes exactly its address from those in flight and is cached: every address asked
    for is resolved after finitely many answers. *)
Theorem lookups_progress ttlMs maxConcurrent ops st :
  dns_run ttlMs maxConcurrent dns_init ops = Some st →
  NoDup (batches st ≫= running) ∧
  Forall (λ b, length (running b) ≤ Z.to_nat maxConcurrent)%nat (batches st) ∧
  (1 ≤ maxConcurrent → inflight st ≠ [] → ∃ i b ip, batches st !! i = Some b ∧ ip ∈ running b) ∧
  (∀ i b ip reply now, batches st !! i = Some b → ip ∈ running b →
     ∃ st', lookup_settled st i ip reply now = Some st' ∧ inflight st ≡ₚ ip :: inflight st' ∧
       ip ∉ inflight st' ∧ map_get (dns_cache st') ip = Some (mkCacheEntry (lookupOne reply) now)).
Proof.
  intros Hr. pose proof (dns_run_ok _ _ _ _ _ (dns_init_ok maxConcurrent) Hr) as Hok.
  pose proof Hok as (Hn & Hp & Hb). split_and!.
  - rewrite Hp in Hn. eapply sublist_NoDup; [exact Hn|]. clear. induction (batches st) as [|b bs IH]; [done|].
    cbn. apply sublist_app; [|done]. apply sublist_inserts_r. done.
  - eapply Forall_impl; [exact Hb|]. by intros b [? _].
  - intros Hm Hne. destruct (inflight st) as [|ip ips] eqn:Hi; [done|].
    assert (ip ∈ batches st ≫= unfinished) as (b & Hu & Hin)%list_elem_of_bind by (rewrite <- Hp; by left).
    apply list_elem_of_lookup in Hin as [i Hbi]. rewrite Forall_lookup in Hb. destruct (Hb _ _ Hbi) as [_ Hd].
    destruct (running b) as [|x r] eqn:Hrun; [|exists i, b, x; rewrite Hrun; split; [done|by left]].
    unfold unfinished in Hu. rewrite Hrun in Hu. cbn in Hu, Hd. destruct (drop (cursor b) (pending b)); [by apply elem_of_nil in Hu|].
    specialize (Hd ltac:(done)). lia.
  - intros i b ip reply now Hi Hin.
    assert (∃ st', lookup_settled st i ip reply now = Some st' ∧
      map_get (dns_cache st') ip = Some (mkCacheEntry (lookupOne reply) now)) as (st' & Hs & Hg).
    { unfold lookup_settled. rewrite Hi, decide_True by done. eexists. split; [done|]. apply map_get_set. }
    exists st'. pose proof (lookup_settled_ok _ _ _ _ _ _ _ Hok Hs) as (_ & ? & ?). done.
Qed.

(** A name shown for a destination is never made up or stale.  Whatever reads and
    answers came before, a name returned for an address is the trimmed, non-empty first
    usable PTR name of the last answer for its IP, and that answer is younger than the
    configured lifetime. *)
Theorem names_fresh ttlMs maxConcurrent ops st queries address n :
  dns_run ttlMs maxConcurrent dns_init ops = Some st →
  map_get (namesFor ttlMs maxConcurrent st queries).2 address = Some n →
  ∃ pre i names m t0 post now,
    ops = pre ++ Settle i (ipOf address) (Ok names) t0 :: post ∧
    Forall (not_settling (ipOf address)) post ∧
    m ∈ names ∧ n = trim m ∧ n ≠ "" ∧ (address, now) ∈ queries ∧ now - t0 < ttlMs.
Proof.
  intros Hr Hn. unfold namesFor in Hn.
  pose proof (read_names ttlMs (dns_cache st) queries [] [] address n) as Hread.
  destruct (foldl _ _ _) as [names tr]. cbn in Hn, Hread.
  destruct (Hread Hn) as [|(now & e & Hin & He & Hname & Hage)]; [done|].
  destruct (cache_history _ _ _ _ _ _ Hr He) as (pre & i & reply & t0 & post & -> & Hp & ->).
  cbn in Hname, Hage. apply lookupOne_spec in Hname as (ns & m & -> & Hm & -> & Hne).
  by exists pre, i, ns, m, t0, post, now.
Qed.

(** The concurrency bound is per read, not overall: reads of distinct new addresses
    each start a batch of their own, so any number of lookups can run at once, whatever
    the configured maximum. *)
Theorem overlapping_reads_unbounded ttlMs maxConcurrent addresses :
  1 ≤ maxConcurrent → NoDup addresses → Forall (λ a, ipOf a = a) addresses →
  ∃ st, dns_run ttlMs maxConcurrent dns_init (map (λ a, Read [(a, 0)]) addresses) = Some st ∧
    batches st ≫= running = addresses.
Proof.
  intros Hm Hn Ha.
  assert (∃ st, dns_run ttlMs maxConcurrent dns_init (map (λ a, Read [(a, 0)]) addresses) = Some st ∧
    batches st ≫= running = addresses ∧ dns_cache st = [] ∧ inflight st = addresses) as (st & ? & ? & _); [|by exists st].
  induction addresses as [|a addresses IH] using rev_ind; [by exists dns_init|].
  apply NoDup_app in Hn as (Hn & Hdis & _). apply Forall_app in Ha as [Ha Ha'].
  inversion Ha' as [|? ? Hip _]; subst.
  destruct (IH Hn Ha) as (st & Hr & Hrun & Hc & Hi). rewrite map_app. cbn [map]. rewrite dns_run_snoc, Hr. cbn.
  unfold namesFor. cbn -[resolveInBackground]. rewrite Hc, Hip. cbn -[resolveInBackground].
  rewrite resolve_one; [|done|by intros Hx; rewrite Hi in Hx; eapply Hdis; [exact Hx|left]].
  eexists. split; [done|]. cbn. by rewrite bind_app, Hrun, Hc, Hi.
Qed.

Lemma lookups_progress_witness :
  NoDup (["10.0.0.1"] : list string) ∧ ∃ st, dns_run 1000 8 dns_init [Read [("10.0.0.1:443", 0)]] = Some st ∧
    NoDup (batches st ≫= running).
Proof.
  split; [apply NoDup_singleton|]. eexists. split; [vm_compute; reflexivity|].
  refine (proj1 (lookups_progress 1000 8 [Read [("10.0.0.1:443", 0)]] _ _)). vm_compute. reflexivity.
Defined.

Lemma names_fresh_witness :
  ∃ pre i names m t0 post now,
    [Read [("10.0.0.1:443", 0)]; Settle 0 "10.0.0.1" (Ok ["lb.example.org "]) 5]
      = pre ++ Settle i (ipOf "10.0.0.1:443") (Ok names) t0 :: post ∧
    Forall (not_settling (ipOf "10.0.0.1:443")) post ∧
    m ∈ names ∧ "lb.example.org" = trim m ∧ "lb.example.org" ≠ "" ∧
    ("10.0.0.1:443", now) ∈ [("10.0.0.1:443", 9)] ∧ now - t0 < 1000.
Proof.
  eapply (names_fresh 1000 8); [vm_compute; reflexivity|vm_compute; reflexivity].
Defined.

Lemma overlapping_reads_unbounded_witness :
  ∃ st, dns_run 1000 1 dns_init (map (λ a, Read [(a, 0)]) ["10.0.0.1"; "10.0.0.2"; "10.0.0.3"]) = Some st ∧
    batches st ≫= running = ["10.0.0.1"; "10.0.0.2"; "10.0.0.3"].
Proof.
  apply overlapping_reads_unbounded; [lia| |].
  - repeat constructor; set_solver.
  - repeat constructor.
Defined.
