(* ===== verification/Bindings.v ===== *)
(** * The binding registry ([packages/bindings/src/manifest.ts], [validate.ts])

    What every rendered value and every control is bound to: one entry per operation,
    [live] or [pending], a command [audited] or naming its audit gap; the structural
    rules and the release gate over such a registry. *)
From S2P Require Import Prelude Bytes JsString.
Open Scope Z_scope.

Inductive EngineSurface := cruciblql | admin | torch | forge | console.

Inductive BindingStatus :=
  | live
  | pending (owningRepo gatingTask : string).

Inductive CommandAudit :=
  | audited
  | unaudited (auditGap : string).

Inductive Binding :=
  | ReadBinding (id : string) (surface : EngineSurface) (op viewModel : string) (status : BindingStatus)
  | CommandBinding (id : string) (surface : EngineSurface) (op authz : string) (audit : CommandAudit)
      (status : BindingStatus).

Definition binding_id (b : Binding) : string :=
  match b with ReadBinding id _ _ _ _ | CommandBinding id _ _ _ _ _ => id end.
Definition binding_op (b : Binding) : string :=
  match b with ReadBinding _ _ op _ _ | CommandBinding _ _ op _ _ _ => op end.
Definition binding_status (b : Binding) : BindingStatus :=
  match b with ReadBinding _ _ _ _ s | CommandBinding _ _ _ _ _ s => s end.
Definition is_command (b : Binding) : bool :=
  match b with CommandBinding _ _ _ _ _ _ => true | _ => false end.

Definition isPending (binding : Binding) : bool :=
  match binding_status binding with pending _ _ => true | live => false end.

(** [b.kind === 'command' && !b.audited] *)
Definition unaudited_command (b : Binding) : bool :=
  match b with CommandBinding _ _ _ _ (unaudited _) _ => true | _ => false end.

(** ** The registry *)

Definition entityReads : list Binding :=
  [ReadBinding "entity.header" cruciblql "list_agents_v1" "HeaderView" live;
   ReadBinding "entity.info" cruciblql "list_agents_v1" "EntityInfoView" live;
   ReadBinding "entity.zones" forge "entity_zones_v1" "ZonesView" (pending "forge" "Forge VTZ membership store + a queryable read surface (not in crdb today)");
   ReadBinding "entity.effectivePolicies" forge "entity_effective_policies_v1" "EffectivePoliciesView" (pending "forge" "Forge effective-policy resolution as a queryable read surface (not in crdb today)");
   ReadBinding "entity.recentDecisions" cruciblql "entity_decisions_v1" "RecentDecisionsView" live;
   ReadBinding "entity.capabilities" cruciblql "agent_capabilities_v1" "CapabilitiesView" live].

Definition entityCommands : list Binding :=
  [CommandBinding "entity.isolate" cruciblql "entity_isolate_v1" "operator:contain" audited live;
   CommandBinding "entity.reassignZone" forge "entity_reassign_zone_v1" "operator:vtz.reassign" audited (pending "forge" "IP-CONSOLE-12 DR.5 / IP-CONSOLE-02: Forge VTZ membership-change command");
   CommandBinding "entity.remediation" forge "entity_remediation_v1" "operator:remediation.view" audited (pending "forgecentral" "IP-CONSOLE-07 AIOps Workflows surface");
   CommandBinding "entity.fullReport" cruciblql "entity_full_report_v1" "operator:report.view" audited (pending "forgecentral" "IP-CONSOLE-08 Reports surface")].

Definition logReads : list Binding :=
  [ReadBinding "logs.query" cruciblql "log_query_v1" "LogPage" live;
   ReadBinding "logs.explain" cruciblql "log_explain_v1" "LogDetailView" live;
   ReadBinding "logs.tail" cruciblql "log_tail_v1" "LogPage" (pending "crdb" "IP-CONSOLE-READINESS Part B (bounded decision SUBSCRIBE push stream)")].

Definition logCommands : list Binding :=
  [CommandBinding "logs.export" cruciblql "log_export_v1" "operator:logs.export" audited live].

Definition overviewReads : list Binding :=
  [ReadBinding "overview.graph" cruciblql "connectivity_graph_v1" "OverviewSankey" live;
   ReadBinding "overview.entityConnections" cruciblql "entity_connections_v1" "ConnectionList" live;
   ReadBinding "overview.members" cruciblql "connectivity_members_v1" "OverviewMemberList" live;
   ReadBinding "overview.live" cruciblql "overview_live_v1" "OverviewSankey" (pending "crdb" "IP-CONSOLE-READINESS Part B (bounded connectivity SUBSCRIBE push stream)")].

Definition vtzReads : list Binding :=
  [ReadBinding "vtz.tree" cruciblql "vtz_tree_v1" "VtzTree" live;
   ReadBinding "vtz.detail" cruciblql "vtz_detail_v1" "VtzDetailView" live;
   ReadBinding "vtz.riskBand" cruciblql "connectivity_graph_v1" "OverviewRiskBand" live;
   ReadBinding "vtz.memberCounts" cruciblql "vtz_member_counts_v1" "VtzMemberCounts" (pending "crdb" "IP-CONSOLE-VTZ-SUBSTRATE VtzSetMembership (zone-membership substrate, TRD-CONSOLE-12)");
   ReadBinding "vtz.policyCount" cruciblql "vtz_policy_count_v1" "VtzPolicyCount" (pending "forgecentral" "IP-CONSOLE-02: derive the per-zone count from POLICY_LIST_BY_ZONE (not wired)")].

Definition vtzCommands : list Binding :=
  [CommandBinding "vtz.create" cruciblql "vtz_create_v1" "operator:vtz.author" audited live;
   CommandBinding "vtz.edit" cruciblql "vtz_edit_v1" "operator:vtz.author" audited live;
   CommandBinding "vtz.rescope" cruciblql "vtz_rescope_v1" "operator:vtz.author" audited live;
   CommandBinding "vtz.delete" cruciblql "vtz_delete_v1" "operator:vtz.author" audited live;
   CommandBinding "vtz.setMembership" cruciblql "vtz_set_membership_v1" "operator:vtz.reassign" audited (pending "crdb" "IP-CONSOLE-VTZ-SUBSTRATE VtzSetMembership (zone-membership substrate, TRD-CONSOLE-12)")].

Definition usersReads : list Binding :=
  [ReadBinding "users.list" cruciblql "list_principals_v1" "PrincipalRow" live;
   ReadBinding "users.detail" cruciblql "list_principals_v1" "PrincipalRow" live;
   ReadBinding "groups.list" cruciblql "list_groups_v1" "GroupCard" live;
   ReadBinding "groups.detail" cruciblql "list_groups_v1" "GroupCard" live;
   ReadBinding "idam.connectors" cruciblql "idam_connectors_v1" "IdamConnector" live].

Definition usersCommands : list Binding :=
  [CommandBinding "users.create" cruciblql "principal_create_v1" "operator:users.manage" audited live;
   CommandBinding "users.edit" cruciblql "principal_edit_v1" "operator:users.manage" audited live;
   CommandBinding "users.setStatus" cruciblql "principal_set_status_v1" "operator:users.manage" audited live;
   CommandBinding "groups.create" cruciblql "group_create_v1" "operator:users.manage" audited live;
   CommandBinding "groups.edit" cruciblql "group_edit_v1" "operator:users.manage" audited live;
   CommandBinding "groups.setMembers" cruciblql "group_set_members_v1" "operator:users.manage" audited live;
   CommandBinding "idam.configure" cruciblql "idam_configure_v1" "operator:users.manage" (unaudited "CD-15: IDAM_CONFIGURE changes in-memory connector state, writes no audit record, and reverts at an engine restart") live;
   CommandBinding "idam.connect" cruciblql "idam_connect_v1" "operator:users.manage" (unaudited "CD-15: IDAM_CONNECT re-spawns the in-memory connector, writes no audit record, and reverts at an engine restart") live;
   CommandBinding "idam.sync" cruciblql "idam_sync_v1" "operator:users.manage" (unaudited "CD-15: IDAM_SYNC queues a directory sync and writes no audit record") live;
   CommandBinding "idam.secret" console "idam_secret_set_v1" "operator:users.manage" (unaudited "CD-01: the secret write needs only a session, has no engine authorization, and writes no audit record") live].

Definition objectReads : list Binding :=
  [ReadBinding "objects.list" cruciblql "object_list_v1" "ObjectCard" live;
   ReadBinding "objects.detail" cruciblql "object_detail_v1" "ObjectDetailView" live;
   ReadBinding "objects.governingPolicies" forge "object_governing_policies_v1" "GoverningPoliciesView" (pending "crdb" "TRD-CONSOLE-05 Policy surface (object -> governing-policy resolution)")].

Definition objectCommands : list Binding :=
  [CommandBinding "objects.create" cruciblql "object_create_v1" "operator:objects.manage" audited live;
   CommandBinding "objects.edit" cruciblql "object_edit_v1" "operator:objects.manage" audited live;
   CommandBinding "objects.delete" cruciblql "object_delete_v1" "operator:objects.manage" audited live].

Definition policyReads : list Binding :=
  [ReadBinding "policies.byZone" cruciblql "policy_list_by_zone_v1" "PolicyZoneGroup" live;
   ReadBinding "policies.detail" cruciblql "policy_detail_v1" "PolicyDetailView" live;
   ReadBinding "policies.convergence" cruciblql "bundle_convergence_v1" "BundleConvergenceView" live;
   ReadBinding "policies.enforcement" torch "policy_enforcement_status_v1" "PolicyEnforcementStatus" (pending "torch" "IP-TORCH-POLICY-ENFORCE (host realization of schedule/geo/port rules; AG.7-OFF)")].

Definition policyCommands : list Binding :=
  [CommandBinding "policies.create" cruciblql "policy_create_v1" "operator:policies.author" audited live;
   CommandBinding "policies.edit" cruciblql "policy_edit_v1" "operator:policies.author" audited live;
   CommandBinding "policies.publish" cruciblql "policy_publish_v1" "operator:policies.author" audited live;
   CommandBinding "policies.delete" cruciblql "policy_delete_v1" "operator:policies.author" audited live;
   CommandBinding "policies.distribute" forge "bundle_commit_v1" "operator:policies.author" audited live].

Definition socReads : list Binding :=
  [ReadBinding "soc.incidents" cruciblql "soc_incident_list_v1" "SocIncidentRow" live;
   ReadBinding "soc.incident.detail" cruciblql "soc_incident_detail_v1" "SocIncidentDetail" live;
   ReadBinding "soc.narrative" cruciblql "soc_narrative_v1" "VerdictNarrative" live;
   ReadBinding "soc.plan.propose" cruciblql "soc_incident_detail_v1" "ResponseStep" live;
   ReadBinding "soc.telemetry.raw" cruciblql "soc_incident_telemetry_v1" "IncidentTelemetry" live;
   ReadBinding "soc.audit.trail" cruciblql "soc_incident_audit_v1" "IncidentActRow" live;
   ReadBinding "soc.notes" cruciblql "soc_incident_notes_v1" "IncidentNote" live;
   ReadBinding "soc.impact" cruciblql "soc_incident_impact_v1" "BusinessImpact" live;
   ReadBinding "soc.kpis" cruciblql "detect_summary_v1" "SocKpis" live;
   ReadBinding "soc.report" cruciblql "soc_incident_report_v1" "SocReport" live;
   ReadBinding "soc.weekly" cruciblql "soc_weekly_summary_v1" "SocWeekly" live].

Definition socCommands : list Binding :=
  [CommandBinding "soc.cognition.run" cruciblql "soc_cognition_run_v1" "operator:soc.respond" audited live;
   CommandBinding "soc.plan.approve" cruciblql "soc_plan_approve_v1" "operator:soc.respond" audited live;
   CommandBinding "soc.plan.modify" cruciblql "soc_plan_modify_v1" "operator:soc.respond" audited live;
   CommandBinding "soc.case.assign" cruciblql "soc_incident_act_v1" "operator:soc.respond" audited live;
   CommandBinding "soc.case.ack" cruciblql "soc_incident_act_v1" "operator:soc.respond" audited live;
   CommandBinding "soc.case.note" cruciblql "soc_incident_act_v1" "operator:soc.respond" audited live;
   CommandBinding "soc.case.close" cruciblql "soc_incident_act_v1" "operator:soc.respond" audited live;
   CommandBinding "soc.disposition" cruciblql "soc_incident_disposition_v1" "operator:soc.respond" audited live].

Definition settingsReads : list Binding :=
  [ReadBinding "settings.read" cruciblql "settings_read_v1" "SettingsView" live;
   ReadBinding "settings.reports" cruciblql "settings_reports_v1" "SettingsReportsView" live;
   ReadBinding "settings.modelAccess" cruciblql "model_access_read_v1" "ModelAccessView" live;
   ReadBinding "settings.approvals" cruciblql "settings_approvals_v1" "PendingProposal" live;
   ReadBinding "settings.history" cruciblql "settings_history_v1" "SettingsHistoryView" live;
   ReadBinding "soc.settings.read" cruciblql "soc_settings_read_v1" "SocSettings" live;
   ReadBinding "settings.consoleRbac" console "console_rbac_config_v1" "ConsoleRbacView" live;
   ReadBinding "settings.securitySession" console "admin_session_lookup_v1" "AdminSessionKx" live].

Definition settingsCommands : list Binding :=
  [CommandBinding "settings.commit" cruciblql "settings_commit_v1" "operator:settings.change" audited live;
   CommandBinding "settings.propose" cruciblql "settings_propose_v1" "operator:settings.change" audited live;
   CommandBinding "settings.approve" cruciblql "settings_approve_v1" "operator:settings.change" audited live;
   CommandBinding "settings.rollback" cruciblql "settings_rollback_v1" "operator:settings.change" audited live;
   CommandBinding "settings.modelAccessGrant" cruciblql "agent_grant_set_v1" "operator:settings.change" audited live;
   CommandBinding "soc.settings.commit" cruciblql "soc_settings_commit_v1" "operator:settings.change" audited live].

Abbreviation BindingManifest := (list (string * Binding)).

(** [target[entry.id] = entry] for every entry; no id is an array index, so the keys
    keep their insertion order. *)
Definition register (target : BindingManifest) (entries : list Binding) : BindingManifest :=
  foldl (λ t entry, map_set t (binding_id entry) entry) target entries.

Definition bindings : BindingManifest :=
  foldl register []
    [entityReads; entityCommands; logReads; logCommands; overviewReads; vtzReads; vtzCommands;
     usersReads; usersCommands; objectReads; objectCommands; policyReads; policyCommands;
     socReads; socCommands; settingsReads; settingsCommands].

(** ** The rules *)

Record BindingViolation := mkViolation { violating : string; problem : string }.

(** [/^(mock|fixture|stub):/i.test(op)] *)
Definition MOCK_OP (op : string) : bool :=
  existsb (startsWith (toLowerCase op)) ["mock:"; "fixture:"; "stub:"].

Definition violation (c : bool) (key problem : string) : list BindingViolation :=
  if c then [mkViolation key problem] else [].

(** The violations of one entry, in the order they are pushed. *)
Definition entry_violations (entry : string * Binding) : list BindingViolation :=
  let '(key, binding) := entry in
  violation (negb (bool_decide (binding_id binding = key))) key
    ("manifest key '" +:+ key +:+ "' does not match binding id '" +:+ binding_id binding +:+ "'") ++
  violation (bool_decide (trim (binding_op binding) = "")) key "binding has an empty op" ++
  violation (MOCK_OP (binding_op binding)) key
    ("op '" +:+ binding_op binding +:+ "' names a mock/fixture provider") ++
  violation (match binding with
             | CommandBinding _ _ _ _ (unaudited gap) _ => bool_decide (gap = "") || bool_decide (trim gap = "")
             | _ => false
             end) key "command binding must be audited, or name its tracked audit gap" ++
  violation (match binding_status binding with
             | pending repo task => bool_decide (repo = "") || bool_decide (task = "")
             | live => false
             end) key "PENDING binding must name its owning repo and gating task (INV-CROSS)".

Definition validateManifest (manifest : BindingManifest) : list BindingViolation :=
  manifest ≫= entry_violations.

(** The names a rule lists, as one problem. *)
Definition listed (p : Binding → bool) (message : string) (manifest : BindingManifest) : list string :=
  match List.filter p (map snd manifest) with
  | [] => []
  | bs => [message +:+ join ", " (map binding_id bs)]
  end.

Definition newline_indent : string := String (ascii_of_byte 10) "  ".

Definition assertReleaseReady (manifest : BindingManifest) : result unit :=
  let problems :=
    map (λ v, violating v +:+ ": " +:+ problem v) (validateManifest manifest) ++
    listed isPending "PENDING bindings must not ship in a release build: " manifest ++
    listed unaudited_command "unaudited commands must not ship in a release build: " manifest in
  match problems with
  | [] => Ok tt
  | _ => Throw (Error ("INV-CONSOLE-NO-STUB violated:" +:+ newline_indent +:+ join newline_indent problems))
  end.

(** ** What the rules accept *)

(** An entry under its own id, with a real operation, a command that is audited or
    says what is missing, and a deferral that names who owes the work. *)
Record well_formed (key : string) (b : Binding) : Prop := {
  wf_key : binding_id b = key;
  wf_op : trim (binding_op b) ≠ "";
  wf_real : MOCK_OP (binding_op b) = false;
  wf_audit : ∀ gap, (∃ i s o a st, b = CommandBinding i s o a (unaudited gap) st) → trim gap ≠ "";
  wf_status : ∀ repo task, binding_status b = pending repo task → repo ≠ "" ∧ task ≠ ""
}.

Lemma violation_nil c key p : violation c key p = [] ↔ c = false.
Proof. by destruct c. Qed.

Lemma entry_violations_nil key b : entry_violations (key, b) = [] ↔ well_formed key b.
Proof.
  unfold entry_violations. rewrite !app_nil, !violation_nil, negb_false_iff, bool_decide_eq_true, bool_decide_eq_false.
  split.
  - intros (Hk & Hop & Hm & Ha & Hs). split; [done..| |].
    + intros gap (i & s & o & a & st & ->). apply orb_false_iff in Ha as [_ Ha]. by apply bool_decide_eq_false in Ha.
    + intros repo task E. rewrite E in Hs. apply orb_false_iff in Hs as [Hr Ht].
      by apply bool_decide_eq_false in Hr, Ht.
  - intros [Hk Hop Hm Ha Hs]. split_and!; [done..| |].
    + destruct b as [|i s o a [|gap] st]; [done..|]. specialize (Ha gap). apply orb_false_iff.
      assert (trim gap ≠ "") as Hg by (apply Ha; eauto 10). split; apply bool_decide_eq_false; [|done].
      by intros ->.
    + destruct (binding_status b) as [|repo task]; [done|]. destruct (Hs repo task eq_refl).
      by rewrite !bool_decide_false.
Qed.

Lemma bind_nil {A B} (f : A → list B) (l : list A) : l ≫= f = [] ↔ ∀ x, x ∈ l → f x = [].
Proof.
  induction l as [|x l IH]; [set_solver|]. change ((x :: l) ≫= f) with (f x ++ (l ≫= f)).
  rewrite app_nil, IH. set_solver.
Qed.

Lemma validateManifest_nil m : validateManifest m = [] ↔ ∀ k b, (k, b) ∈ m → well_formed k b.
Proof.
  unfold validateManifest. rewrite bind_nil. split.
  - intros H k b Hin. by apply entry_violations_nil, (H (k, b)).
  - intros H [k b] Hin. by apply entry_violations_nil, H.
Qed.

Lemma listed_nil p msg m : listed p msg m = [] ↔ ∀ k b, (k, b) ∈ m → p b = false.
Proof.
  unfold listed. induction m as [|[k b] m IH]; cbn; [set_solver|].
  destruct (p b) eqn:Hp.
  - split; [done|]. intros H. specialize (H k b). rewrite Hp in H. by discriminate H; left.
  - rewrite IH. split; [|set_solver]. intros H k' b' [E|Hin]%elem_of_cons; [by simplify_eq|by apply (H k')].
Qed.

Lemma release_iff m :
  assertReleaseReady m = Ok tt ↔
  ∀ k b, (k, b) ∈ m → well_formed k b ∧ isPending b = false ∧ unaudited_command b = false.
Proof.
  unfold assertReleaseReady. cbv zeta. set (problems := map _ _ ++ _ ++ _).
  transitivity (problems = []); [by destruct problems|]. subst problems.
  rewrite !app_nil, !listed_nil. transitivity (validateManifest m = [] ∧
    (∀ k b, (k, b) ∈ m → isPending b = false) ∧ ∀ k b, (k, b) ∈ m → unaudited_command b = false).
  { split; intros (H & ? & ?); split_and!; try done; [by destruct (validateManifest m)|by rewrite H]. }
  rewrite validateManifest_nil. naive_solver.
Qed.

(** The release gate is exact, and the registry passes the rules that always hold
    but not the gate.  A manifest is released exactly when every entry stands under its
    own id with a real, non-mock operation, no entry is pending and no command is
    unaudited; the registry of the source satisfies every structural rule, and is
    refused for release, because of the deferrals it names. *)
Theorem release_gate_exact :
  (∀ m, assertReleaseReady m = Ok tt ↔
     ∀ k b, (k, b) ∈ m → well_formed k b ∧ isPending b = false ∧ unaudited_command b = false) ∧
  (∀ k b, (k, b) ∈ bindings → well_formed k b) ∧
  assertReleaseReady bindings ≠ Ok tt.
Proof.
  split_and!; [exact release_iff| |].
  - apply validateManifest_nil. by vm_compute.
  - by vm_compute.
Qed.
