(* ===== verification/Routes.v ===== *)
(** * The route table ([apps/bff/src/routes.ts])

    The declared [/api] routes with the bindings they realize, the compilation of a path
    template, and the verdict on a request. *)
From S2P Require Import Prelude Bytes JsString Bindings.
Open Scope Z_scope.

Inductive ApiMethod := GET | POST | PUT | DELETE.
Definition method_name (m : ApiMethod) : string :=
  match m with GET => "GET" | POST => "POST" | PUT => "PUT" | DELETE => "DELETE" end.
#[global] Instance ApiMethod_eq_dec : EqDecision ApiMethod.
Proof. solve_decision. Defined.

Record ApiRoute := mkRoute { route_method : ApiMethod; route_path : string; route_bindings : list string }.
#[global] Instance ApiRoute_eq_dec : EqDecision ApiRoute.
Proof. solve_decision. Defined.

#[local] Notation r := mkRoute.

Definition API_ROUTES : list ApiRoute :=
  [r GET "/api/entity/:kind/:id+" ["entity.header"; "entity.info"; "entity.recentDecisions"; "entity.capabilities"; "objects.detail"];
   r POST "/api/entity/:kind/:id+/isolate" ["entity.isolate"];
   r GET "/api/logs" ["logs.query"];
   r GET "/api/logs/explain/:id+" ["logs.explain"];
   r POST "/api/logs/export" ["logs.export"];
   r GET "/api/overview/sankey" ["overview.graph"; "vtz.riskBand"];
   r GET "/api/overview/entity-connections" ["overview.entityConnections"];
   r GET "/api/overview/members" ["overview.members"];
   r GET "/api/vtz/tree" ["vtz.tree"];
   r GET "/api/vtz/detail" ["vtz.detail"];
   r GET "/api/vtz/convergence" ["policies.convergence"];
   r POST "/api/vtz" ["vtz.create"];
   r PUT "/api/vtz/:id" ["vtz.edit"];
   r DELETE "/api/vtz/:id" ["vtz.delete"];
   r POST "/api/vtz/:id/rescope" ["vtz.rescope"];
   r POST "/api/vtz/:id/distribute" ["policies.distribute"];
   r GET "/api/users" ["users.list"; "users.detail"];
   r GET "/api/users/groups" ["groups.list"; "groups.detail"];
   r POST "/api/users" ["users.create"];
   r POST "/api/users/edit" ["users.edit"];
   r POST "/api/users/status" ["users.setStatus"];
   r POST "/api/users/groups" ["groups.create"];
   r POST "/api/users/groups/edit" ["groups.edit"];
   r POST "/api/users/groups/members" ["groups.setMembers"];
   r GET "/api/idam/connectors" ["idam.connectors"];
   r POST "/api/idam/sync" ["idam.sync"];
   r POST "/api/idam/connect" ["idam.connect"];
   r POST "/api/idam/secret" ["idam.secret"];
   r POST "/api/idam/configure" ["idam.configure"];
   r GET "/api/objects" ["objects.list"];
   r GET "/api/objects/detail" ["objects.detail"];
   r POST "/api/objects" ["objects.create"];
   r POST "/api/objects/edit" ["objects.edit"];
   r POST "/api/objects/delete" ["objects.delete"];
   r GET "/api/policies" ["policies.byZone"];
   r GET "/api/policies/detail" ["policies.detail"];
   r POST "/api/policies" ["policies.create"];
   r POST "/api/policies/edit" ["policies.edit"];
   r POST "/api/policies/publish" ["policies.publish"];
   r POST "/api/policies/delete" ["policies.delete"];
   r GET "/api/soc/kpis" ["soc.kpis"];
   r GET "/api/soc/incidents" ["soc.incidents"];
   r GET "/api/soc/incident" ["soc.incident.detail"; "soc.plan.propose"];
   r GET "/api/soc/narrative" ["soc.narrative"];
   r GET "/api/soc/telemetry" ["soc.telemetry.raw"];
   r GET "/api/soc/audit" ["soc.audit.trail"];
   r GET "/api/soc/notes" ["soc.notes"];
   r GET "/api/soc/impact" ["soc.impact"];
   r GET "/api/soc/report" ["soc.report"];
   r GET "/api/soc/weekly" ["soc.weekly"];
   r POST "/api/soc/plan/approve" ["soc.plan.approve"];
   r POST "/api/soc/plan/modify" ["soc.plan.modify"];
   r POST "/api/soc/generate" ["soc.cognition.run"];
   r POST "/api/soc/act" ["soc.case.assign"; "soc.case.ack"; "soc.case.note"; "soc.case.close"];
   r POST "/api/soc/disposition" ["soc.disposition"];
   r GET "/api/settings" ["settings.read"];
   r POST "/api/settings" ["settings.commit"];
   r GET "/api/settings/console-rbac" ["settings.consoleRbac"];
   r GET "/api/settings/reports" ["settings.reports"];
   r GET "/api/model-access" ["settings.modelAccess"];
   r PUT "/api/model-access/grant" ["settings.modelAccessGrant"];
   r GET "/api/settings/security-session" ["settings.securitySession"];
   r POST "/api/settings/propose" ["settings.propose"];
   r GET "/api/settings/approvals" ["settings.approvals"];
   r POST "/api/settings/approvals/:proposal/approve" ["settings.approve"];
   r GET "/api/settings/history" ["settings.history"];
   r POST "/api/settings/rollback" ["settings.rollback"];
   r GET "/api/settings/soc" ["soc.settings.read"];
   r POST "/api/settings/soc" ["soc.settings.commit"]].

(** ** Path templates *)

Definition slash : Ascii.ascii := ascii_of_byte 47.

(** The classes a template compiles to: [[^/]] and [.], which excludes the line
    terminators (a request target has none beyond ASCII). *)
Inductive char_class := not_slash | any_char.
Definition in_class (p : char_class) (c : Ascii.ascii) : bool :=
  match p with
  | not_slash => negb (Ascii.eqb c slash)
  | any_char => negb (Ascii.eqb c (ascii_of_byte 10) || Ascii.eqb c (ascii_of_byte 13))
  end.

(** One atom of the compiled expression: a literal character, or a class with [+]. *)
Inductive atom := Lit (c : Ascii.ascii) | Plus (p : char_class).

Fixpoint literal (s : string) : list atom :=
  match s with EmptyString => [] | String c s => Lit c :: literal s end.

Definition segment_pattern (segment : string) : list atom :=
  if startsWith segment ":" && endsWith segment "+" then [Plus any_char]
  else if startsWith segment ":" then [Plus not_slash]
  else literal segment.

(** [parts.join('/')] *)
Fixpoint join_patterns (parts : list (list atom)) : list atom :=
  match parts with
  | [] => []
  | [p] => p
  | p :: parts => p ++ Lit slash :: join_patterns parts
  end.

Definition templatePattern (template : string) : list atom :=
  join_patterns (map segment_pattern (split_on slash template)).

(** [pattern.test(path)], anchored at both ends *)
Fixpoint test (pattern : list atom) : string → bool :=
  match pattern with
  | [] => λ path, bool_decide (path = "")
  | Lit c :: pattern => λ path,
      match path with String d path => Ascii.eqb c d && test pattern path | EmptyString => false end
  | Plus p :: pattern =>
      fix more path :=
        match path with
        | String d path => in_class p d && (test pattern path || more path)
        | EmptyString => false
        end
  end.

Inductive RouteVerdict := declared | method | undeclared.

Fixpoint verdict_loop (pathMatched : bool) (routes : list ApiRoute) (m path : string) : RouteVerdict :=
  match routes with
  | [] => if pathMatched then method else undeclared
  | route :: routes =>
      if negb (test (templatePattern (route_path route)) path) then verdict_loop pathMatched routes m path
      else if bool_decide (method_name (route_method route) = m) then declared
      else verdict_loop true routes m path
  end.

Definition apiRouteVerdict (m path : string) : RouteVerdict := verdict_loop false API_ROUTES m path.

(** ** What a template means *)

Fixpoint all_in (p : char_class) (s : string) : bool :=
  match s with EmptyString => true | String c s => in_class p c && all_in p s end.

(** What a segment of a template stands for. *)
Definition segment_is (segment part : string) : Prop :=
  if startsWith segment ":" && endsWith segment "+" then part ≠ "" ∧ all_in any_char part = true
  else if startsWith segment ":" then part ≠ "" ∧ no_char slash part = true
  else part = segment.

Definition path_is (template path : string) : Prop :=
  ∃ parts, Forall2 segment_is (split_on slash template) parts ∧ path = join "/" parts.

Lemma test_literal l ps path : test (literal l ++ ps) path = true ↔ ∃ rest, path = l +:+ rest ∧ test ps rest = true.
Proof.
  revert path. induction l as [|c l IH]; intros path; cbn [literal app].
  - split; [by exists path|]. by intros (rest & -> & H).
  - destruct path as [|d path]; cbn [test].
    + split; [done|]. intros (rest & E & _). by rewrite str_app_cons in E.
    + rewrite andb_true_iff, IH. destruct (Ascii.eqb_spec c d) as [->|Hne]; split.
      * intros [_ (rest & -> & H)]. exists rest. by rewrite str_app_cons.
      * intros (rest & E & H). rewrite str_app_cons in E. injection E as ->. eauto.
      * by intros [? _].
      * intros (rest & E & H). rewrite str_app_cons in E. by injection E as -> ->.
Qed.

Lemma test_plus p ps path :
  test (Plus p :: ps) path = true ↔ ∃ part rest, path = part +:+ rest ∧ part ≠ "" ∧ all_in p part = true ∧ test ps rest = true.
Proof.
  induction path as [|d path IH].
  - split; [done|]. intros (part & rest & E & Hne & _). by destruct part.
  - change (test (Plus p :: ps) (String d path)) with (in_class p d && (test ps path || test (Plus p :: ps) path)).
    rewrite andb_true_iff, orb_true_iff, IH. split.
    + intros [Hd [H|(part & rest & -> & Hne & Hall & H)]].
      * exists (String d ""), path. cbn. by rewrite Hd.
      * exists (String d part), rest. cbn. by rewrite Hd, str_app_cons.
    + intros (part & rest & E & Hne & Hall & H). destruct part as [|d' part]; [done|].
      rewrite str_app_cons in E. injection E as <- ->. cbn in Hall. apply andb_prop in Hall as [Hd Hall].
      split; [done|]. destruct part as [|e part]; [left; by rewrite str_nil_app|right].
      by exists (String e part), rest.
Qed.

Lemma all_in_not_slash s : all_in not_slash s = no_char slash s.
Proof. induction s as [|c s IH]; cbn; [done|]. by rewrite IH. Qed.

(** A segment followed by the rest of the pattern. *)
Lemma test_segment seg ps path :
  test (segment_pattern seg ++ ps) path = true ↔
  ∃ part rest, path = part +:+ rest ∧ segment_is seg part ∧ test ps rest = true.
Proof.
  unfold segment_pattern, segment_is. destruct (startsWith seg ":"); cbn [andb].
  - destruct (endsWith seg "+"); cbn [app]; rewrite test_plus;
      split; intros (part & rest & H); exists part, rest; rewrite ?all_in_not_slash in *; naive_solver.
  - rewrite test_literal. split; [intros (rest & ? & ?); by exists seg, rest|].
    intros (part & rest & -> & -> & H). eauto.
Qed.

Lemma test_slash ps path : test (Lit slash :: ps) path = true ↔ ∃ rest, path = String slash rest ∧ test ps rest = true.
Proof.
  cbn [test]. destruct path as [|d path]; [split; [done|by intros (? & ? & _)]|].
  rewrite andb_true_iff. destruct (Ascii.eqb_spec slash d) as [<-|Hne]; [naive_solver|].
  split; [by intros [? _]|]. intros (rest & [= -> ->] & _). done.
Qed.

Lemma join_cons2 x y ys : join "/" (x :: y :: ys) = x +:+ String slash (join "/" (y :: ys)).
Proof. done. Qed.

Lemma test_segments segs path :
  segs ≠ [] → test (join_patterns (map segment_pattern segs)) path = true ↔
  ∃ parts, Forall2 segment_is segs parts ∧ path = join "/" parts.
Proof.
  revert path. induction segs as [|s segs IH]; intros path Hne; [done|]. destruct segs as [|s' segs].
  - cbn [map join_patterns]. rewrite <- (app_nil_r (segment_pattern s)), test_segment. split.
    + intros (part & rest & -> & Hs & H). cbn in H. apply bool_decide_eq_true in H as ->.
      exists [part]. split; [by repeat constructor|]. cbn. by rewrite str_app_nil.
    + intros (parts & HF & ->). inversion HF as [|? p ? ps Hs Hps]; subst. inversion Hps; subst.
      exists p, "". cbn. by rewrite str_app_nil.
  - change (join_patterns (map segment_pattern (s :: s' :: segs)))
      with (segment_pattern s ++ Lit slash :: join_patterns (map segment_pattern (s' :: segs))).
    rewrite test_segment. setoid_rewrite test_slash. split.
    + intros (part & rest & -> & Hs & rest' & -> & H). apply IH in H as (parts & HF & ->); [|done].
      exists (part :: parts). split; [by constructor|]. inversion HF; subst. by rewrite join_cons2.
    + intros (parts & HF & ->). inversion HF as [|? p ? ps Hs Hps]; subst.
      inversion Hps as [|? p' ? ps' ? ?]; subst. rewrite join_cons2. exists p, (String slash (join "/" (p' :: ps'))).
      split_and!; [done..|]. exists (join "/" (p' :: ps')). split; [done|]. apply IH; [done|]. eauto.
Qed.

(** The compiled expression accepts exactly the paths the template means. *)
Lemma templatePattern_exact template path : test (templatePattern template) path = true ↔ path_is template path.
Proof. apply test_segments. intros E. pose proof (split_on_nonempty slash template) as H. rewrite E in H. cbn in H. lia. Qed.

(** ** Verdicts *)

Definition route_serves (route : ApiRoute) (m path : string) : Prop :=
  path_is (route_path route) path ∧ method_name (route_method route) = m.

Lemma verdict_loop_spec matched routes m path :
  match verdict_loop matched routes m path with
  | declared => ∃ route, route ∈ routes ∧ route_serves route m path
  | method => (∀ route, route ∈ routes → ¬ route_serves route m path) ∧
              (matched = true ∨ ∃ route, route ∈ routes ∧ path_is (route_path route) path)
  | undeclared => matched = false ∧ ∀ route, route ∈ routes → ¬ path_is (route_path route) path
  end.
Proof.
  revert matched. induction routes as [|x routes IH]; intros matched; cbn.
  - destruct matched; set_solver.
  - destruct (test _ path) eqn:Ht; cbn [negb].
    + apply templatePattern_exact in Ht. case_bool_decide as Hm; [exists x; split; [set_solver|done]|].
      specialize (IH true). unfold route_serves in *. destruct (verdict_loop true routes m path).
      * destruct IH as (route & ? & ?). exists route. set_solver.
      * destruct IH as [H _]. split; [|right; exists x; set_solver].
        intros route [->|Hin]%elem_of_cons; [by intros [_ ?]|auto].
      * by destruct IH.
    + assert (¬ path_is (route_path x) path) as Hno.
      { intros H%templatePattern_exact. by rewrite Ht in H. }
      specialize (IH matched). unfold route_serves in *. destruct (verdict_loop matched routes m path).
      * destruct IH as (route & ? & ?). exists route. set_solver.
      * destruct IH as [H Hor]. split; [|naive_solver set_solver].
        intros route [->|Hin]%elem_of_cons; [by intros [? _]|auto].
      * destruct IH as [-> H]. split; [done|]. intros route [->|Hin]%elem_of_cons; auto.
Qed.

(** What each verdict says, over any table. *)
Lemma verdict_iff routes m path :
  (verdict_loop false routes m path = declared ↔ ∃ route, route ∈ routes ∧ route_serves route m path) ∧
  (verdict_loop false routes m path = method ↔
     (∃ route, route ∈ routes ∧ path_is (route_path route) path) ∧
     ∀ route, route ∈ routes → ¬ route_serves route m path) ∧
  (verdict_loop false routes m path = undeclared ↔ ∀ route, route ∈ routes → ¬ path_is (route_path route) path).
Proof.
  pose proof (verdict_loop_spec false routes m path) as H. unfold route_serves in *.
  destruct (verdict_loop false routes m path).
  - destruct H as (x & Hx & Hp & Hm). split_and!; split; try done; [eauto| |].
    + intros [_ Hno]. by destruct (Hno x).
    + intros Hno. by destruct (Hno x).
  - destruct H as [Hno [H|H]]; [done|]. split_and!; split; try done.
    + intros (x & Hx & Hs). by destruct (Hno x).
    + intros Hu. destruct H as (x & Hx & Hp). by destruct (Hu x).
  - destruct H as [_ Hu]. split_and!; split; try done.
    + intros (x & Hx & Hp & _). by destruct (Hu x).
    + intros [(x & Hx & Hp) _]. by destruct (Hu x).
Qed.

(** ** No two routes serve one request *)

Definition is_var (segment : string) : bool := startsWith segment ":".
Definition is_plus (segment : string) : bool := is_var segment && endsWith segment "+".

(** Two templates that no path satisfies both of, read off their segments. *)
Fixpoint disjoint (a b : list string) : bool :=
  match a, b with
  | s :: a, t :: b =>
      if is_plus s || is_plus t then false
      else (negb (is_var s) && negb (is_var t) && negb (bool_decide (s = t))) ||
           match a, b with
           | [], [] => false
           | [], _ | _, [] => true
           | _, _ => disjoint a b
           end
  | _, _ => false
  end.

Lemma segment_no_slash seg part :
  is_plus seg = false → no_char slash seg = true → segment_is seg part → no_char slash part = true.
Proof.
  unfold segment_is, is_plus, is_var. intros -> Hn. destruct (startsWith seg ":"); [by intros [_ ?]|by intros ->].
Qed.

Lemma cut_both p q rest rest' :
  no_char slash p = true → no_char slash q = true → p +:+ String slash rest = q +:+ String slash rest' → p = q ∧ rest = rest'.
Proof.
  intros Hp Hq E. pose proof (cut_at_first slash p rest Hp) as H. rewrite E, cut_at_first in H by done. by injection H.
Qed.

Lemma no_cut p q rest : no_char slash p = true → p ≠ q +:+ String slash rest.
Proof. intros Hp ->. rewrite no_char_app in Hp. cbn in Hp. by rewrite andb_false_r in Hp. Qed.

Lemma disjoint_sound a b ps qs :
  disjoint a b = true → Forall (λ s, no_char slash s = true) a → Forall (λ s, no_char slash s = true) b →
  Forall2 segment_is a ps → Forall2 segment_is b qs → join "/" ps ≠ join "/" qs.
Proof.
  revert b ps qs. induction a as [|s a IH]; intros b ps qs Hd Ha Hb HA HB E; [by destruct b|].
  destruct b as [|t b]; [done|]. cbn [disjoint] in Hd.
  destruct (is_plus s || is_plus t) eqn:Hplus; [done|]. apply orb_false_iff in Hplus as [Hs Ht].
  inversion HA as [|? p ? ps' Hp HA']; inversion HB as [|? q ? qs' Hq HB']; subst.
  inversion Ha as [|? ? Hsn Ha']; inversion Hb as [|? ? Htn Hb']; subst.
  pose proof (segment_no_slash _ _ Hs Hsn Hp) as Hpn. pose proof (segment_no_slash _ _ Ht Htn Hq) as Hqn.
  assert (p = q ∧ ((a = [] ∧ b = []) ∨ (a ≠ [] ∧ b ≠ [] ∧ join "/" ps' = join "/" qs'))) as [-> Hrest].
  { destruct ps' as [|p' ps'], qs' as [|q' qs']; rewrite ?join_cons2 in E.
    - inversion HA'; inversion HB'; subst. auto.
    - by apply (no_cut p q (join "/" (q' :: qs'))) in Hpn.
    - symmetry in E. by apply (no_cut q p (join "/" (p' :: ps'))) in Hqn.
    - apply cut_both in E as [-> E]; [|done..]. inversion HA'; inversion HB'; subst. auto. }
  apply orb_true_iff in Hd as [Hd|Hd].
  - apply andb_prop in Hd as [[Hv1 Hv2]%andb_prop Hne]. apply negb_true_iff in Hv1, Hv2, Hne.
    apply bool_decide_eq_false in Hne. unfold segment_is, is_var in *. rewrite Hv1 in Hp. rewrite Hv2 in Hq. cbn in *. congruence.
  - destruct Hrest as [[-> ->]|(Hna & Hnb & E')]; [done|].
    assert (disjoint a b = true) as Hd' by (by destruct a, b). by apply (IH b ps' qs').
Qed.

Lemma split_no_char sep s : Forall (λ x, no_char sep x = true) (split_on sep s).
Proof.
  induction s as [|c s IH]; cbn; [by repeat constructor|].
  destruct (Ascii.eqb c sep) eqn:E; [by constructor|].
  destruct (split_on sep s) as [|w ws].
  - constructor; [cbn; by rewrite E|done].
  - apply list.Forall_cons in IH as [Hw Hws]. constructor; [cbn; by rewrite E|done].
Qed.

Definition table_disjoint : bool :=
  forallb (λ x, forallb (λ y, bool_decide (x = y) || negb (bool_decide (route_method x = route_method y)) ||
                              disjoint (split_on slash (route_path x)) (split_on slash (route_path y))) API_ROUTES) API_ROUTES.

Lemma method_name_inj : Inj (=) (=) method_name.
Proof. by intros [] []. Qed.

Lemma routes_unambiguous x y m path :
  x ∈ API_ROUTES → y ∈ API_ROUTES → route_serves x m path → route_serves y m path → x = y.
Proof.
  intros Hx Hy [(ps & HA & ->) <-] [(qs & HB & E) Hm%method_name_inj].
  assert (table_disjoint = true) as Ht by (by vm_compute). unfold table_disjoint in Ht.
  rewrite forallb_forall in Ht. apply list_elem_of_In, Ht in Hx. rewrite forallb_forall in Hx.
  apply list_elem_of_In, Hx in Hy. rewrite !orb_true_iff, negb_true_iff in Hy.
  destruct Hy as [[?%bool_decide_eq_true|?%bool_decide_eq_false]|Hd]; [done|congruence|].
  destruct (disjoint_sound _ _ _ _ Hd (split_no_char _ _) (split_no_char _ _) HA HB E).
Qed.

(** C31: the route table means what its templates say, and no request has two routes.
    A request is declared exactly when some route has its method and a template of its
    path, refused for its method exactly when only templates of other methods match, and
    undeclared exactly when none does; a template matches a path exactly when the path is
    its segments joined by slashes, a name standing for one nonempty segment and a name
    with a plus for any nonempty text; two routes that serve one request are the same. *)
Theorem route_verdict_exact m path :
  (apiRouteVerdict m path = declared ↔ ∃ route, route ∈ API_ROUTES ∧ route_serves route m path) ∧
  (apiRouteVerdict m path = method ↔
     (∃ route, route ∈ API_ROUTES ∧ path_is (route_path route) path) ∧
     ∀ route, route ∈ API_ROUTES → ¬ route_serves route m path) ∧
  (apiRouteVerdict m path = undeclared ↔ ∀ route, route ∈ API_ROUTES → ¬ path_is (route_path route) path) ∧
  (∀ x y, x ∈ API_ROUTES → y ∈ API_ROUTES → route_serves x m path → route_serves y m path → x = y).
Proof.
  split_and!; [apply verdict_iff..|]. intros x y. apply routes_unambiguous.
Qed.

(** ** Coverage of the registry *)

Definition serves_kind (route : ApiRoute) (id : string) : bool :=
  match map_get bindings id with
  | Some b => negb (isPending b) && Bool.eqb (is_command b) (negb (bool_decide (route_method route = GET)))
  | None => false
  end.

(** Every route realizes live bindings of its kind and every live binding has a route
    ([INV-BINDING-ROUTE-COVERAGE]).  Each binding a route declares is registered and live,
    a read under [GET] and a command under any other method; each live binding of the
    registry is declared by some route. *)
Theorem bindings_and_routes_agree :
  (∀ route id, route ∈ API_ROUTES → id ∈ route_bindings route →
     ∃ b, map_get bindings id = Some b ∧ binding_status b = live ∧
          (is_command b = true ↔ route_method route ≠ GET)) ∧
  (∀ id b, map_get bindings id = Some b → binding_status b = live →
     ∃ route, route ∈ API_ROUTES ∧ id ∈ route_bindings route).
Proof.
  split.
  - assert (forallb (λ route, forallb (serves_kind route) (route_bindings route)) API_ROUTES = true) as H by (by vm_compute).
    intros route id Hr Hid. rewrite forallb_forall in H. apply list_elem_of_In, H in Hr.
    rewrite forallb_forall in Hr. apply list_elem_of_In, Hr in Hid. unfold serves_kind, isPending in Hid.
    destruct (map_get bindings id) as [b|]; [|done]. exists b. split; [done|].
    destruct (binding_status b); [|done]. split; [done|]. cbn in Hid. apply eqb_prop in Hid as ->.
    by case_bool_decide.
  - assert (forallb (λ e, isPending e.2 || existsb (λ route, bool_decide (e.1 ∈ route_bindings route)) API_ROUTES) bindings
            = true) as H by (by vm_compute).
    intros id b Hb Hl. rewrite forallb_forall in H.
    assert ((id, b) ∈ bindings) as Hin.
    { clear H Hl. induction bindings as [|[k b'] l IH]; [done|]. cbn in Hb.
      case_bool_decide; simplify_eq; set_solver. }
    apply list_elem_of_In, H in Hin. cbn [fst snd] in Hin. unfold isPending in Hin. rewrite Hl in Hin. cbn [orb] in Hin.
    apply existsb_exists in Hin as (route & Hr%list_elem_of_In & Hid%bool_decide_eq_true). eauto.
Qed.
