(* ===== verification/JsOps.v ===== *)
(** * More of the language the surfaces use

    Arithmetic on dynamic values, searches and sorts of arrays, projections that rename
    fields.  Operands no declared type reaches go to the parameter [arith_other], and the
    collation of [String.prototype.localeCompare] is a parameter. *)
From S2P Require Import Prelude Bytes Float64 Cbor JsValue JsString Num64.
From Stdlib Require Import Sorted.
From stdpp Require Import list.
Open Scope Z_scope.

(** Arithmetic on operands that are neither two numbers nor two bigints. *)
Class ArithOther := arith_other : string → value → value → result value.

(** [a.localeCompare(b)], its sign *)
Class LocaleCompare := localeCompare : string → string → Z.

Section arithmetic.
Context `{ArithOther}.

Definition mixed_bigint : exn := TypeError "Cannot mix BigInt and other types, use explicit conversions".

Definition js_arith (op : string) (f : Z → Z → Z) (g : Z → Z → result Z) (a b : value) : result value :=
  match a, b with
  | VNum x, VNum y => Ok (VNum (f x y))
  | VBigInt x, VBigInt y => z ← g x y; Ok (VBigInt z)
  | VNum _, VBigInt _ | VBigInt _, VNum _ => Throw mixed_bigint
  | _, _ => arith_other op a b
  end.

Definition js_add : value → value → result value := js_arith "+" f64_add (λ x y, Ok (x + y)).
Definition js_sub : value → value → result value := js_arith "-" f64_sub (λ x y, Ok (x - y)).
Definition js_mul : value → value → result value := js_arith "*" f64_mul (λ x y, Ok (x * y)).
Definition js_div : value → value → result value :=
  js_arith "/" f64_div (λ x y, if y =? 0 then Throw (Error "Division by zero") else Ok (Z.quot x y)).
End arithmetic.

(** ToNumber where the declared type is a number: a bigint does not convert. *)
Definition js_max0 `{ToNumberOther} (v : value) : result value :=
  x ← js_ToNumber v; Ok (VNum (Math_max 0 x)).

Lemma Math_max0_ofZ z : Z.abs z ≤ MAX_SAFE → Math_max 0 (f64_ofZ z) = f64_ofZ (Z.max 0 z).
Proof.
  intros Hz. destruct (f64_ofZ_spec z Hz) as (_ & _ & Hn & _), (f64_key_ofZ z Hz) as [Hlt Heq].
  unfold Math_max. rewrite Hn. change (f64_isNaN 0) with false. cbn [orb]. change (f64_key 0) with 0.
  destruct (Z.ltb_spec 0 (f64_key (f64_ofZ z))) as [Hk|Hk].
  - rewrite Z.max_r; [done|]. destruct (decide (z < 0)) as [Hz'%Hlt|]; lia.
  - rewrite Z.max_l; [done|]. destruct (decide (f64_key (f64_ofZ z) = 0)) as [E%Heq|E]; [lia|].
    assert (z < 0) by (apply Hlt; lia). lia.
Qed.

(** On safe integers the operators are those of the integers. *)
Section integers.
Context {AO : ArithOther} {TN : ToNumberOther} (a b : Z) (Ha : Z.abs a ≤ MAX_SAFE) (Hb : Z.abs b ≤ MAX_SAFE).

Lemma js_add_int : Z.abs (a + b) ≤ MAX_SAFE → js_add (vint a) (vint b) = Ok (vint (a + b)).
Proof using Ha Hb. intros H. unfold js_add, js_arith, vint. by rewrite f64_add_ofZ. Qed.

Lemma js_sub_int : Z.abs (a - b) ≤ MAX_SAFE → js_sub (vint a) (vint b) = Ok (vint (a - b)).
Proof using Ha Hb. intros H. unfold js_sub, js_arith, vint. by rewrite f64_sub_ofZ. Qed.

Lemma js_max0_int : js_max0 (vint a) = Ok (vint (Z.max 0 a)).
Proof using Ha. unfold js_max0, vint. cbn. by rewrite Math_max0_ofZ. Qed.
End integers.

Lemma mapM_ok {A B} (f : A → result B) (R : A → B → Prop) l :
  Forall (λ x, ∃ y, f x = Ok y ∧ R x y) l → ∃ ys, mapM f l = Ok ys ∧ Forall2 R l ys.
Proof.
  induction 1 as [|x l (y & E & Hy) Hl (ys & Es & Hys)]; cbn; [by exists []|]. rewrite E. cbn. rewrite Es. cbn. eauto.
Qed.

(** A string argument; anything else has no string method. *)
Definition as_string (v : value) : result string :=
  match v with VStr s => Ok s | _ => Throw (TypeError "value is not a string") end.

(** The items of an array whose method is called. *)
Definition js_array (v : value) : result (list value) :=
  match v with
  | VArr items => Ok items
  | VNull | VUndefined => Throw (TypeError "Cannot read properties of undefined")
  | _ => Throw (TypeError "value has no such method")
  end.

(** [!v] *)
Definition falsy (v : value) : bool :=
  match v with
  | VUndefined | VNull | VBool false | VStr "" => true
  | VNum x => f64_isNaN x || (f64_key x =? 0)
  | VBigInt z => z =? 0
  | _ => false
  end.

(** [s.length]: the UTF-16 units of a string kept as UTF-8; a code point beyond the basic
    plane has a four byte encoding and two units. *)
Fixpoint js_strlen (s : string) : Z :=
  match s with
  | EmptyString => 0
  | String c s =>
      let b := byte_of_ascii c in
      (if utf8_cont b then 0 else if 0xf0 <=? b then 2 else 1) + js_strlen s
  end.

(** The characters [.] does not match. *)
Definition LINE_TERMINATORS : list string :=
  map string_of_bytes [[10]; [13]; [0xe2; 0x80; 0xa8]; [0xe2; 0x80; 0xa9]].
Definition has_line_terminator (s : string) : bool := existsb (λ c, bool_decide (c ∈ LINE_TERMINATORS)) (js_chars s).

(** [a <= b] on two numbers or two bigints; other operands are not of a declared type. *)
Class CompareOther := compare_other : value → value → bool.
Definition js_le `{CompareOther} (a b : value) : bool :=
  match a, b with
  | VNum x, VNum y => f64_le x y
  | VBigInt x, VBigInt y => x <=? y
  | _, _ => compare_other a b
  end.

(** [items.find(p)] *)
Fixpoint js_find (p : value → result bool) (items : list value) : result (option value) :=
  match items with
  | [] => Ok None
  | x :: items => b ← p x; if (b : bool) then Ok (Some x) else js_find p items
  end.

(** [{ new: v.old, ... }] *)
Fixpoint renamed (v : value) (ks : list (string * string)) : result props :=
  match ks with
  | [] => Ok []
  | (new, old) :: ks => x ← get v old; rest ← renamed v ks; Ok ((new, x) :: rest)
  end.

(** [v.k ?? null] *)
Definition get_or_null (v : value) (k : string) : result value :=
  x ← get v k; Ok (if is_nullish x then VNull else x).

(** ** Sorting with a comparator that may throw; equal items keep their order *)

Section sorting.
Context {A : Type} (compare : A → A → result Z).

Fixpoint sort_insert (x : A) (l : list A) : result (list A) :=
  match l with
  | [] => Ok [x]
  | y :: l' => c ← compare x y; if 0 <? c then rest ← sort_insert x l'; Ok (y :: rest) else Ok (x :: l)
  end.

Fixpoint js_sort (l : list A) : result (list A) :=
  match l with
  | [] => Ok []
  | x :: l => rest ← js_sort l; sort_insert x rest
  end.

Lemma sort_insert_perm x l r : sort_insert x l = Ok r → r ≡ₚ x :: l.
Proof using.
  revert r. induction l as [|y l IH]; intros r E; cbn in E; [by simplify_eq|].
  bind_step E c. destruct (0 <? c); [|by simplify_eq]. bind_step E rest. simplify_eq.
  rewrite (IH rest) by done. constructor.
Qed.

Lemma js_sort_perm l r : js_sort l = Ok r → r ≡ₚ l.
Proof using.
  revert r. induction l as [|x l IH]; intros r E; cbn in E; [by simplify_eq|].
  bind_step E rest. apply sort_insert_perm in E. by rewrite E, (IH rest).
Qed.

(** A comparator that decides a total preorder, on the items that occur, sorts them. *)
Lemma js_sort_sorted (P : A → Prop) (le : A → A → Prop) `{!Transitive le} :
  (∀ x y, P x → P y → ∃ c, compare x y = Ok c ∧ (c ≤ 0 → le x y) ∧ (0 < c → le y x)) →
  ∀ l, Forall P l → ∃ r, js_sort l = Ok r ∧ StronglySorted le r ∧ r ≡ₚ l.
Proof using.
  intros Hc l Hl. induction Hl as [|x l Hx Hl (rest & E & Hs & Hp)]; cbn; [exists []; split_and!; constructor|].
  rewrite E. cbn. cut (∃ r, sort_insert x rest = Ok r ∧ StronglySorted le r).
  { intros (r & Er & Hr). exists r. split_and!; [done..|]. apply sort_insert_perm in Er. by rewrite Er, Hp. }
  rewrite <- Hp in Hl. clear E Hp. induction Hs as [|y rest Hs IH Hy]; cbn; [exists [x]; split; [done|repeat constructor]|].
  apply Forall_cons in Hl as [Py Hl].
  destruct (Hc x y Hx Py) as (c & -> & Hle & Hge). cbn. destruct (Z.ltb_spec 0 c) as [Hlt|Hlt].
  - destruct IH as (r & Er & Hr); [done|]. rewrite Er. cbn. exists (y :: r). split; [done|]. constructor; [done|].
    apply sort_insert_perm in Er. rewrite Er. constructor; auto.
  - exists (x :: y :: rest). split; [done|]. constructor; [by constructor|]. constructor; [auto|].
    eapply Forall_impl; [exact Hy|]. intros z Hz. transitivity y; auto.
Qed.
End sorting.
