(* ===== verification/Destinations.v ===== *)
(** * The destination classifier ([apps/bff/src/engine/destination-classifier.ts])

    Which of the four rings a captured endpoint belongs to and the name it is listed
    under, from its address and its PTR name. *)
From S2P Require Import Prelude Bytes Float64 JsString Num64 ReverseDns.
From stdpp Require Import list.
Open Scope Z_scope.

Inductive DestCategory := network | saas | private_apps | data_stores.
Definition category_name (c : DestCategory) : string :=
  match c with
  | network => "network" | saas => "saas" | private_apps => "private-apps" | data_stores => "data-stores"
  end.
#[global] Instance DestCategory_eq_dec : EqDecision DestCategory.
Proof. solve_decision. Defined.

Record ClassifiedDestination := mkClassified { category : DestCategory; dest_name : string }.

Definition DATA_STORE_PORTS : list (Z * string) :=
  [(1433, "SQL Server"); (1521, "Oracle DB"); (3306, "MySQL"); (5432, "Postgres"); (5984, "CouchDB");
   (6379, "Redis"); (9042, "Cassandra"); (9200, "Elasticsearch"); (11211, "Memcached"); (27017, "MongoDB")].

Definition PRIVATE_APP_PORTS : list (Z * string) :=
  [(22, "SSH"); (445, "Microsoft SMB"); (3389, "RDP"); (5900, "VNC")].

(** [PORTS[port]]: the property whose name is the text of the number *)
Definition port_name (ports : list (Z * string)) (port : option Z) : option string :=
  match port with
  | Some x => snd <$> List.find (λ p, f64_ofZ p.1 =? x) ports
  | None => None
  end.

Definition BRAND_RULES : list (string * string * DestCategory) :=
  [("dns.google", "Google DNS", network);
   ("one.one.one.one", "Cloudflare DNS", network);
   ("quad9.net", "Quad9 DNS", network);
   ("opendns.com", "OpenDNS", network);
   ("cloudflare.com", "Cloudflare", network);
   ("fastly.net", "Fastly", network);
   ("akamaitechnologies.com", "Akamai", network);
   ("akamai.net", "Akamai", network);
   ("cloudfront.net", "CloudFront", network);
   ("googleusercontent.com", "Google Cloud", network);
   ("s3.amazonaws.com", "Amazon S3", data_stores);
   ("github.com", "GitHub", saas);
   ("github.io", "GitHub", saas);
   ("slack.com", "Slack", saas);
   ("salesforce.com", "Salesforce", saas);
   ("force.com", "Salesforce", saas);
   ("service-now.com", "ServiceNow", saas);
   ("zoom.us", "Zoom", saas);
   ("atlassian.net", "Atlassian", saas);
   ("atlassian.com", "Atlassian", saas);
   ("office365.com", "Microsoft 365", saas);
   ("outlook.com", "Microsoft 365", saas);
   ("sharepoint.com", "Microsoft 365", saas);
   ("amazonaws.com", "AWS", saas);
   ("azure.com", "Microsoft Azure", saas);
   ("azurewebsites.net", "Microsoft Azure", saas);
   ("googleapis.com", "Google APIs", saas);
   ("google.com", "Google", saas);
   ("1e100.net", "Google", saas);
   ("anthropic.com", "Anthropic", saas);
   ("openai.com", "OpenAI", saas);
   ("wikimedia.org", "Wikipedia", network);
   ("wikipedia.org", "Wikipedia", network)].

(** The IPv4 and the numeric port of [IP:port], else the whole address. *)
Definition splitEndpoint (address : string) : string * option Z :=
  match ipv4_port address with
  | Some (ip, port) => (ip, Some (StringToNumber port))
  | None => (address, None)
  end.

Definition dot : Ascii.ascii := ascii_of_byte 46.

Definition isPrivateIp (ip : string) : bool :=
  match map StringToNumber (split_on dot ip) with
  | [a; b; _; _] =>
      f64_eq a (f64_ofZ 10) || f64_eq a (f64_ofZ 127)
      || (f64_eq a (f64_ofZ 172) && f64_le (f64_ofZ 16) b && f64_le b (f64_ofZ 31))
      || (f64_eq a (f64_ofZ 192) && f64_eq b (f64_ofZ 168))
      || (f64_eq a (f64_ofZ 169) && f64_eq b (f64_ofZ 254))
  | _ => false
  end.

Abbreviation brand_rule := (string * string * DestCategory)%type.

(** [lower === suffix || lower.endsWith(`.${suffix}`)] *)
Definition suffix_matches (lower : string) (rule : brand_rule) : bool :=
  bool_decide (lower = rule.1.1) || endsWith lower ("." +:+ rule.1.1).

Fixpoint brand_loop (lower : string) (best : option brand_rule) (rules : list brand_rule) : option brand_rule :=
  match rules with
  | [] => best
  | rule :: rules =>
      let longer := match best with
                    | None => true
                    | Some b => (String.length b.1.1 <? String.length rule.1.1)%nat
                    end in
      brand_loop lower (if suffix_matches lower rule && longer then Some rule else best) rules
  end.

Definition brandOf (resolvedName : string) : option ClassifiedDestination :=
  match brand_loop (toLowerCase resolvedName) None BRAND_RULES with
  | Some (_, name, category) => Some (mkClassified category name)
  | None => None
  end.

(** [core.charAt(0).toUpperCase() + core.slice(1)] on a leading ASCII letter *)
Definition capitalize (s : string) : string :=
  match s with EmptyString => "" | String c s => String (toUpper_char c) s end.

Definition PUBLIC_SECOND_LEVEL : list string := ["co"; "com"; "net"; "org"; "ac"; "gov"].

Definition domainName (resolvedName : string) : option string :=
  let labels := List.filter (λ l, negb (bool_decide (l = ""))) (split_on dot (toLowerCase resolvedName)) in
  match rev labels with
  | _ :: secondLevel :: rest =>
      let core := match rest with
                  | third :: _ => if bool_decide (secondLevel ∈ PUBLIC_SECOND_LEVEL) then third else secondLevel
                  | [] => secondLevel
                  end in
      Some (capitalize core)
  | _ => None
  end.

Definition classifyDestination (address : string) (resolvedName : option string) : ClassifiedDestination :=
  let '(ip, port) := splitEndpoint address in
  let ptr := match trim <$> resolvedName with Some "" | None => None | Some p => Some p end in
  match port_name DATA_STORE_PORTS port with
  | Some storeName => mkClassified data_stores storeName
  | None =>
      if bool_decide (ip = "169.254.169.254") then mkClassified private_apps "Cloud Metadata"
      else if startsWith ip "127." then mkClassified private_apps "Localhost"
      else
        let privateAppName := port_name PRIVATE_APP_PORTS port in
        if isPrivateIp ip then
          match privateAppName, ptr with
          | Some n, _ => mkClassified private_apps n
          | None, Some p => mkClassified private_apps (default p (domainName p))
          | None, None => mkClassified private_apps ip
          end
        else
          match ptr ≫= brandOf, privateAppName, ptr with
          | Some brand, _, _ => brand
          | None, Some n, _ => mkClassified private_apps n
          | None, None, Some p => mkClassified network (default p (domainName p))
          | None, None, None => mkClassified network ip
          end
  end.

Example classify_samples :
  classifyDestination "127.0.0.1:5432" None = mkClassified data_stores "Postgres" ∧
  classifyDestination "140.82.112.5:443" (Some "lb-140-82-112-5-iad.github.com") = mkClassified saas "GitHub" ∧
  classifyDestination "52.216.1.1" (Some "s3.amazonaws.com") = mkClassified data_stores "Amazon S3" ∧
  classifyDestination "10.0.0.7:22" None = mkClassified private_apps "SSH" ∧
  classifyDestination "1.2.3.4" (Some "text-lb.codfw.example.co.uk") = mkClassified network "Example" ∧
  classifyDestination "1.2.3.4:443" None = mkClassified network "1.2.3.4".
Proof. vm_compute. split_and!; reflexivity. Qed.

(** ** What a classification may say *)

Lemma endsWith_iff s suffix : endsWith s suffix = true ↔ ∃ pre, s = pre +:+ suffix.
Proof.
  unfold endsWith, startsWith. destruct (JsString.strip_prefix (str_rev_app suffix "") (str_rev_app s "")) as [r|] eqn:E.
  - apply JsString.strip_prefix_Some in E. split; [intros _|done]. exists (str_rev_app r "").
    rewrite <- (str_rev_involutive s), E, str_rev_app_app, (str_rev_app_acc r (str_rev_app _ "")), str_rev_involutive. done.
  - split; [done|]. intros [pre ->]. rewrite str_rev_app_app, (str_rev_app_acc suffix (str_rev_app pre "")) in E.
    by rewrite (proj2 (JsString.strip_prefix_Some _ _ (str_rev_app pre "")) eq_refl) in E.
Qed.

(** [name] is [suffix] or a name under it. *)
Definition under (name suffix : string) : Prop := name = suffix ∨ ∃ pre, name = pre +:+ "." +:+ suffix.

Lemma suffix_matches_iff lower rule : suffix_matches lower rule = true ↔ under lower rule.1.1.
Proof.
  unfold suffix_matches, under. rewrite orb_true_iff, bool_decide_eq_true, endsWith_iff. done.
Qed.

(** The rule kept is one of the best, or the best so far. *)
Definition longest (lower : string) (rules : list brand_rule) (rule : brand_rule) : Prop :=
  rule ∈ rules ∧ under lower rule.1.1 ∧
  ∀ r, r ∈ rules → under lower r.1.1 → (String.length r.1.1 ≤ String.length rule.1.1)%nat.

Lemma brand_loop_spec lower rules seen best :
  (∀ b, best = Some b → longest lower seen b) →
  (best = None → ∀ r, r ∈ seen → ¬ under lower r.1.1) →
  match brand_loop lower best rules with
  | Some b => longest lower (seen ++ rules) b
  | None => ∀ r, r ∈ seen ++ rules → ¬ under lower r.1.1
  end.
Proof.
  revert seen best. induction rules as [|rule rules IH]; intros seen best Hb Hn; cbn [brand_loop].
  - rewrite app_nil_r. destruct best; auto.
  - rewrite (cons_middle rule seen rules), (assoc_L (++)). apply IH.
    + intros b Eb. destruct (suffix_matches lower rule) eqn:Hm; cbn [andb] in Eb.
      * apply suffix_matches_iff in Hm. destruct best as [b0|].
        -- destruct (Nat.ltb_spec (String.length b0.1.1) (String.length rule.1.1)) as [Hlt|Hge]; simplify_eq.
           ++ destruct (Hb b0 eq_refl) as (_ & _ & Hmax). split_and!; [set_solver|done|].
              intros r [Hr| ->%list_elem_of_singleton]%elem_of_app; [|done]. intros Hu. specialize (Hmax r Hr Hu). lia.
           ++ destruct (Hb b eq_refl) as (Hin & Hu & Hmax). split_and!; [set_solver|done|].
              intros r [Hr| ->%list_elem_of_singleton]%elem_of_app; auto.
        -- simplify_eq. split_and!; [set_solver|done|].
           intros r [Hr| ->%list_elem_of_singleton]%elem_of_app Hu; [|done]. by destruct (Hn eq_refl r Hr).
      * destruct (Hb b Eb) as (Hin & Hu & Hmax). split_and!; [set_solver|done|].
        intros r [Hr| ->%list_elem_of_singleton]%elem_of_app Hu'; [auto|].
        apply suffix_matches_iff in Hu'. congruence.
    + intros Eb. destruct (suffix_matches lower rule) eqn:Hm; cbn [andb] in Eb; [by destruct best; [case_match|]|].
      intros r [Hr| ->%list_elem_of_singleton]%elem_of_app; [auto|]. intros Hu%suffix_matches_iff. congruence.
Qed.

Lemma brand_loop_None lower rules :
  match brand_loop lower None rules with
  | Some b => longest lower rules b
  | None => ∀ r, r ∈ rules → ¬ under lower r.1.1
  end.
Proof. apply (brand_loop_spec lower rules [] None); [done|]. by intros _ r ?%not_elem_of_nil. Qed.

(** The names the tables give. *)
Definition KNOWN_NAMES : list string :=
  ["Cloud Metadata"; "Localhost"] ++ map snd DATA_STORE_PORTS ++ map snd PRIVATE_APP_PORTS ++
  map (λ r : brand_rule, r.1.2) BRAND_RULES.

(** A name taken from the tables, the address, or the resolved name. *)
Definition grounded (host : string) (ptr : option string) (name : string) : Prop :=
  name ∈ KNOWN_NAMES ∨ name = host ∨
  ∃ p, ptr = Some p ∧ (name = trim p ∨ ∃ label, label ∈ split_on dot (toLowerCase (trim p)) ∧ label ≠ "" ∧ name = capitalize label).

Lemma domainName_label p n :
  domainName p = Some n → ∃ label, label ∈ split_on dot (toLowerCase p) ∧ label ≠ "" ∧ n = capitalize label.
Proof.
  unfold domainName. set (labels := List.filter _ _).
  assert (∀ l, l ∈ rev labels → l ∈ split_on dot (toLowerCase p) ∧ l ≠ "") as Hl.
  { intros l Hl%list_elem_of_In. rewrite <- in_rev in Hl. apply filter_In in Hl as [Hin Hne].
    rewrite list_elem_of_In. split; [done|]. intros ->. done. }
  destruct (rev labels) as [|t [|s rest]]; [done..|]. intros [= <-].
  destruct rest as [|third rest]; [|case_bool_decide]; eexists; (split_and!; [| |done]; apply Hl; set_solver).
Qed.

Lemma port_name_known ports port n : port_name ports port = Some n → n ∈ map snd ports.
Proof.
  destruct port as [x|]; cbn; [|done]. destruct (List.find _ ports) as [p|] eqn:E; [|done]. intros [= <-].
  apply find_some in E as [E _]. by apply list_elem_of_In, in_map.
Qed.

Lemma brand_known p b : brandOf p = Some b → dest_name b ∈ map (λ r : brand_rule, r.1.2) BRAND_RULES.
Proof.
  unfold brandOf. pose proof (brand_loop_None (toLowerCase p) BRAND_RULES) as H.
  destruct (brand_loop _ None BRAND_RULES) as [[[s n] c]|]; [|done]. intros [= <-]. cbn.
  destruct H as (Hin & _). apply list_elem_of_In, (in_map (λ r : brand_rule, r.1.2)) in Hin.
  by apply list_elem_of_In.
Qed.

Section classify.
Context (address : string) (resolved : option string).

Let host := (splitEndpoint address).1.
Let c := classifyDestination address resolved.

Lemma classify_grounded : grounded host resolved (dest_name c).
Proof.
  unfold c, host, classifyDestination. destruct (splitEndpoint address) as [ip port]. cbn [fst].
  assert (∀ n, n ∈ map snd DATA_STORE_PORTS ∨ n ∈ map snd PRIVATE_APP_PORTS ∨ n ∈ map (λ r : brand_rule, r.1.2) BRAND_RULES →
               grounded ip resolved n) as Hk.
  { intros n Hn. left. unfold KNOWN_NAMES. rewrite !elem_of_app. tauto. }
  assert (∀ p, match trim <$> resolved with Some "" | None => None | Some p => Some p end = Some p →
               grounded ip resolved (default p (domainName p)) ∧ (∀ b, brandOf p = Some b → grounded ip resolved (dest_name b))) as Hp.
  { intros p E. assert (∃ q, resolved = Some q ∧ p = trim q) as (q & -> & ->).
    { destruct resolved as [q|]; cbn in E; [|done]. exists q. split; [done|]. by destruct (trim q); simplify_eq. }
    split; [|intros b Hb; apply Hk; eauto using brand_known]. right; right. exists q. split; [done|].
    destruct (domainName (trim q)) as [n|] eqn:Hn; cbn; [right; by apply domainName_label|by left]. }
  set (ptr := match trim <$> resolved with Some "" | None => None | Some p => Some p end) in *. clearbody ptr.
  destruct (port_name DATA_STORE_PORTS port) as [n|] eqn:E1; [cbn; eauto using port_name_known|].
  case_bool_decide; [left; cbn; set_solver|]. destruct (startsWith ip "127."); [left; cbn; set_solver|].
  destruct (isPrivateIp ip).
  - destruct (port_name PRIVATE_APP_PORTS port) as [n|] eqn:E2; [cbn; eauto using port_name_known|].
    destruct ptr as [p|]; cbn; [by apply Hp|right; by left].
  - destruct ptr as [p|]; cbn [mbind option_bind].
    + destruct (Hp p eq_refl) as [Hd Hbr]. destruct (brandOf p) as [b|]; [by apply Hbr|].
      destruct (port_name PRIVATE_APP_PORTS port) as [n|] eqn:E2; cbn; eauto using port_name_known.
    + destruct (port_name PRIVATE_APP_PORTS port) as [n|] eqn:E2; cbn; [eauto using port_name_known|right; by left].
Qed.

(** A destination is never given a made-up name and a private address is never shown
    as public.  The name is one of the tables', the address's own host, or (from the
    resolved name) that name or one of its labels capitalized; an address in a private
    range lands in the private or the data-store ring; a brand is the rule with the longest
    suffix the name is equal to or under, and there is none exactly when no rule's suffix
    fits; without a resolved name, an address with a port of no known service is classified
    as its bare host. *)
Theorem classification_grounded :
  grounded host resolved (dest_name c) ∧
  (isPrivateIp host = true → category c = private_apps ∨ category c = data_stores) ∧
  (∀ name, match brand_loop (toLowerCase name) None BRAND_RULES with
           | Some rule => longest (toLowerCase name) BRAND_RULES rule
           | None => ∀ r, r ∈ BRAND_RULES → ¬ under (toLowerCase name) r.1.1
           end) ∧
  (resolved = None → ∀ port, ipv4_port address = Some (host, port) →
     port_name DATA_STORE_PORTS (Some (StringToNumber port)) = None →
     port_name PRIVATE_APP_PORTS (Some (StringToNumber port)) = None →
     ipv4_port host = None → c = classifyDestination host None).
Proof.
  split_and!; [apply classify_grounded| | |].
  - unfold c, host, classifyDestination. destruct (splitEndpoint address) as [ip port]. cbn [fst]. intros ->.
    repeat case_match; cbn; auto.
  - intros name. apply brand_loop_None.
  - intros -> port E H1 H2 Hh. unfold c, classifyDestination, splitEndpoint. rewrite Hh.
    replace (ipv4_port address) with (Some (host, port)). by rewrite H1, H2.
Qed.
End classify.
