(* ===== verification/Overview.v ===== *)
(** * Overview ([packages/contracts/src/overview.ts], [apps/bff/src/engine/overview.ts])

    The connectivity graph as the Sankey the console draws: risk bands narrowed fail
    closed, the flat network destinations merged into four rings, the lanes of the left
    column, paging, highlighting, and the resolvers. *)
From S2P Require Import Prelude Bytes Float64 Cbor JsValue JsString Num64 Rbac OperatorEngine Vtz Policies.
From S2P Require Import ReverseDns JsOps Destinations.
From stdpp Require Import list.
Open Scope Z_scope.

(** ** View models *)

Record OverviewRiskBand := mkBand { level : string; escalate : value; candidate : value; observe : value }.
Record OverviewVtzNode := mkVtz { node_id : value; node_name : value; profile : string; risk : OverviewRiskBand }.
Record OverviewSourceNode := mkSource { source_class : value; source_count : value }.
Record OverviewApp := mkApp { app_name : value; app_address : value; app_count : value }.
Record OverviewDestNode := mkDest { dest_class : value; dest_count : value; apps : list OverviewApp; moreCount : value }.
Record OverviewSourceEdge := mkSourceEdge { se_class : value; se_vtz : value; se_weight : value }.
Record OverviewDestEdge := mkDestEdge { de_vtz : value; de_class : value; de_weight : value }.
Record OverviewSankey := mkSankey {
  sources : list OverviewSourceNode; vtzs : list OverviewVtzNode; destinations : list OverviewDestNode;
  sourceEdges : list OverviewSourceEdge; destEdges : list OverviewDestEdge; truncated : value }.

Definition toRiskLevel (level : value) : option string := toTag ["green"; "yellow"; "red"] level.

Definition toRiskBand (band : value) : result (option OverviewRiskBand) :=
  l ← get band "level";
  match toRiskLevel l with
  | None => Ok None
  | Some l => e ← get band "escalate"; c ← get band "candidate"; o ← get band "observe"; Ok (Some (mkBand l e c o))
  end.

Definition toVtzProfile (profile : value) : string :=
  default "observe" (toTag ["standard"; "quarantine"] profile).

Definition OVERVIEW_SOURCE_CATEGORIES : list string := ["agents"; "users"; "devices"].
Definition OVERVIEW_DEST_CATEGORIES : list DestCategory := [network; saas; private_apps; data_stores].
Definition NETWORK_DEST_CLASS : string := "network".

(** ** Paging *)

Definition OVERVIEW_VTZS_PER_PAGE : Z := 3.

(** [Math.max(1, Math.ceil(count / 3))] for a length *)
Definition overviewVtzPageCount (count : Z) : Z := Z.max 1 ((count + 2) / OVERVIEW_VTZS_PER_PAGE).

Definition overviewVtzPage {A} (vtzs : list A) (page : Z) : list A :=
  let pages := overviewVtzPageCount (Z.of_nat (length vtzs)) in
  let clamped := Z.max 0 (Z.min page (pages - 1)) in
  let start := clamped * OVERVIEW_VTZS_PER_PAGE in
  take (Z.to_nat OVERVIEW_VTZS_PER_PAGE) (drop (Z.to_nat start) vtzs).

(** ** Highlighting, on graphs whose classes and zone ids are strings *)

Record OverviewHighlight := mkHighlight {
  vtzIds : list string; sourceEdgeKeys : list string; destEdgeKeys : list string;
  sourceClasses : list string; destClasses : list string }.

(** An edge by the two ends the highlight reads. *)
Record edge := mkEdge { lane : string; zone : string }.
Definition sourceEdgeKey (e : edge) : string := lane e +:+ ">" +:+ zone e.
Definition destEdgeKey (e : edge) : string := zone e +:+ ">" +:+ lane e.

(** [new Set(xs)], in insertion order *)
Definition to_set (xs : list string) : list string := dedupe [] xs.

Definition overviewHighlight (source_edges dest_edges : list edge) (destClass : string) : OverviewHighlight :=
  let des := filter (λ e, lane e = destClass) dest_edges in
  let ids := to_set (map zone des) in
  let ses := filter (λ e, zone e ∈ ids) source_edges in
  mkHighlight ids (to_set (map sourceEdgeKey ses)) (to_set (map destEdgeKey des))
    (to_set (map lane ses)) [destClass].

Definition overviewHighlightSource (source_edges dest_edges : list edge) (sourceClass : string) : OverviewHighlight :=
  let ses := filter (λ e, lane e = sourceClass) source_edges in
  let ids := to_set (map zone ses) in
  let des := filter (λ e, zone e ∈ ids) dest_edges in
  mkHighlight ids (to_set (map sourceEdgeKey ses)) (to_set (map destEdgeKey des))
    [sourceClass] (to_set (map lane des)).

Section projection.
Context {TN : ToNumberOther} {AO : ArithOther} {LC : LocaleCompare}.

(** ** The four rings *)

(** A listed destination with the name its address resolved to. *)
Abbreviation resolved_app := (OverviewApp * option string)%type.
Abbreviation merged_apps := (list (string * (DestCategory * OverviewApp))).

Definition merge_app (classify : string → option string → ClassifiedDestination)
    (merged : merged_apps) (item : resolved_app) : result merged_apps :=
  let '(app, resolvedName) := item in
  address ← as_string (app_address app);
  let '(mkClassified c n) := classify address resolvedName in
  let key := category_name c +:+ String Ascii.zero n in
  match map_get merged key with
  | Some (_, prior) =>
      count ← js_add (app_count prior) (app_count app);
      Ok (map_set merged key (c, mkApp (app_name prior) (app_address prior) count))
  | None => Ok (map_set merged key (c, mkApp (VStr n) (app_address app) (app_count app)))
  end.

Fixpoint merge_apps (classify : string → option string → ClassifiedDestination)
    (merged : merged_apps) (items : list resolved_app) : result merged_apps :=
  match items with
  | [] => Ok merged
  | item :: items => m ← merge_app classify merged item; merge_apps classify m items
  end.

(** [b.count - a.count || a.name.localeCompare(b.name)] *)
Definition compare_apps (a b : OverviewApp) : result Z :=
  d ← js_sub (app_count b) (app_count a);
  let by_name := (x ← as_string (app_name a); y ← as_string (app_name b); Ok (localeCompare x y)) in
  match d with
  | VNum x => if f64_isNaN x || (f64_key x =? 0) then by_name else Ok (f64_key x)
  | VBigInt z => if z =? 0 then by_name else Throw (TypeError "Cannot convert a BigInt value to a number")
  | _ => by_name
  end.

(** The sorted list of a category; the keys of [byCategory] are the categories merged. *)
Definition category_apps (merged : merged_apps) (c : DestCategory) : result (list OverviewApp) :=
  js_sort compare_apps (map (λ e, e.2.2) (filter (λ e, e.2.1 = c) merged)).

Definition engine_count (destinations : list value) (class : string) : result value :=
  d ← js_find (λ d, x ← get d "class"; Ok (is_str class x)) destinations;
  match d with
  | None => Ok (vint 0)
  | Some d => n ← get d "count"; Ok (or_else n (vint 0))
  end.

Definition is_network (c : DestCategory) : bool := bool_decide (c = network).

Definition ring (destinations : list value) (tail : value) (lists : list (DestCategory * list OverviewApp))
    (c : DestCategory) : result OverviewDestNode :=
  let listed := default [] (snd <$> List.find (λ e, bool_decide (e.1 = c)) lists) in
  more ← (if is_network c then Ok tail else engine_count destinations (category_name c));
  count ← js_add (vint (Z.of_nat (length listed))) more;
  Ok (mkDest (VStr (category_name c)) count listed more).

Definition sum_counts (l : list OverviewApp) : result value :=
  foldl (λ s a, s ← s; js_add s (app_count a)) (Ok (vint 0)) l.

Definition value_zero (v : value) : bool := match v with VNum x => f64_key x =? 0 | _ => false end.
Definition value_positive (v : value) : bool := match v with VNum x => f64_lt 0 x | VBigInt z => 0 <? z | _ => false end.

(** One ribbon of the graph, split over the rings that have connections. *)
Definition split_edge (conns : list (DestCategory * value)) (total : value) (e : value) : result (list OverviewDestEdge) :=
  class ← get e "dest_class"; vtz ← get e "vtz_id"; weight ← get e "weight";
  if negb (is_str NETWORK_DEST_CLASS class) || value_zero total then Ok [mkDestEdge vtz class weight]
  else
    parts ← mapM (λ cv : DestCategory * value,
              share ← js_div cv.2 total;
              if value_positive share then w ← js_mul weight share; Ok [mkDestEdge vtz (VStr (category_name cv.1)) w]
              else Ok []) conns;
    Ok (concat parts).

Definition passthrough (d : value) : result (list OverviewDestNode) :=
  class ← get d "class"; count ← get d "count";
  Ok (if existsb (λ c, is_str (category_name c) class) OVERVIEW_DEST_CATEGORIES then []
      else [mkDest class count [] count]).

Definition rebucketDestinations (graph : value) (items : list resolved_app)
    (classify : string → option string → ClassifiedDestination)
    : result (list OverviewDestNode * list OverviewDestEdge) :=
  merged ← merge_apps classify [] items;
  lists ← mapM (λ c, l ← category_apps merged c; Ok (c, l)) OVERVIEW_DEST_CATEGORIES;
  dv ← get graph "destinations"; ds ← js_array dv;
  total ← engine_count ds NETWORK_DEST_CLASS;
  rest ← js_sub total (vint (Z.of_nat (length items)));
  tail ← js_max0 rest;
  rings ← mapM (ring ds tail lists) OVERVIEW_DEST_CATEGORIES;
  extra ← mapM passthrough ds;
  conns ← mapM (λ e : DestCategory * list OverviewApp, s ← sum_counts e.2; Ok (e.1, s)) lists;
  total ← foldl (λ s (cv : DestCategory * value), s ← s; js_add s cv.2) (Ok (vint 0)) conns;
  ev ← get graph "dest_edges"; es ← js_iterate ev;
  edges ← mapM (split_edge conns total) es;
  Ok (rings ++ concat extra, concat edges).

(** ** The Sankey *)

Definition toVtzNode (v : value) : result (option OverviewVtzNode) :=
  r ← get v "risk"; r ← toRiskBand r;
  match r with
  | None => Ok None
  | Some risk => id ← get v "id"; name ← get v "name"; p ← get v "profile"; Ok (Some (mkVtz id name (toVtzProfile p) risk))
  end.

(** One top destination with its trimmed, nonempty resolved name. *)
Definition resolve_destination (resolveName : option (value → option string)) (d : value) : result resolved_app :=
  address ← get d "address"; count ← get d "count";
  let name := match resolveName with
              | Some f => match trim <$> f address with Some "" | None => None | Some n => Some n end
              | None => None
              end in
  Ok (mkApp (match name with Some n => VStr n | None => address end) address count, name).

(** [new Map(graph.sources.map((s) => [s.class, s.count])).get(c) ?? 0]: the last entry wins *)
Definition lane_count (entries : list (value * value)) (c : string) : value :=
  match list.last (filter (λ e, is_str c e.1 = true) entries) with
  | Some e => or_else e.2 (vint 0)
  | None => vint 0
  end.

Definition toSources (entries : list (value * value)) : list OverviewSourceNode :=
  map (λ c, mkSource (VStr c) (lane_count entries c)) OVERVIEW_SOURCE_CATEGORIES ++
  map (λ e, mkSource e.1 e.2)
    (filter (λ e, existsb (λ c, is_str c e.1) OVERVIEW_SOURCE_CATEGORIES = false) entries).

(** Without a classifier the engine's classes pass through. *)
Definition plain_destination (resolved : list resolved_app) (d : value) : result OverviewDestNode :=
  class ← get d "class"; count ← get d "count";
  let net := is_str NETWORK_DEST_CLASS class in
  rest ← js_sub count (vint (if net then Z.of_nat (length resolved) else 0));
  more ← js_max0 rest;
  Ok (mkDest class count (if net then map fst resolved else []) more).

Definition plain_edge (e : value) : result OverviewDestEdge :=
  v ← get e "vtz_id"; c ← get e "dest_class"; w ← get e "weight"; Ok (mkDestEdge v c w).

Definition source_edge (e : value) : result OverviewSourceEdge :=
  c ← get e "source_class"; v ← get e "vtz_id"; w ← get e "weight"; Ok (mkSourceEdge c v w).

Definition source_entry (s : value) : result (value * value) :=
  c ← get s "class"; n ← get s "count"; Ok (c, n).

Definition toOverviewSankey (graph : value) (resolveName : option (value → option string))
    (classify : option (string → option string → ClassifiedDestination)) : result (option OverviewSankey) :=
  vs ← get graph "vtzs"; vs ← js_iterate vs;
  vtzs ← project_all toVtzNode vs;
  match vtzs with
  | None => Ok None
  | Some vtzs =>
      ds ← get graph "top_destinations";
      resolved ← js_map_to (resolve_destination resolveName) ds;
      bucketed ← match classify with
                 | Some f => rebucketDestinations graph resolved f
                 | None =>
                     dv ← get graph "destinations"; ns ← js_map_to (plain_destination resolved) dv;
                     ev ← get graph "dest_edges"; es ← js_map_to plain_edge ev;
                     Ok (ns, es)
                 end;
      ss ← get graph "sources"; entries ← js_map_to source_entry ss;
      se ← get graph "source_edges"; ses ← js_map_to source_edge se;
      t ← get graph "truncated";
      Ok (Some (mkSankey (toSources entries) vtzs bucketed.1 ses bucketed.2 t))
  end.

(** ** Connections and members *)

Definition toConnection (c : value) : result value :=
  ps ← renamed c [("destinationId", "destination_id"); ("destinationKind", "destination_kind"); ("observedAt", "observed_at")];
  Ok (VObj ps).

Definition toConnectionList (reply : value) : result value :=
  cs ← get reply "connections"; cs ← js_map toConnection cs; Ok (VObj [("connections", cs)]).

Record OverviewMember := mkOverviewMember {
  member_id : value; member_kind : value; member_name : value; connectionCount : value }.

Definition toMember (m : value) : result OverviewMember :=
  i ← get m "id"; k ← get m "kind"; n ← get m "display_name"; c ← get m "connection_count";
  Ok (mkOverviewMember i k n c).

Definition toMemberList (reply : value) : result (list OverviewMember) :=
  ms ← get reply "members"; js_map_to toMember ms.

Definition PRINCIPAL_MEMBER_KINDS : list string := ["agent_instance"; "mcp_server"; "user"].

(** The drawer reference a member opens: its kind and id. *)
Definition memberEntityRef (m : OverviewMember) : string * value :=
  if existsb (λ k, is_str k (member_kind m)) PRINCIPAL_MEMBER_KINDS then ("principal", member_id m)
  else ("object", member_id m).

(** ** Resolvers *)

Record OverviewQuery := mkQuery { q_since : option Z; q_until : option Z; q_limit : Z }.

(** [Math.floor(x / 1000)] *)
Definition to_seconds (x : Z) : Z := f64_floor (f64_div x (f64_ofZ 1000)).

Definition queryToWire (query : OverviewQuery) : value :=
  VObj [("request_id", vint 0); ("operator", VNull);
        ("since", match q_since query with Some x => VNum (to_seconds x) | None => VNull end);
        ("until", match q_until query with Some x => VNum (to_seconds x) | None => VNull end);
        ("limit", VNum (q_limit query))].

Definition MAX_CONNECTIONS_LIMIT : Z := 500.
Definition MAX_MEMBERS_LIMIT : Z := 500.

(** The reverse resolver with its configuration. *)
Record dns_service := mkDns { dns_ttlMs : Z; dns_maxConcurrent : Z; dns_state : resolver }.

(** [reverseDns?.namesFor(addresses)]: the names known now; lookups start for the rest.
    The loop is synchronous, so it reads one instant; an address is a string. *)
Definition names_for (dns : option dns_service) (addresses : list value) (now : Z)
    : option dns_service * option (list (string * string)) :=
  match dns with
  | None => (None, None)
  | Some d =>
      let queries := omap (λ a, match a with VStr s => Some (s, now) | _ => None end) addresses in
      let '(st, names) := namesFor (dns_ttlMs d) (dns_maxConcurrent d) (dns_state d) queries in
      (Some (mkDns (dns_ttlMs d) (dns_maxConcurrent d) st), Some names)
  end.

(** [names.get(address)] *)
Definition name_lookup (names : list (string * string)) (address : value) : option string :=
  match address with VStr a => map_get names a | _ => None end.

Section resolvers.
Context (client : string → value → result value).

(** The addresses are read only when there is a resolver; the resolver's state is
    returned beside the outcome. *)
Definition resolveOverviewSankey (principal : OperatorPrincipal) (query : OverviewQuery)
    (dns : option dns_service) (now : Z) : result OverviewSankey * option dns_service :=
  match awaited (connectivityGraph client principal (queryToWire query)) with
  | Throw e => (Throw e, dns)
  | Ok graph =>
      let addresses := match dns with
                       | Some _ => ds ← get graph "top_destinations"; js_map_to (λ d, get d "address") ds
                       | None => Ok []
                       end in
      match addresses with
      | Throw e => (Throw e, dns)
      | Ok addresses =>
          let '(dns, names) := names_for dns addresses now in
          (view ← toOverviewSankey graph (name_lookup <$> names) (Some classifyDestination);
           match view with None => Throw OverviewUnavailableError | Some view => Ok view end, dns)
      end
  end.

Definition resolveEntityConnections (principal : OperatorPrincipal) (subjectId subjectKind : string) : result value :=
  reply ← awaited (entityConnections client principal
    (VObj [("request_id", vint 0); ("operator", VNull); ("subject_id", VStr subjectId);
           ("subject_kind", VStr subjectKind); ("limit", vint MAX_CONNECTIONS_LIMIT)]));
  toConnectionList reply.

Definition isSourceContainer (v : string) : bool := bool_decide (v ∈ OVERVIEW_SOURCE_CATEGORIES).

(** The ring a container names, if it is one. *)
Definition destContainer (v : string) : option DestCategory :=
  List.find (λ c, bool_decide (category_name c = v)) OVERVIEW_DEST_CATEGORIES.

Definition membersRequest (engineClass : string) : value :=
  VObj [("request_id", vint 0); ("operator", VNull); ("class", VStr engineClass); ("limit", vint MAX_MEMBERS_LIMIT)].

(** The members of one ring, in order, under their simple names. *)
Fixpoint ring_members (ring : DestCategory) (names : option (list (string * string))) (members : list OverviewMember)
    : result (list OverviewMember) :=
  match members with
  | [] => Ok []
  | m :: members =>
      id ← as_string (member_id m);
      let c := classifyDestination id (names ≫= λ ns, map_get ns id) in
      rest ← ring_members ring names members;
      Ok (if bool_decide (category c = ring)
          then mkOverviewMember (member_id m) (member_kind m) (VStr (dest_name c)) (connectionCount m) :: rest
          else rest)
  end.

Definition rebucketDestMembers (members : list OverviewMember) (ring : DestCategory) (dns : option dns_service) (now : Z)
    : result (list OverviewMember) * option dns_service :=
  let '(dns, names) := names_for dns (map member_id members) now in
  (ring_members ring names members, dns).

Definition resolveClassMembers (principal : OperatorPrincipal) (container : string) (dns : option dns_service) (now : Z)
    : result (list OverviewMember) * option dns_service :=
  if isSourceContainer container then
    (reply ← awaited (connectivityMembers client principal (membersRequest container)); toMemberList reply, dns)
  else
    match destContainer container with
    | Some ring =>
        match (reply ← awaited (connectivityMembers client principal (membersRequest NETWORK_DEST_CLASS)); toMemberList reply) with
        | Throw e => (Throw e, dns)
        | Ok members => rebucketDestMembers members ring dns now
        end
    | None => (Throw (UnknownContainerError container), dns)
    end.
End resolvers.
End projection.
