(* ===== verification/OverviewProofs.v ===== *)
(** * What the Overview shows ([packages/contracts/src/overview.ts])

    Every listed destination is accounted for in exactly one ring, the graph fails closed,
    pages cover the zones, and a highlight is the paths through what is hovered. *)
From S2P Require Import Prelude Bytes Float64 Cbor JsValue JsString Num64 Rbac OperatorEngine Vtz Policies.
From S2P Require Import ReverseDns JsOps Destinations Overview.
From Stdlib Require Import Sorted.
From stdpp Require Import list.
Open Scope Z_scope.

#[global] Instance ClassifiedDestination_eq_dec : EqDecision ClassifiedDestination.
Proof. solve_decision. Defined.

(** A listed destination as plain data: its address, its resolved name, its count. *)
Record listing := mkListing { l_address : string; l_name : option string; l_count : Z }.

Definition lists (x : OverviewApp * option string) (p : listing) : Prop :=
  app_address x.1 = VStr (l_address p) ∧ app_count x.1 = vint (l_count p) ∧ x.2 = l_name p ∧ 0 ≤ l_count p.

Definition total (ps : list listing) : Z := foldr (λ p s, l_count p + s) 0 ps.

Lemma total_app ps qs : total (ps ++ qs) = total ps + total qs.
Proof. unfold total. induction ps as [|p ps IH]; cbn; [lia|]. fold (total qs) in *. lia. Qed.

Definition merge_key (c : DestCategory) (n : string) : string := category_name c +:+ String Ascii.zero n.

Lemma merge_key_inj c n c' n' : merge_key c n = merge_key c' n' → c = c' ∧ n = n'.
Proof.
  assert (∀ c, no_char Ascii.zero (category_name c) = true) as Hc by (by intros []).
  unfold merge_key.
  intros E. pose proof (cut_at_first Ascii.zero (category_name c) n (Hc c)) as H1.
  rewrite E, cut_at_first in H1 by done. injection H1 as H1 H2. split; [|done]. by destruct c, c'.
Qed.

Lemma map_set_keys {V} (m : list (string * V)) k v :
  map fst (map_set m k v) = if map_has m k then map fst m else map fst m ++ [k].
Proof.
  unfold map_has. induction m as [|[k' v'] m IH]; cbn; [done|].
  case_bool_decide as E; cbn; [by rewrite E|]. rewrite IH. by destruct (map_get m k).
Qed.

Lemma map_has_keys {V} (m : list (string * V)) k : map_has m k = true ↔ k ∈ map fst m.
Proof.
  unfold map_has. induction m as [|[k' v'] m IH]; cbn; [set_solver|].
  case_bool_decide; [set_solver|]. rewrite IH. set_solver.
Qed.

Lemma map_set_NoDup {V} (m : list (string * V)) k v : NoDup (map fst m) → NoDup (map fst (map_set m k v)).
Proof.
  intros Hm. rewrite map_set_keys. destruct (map_has m k) eqn:E; [done|].
  apply NoDup_app. split_and!; [done| |apply NoDup_singleton].
  intros x Hx ->%list_elem_of_singleton. apply map_has_keys in Hx. congruence.
Qed.

Lemma map_get_entry {V} (m : list (string * V)) k v : NoDup (map fst m) → (k, v) ∈ m ↔ map_get m k = Some v.
Proof.
  induction m as [|[k' v'] m IH]; cbn; [set_solver|]. intros [Hk Hm]%NoDup_cons. case_bool_decide as E.
  - subst. split; [|set_solver]. intros [[= ->]|Hin]%elem_of_cons; [done|].
    destruct Hk. apply (list_elem_of_fmap_2 fst) in Hin. done.
  - rewrite elem_of_cons, IH by done. naive_solver.
Qed.

Section accounting.
Context {TN : ToNumberOther} {AO : ArithOther} {LC : LocaleCompare}.
Context (classify : string → option string → ClassifiedDestination).

Definition class_of (p : listing) : ClassifiedDestination := classify (l_address p) (l_name p).

(** The destinations listed under one name of one ring. *)
Definition contributors (c : DestCategory) (n : string) (ps : list listing) : list listing :=
  filter (λ p, class_of p = mkClassified c n) ps.

(** The entry they make. *)
Definition entry (n : string) (ps : list listing) : option OverviewApp :=
  match ps with
  | [] => None
  | p :: _ => Some (mkApp (VStr n) (VStr (l_address p)) (vint (total ps)))
  end.

Record merged_ok (m : list (string * (DestCategory * OverviewApp))) (ps : list listing) : Prop := {
  mk_nodup : NoDup (map fst m);
  mk_len : (length m ≤ length ps)%nat;
  mk_keys : ∀ k, k ∈ map fst m → ∃ c n, k = merge_key c n;
  mk_get : ∀ c n, map_get m (merge_key c n) = option_map (pair c) (entry n (contributors c n ps))
}.

Lemma merged_nil : merged_ok [] [].
Proof. split; cbn; [constructor|lia|set_solver|done]. Qed.

Lemma total_sublist ps c n : Forall (λ p, 0 ≤ l_count p) ps → 0 ≤ total (contributors c n ps) ≤ total ps.
Proof.
  unfold contributors. induction 1 as [|p ps Hp Hps IH]; [by cbn|]. rewrite filter_cons.
  destruct (decide _); cbn; fold (total ps) (total (filter (λ p, class_of p = mkClassified c n) ps)); lia.
Qed.

Lemma merge_app_ok m ps x p :
  merged_ok m ps → lists x p → Forall (λ p, 0 ≤ l_count p) ps → total (ps ++ [p]) ≤ MAX_SAFE →
  ∃ m', merge_app classify m x = Ok m' ∧ merged_ok m' (ps ++ [p]).
Proof.
  intros [Hn Hlen Hk Hg] (Ha & Hc & Hr & Hnn) Hps Hsum. destruct x as [app r]. cbn in *. subst r. unfold merge_app.
  rewrite Ha. cbn [as_string mbind result_bind]. fold (class_of p).
  destruct (class_of p) as [c n] eqn:Ecl. fold (merge_key c n). rewrite Hg.
  assert (∀ c' n', contributors c' n' (ps ++ [p]) =
            contributors c' n' ps ++ if decide (c' = c ∧ n' = n) then [p] else []) as Hcon.
  { intros c' n'. unfold contributors. rewrite list.filter_app. f_equal. rewrite filter_cons, Ecl.
    destruct (decide (mkClassified c n = mkClassified c' n')), (decide (c' = c ∧ n' = n)); naive_solver. }
  rewrite total_app in Hsum. change (total [p]) with (l_count p + 0) in Hsum.
  assert (∀ app', entry n (contributors c n (ps ++ [p])) = Some app' →
          merged_ok (map_set m (merge_key c n) (c, app')) (ps ++ [p])) as Hset.
  { intros app' E. split.
    - by apply map_set_NoDup.
    - rewrite map_set_length, length_app. cbn. destruct (map_has m (merge_key c n)); lia.
    - intros k. rewrite map_set_keys. destruct (map_has m (merge_key c n)); [apply Hk|].
      intros [?| ->%list_elem_of_singleton]%elem_of_app; eauto.
    - intros c' n'. destruct (decide (c' = c ∧ n' = n)) as [[-> ->]|Hne]; [by rewrite map_get_set, E|].
      rewrite map_get_set_ne by (intros E'%merge_key_inj; naive_solver).
      rewrite Hg, Hcon. rewrite decide_False by done. by rewrite app_nil_r. }
  pose proof (total_sublist ps c n Hps) as Ht.
  destruct (contributors c n ps) as [|p0 rest] eqn:E0; cbn [option_map entry].
  - eexists; split; [done|]. apply Hset. rewrite Hcon, E0, decide_True by done. cbn. rewrite Hc.
    by rewrite Z.add_0_r.
  - rewrite Hc. cbn [app_count]. unfold js_add, js_arith, vint. rewrite f64_add_ofZ by (unfold MAX_SAFE in *; lia).
    cbn [mbind result_bind]. eexists; split; [done|]. apply Hset. rewrite Hcon, E0, decide_True by done.
    change ((p0 :: rest) ++ [p]) with (p0 :: rest ++ [p]). cbn [entry app_name app_address]. rewrite app_comm_cons, total_app.
    change (total [p]) with (l_count p + 0). by rewrite Z.add_0_r.
Qed.

Lemma merge_apps_ok items rest seen m :
  Forall2 lists items rest → merged_ok m seen → Forall (λ p, 0 ≤ l_count p) seen → total (seen ++ rest) ≤ MAX_SAFE →
  ∃ m', merge_apps classify m items = Ok m' ∧ merged_ok m' (seen ++ rest).
Proof.
  intros HF. revert seen m. induction HF as [|x p items rest Hx HF IH]; intros seen m Hm Hs Ht; cbn.
  - exists m. by rewrite app_nil_r.
  - rewrite (cons_middle p seen rest), (assoc_L (++)) in Ht |- *.
    assert (0 ≤ total rest) as Hrest.
    { clear -HF. induction HF as [|y q ys qs (_ & _ & _ & ?) ? IH]; [done|]. unfold total in *. cbn. lia. }
    destruct (merge_app_ok m seen x p) as (m' & -> & Hm'); [done..| |].
    { rewrite total_app in Ht. lia. }
    cbn. apply IH; [done| |done]. apply Forall_app. split; [done|]. constructor; [apply Hx|constructor].
Qed.

(** ** The lists of a ring *)

(** The rank of an entry: its count and its name. *)
Definition ranked (a : OverviewApp) (k : Z) (n : string) : Prop := app_count a = vint k ∧ app_name a = VStr n ∧ 0 ≤ k ≤ MAX_SAFE.

(** Higher counts first, then by name. *)
Definition before (a b : OverviewApp) : Prop :=
  ∃ ka na kb nb, ranked a ka na ∧ ranked b kb nb ∧ (kb < ka ∨ (ka = kb ∧ localeCompare na nb ≤ 0)).

Lemma ranked_fun a k n k' n' : ranked a k n → ranked a k' n' → k = k' ∧ n = n'.
Proof.
  intros (E1 & E2 & H1) (E3 & E4 & H2). rewrite E1 in E3. rewrite E2 in E4.
  split; [|congruence]. unfold vint, MAX_SAFE in *. injection E3 as E3. apply f64_ofZ_inj in E3; unfold MAX_SAFE; lia.
Qed.

Context (locale_total : ∀ x y, 0 < localeCompare x y → localeCompare y x ≤ 0).
Context (locale_trans : ∀ x y z, localeCompare x y ≤ 0 → localeCompare y z ≤ 0 → localeCompare x z ≤ 0).

#[local] Instance before_trans : Transitive before.
Proof using locale_trans.
  intros a b c (ka & na & kb & nb & Ha & Hb & H1) (kb' & nb' & kc & nc & Hb' & Hc & H2).
  destruct (ranked_fun _ _ _ _ _ Hb Hb') as [<- <-]. exists ka, na, kc, nc. split_and!; [done..|].
  destruct H1 as [?|[-> ?]], H2 as [?|[-> ?]]; [left; lia..|right; eauto].
Qed.

Lemma compare_apps_ok a b ka na kb nb :
  ranked a ka na → ranked b kb nb → ∃ c, compare_apps a b = Ok c ∧ (c ≤ 0 → before a b) ∧ (0 < c → before b a).
Proof using locale_total.
  intros Ha Hb. pose proof Ha as (E1 & E2 & H1). pose proof Hb as (E3 & E4 & H2). unfold MAX_SAFE in *.
  unfold compare_apps, js_sub, js_arith. rewrite E1, E2, E3, E4. unfold vint.
  rewrite f64_sub_ofZ by (unfold MAX_SAFE; lia). cbn [mbind result_bind as_string].
  destruct (f64_ofZ_spec (kb - ka)) as (_ & _ & -> & _); [unfold MAX_SAFE; lia|].
  destruct (f64_key_ofZ (kb - ka)) as [Hlt Heq]; [unfold MAX_SAFE; lia|]. cbn [orb].
  destruct (Z.eqb_spec (f64_key (f64_ofZ (kb - ka))) 0) as [E|E].
  - apply Heq in E. eexists; split; [done|]. split; intros Hc.
    + exists ka, na, kb, nb. split_and!; [done..|]. right. split; [lia|done].
    + exists kb, nb, ka, na. split_and!; [done..|]. right. split; [lia|auto].
  - eexists; split; [done|]. split; intros Hc.
    + exists ka, na, kb, nb. split_and!; [done..|]. left. assert (kb - ka < 0) by (apply Hlt; lia). lia.
    + exists kb, nb, ka, na. split_and!; [done..|]. left.
      assert (¬ kb - ka < 0) by (rewrite <- Hlt; lia). assert (kb - ka ≠ 0) by (by rewrite <- Heq). lia.
Qed.

(** What a ring lists: one entry per name, with everything merged under it. *)
Definition lists_ring (c : DestCategory) (ps : list listing) (l : list OverviewApp) : Prop :=
  (∀ app, app ∈ l ↔ ∃ n, entry n (contributors c n ps) = Some app) ∧ NoDup (map app_name l) ∧ StronglySorted before l.

Lemma entry_ranked c n ps app :
  entry n (contributors c n ps) = Some app → Forall (λ p, 0 ≤ l_count p) ps → total ps ≤ MAX_SAFE → ∃ k, ranked app k n.
Proof using.
  intros E Hps Ht. pose proof (total_sublist ps c n Hps) as Hs. unfold entry in E.
  destruct (contributors c n ps); simplify_eq. eexists. split_and!; [done|done|..]; cbn in *; lia.
Qed.

Lemma category_apps_ok m ps c :
  merged_ok m ps → Forall (λ p, 0 ≤ l_count p) ps → total ps ≤ MAX_SAFE →
  ∃ l, category_apps m c = Ok l ∧ lists_ring c ps l ∧ (length l ≤ length ps)%nat.
Proof using locale_total locale_trans.
  intros [Hn Hlen Hk Hg] Hps Ht. unfold category_apps. set (sel := filter _ m).
  assert (∀ app, app ∈ map (λ e, e.2.2) sel ↔ ∃ n, entry n (contributors c n ps) = Some app) as Hin.
  { intros app. unfold sel. rewrite list_elem_of_fmap. setoid_rewrite list_elem_of_filter. split.
    - intros ([k [c' app']] & -> & [Hc' Hm]). cbn in *. subst c'. pose proof Hm as Hm'. apply map_get_entry in Hm; [|done].
      destruct (Hk k) as (c1 & n1 & ->); [by apply (list_elem_of_fmap_2 fst) in Hm'|].
      rewrite Hg in Hm. destruct (entry n1 (contributors c1 n1 ps)) as [a|] eqn:E; cbn in Hm; simplify_eq. eauto.
    - intros (n & E). exists (merge_key c n, (c, app)). split; [done|]. split; [done|].
      apply map_get_entry; [done|]. by rewrite Hg, E. }
  assert (NoDup (map (λ e, app_name e.2.2) sel)) as Hnd.
  { apply NoDup_fmap_2_strong.
    - intros [k1 [c1 a1]] [k2 [c2 a2]]. unfold sel. rewrite !list_elem_of_filter. cbn. intros [-> H1] [-> H2] E.
      assert (∀ k a, (k, (c, a)) ∈ m → ∃ n, k = merge_key c n ∧ entry n (contributors c n ps) = Some a) as Hent.
      { intros k a Hm. pose proof Hm as Hm'. apply map_get_entry in Hm; [|done].
        destruct (Hk k) as (c1 & n1 & ->); [by apply (list_elem_of_fmap_2 fst) in Hm'|].
        rewrite Hg in Hm. destruct (entry n1 (contributors c1 n1 ps)) as [a0|] eqn:E0; cbn in Hm; simplify_eq. eauto. }
      destruct (Hent _ _ H1) as (n1 & -> & E1), (Hent _ _ H2) as (n2 & -> & E2).
      assert (n1 = n2) as ->.
      { unfold entry in E1, E2. destruct (contributors c n1 ps), (contributors c n2 ps); by simplify_eq/=. }
      congruence.
    - unfold sel. apply NoDup_filter. eapply (NoDup_fmap_1 fst). done. }
  destruct (js_sort_sorted compare_apps (λ a, ∃ k n, ranked a k n) before) with (l := map (λ e, e.2.2) sel)
    as (l & E & Hs & Hp).
  - intros x y (kx & nx & Hx) (ky & ny & Hy). by eapply compare_apps_ok.
  - apply Forall_forall. intros app (n & E)%Hin. destruct (entry_ranked c n ps app) as [k ?]; eauto.
  - exists l. split; [done|]. split; [split_and!; [|by rewrite Hp, map_map|done]|].
    + intros app. rewrite Hp. apply Hin.
    + rewrite Hp, length_map. unfold sel. pose proof (length_filter (λ e, e.2.1 = c) m). lia.
Qed.

(** ** The whole column *)

(** The reply's destinations carry numbers of endpoints. *)
Definition counted (d : value) : Prop :=
  ∃ class n, get d "class" = Ok class ∧ get d "count" = Ok (vint n) ∧ 0 ≤ n ≤ 2 ^ 52.

Definition weighted (e : value) : Prop :=
  ∃ class vtz w, get e "dest_class" = Ok class ∧ get e "vtz_id" = Ok vtz ∧ get e "weight" = Ok (VNum w).

Lemma engine_count_ok ds class :
  Forall counted ds → ∃ n, engine_count ds class = Ok (vint n) ∧ 0 ≤ n ≤ 2 ^ 52.
Proof using.
  intros Hds. unfold engine_count.
  assert (∃ o, js_find (λ d, x ← get d "class"; Ok (is_str class x)) ds = Ok o ∧ ∀ d, o = Some d → counted d) as (o & -> & Ho).
  { induction Hds as [|d ds Hd Hds (o & E & Ho)]; cbn; [by exists None|]. pose proof Hd as (cl & n & -> & _). cbn.
    destruct (is_str class cl); [|eauto]. exists (Some d). split; [done|]. by intros ? [= <-]. }
  cbn. destruct o as [d|]; [|by exists 0]. destruct (Ho d eq_refl) as (cl & n & _ & -> & Hn). by exists n.
Qed.

Lemma sum_VNum {A} (f : A → value) l (s : Z) :
  Forall (λ x, ∃ k, f x = VNum k) l → ∃ t, foldl (λ s x, s ← s; js_add s (f x)) (Ok (VNum s)) l = Ok (VNum t).
Proof using.
  intros Hl. revert s. induction Hl as [|x l (k & E) Hl IH]; intros s; cbn; [eauto|]. rewrite E. cbn. apply IH.
Qed.

Lemma split_edge_ok conns total e :
  Forall (λ cv, ∃ k, cv.2 = VNum k) conns → weighted e → ∃ out, split_edge conns (VNum total) e = Ok out.
Proof using.
  intros Hc (class & vtz & w & E1 & E2 & E3). unfold split_edge. rewrite E1, E2, E3. cbn [mbind result_bind].
  destruct (_ || _); [eauto|]. destruct (mapM_ok (λ cv : DestCategory * value, share ← js_div cv.2 (VNum total);
      if value_positive share then w0 ← js_mul (VNum w) share; Ok [mkDestEdge vtz (VStr (category_name cv.1)) w0] else Ok [])
      (λ _ _, True) conns) as (parts & -> & _); [|cbn; eauto].
  eapply Forall_impl; [exact Hc|]. intros [c v] (k & E). cbn in E. subst v. cbn. case_match; eauto.
Qed.

(** What a ring shows: the listed entries, and as many more as the engine counted beyond
    them. *)
Record ring_ok (ds : list value) (ps : list listing) (c : DestCategory) (node : OverviewDestNode) : Prop := {
  ring_class : dest_class node = VStr (category_name c);
  ring_apps : lists_ring c ps (apps node);
  ring_count : ∃ n more, engine_count ds (category_name c) = Ok (vint n) ∧
    more = (if is_network c then Z.max 0 (n - Z.of_nat (length ps)) else n) ∧
    moreCount node = vint more ∧ dest_count node = vint (Z.of_nat (length (apps node)) + more)
}.

(** The list of a category, among one list per category. *)
Lemma find_list (ls : list (DestCategory * list OverviewApp)) (R : DestCategory → list OverviewApp → Prop) c :
  Forall2 (λ c e, e.1 = c ∧ R c e.2) OVERVIEW_DEST_CATEGORIES ls → c ∈ OVERVIEW_DEST_CATEGORIES →
  ∃ l, snd <$> List.find (λ e, bool_decide (e.1 = c)) ls = Some l ∧ R c l.
Proof using.
  clear locale_total locale_trans. generalize OVERVIEW_DEST_CATEGORIES as cs. induction 1 as [|c' [c0 l] cs ls [E HR] HF IH]; [set_solver|].
  cbn in *. subst c0. intros [<-|Hin]%elem_of_cons.
  - rewrite bool_decide_true by done. by exists l.
  - case_bool_decide as E; [subst; by exists l|auto].
Qed.

Lemma rebucket_ok graph items ps ds es :
  Forall2 lists items ps → total ps ≤ MAX_SAFE → Z.of_nat (length ps) < 2 ^ 32 →
  get graph "destinations" = Ok (VArr ds) → Forall counted ds →
  get graph "dest_edges" = Ok (VArr es) → Forall weighted es →
  ∃ rings extra edges, rebucketDestinations graph items classify = Ok (rings ++ extra, edges) ∧
    Forall2 (ring_ok ds ps) OVERVIEW_DEST_CATEGORIES rings.
Proof using locale_total locale_trans.
  intros HF Ht Hlen Eds Hds Ees Hes.
  assert (Forall (λ p, 0 ≤ l_count p) ps) as Hps by (clear -HF; induction HF as [|??? ? (_ & _ & _ & ?)]; by constructor).
  destruct (merge_apps_ok items ps [] []) as (m & Em & Hm); [done|apply merged_nil|constructor|done|].
  assert (length items = length ps) as Hl by (by eapply Forall2_length).
  unfold rebucketDestinations. rewrite Em. cbn [mbind result_bind].
  destruct (mapM_ok (λ c, l ← category_apps m c; Ok (c, l)) (λ c e, e.1 = c ∧ lists_ring c ps e.2 ∧ (length e.2 ≤ length ps)%nat) OVERVIEW_DEST_CATEGORIES)
    as (ls & Els & Hls).
  { apply Forall_forall. intros c _. destruct (category_apps_ok m ps c) as (l & -> & Hr & Hll); [done..|]. cbn. eauto. }
  rewrite Els, Eds. cbn [mbind result_bind js_array].
  destruct (engine_count_ok ds NETWORK_DEST_CLASS Hds) as (n & En & Hn). rewrite En. cbn [mbind result_bind].
  change (2 ^ 52) with 4503599627370496 in *. rewrite Hl, js_sub_int by (unfold MAX_SAFE; lia). cbn [mbind result_bind].
  rewrite js_max0_int by (unfold MAX_SAFE; lia). cbn [mbind result_bind].
  set (tail := Z.max 0 (n - Z.of_nat (length ps))).
  destruct (mapM_ok (ring ds (vint tail) ls) (ring_ok ds ps) OVERVIEW_DEST_CATEGORIES) as (rings & Er & Hr).
  { apply Forall_forall. intros c Hc. unfold ring.
    assert (∃ l, snd <$> List.find (λ e, bool_decide (e.1 = c)) ls = Some l ∧ lists_ring c ps l ∧ (length l ≤ length ps)%nat) as (l & -> & Hrl & Hll).
    { by apply (find_list ls (λ c l, lists_ring c ps l ∧ (length l ≤ length ps)%nat)). }
    destruct (engine_count_ok ds (category_name c) Hds) as (nc & Enc & Hnc).
    set (more := if is_network c then tail else nc).
    assert ((if is_network c then Ok (vint tail) else engine_count ds (category_name c)) = Ok (vint more)) as ->.
    { unfold more. by destruct (is_network c). }
    cbn [mbind result_bind from_option]. unfold id.
    rewrite js_add_int by (unfold MAX_SAFE, more, tail in *; destruct (is_network c); lia). cbn [mbind result_bind].
    eexists. split; [done|]. split; cbn; [done..|]. exists nc, more. split_and!; [done| |done|done].
    unfold more. destruct (is_network c) eqn:E; [|done]. apply bool_decide_eq_true in E. subst c.
    unfold tail. do 2 f_equal. change (category_name network) with NETWORK_DEST_CLASS in Enc. rewrite En in Enc.
    unfold vint in Enc. injection Enc as Enc. apply f64_ofZ_inj in Enc; unfold MAX_SAFE; lia. }
  rewrite Er. cbn [mbind result_bind].
  destruct (mapM_ok passthrough (λ _ _, True) ds) as (extra & -> & _).
  { eapply Forall_impl; [exact Hds|]. intros d (cl & k & E1 & E2 & _). unfold passthrough. rewrite E1, E2. cbn. eauto. }
  cbn [mbind result_bind].
  destruct (mapM_ok (λ e : DestCategory * list OverviewApp, s ← sum_counts e.2; Ok (e.1, s)) (λ _ cv, ∃ k, cv.2 = VNum k) ls)
    as (conns & -> & Hconns).
  { apply Forall_forall. intros [c l] Hc. cbn.
    assert (∃ c', lists_ring c' ps l) as (c' & Hrl & _).
    { clear -Hls Hc. induction Hls as [|c0 e cs es (_ & H & _) HF IH]; [set_solver|].
      apply elem_of_cons in Hc as [<-|Hc]; [by exists c0|auto]. }
    destruct (sum_VNum app_count l 0) as (k & E).
    - apply Forall_forall. intros app (n' & E)%Hrl. destruct (entry_ranked c' n' ps app E Hps Ht) as (k & Hk & _). eauto.
    - unfold sum_counts. change (vint 0) with (VNum 0). rewrite E. cbn. eauto. }
  assert (Forall (λ cv : DestCategory * value, ∃ k, cv.2 = VNum k) conns) as Hc' by (clear -Hconns; induction Hconns; by constructor).
  cbn [mbind result_bind]. destruct (sum_VNum (snd : DestCategory * value → value) conns 0 Hc') as (k & E).
  change (vint 0) with (VNum 0). rewrite E, Ees. cbn [mbind result_bind js_iterate js_spread].
  destruct (mapM_ok (split_edge conns (VNum k)) (λ _ _, True) es) as (edges & Ee & _).
  { eapply Forall_impl; [exact Hes|]. intros e He. destruct (split_edge_ok conns k e Hc' He) as [out ->]. eauto. }
  rewrite Ee. cbn. eauto.
Qed.
End accounting.

(** every destination the engine lists is shown in exactly one ring, with its
    connections counted once.  Whatever the classifier, when the listed counts are numbers
    of connections that add up exactly, the right column has the four rings in order; a
    ring lists one entry per name its destinations are classified under, with the address
    of the first of them and the sum of their counts, the names distinct, higher counts
    first and equal counts in the locale's order; its count is what it lists plus what it
    says is more, which is what the engine counted beyond the listed endpoints (for the
    network ring) or in that class. *)
Theorem destinations_accounted {TN : ToNumberOther} {AO : ArithOther} {LC : LocaleCompare} classify graph items ps ds es :
  (∀ x y, 0 < localeCompare x y → localeCompare y x ≤ 0) →
  (∀ x y z, localeCompare x y ≤ 0 → localeCompare y z ≤ 0 → localeCompare x z ≤ 0) →
  Forall2 lists items ps → total ps ≤ MAX_SAFE → Z.of_nat (length ps) < 2 ^ 32 →
  get graph "destinations" = Ok (VArr ds) → Forall counted ds →
  get graph "dest_edges" = Ok (VArr es) → Forall weighted es →
  ∃ rings extra edges, rebucketDestinations graph items classify = Ok (rings ++ extra, edges) ∧
    Forall2 (ring_ok classify ds ps) OVERVIEW_DEST_CATEGORIES rings.
Proof. intros. by eapply rebucket_ok. Qed.

(** Two addresses of one brand, a database and a plain host. *)
Definition sample_listings : list listing :=
  [mkListing "140.82.112.5:443" (Some "lb-140-82-112-5-iad.github.com") 7; mkListing "10.0.0.3:5432" None 4;
   mkListing "140.82.114.6" (Some "lb.github.com") 2; mkListing "203.0.113.9" None 1].
Definition sample_items : list (OverviewApp * option string) :=
  map (λ p, (mkApp (VStr (l_address p)) (VStr (l_address p)) (vint (l_count p)), l_name p)) sample_listings.
Definition sample_destinations : list value := [VObj [("class", VStr "network"); ("count", vint 9)]].
Definition sample_edges : list value :=
  [VObj [("vtz_id", VStr "z"); ("dest_class", VStr "network"); ("weight", vint 14)]].
Definition sample_graph : value := VObj [("destinations", VArr sample_destinations); ("dest_edges", VArr sample_edges)].

Lemma destinations_accounted_witness :
  ∃ rings extra edges,
    @rebucketDestinations (λ _, 0) (λ _ _ _, Ok VNull) (λ x y, Z.of_nat (String.length x) - Z.of_nat (String.length y))
      sample_graph sample_items classifyDestination = Ok (rings ++ extra, edges) ∧
    Forall2 (@ring_ok (λ x y, Z.of_nat (String.length x) - Z.of_nat (String.length y)) classifyDestination
      sample_destinations sample_listings) OVERVIEW_DEST_CATEGORIES rings.
Proof.
  apply (@destinations_accounted (λ _, 0) (λ _ _ _, Ok VNull) (λ x y, Z.of_nat (String.length x) - Z.of_nat (String.length y))
           classifyDestination sample_graph sample_items sample_listings sample_destinations sample_edges).
  - intros x y. unfold localeCompare. lia.
  - intros x y z. unfold localeCompare. lia.
  - repeat constructor; cbn; lia.
  - by vm_compute.
  - by vm_compute.
  - reflexivity.
  - repeat constructor. exists (VStr "network"), 9. repeat split; lia.
  - reflexivity.
  - repeat constructor. by exists (VStr "network"), (VStr "z"), (f64_ofZ 14).
Defined.

(** ** Paging *)

Lemma pages_cover {A} (l : list A) n :
  (length l ≤ 3 * n)%nat → concat (map (λ i, take 3 (drop (i * 3) l)) (seq 0 n)) = l.
Proof.
  revert l. induction n as [|n IH]; intros l Hl; [by destruct l; cbn in Hl; [|lia]|].
  rewrite <- cons_seq. cbn [map concat]. rewrite <- fmap_S_seq. rewrite <- list_fmap_compose.
  rewrite drop_0. rewrite (list_fmap_ext _ (λ i, take 3 (drop (i * 3) (drop 3 l)))).
  - rewrite IH; [apply take_drop|]. rewrite length_drop. lia.
  - intros i x _. cbn. rewrite drop_drop. do 2 f_equal; lia.
Qed.

(** The pages, in order, show every zone once, three to a page; and whatever page is asked
    for, a tenant with zones is shown some. *)
Theorem pages_partition {A} (zones : list A) :
  concat (map (λ i, overviewVtzPage zones (Z.of_nat i)) (seq 0 (Z.to_nat (overviewVtzPageCount (Z.of_nat (length zones)))))) = zones ∧
  ∀ page, (length (overviewVtzPage zones page) ≤ 3)%nat ∧ (zones ≠ [] → overviewVtzPage zones page ≠ []).
Proof.
  unfold overviewVtzPage, overviewVtzPageCount, OVERVIEW_VTZS_PER_PAGE.
  set (pages := Z.max 1 ((Z.of_nat (length zones) + 2) / 3)).
  assert (3 * ((Z.of_nat (length zones) + 2) / 3) ≤ Z.of_nat (length zones) + 2 <
          3 * ((Z.of_nat (length zones) + 2) / 3) + 3) as Hdiv
    by (pose proof (Z.div_mod (Z.of_nat (length zones) + 2) 3); pose proof (Z.mod_pos_bound (Z.of_nat (length zones) + 2) 3); lia).
  split.
  - etrans; [|apply (pages_cover zones (Z.to_nat pages)); unfold pages; lia].
    f_equal. apply map_ext_in. intros i Hi%in_seq. cbn [Z.to_nat Pos.to_nat]. do 2 f_equal. lia.
  - intros page. split; [rewrite length_take; lia|]. intros Hne E.
    apply (f_equal length) in E. rewrite length_take, length_drop in E. cbn in E.
    destruct zones as [|z zs]; [done|]. cbn [length] in *. unfold pages in *. lia.
Qed.

(** ** Highlighting *)

Lemma to_set_elem xs x : x ∈ to_set xs ↔ x ∈ xs.
Proof. unfold to_set. rewrite (proj2 (dedupe_spec [] xs)). set_solver. Qed.

(** Hovering a ring keeps the ribbons into it, the zones they leave, and the ribbons into
    those zones; hovering a lane is the mirror image. *)
Theorem highlight_exact ses des c :
  let h := overviewHighlight ses des c in
  let h' := overviewHighlightSource ses des c in
  (∀ z, z ∈ vtzIds h ↔ ∃ e, e ∈ des ∧ lane e = c ∧ zone e = z) ∧
  (∀ k, k ∈ destEdgeKeys h ↔ ∃ e, e ∈ des ∧ lane e = c ∧ k = destEdgeKey e) ∧
  (∀ k, k ∈ sourceEdgeKeys h ↔ ∃ e d, e ∈ ses ∧ d ∈ des ∧ lane d = c ∧ zone d = zone e ∧ k = sourceEdgeKey e) ∧
  (∀ z, z ∈ vtzIds h' ↔ ∃ e, e ∈ ses ∧ lane e = c ∧ zone e = z) ∧
  (∀ k, k ∈ sourceEdgeKeys h' ↔ ∃ e, e ∈ ses ∧ lane e = c ∧ k = sourceEdgeKey e) ∧
  (∀ k, k ∈ destEdgeKeys h' ↔ ∃ e s, e ∈ des ∧ s ∈ ses ∧ lane s = c ∧ zone s = zone e ∧ k = destEdgeKey e).
Proof.
  cbv zeta. cbn [overviewHighlight overviewHighlightSource vtzIds sourceEdgeKeys destEdgeKeys].
  split_and!; intros k; rewrite to_set_elem, list_elem_of_fmap; setoid_rewrite list_elem_of_filter;
    try setoid_rewrite to_set_elem; try setoid_rewrite list_elem_of_fmap; try setoid_rewrite list_elem_of_filter; naive_solver.
Qed.
