(* ===== verification/Users.v ===== *)
(** * Users, groups and identity providers
    ([packages/contracts/src/users.ts], [apps/bff/src/engine/users.ts], [idam.ts])

    The directory of principals merged with the agents, the provisioning commands, and the
    connector cards with their derived state. *)
From S2P Require Import Prelude Bytes Float64 Cbor JsValue JsString Num64 Rbac OperatorEngine Vtz Policies JsOps.
From Stdlib Require Import Sorted.
From stdpp Require Import list.
Open Scope Z_scope.

Definition PRINCIPAL_KINDS : list string := ["human"; "service"; "agent"].
Definition PRINCIPAL_STATUSES : list string := ["active"; "suspended"; "revoked"; "disabled"; "compromised"].
Definition PRINCIPAL_ORIGINS : list string := ["local"; "observed"].
Definition IDAM_SYNC_OUTCOMES : list string := ["complete"; "partial"; "failed"].

Record PrincipalRow := mkPrincipalRow {
  pr_id : value; username : value; namespace : value; pr_kind : string; pr_status : string; origin : string;
  pr_email : value; org : value; groups : value; subjectId : value; privileges : value; firstSeen : value;
  boundConnector : value; bindingStatus : value; ownedFields : value }.

Definition toPrincipalRow (record : value) : result (option PrincipalRow) :=
  k ← get record "account_type"; s ← get record "status"; o ← get record "origin";
  match toTag PRINCIPAL_KINDS k, toTag PRINCIPAL_STATUSES s, toTag PRINCIPAL_ORIGINS o with
  | Some k, Some s, Some o =>
      i ← get record "principal_id"; u ← get record "username"; n ← get record "namespace";
      e ← get record "email"; g ← get record "org"; gs ← get record "groups"; sid ← get_or_null record "subject_id";
      ps ← get record "privileges"; f ← get record "first_seen"; bc ← get_or_null record "bound_connector";
      bs ← get_or_null record "binding_status"; ow ← get record "owned_fields";
      Ok (Some (mkPrincipalRow i u n k s o e g gs sid ps f bc bs ow))
  | _, _, _ => Ok None
  end.

Definition toPrincipalRows (reply : value) : result (option (list PrincipalRow)) :=
  ps ← get reply "principals"; items ← js_iterate ps; project_all toPrincipalRow items.

Definition toGroupCard (record : value) : result value :=
  ps ← renamed record [("groupId", "group_id"); ("name", "name"); ("namespace", "namespace"); ("builtIn", "built_in");
                       ("memberCount", "member_count"); ("description", "description")];
  Ok (VObj ps).

Definition toAgentPrincipalRow (record : value) : result (option PrincipalRow) :=
  s ← get record "status";
  match toTag PRINCIPAL_STATUSES s with
  | None => Ok None
  | Some s =>
      i ← get record "agent_id"; e ← get record "enrolled_at";
      Ok (Some (mkPrincipalRow i i (VStr "aig") "agent" s "observed" (VStr "") (VStr "") (VArr []) VNull (VArr []) e
                  VNull VNull (VArr [])))
  end.

Definition toGroupCards (reply : value) : result value := gs ← get reply "groups"; js_map toGroupCard gs.

(** A draft of the Add User form; the boundary check is the server's. *)
Record PrincipalDraft := mkPrincipalDraft {
  pd_username : string; pd_kind : string; pd_email : option string; pd_org : option string }.

Definition optional (k : string) (v : option string) : props :=
  match v with Some s => [(k, VStr s)] | None => [] end.

Definition toWirePrincipalSpec (draft : PrincipalDraft) : value :=
  VObj ([("username", VStr (pd_username draft)); ("subject_type", VStr (pd_kind draft))] ++
        optional "email" (pd_email draft) ++ optional "org" (pd_org draft)).

Definition toProvisionReceipt (reply : value) : result value :=
  v ← get reply "commit_version"; Ok (VObj [("commitVersion", v)]).

(** ** Connectors *)

Definition toIdamSyncOutcome (tag : value) : option string :=
  if is_nullish tag then None else toTag IDAM_SYNC_OUTCOMES tag.

Inductive IdamConnectorState := idam_disabled | never_synced | healthy | idam_partial | idam_error | idam_unknown.
Definition idam_state_name (s : IdamConnectorState) : string :=
  match s with
  | idam_disabled => "disabled" | never_synced => "never-synced" | healthy => "healthy"
  | idam_partial => "partial" | idam_error => "error" | idam_unknown => "unknown"
  end.

Definition deriveIdamState (record : value) : result IdamConnectorState :=
  enabled ← get record "enabled"; err ← get record "last_error";
  at_ ← get record "last_sync_unix_ms"; done_ ← get record "last_completeness";
  Ok (if falsy enabled then idam_disabled
      else if negb (is_nullish err) then idam_error
      else if is_nullish at_ then never_synced
      else match toIdamSyncOutcome done_ with
           | Some o => if bool_decide (o = "complete") then healthy
                       else if bool_decide (o = "partial") then idam_partial
                       else if bool_decide (o = "failed") then idam_error else idam_unknown
           | None => idam_unknown
           end).

Definition toIdamConnector (record : value) : result value :=
  ids ← renamed record [("connectorId", "provider"); ("displayName", "display_name"); ("providerTenant", "provider_tenant")];
  state ← deriveIdamState record;
  en ← renamed record [("enabled", "enabled"); ("running", "running")];
  at_ ← get_or_null record "last_sync_unix_ms"; done_ ← get record "last_completeness";
  n ← get record "objects_synced"; err ← get_or_null record "last_error";
  p ← get record "poll_interval_secs"; f ← get record "full_sync_cadence_hours";
  Ok (VObj (ids ++ [("state", VStr (idam_state_name state))] ++ en ++
            [("lastSyncAt", at_);
             ("lastSyncOutcome", match toIdamSyncOutcome done_ with Some o => VStr o | None => VNull end);
             ("objectsSynced", n); ("lastError", err); ("pollIntervalSecs", p); ("fullSyncCadenceHours", f)])).

Definition toIdamConnectors (reply : value) : result value := cs ← get reply "connectors"; js_map toIdamConnector cs.

Definition toSyncReceipt (reply : value) : result value := p ← get reply "provider"; Ok (VObj [("provider", p)]).

Record IdamConnectorDraft := mkIdamDraft {
  id_provider : string; id_enabled : bool; id_poll : value; id_full : value }.
Record IdamConnectDraft := mkConnectDraft {
  cd_provider : string; cd_domain : string; cd_clientId : string; cd_audience : string }.

Definition toWireIdamConfigureFields (draft : IdamConnectorDraft) : props :=
  [("provider", VStr (id_provider draft)); ("enabled", VBool (id_enabled draft));
   ("poll_interval_secs", id_poll draft); ("full_sync_cadence_hours", id_full draft)].

Definition toWireIdamConnectFields (draft : IdamConnectDraft) : props :=
  [("provider", VStr (cd_provider draft)); ("domain", VStr (cd_domain draft));
   ("client_id", VStr (cd_clientId draft)); ("audience", VStr (cd_audience draft))].

(** ** Resolvers *)

Section resolvers.
Context {LC : LocaleCompare} (client : string → value → result value).

(** [a.username.localeCompare(b.username) || a.principalId.localeCompare(b.principalId)] *)
Definition compare_rows (a b : PrincipalRow) : result Z :=
  x ← as_string (username a); y ← as_string (username b);
  if localeCompare x y =? 0 then
    i ← as_string (pr_id a); j ← as_string (pr_id b); Ok (localeCompare i j)
  else Ok (localeCompare x y).

(** [Promise.all]: both reads are issued; the first to fail, in the order they are
    listed, stands for the failure. *)
Definition resolveUsersList (next : Z) (principal : OperatorPrincipal) : result (list PrincipalRow) * Z :=
  let '(rid1, next) := requestId next in
  let '(rid2, next) := requestId next in
  let principals := awaited (listPrincipals client principal (VObj [("request_id", vint rid1)])) in
  let agents := awaited (listAgents client principal (VObj [("request_id", vint rid2)])) in
  (principalList ← principals; agentList ← agents;
   rows ← toPrincipalRows principalList;
   match rows with
   | None => Throw (UsersUnavailableError "a principal record carries an unknown engine tag")
   | Some rows =>
       as_ ← get agentList "agents"; items ← js_iterate as_;
       arows ← project_all toAgentPrincipalRow items;
       match arows with
       | None => Throw (UsersUnavailableError "an agent record carries an unknown lifecycle status")
       | Some arows => js_sort compare_rows (rows ++ arows)
       end
   end, next).

(** A command with a fresh request id, projected to its receipt. *)
Definition provisioned (method : OperatorPrincipal → value → result (EngineDelegation * result value))
    (next : Z) (principal : OperatorPrincipal) (fields : props) : result value * Z :=
  let '(rid, next) := requestId next in
  (reply ← awaited (method principal (VObj (("request_id", vint rid) :: fields))); toProvisionReceipt reply, next).

Definition resolveCreateGroup (next : Z) (principal : OperatorPrincipal) (name description : string) :=
  provisioned (groupCreate client) next principal [("name", VStr name); ("description", VStr description)].

Definition resolveCreatePrincipal (next : Z) (principal : OperatorPrincipal) (draft : PrincipalDraft) :=
  provisioned (principalCreate client) next principal [("spec", toWirePrincipalSpec draft)].

Definition resolveEditPrincipal (next : Z) (principal : OperatorPrincipal) (draft : PrincipalDraft) :=
  provisioned (principalEdit client) next principal [("spec", toWirePrincipalSpec draft)].

Definition resolveSetPrincipalStatus (next : Z) (principal : OperatorPrincipal) (name status : string) :=
  provisioned (principalSetStatus client) next principal [("username", VStr name); ("status", VStr status)].

Definition resolveEditGroup (next : Z) (principal : OperatorPrincipal) (name description : string) :=
  provisioned (groupEdit client) next principal [("name", VStr name); ("description", VStr description)].

Definition resolveSetGroupMembers (next : Z) (principal : OperatorPrincipal) (name : string) (members : list string) :=
  provisioned (groupSetMembers client) next principal [("name", VStr name); ("members", VArr (map VStr members))].

Definition resolveGroupsList (next : Z) (principal : OperatorPrincipal) : result value * Z :=
  let '(rid, next) := requestId next in
  (reply ← awaited (listGroups client principal (VObj [("request_id", vint rid)])); toGroupCards reply, next).

(** [idam.ts] has a counter of its own. *)
Definition resolveIdamConnectors (next : Z) (principal : OperatorPrincipal) : result value * Z :=
  let '(rid, next) := requestId next in
  (reply ← awaited (idamConnectors client principal (VObj [("request_id", vint rid)])); toIdamConnectors reply, next).

Definition resolveIdamSync (next : Z) (principal : OperatorPrincipal) (provider : string) : result value * Z :=
  let '(rid, next) := requestId next in
  (reply ← awaited (idamSync client principal (VObj [("request_id", vint rid); ("provider", VStr provider)]));
   toSyncReceipt reply, next).

Definition resolveIdamConnect (next : Z) (principal : OperatorPrincipal) (draft : IdamConnectDraft) (secretRef : string) :=
  provisioned (idamConnect client) next principal
    (toWireIdamConnectFields draft ++ [("client_secret_ref", VStr secretRef)]).

Definition resolveIdamConfigure (next : Z) (principal : OperatorPrincipal) (draft : IdamConnectorDraft) :=
  provisioned (idamConfigure client) next principal (toWireIdamConfigureFields draft).
End resolvers.

(** ** What the directory shows *)

(** An engine record the row is a faithful copy of. *)
Record row_of (record : value) (row : PrincipalRow) : Prop := {
  ro_kind : get record "account_type" = Ok (VStr (pr_kind row)) ∧ pr_kind row ∈ PRINCIPAL_KINDS;
  ro_status : get record "status" = Ok (VStr (pr_status row)) ∧ pr_status row ∈ PRINCIPAL_STATUSES;
  ro_origin : get record "origin" = Ok (VStr (origin row)) ∧ origin row ∈ PRINCIPAL_ORIGINS;
  ro_id : get record "principal_id" = Ok (pr_id row);
  ro_username : get record "username" = Ok (username row);
  ro_groups : get record "groups" = Ok (groups row);
  ro_privileges : get record "privileges" = Ok (privileges row)
}.

Lemma toPrincipalRow_of record row : toPrincipalRow record = Ok (Some row) → row_of record row.
Proof.
  unfold toPrincipalRow. intros H. bind_step H k. bind_step H s. bind_step H o.
  destruct (toTag PRINCIPAL_KINDS k) as [k'|] eqn:E1; [|done].
  destruct (toTag PRINCIPAL_STATUSES s) as [s'|] eqn:E2; [|done].
  destruct (toTag PRINCIPAL_ORIGINS o) as [o'|] eqn:E3; [|done].
  apply toTag_iff in E1 as [-> ?], E2 as [-> ?], E3 as [-> ?].
  bind_step H i. bind_step H u. bind_step H n. bind_step H e. bind_step H g. bind_step H gs. bind_step H sid.
  bind_step H ps. bind_step H f. bind_step H bc. bind_step H bs. bind_step H ow. simplify_eq. by split.
Qed.

(** An agent of the engine's agent directory. *)
Definition agent_of (record : value) (row : PrincipalRow) : Prop :=
  get record "agent_id" = Ok (pr_id row) ∧ username row = pr_id row ∧ pr_kind row = "agent" ∧
  get record "status" = Ok (VStr (pr_status row)) ∧ pr_status row ∈ PRINCIPAL_STATUSES.

Lemma toAgentPrincipalRow_of record row : toAgentPrincipalRow record = Ok (Some row) → agent_of record row.
Proof.
  unfold toAgentPrincipalRow. intros H. bind_step H s. destruct (toTag PRINCIPAL_STATUSES s) as [s'|] eqn:E; [|done].
  apply toTag_iff in E as [-> ?]. bind_step H i. bind_step H e. simplify_eq. by split_and!.
Qed.

Lemma Forall2_of {B} (f : value → result (option B)) (R : value → B → Prop) l k :
  (∀ x y, f x = Ok (Some y) → R x y) → project_all f l = Ok (Some k) → Forall2 R l k.
Proof. intros Hf Hp. apply project_all_Some in Hp. eapply Forall2_impl; [exact Hp|]. intros x y. apply Hf. Qed.

(** The two requests of a directory read. *)
Definition directory_request (principal : OperatorPrincipal) (rid : Z) : value :=
  VObj [("request_id", vint rid); ("operator", plainDelegation principal)].

Section directory.
Context {LC : LocaleCompare} (client : string → value → result value) (principal : OperatorPrincipal) (next : Z).

Let asked_principals := client "listPrincipals" (directory_request principal ((next + 1) mod 1000000000)).
Let asked_agents := client "listAgents" (directory_request principal ((next + 2) mod 1000000000)).

Lemma resolveUsersList_unfold :
  (resolveUsersList client next principal).1 =
  (principalList ← asked_principals; agentList ← asked_agents;
   rows ← toPrincipalRows principalList;
   match rows with
   | None => Throw (UsersUnavailableError "a principal record carries an unknown engine tag")
   | Some rows =>
       as_ ← get agentList "agents"; items ← js_iterate as_;
       arows ← project_all toAgentPrincipalRow items;
       match arows with
       | None => Throw (UsersUnavailableError "an agent record carries an unknown lifecycle status")
       | Some arows => js_sort compare_rows (rows ++ arows)
       end
   end).
Proof using.
  unfold resolveUsersList, requestId, asked_principals, asked_agents, directory_request. cbn -[vint toPrincipalRows].
  by replace (next + 1 + 1) with (next + 2) by lia.
Qed.

(** The directory shown is complete or not shown.  When the users list is returned,
    it is, up to order, one row per record of the principal directory and one per agent, each
    a copy of its record under known tags; and a record with an unknown tag in either
    directory makes the whole read unavailable, never a shorter list. *)
Theorem directory_complete_or_unavailable pl al ps ags :
  asked_principals = Ok pl → get pl "principals" = Ok (VArr ps) →
  asked_agents = Ok al → get al "agents" = Ok (VArr ags) →
  (∀ rows, (resolveUsersList client next principal).1 = Ok rows →
     ∃ prows arows, rows ≡ₚ prows ++ arows ∧ Forall2 row_of ps prows ∧ Forall2 agent_of ags arows) ∧
  (project_all toPrincipalRow ps = Ok None ∨
   (∃ rows, project_all toPrincipalRow ps = Ok (Some rows)) ∧ project_all toAgentPrincipalRow ags = Ok None →
   ∃ what, (resolveUsersList client next principal).1 = Throw (UsersUnavailableError what)).
Proof using.
  intros E1 E2 E3 E4. rewrite resolveUsersList_unfold, E1, E3. cbn [mbind result_bind].
  unfold toPrincipalRows. rewrite E2, E4. cbn [mbind result_bind js_iterate js_spread]. split.
  - intros rows H. bind_step H prows. destruct prows as [prows|]; [|done].
    bind_step H arows. destruct arows as [arows|]; [|done]. exists prows, arows. split_and!.
    + by apply js_sort_perm in H.
    + by eapply Forall2_of; [apply toPrincipalRow_of|].
    + by eapply Forall2_of; [apply toAgentPrincipalRow_of|].
  - intros [->|[[rows ->] ->]]; cbn; eauto.
Qed.
End directory.

Definition sample_principal_record : value :=
  VObj [("principal_id", VStr "lug:1"); ("username", VStr "ada"); ("namespace", VStr "enterprise");
        ("account_type", VStr "human"); ("status", VStr "active"); ("origin", VStr "local"); ("email", VStr "");
        ("org", VStr ""); ("groups", VArr []); ("privileges", VArr []); ("first_seen", vint 1); ("owned_fields", VArr [])].
Definition sample_agent_record : value :=
  VObj [("agent_id", VStr "agent:7"); ("status", VStr "compromised"); ("enrolled_at", vint 2)].
Definition sample_directory (action : string) (request : value) : result value :=
  if bool_decide (action = "listPrincipals") then Ok (VObj [("principals", VArr [sample_principal_record])])
  else Ok (VObj [("agents", VArr [sample_agent_record])]).

Lemma directory_complete_or_unavailable_witness :
  (∀ rows, (@resolveUsersList (λ x y, 0) sample_directory 0 (mkPrincipal "s" Admin "p" "t" None)).1 = Ok rows →
     ∃ prows arows, rows ≡ₚ prows ++ arows ∧ Forall2 row_of [sample_principal_record] prows ∧
                    Forall2 agent_of [sample_agent_record] arows) ∧
  (project_all toPrincipalRow [sample_principal_record] = Ok None ∨
   (∃ rows, project_all toPrincipalRow [sample_principal_record] = Ok (Some rows)) ∧
   project_all toAgentPrincipalRow [sample_agent_record] = Ok None →
   ∃ what, (@resolveUsersList (λ x y, 0) sample_directory 0 (mkPrincipal "s" Admin "p" "t" None)).1 =
           Throw (UsersUnavailableError what)).
Proof.
  apply (@directory_complete_or_unavailable (λ x y, 0) sample_directory (mkPrincipal "s" Admin "p" "t" None) 0
           (VObj [("principals", VArr [sample_principal_record])]) (VObj [("agents", VArr [sample_agent_record])]));
    reflexivity.
Defined.

(** A connector is shown healthy exactly when it is enabled, the engine reports no error,
    and a sync has completed. *)
Theorem connector_healthy_iff record :
  deriveIdamState record = Ok healthy ↔
  ∃ en err at_, get record "enabled" = Ok en ∧ falsy en = false ∧
    get record "last_error" = Ok err ∧ is_nullish err = true ∧
    get record "last_sync_unix_ms" = Ok at_ ∧ is_nullish at_ = false ∧
    get record "last_completeness" = Ok (VStr "complete").
Proof.
  unfold deriveIdamState. split.
  - intros H. bind_step H en. bind_step H err. bind_step H at_. bind_step H dn. exists en, err, at_.
    destruct (falsy en); [done|]. destruct (is_nullish err); cbn [negb] in H; [|done].
    destruct (is_nullish at_); [done|]. unfold toIdamSyncOutcome in H.
    destruct (is_nullish dn); [done|]. destruct (toTag IDAM_SYNC_OUTCOMES dn) as [o|] eqn:E; [|done].
    apply toTag_iff in E as [-> _]. repeat case_bool_decide; simplify_eq. by split_and!.
  - intros (en & err & at_ & -> & H1 & -> & H2 & -> & H3 & ->). cbn. by rewrite H1, H2, H3.
Qed.
