(* ===== verification/Objects.v ===== *)
(** * Objects ([packages/contracts/src/objects.ts], [apps/bff/src/engine/objects.ts])

    The catalog of named objects: narrowed records, detail, commands. *)
From S2P Require Import Prelude Bytes Float64 Cbor JsValue JsString Num64 Rbac OperatorEngine Vtz Policies JsOps.
From stdpp Require Import list.
Open Scope Z_scope.

Definition OBJECT_LIFECYCLES : list string := ["draft"; "published"].

Record ObjectCard := mkObjectCard {
  oc_name : value; oc_kind : string; oc_selectorKind : string; oc_selectorValue : value; oc_attributes : value;
  oc_description : value; oc_tags : value; oc_lifecycle : string }.

Record ObjectDetailView := mkObjectDetail { od_object : option ObjectCard; od_members : value }.

Definition toObjectCard (record : value) : result (option ObjectCard) :=
  k ← get record "kind"; sk ← get record "selector_kind"; l ← get record "lifecycle";
  match toTag OBJECT_KINDS k, toTag SELECTOR_KINDS sk, toTag OBJECT_LIFECYCLES l with
  | Some k, Some sk, Some l =>
      n ← get record "name"; sv ← get record "selector_value"; a ← get record "attributes";
      d ← get record "description"; t ← get record "tags";
      Ok (Some (mkObjectCard n k sk sv a d t l))
  | _, _, _ => Ok None
  end.

Definition toObjectCatalog (catalog : value) : result (option (list ObjectCard)) :=
  os ← get catalog "objects"; items ← js_iterate os; project_all toObjectCard items.

Definition toObjectDetail (detail : value) : result (option ObjectDetailView) :=
  r ← get detail "record"; ms ← get detail "members";
  if is_nullish r then Ok (Some (mkObjectDetail None ms))
  else
    o ← toObjectCard r;
    Ok (option_map (λ o, mkObjectDetail (Some o) ms) o).

(** A draft of the object form; the boundary check is the server's. *)
Record ObjectDraft := mkObjectDraft {
  ob_name : string; ob_kind : string; ob_selectorKind : string; ob_selectorValue : string;
  ob_description : string; ob_tags : list string; ob_lifecycle : string }.

Definition toWireObjectSpec (draft : ObjectDraft) : value :=
  VObj ([("name", VStr (ob_name draft)); ("kind", VStr (ob_kind draft)); ("selector_kind", VStr (ob_selectorKind draft));
         ("selector_value", VStr (ob_selectorValue draft)); ("description", VStr (ob_description draft));
         ("lifecycle", VStr (ob_lifecycle draft))] ++
        match ob_tags draft with [] => [] | ts => [("tags", VArr (map VStr ts))] end).

Definition toObjectMutation (reply : value) : result value := n ← get reply "name"; Ok (VObj [("name", n)]).

Definition objectKindLabel (kind : string) : string :=
  default "" (snd <$> List.find (λ p, bool_decide (p.1 = kind))
    [("user", "User"); ("group", "Group"); ("agent", "Agent"); ("service", "Service"); ("server", "Server");
     ("application", "Application"); ("uri", "URI"); ("network", "Network"); ("registry_key", "Registry Key");
     ("certificate", "Certificate"); ("script", "Script"); ("data_store", "Data Store")]).

Section resolvers.
Context (client : string → value → result value).

Definition resolveObjectCatalog (next : Z) (principal : OperatorPrincipal) : result (list ObjectCard) * Z :=
  let '(rid, next) := requestId next in
  (catalog ← awaited (objectList client principal (VObj [("request_id", vint rid)]));
   cards ← toObjectCatalog catalog;
   match cards with
   | None => Throw (ObjectsUnavailableError "an object record carries an unknown engine tag")
   | Some cards => Ok cards
   end, next).

Definition object_command (method : OperatorPrincipal → value → result (EngineDelegation * result value))
    (next : Z) (principal : OperatorPrincipal) (fields : props) : result value * Z :=
  let '(rid, next) := requestId next in
  (reply ← awaited (method principal (VObj (("request_id", vint rid) :: fields))); toObjectMutation reply, next).

Definition resolveCreateObject (next : Z) (principal : OperatorPrincipal) (draft : ObjectDraft) :=
  object_command (objectCreate client) next principal [("spec", toWireObjectSpec draft)].
Definition resolveEditObject (next : Z) (principal : OperatorPrincipal) (draft : ObjectDraft) :=
  object_command (objectEdit client) next principal [("spec", toWireObjectSpec draft)].
Definition resolveDeleteObject (next : Z) (principal : OperatorPrincipal) (name : string) :=
  object_command (objectDelete client) next principal [("name", VStr name)].

Definition resolveObjectDetail (next : Z) (principal : OperatorPrincipal) (name : string) : result ObjectDetailView * Z :=
  let '(rid, next) := requestId next in
  (detail ← awaited (objectDetail client principal (VObj [("request_id", vint rid); ("name", VStr name)]));
   view ← toObjectDetail detail;
   match view with
   | None => Throw (ObjectsUnavailableError "the object record carries an unknown engine tag")
   | Some view => Ok view
   end, next).
End resolvers.
