(* ===== verification/EntityDetail.v ===== *)
(** * The entity drawer, its isolate command and the decision log
    ([apps/bff/src/engine/entity-detail.ts], [isolate.ts], [logs.ts])

    Each section of the drawer is resolved on its own from the outcome of its read; the
    log rows and details are projections of the engine's decisions. *)
From S2P Require Import Prelude Bytes Float64 Cbor JsValue JsString Num64 Rbac OperatorEngine Vtz Policies JsOps Users Objects.
From stdpp Require Import list.
Open Scope Z_scope.

Inductive EntityKind := kind_principal | kind_vtz | kind_object.
Definition kind_name (k : EntityKind) : string :=
  match k with kind_principal => "principal" | kind_vtz => "vtz" | kind_object => "object" end.
Record EntityRef := mkRef { ref_kind : EntityKind; ref_id : string }.

(** The state of one section. *)
Inductive SectionState (A : Type) :=
  | sec_ok (data : A)
  | sec_empty
  | sec_not_applicable
  | sec_pending (owningRepo gatingTask : string)
  | sec_error (message : string).
Arguments sec_ok {A} data.
Arguments sec_empty {A}.
Arguments sec_not_applicable {A}.
Arguments sec_pending {A} owningRepo gatingTask.
Arguments sec_error {A} message.

Record HeaderView := mkHeader { displayName : value; kindLabel : string; h_status : string }.
Record EntityInfoView := mkInfo { i_role : option value; i_clearance : option value; enrolledAt : value; i_tags : list string }.
Record AgentCapabilityRow := mkCapability { cap_name : string; cap_surface : string }.
Inductive CapabilitySource := aig_graph | construction_report.
Record CapabilitiesView := mkCapabilities { cap_source : CapabilitySource; capabilities : list AgentCapabilityRow }.
Record RecentDecisionRow := mkDecisionRow {
  dr_id : value; dr_ruleId : value; dr_summary : value; dr_outcome : value; dr_status : string; dr_at : value }.

Record EntityDetailView := mkEntityDetail {
  ed_ref : EntityRef; header : SectionState HeaderView; info : SectionState EntityInfoView;
  zones : SectionState value; capability : SectionState CapabilitiesView;
  effectivePolicies : SectionState value; recentDecisions : SectionState (list RecentDecisionRow) }.

Section drawer.
Context {NS : NumberToString} {AO : ArithOther}.

(** ** Projections *)

Definition toEntityStatus (status : value) : string :=
  default "unknown" (toTag ["active"; "suspended"; "compromised"] status).

(** A [[name, value]] pair, by position. *)
Definition pair_at (pair : value) (i : nat) : result value :=
  match pair with
  | VArr items => Ok (default VUndefined (items !! i))
  | VNull | VUndefined => Throw (TypeError "value is not iterable")
  | _ => Ok VUndefined
  end.

Definition attribute (record : value) (key : string) : result value :=
  as_ ← get record "attributes"; items ← js_array as_;
  found ← js_find (λ p, n ← pair_at p 0; Ok (is_str key n)) items;
  match found with Some p => pair_at p 1 | None => Ok VUndefined end.

Definition toHeader (record : value) : result HeaderView :=
  i ← get record "agent_id"; s ← get record "status"; Ok (mkHeader i "Agent" (toEntityStatus s)).

Definition principalHeader (row : PrincipalRow) : HeaderView :=
  mkHeader (username row)
    (if bool_decide (pr_kind row = "human") then "Human"
     else if bool_decide (pr_kind row = "service") then "Service Account" else "AI Agent")
    (if bool_decide (pr_status row ∈ ["active"; "suspended"; "compromised"]) then pr_status row
     else if bool_decide (pr_status row ∈ ["revoked"; "disabled"]) then "suspended" else "unknown").

(** [`key=${v}`] *)
Definition tag (key : string) (v : value) : string := key +:+ "=" +:+ js_String v.

Definition principalInfo (row : PrincipalRow) : result EntityInfoView :=
  gs ← js_array (groups row); ps ← js_array (privileges row);
  Ok (mkInfo None None (firstSeen row)
        ([tag "origin" (VStr (origin row)); tag "namespace" (namespace row)] ++
         (if bool_decide (pr_status row ∈ ["revoked"; "disabled"]) then [tag "lifecycle" (VStr (pr_status row))] else []) ++
         (if is_str "" (pr_email row) then [] else [tag "email" (pr_email row)]) ++
         (if is_str "" (org row) then [] else [tag "org" (org row)]) ++
         map (tag "group") gs ++ map (tag "privilege") ps ++
         (if is_null (subjectId row) then [] else [tag "identity" (subjectId row)]))).

Definition present (v : value) : option value := if is_undefined v then None else Some v.

Definition toInfo (record : value) : result EntityInfoView :=
  role ← attribute record "role"; clearance ← attribute record "clearance";
  as_ ← get record "attributes"; items ← js_array as_;
  tags ← mapM (λ p, n ← pair_at p 0; v ← pair_at p 1;
                    Ok (if is_str "role" n || is_str "clearance" n then [] else [js_String n +:+ "=" +:+ js_String v])) items;
  e ← get record "enrolled_at";
  Ok (mkInfo (present role) (present clearance) e (concat tags)).

(** [a.includes(b)] *)
Fixpoint includes (a b : string) : bool :=
  startsWith a b || match a with EmptyString => false | String _ a => includes a b end.

Definition toDecisionStatus (action : string) : string :=
  let a := toLowerCase action in
  if existsb (includes a) ["escalate"; "deny"; "quarantine"; "block"] then "denied"
  else if existsb (includes a) ["candidate"; "flag"; "alert"; "monitor"] then "flagged"
  else if existsb (includes a) ["observe"; "pass"] then "pass"
  else "success".

(** [row.created_at * 1000] *)
Definition created_millis (row : value) : result value := t ← get row "created_at"; js_mul t (vint 1000).

Definition toDecisionRow (row : value) : result RecentDecisionRow :=
  i ← get row "decision_id"; r ← get row "rule_id"; f ← get row "finding"; a ← get row "recommended_action";
  s ← as_string a; t ← created_millis row;
  Ok (mkDecisionRow i r f a (toDecisionStatus s) t).

(** The text of a named cell, if it is one; the payload of a [Text] is a string. *)
Definition textCell (row : value) (name : string) : result (option string) :=
  items ← js_array row;
  found ← js_find (λ p, n ← pair_at p 0; Ok (is_str name n)) items;
  match found with
  | None => Ok None
  | Some p =>
      v ← pair_at p 1;
      if falsy v then Ok None
      else has_text ← has "Text" v;
           if (has_text : bool) then t ← get v "Text"; Ok (match t with VStr s => Some s | _ => None end) else Ok None
  end.

Definition capabilitySurface (relation : string) : string :=
  if bool_decide (relation = "USES_TOOL") then "tools"
  else if bool_decide (relation = "GRANTS_AUTHORITY") then "authority"
  else if bool_decide (relation = "DELEGATES_TO") then "delegation"
  else toLowerCase relation.

Definition toCapabilityRow (row : value) : result (option AgentCapabilityRow) :=
  relation ← textCell row "relation"; target ← textCell row "target";
  Ok match relation, target with
     | Some r, Some t => Some (mkCapability t (capabilitySurface r))
     | _, _ => None
     end.

Definition toConstructionRow (row : value) : result (option AgentCapabilityRow) :=
  surface ← textCell row "surface"; e ← textCell row "entry";
  Ok match surface, e with
     | Some s, Some e => if bool_decide (e = "") then None else Some (mkCapability e s)
     | _, _ => None
     end.

(** [rows.rows.map(f).filter((row) => row !== null)] *)
Definition kept_rows (f : value → result (option AgentCapabilityRow)) (reply : value) : result (list AgentCapabilityRow) :=
  rs ← get reply "rows"; rows ← js_map_to f rs; Ok (omap id (rows : list (option AgentCapabilityRow))).

Definition toCapabilityRows := kept_rows toCapabilityRow.
Definition toConstructionRows := kept_rows toConstructionRow.

(** ** The drawer *)

Definition OBJECT_POLICIES_PENDING : string := "TRD-CONSOLE-05 Policy surface (object -> governing-policy resolution)".

Context (client : string → value → result value).

Definition object_tags (object : ObjectCard) (members : value) : result (list string) :=
  let label := if bool_decide (oc_selectorKind object = "cidr") then "CIDR"
               else if bool_decide (oc_selectorKind object = "group_ref") then "group" else oc_selectorKind object in
  ts ← js_array (oc_tags object); ats ← js_array (oc_attributes object); ms ← js_array members;
  Ok (["selector=" +:+ label +:+ " " +:+ js_String (oc_selectorValue object);
       tag "lifecycle" (VStr (oc_lifecycle object))] ++
      map (tag "tag") ts ++ map (tag "attribute") ats ++ map (tag "member") ms).

Definition object_base (ref : EntityRef) (h : SectionState HeaderView) (i : SectionState EntityInfoView) : EntityDetailView :=
  mkEntityDetail ref h i sec_not_applicable sec_not_applicable (sec_pending "crdb" OBJECT_POLICIES_PENDING) sec_not_applicable.

Definition resolveObjectEntity (principal : OperatorPrincipal) (ref : EntityRef) : result EntityDetailView :=
  let detail := match (reply ← awaited (objectDetail client principal (VObj [("request_id", vint 0); ("name", VStr (ref_id ref))]));
                       toObjectDetail reply) with
                | Ok d => d
                | Throw _ => None
                end in
  match detail with
  | None => Ok (object_base ref (sec_error "object registry unavailable") (sec_error "object registry unavailable"))
  | Some d =>
      match od_object d with
      | None => Ok (object_base ref sec_empty sec_empty)
      | Some object =>
          tags ← object_tags object (od_members d);
          Ok (object_base ref (sec_ok (mkHeader (oc_name object) (objectKindLabel (oc_kind object)) "unknown"))
                (sec_ok (mkInfo None None (vint 0) tags)))
      end
  end.

Definition query_params (id : string) : value := VArr [VArr [VStr "a"; VObj [("Text", VStr id)]]].

(** The agent the reference names, in the directory read. *)
Definition find_agent (directory : result value) (id : string) : result (option value) :=
  match directory with
  | Throw _ => Ok None
  | Ok d => as_ ← get d "agents"; items ← js_array as_;
            js_find (λ a, i ← get a "agent_id"; Ok (is_str id i)) items
  end.

Definition find_principal (principals : result value) (id : string) : result (option PrincipalRow) :=
  match principals with
  | Throw _ => Ok None
  | Ok d => rows ← toPrincipalRows d; Ok (rows ≫= List.find (λ r, is_str id (pr_id r)))
  end.

Definition identity_sections (directory principals : result value) (record : option value) (row : option PrincipalRow)
    : result (SectionState HeaderView * SectionState EntityInfoView) :=
  match record, row with
  | Some r, _ => h ← toHeader r; i ← toInfo r; Ok (sec_ok h, sec_ok i)
  | None, Some row => i ← principalInfo row; Ok (sec_ok (principalHeader row), sec_ok i)
  | None, None =>
      Ok (if is_ok directory && is_ok principals then (sec_empty, sec_empty)
          else (sec_error "entity directory unavailable", sec_error "entity directory unavailable"))
  end.

Definition capability_section (directory : result value) (record : option value) (edges construction : result value)
    : result (SectionState CapabilitiesView) :=
  match directory, record with
  | Throw _, _ => Ok (sec_error "agent directory unavailable")
  | Ok _, None => Ok sec_not_applicable
  | Ok _, Some _ =>
      crows ← match construction with Ok c => toConstructionRows c | Throw _ => Ok [] end;
      match crows, edges with
      | _ :: _, _ => Ok (sec_ok (mkCapabilities construction_report crows))
      | [], Throw _ => Ok (sec_error "capabilities unavailable")
      | [], Ok e =>
          rows ← toCapabilityRows e;
          Ok (match rows with [] => sec_empty | _ => sec_ok (mkCapabilities aig_graph rows) end)
      end
  end.

Definition decision_section (decisions : result value) : result (SectionState (list RecentDecisionRow)) :=
  match decisions with
  | Throw _ => Ok (sec_error "decisions unavailable")
  | Ok d =>
      ds ← get d "decisions"; items ← js_array ds;
      match items with
      | [] => Ok sec_empty
      | _ => rows ← mapM toDecisionRow items; Ok (sec_ok rows)
      end
  end.

Definition resolveEntityDetail (principal : OperatorPrincipal) (ref : EntityRef) : result EntityDetailView :=
  match ref_kind ref with
  | kind_object => resolveObjectEntity principal ref
  | _ =>
      let id := ref_id ref in
      let query text := VObj [("request_id", vint 0); ("text", VStr text); ("params", query_params id)] in
      let directory := awaited (listAgents client principal (VObj [("request_id", vint 0)])) in
      let principals := awaited (listPrincipals client principal (VObj [("request_id", vint 0)])) in
      let decisions := awaited (entityDecisions client principal
        (VObj [("request_id", vint 0); ("entity_type", VStr (kind_name (ref_kind ref))); ("entity_value", VStr id); ("limit", vint 50)])) in
      let edges := awaited (querySubmit client principal
        (query "FIND agent_capabilities WHERE agent_id = $a RETURN relation, target")) in
      let construction := awaited (querySubmit client principal
        (query "FIND construction_report WHERE agent_id = $a RETURN surface, entry")) in
      record ← find_agent directory id;
      row ← find_principal principals id;
      hi ← identity_sections directory principals record row;
      caps ← capability_section directory record edges construction;
      ds ← decision_section decisions;
      Ok (mkEntityDetail ref hi.1 hi.2
            (sec_pending "forge" "Forge VTZ membership store (not queryable in crdb)") caps
            (sec_pending "forge" "Forge effective-policy resolution (not queryable in crdb)") ds)
  end.

(** ** Isolate *)

Inductive ContainmentPosture := posture_quarantine | posture_deny.
Definition containment_name (p : ContainmentPosture) : string :=
  match p with posture_quarantine => "quarantine" | posture_deny => "deny" end.
Record IsolateRequest := mkIsolate { iso_commandId : string; iso_posture : ContainmentPosture }.

Definition actionForPosture (p : ContainmentPosture) : string :=
  match p with posture_deny => "Deny" | posture_quarantine => "Quarantine" end.
Definition postureForAction (action : value) : ContainmentPosture :=
  if is_str "Deny" action then posture_deny else posture_quarantine.

Definition resolveIsolate (principal : OperatorPrincipal) (ref : EntityRef) (request : IsolateRequest) (now : Z) : result value :=
  effect ← awaited (contain client principal
    (VObj [("operator", VNull);
           ("request", VObj [("subject", VStr (ref_id ref)); ("action", VStr (actionForPosture (iso_posture request)));
                             ("reason", VStr ("Operator isolate from the Console (" +:+ containment_name (iso_posture request) +:+ ")"));
                             ("command_id", VStr (iso_commandId request)); ("issued_at", VNum now);
                             ("derived_from_decision_id", VNull); ("ai_assist", VNull)])]));
  a ← get effect "action"; e ← get effect "enforcement_active"; s ← get effect "summary";
  Ok (VObj [("posture", VStr (containment_name (postureForAction a))); ("enforcementActive", e); ("summary", s)]).

(** ** The decision log *)

Record LogQueryFilter := mkFilter {
  f_since : option Z; f_until : option Z; f_technique : option string; f_tactic : option string; f_ruleId : option string;
  f_confidence : option string; f_action : option string; f_search : option string; f_limit : Z; f_offset : option Z }.

(** [v.length] where the declared type is an array *)
Definition js_length (v : value) : result value :=
  match v with
  | VArr items => Ok (vint (Z.of_nat (length items)))
  | VNull | VUndefined => Throw (TypeError "Cannot read properties of undefined (reading 'length')")
  | VStr s => Ok (vint (js_strlen s))
  | VBytes bs => Ok (vint (Z.of_nat (length bs)))
  | _ => get v "length"
  end.

Definition toLogRow (row : value) : result value :=
  i ← get row "decision_id"; t ← created_millis row;
  a ← get row "recommended_action"; s ← as_string a;
  mid ← renamed row [("ruleId", "rule_id"); ("summary", "finding")];
  rest ← renamed row [("technique", "technique"); ("tactics", "tactics"); ("confidence", "confidence")];
  ev ← get row "evidence"; n ← js_length ev;
  Ok (VObj ([("decisionId", i); ("at", t)] ++ mid ++ [("outcome", a); ("status", VStr (toDecisionStatus s))] ++ rest ++
            [("evidenceCount", n)])).

Definition actingEntityOf (detail : value) : result value :=
  ss ← get detail "source_subjects"; items ← js_array ss;
  Ok match default VUndefined (head items) with
     | VUndefined => VNull
     | VStr "" => VNull
     | s => VObj [("kind", VStr "principal"); ("id", s)]
     end.

Definition toLogDetail (detail : value) : result value :=
  i ← get detail "decision_id"; t ← created_millis detail;
  rest ← renamed detail
    [("ruleId", "rule_id"); ("finding", "finding"); ("technique", "technique"); ("tactics", "tactics"); ("evidence", "evidence");
     ("confidence", "confidence"); ("outcome", "recommended_action"); ("scope", "scope"); ("sourceHosts", "source_hosts");
     ("sourceSubjects", "source_subjects"); ("sourceContext", "source_context"); ("sourceObservations", "source_observations");
     ("correlationId", "correlation_id"); ("replayAsOf", "replay_as_of"); ("watermarkSeconds", "watermark_seconds");
     ("windowSeconds", "window_seconds"); ("replayDigest", "replay_digest")];
  acting ← actingEntityOf detail;
  Ok (VObj ([("decisionId", i); ("at", t)] ++ rest ++ [("actingEntity", acting)])).

Definition seconds_or_null (x : option Z) : value :=
  match x with Some x => VNum (f64_floor (f64_div x (f64_ofZ 1000))) | None => VNull end.
Definition str_or_null (x : option string) : value := match x with Some s => VStr s | None => VNull end.

Definition filterToWire (filter : LogQueryFilter) : value :=
  VObj ([("request_id", vint 0); ("since", seconds_or_null (f_since filter)); ("until", seconds_or_null (f_until filter));
         ("technique", str_or_null (f_technique filter)); ("tactic", str_or_null (f_tactic filter));
         ("rule_id", str_or_null (f_ruleId filter)); ("confidence", str_or_null (f_confidence filter));
         ("action", str_or_null (f_action filter)); ("search", str_or_null (f_search filter)); ("limit", VNum (f_limit filter))] ++
        match f_offset filter with
        | Some o => if f64_lt 0 o then [("offset", VNum o)] else []
        | None => []
        end).

Definition resolveLogQuery (principal : OperatorPrincipal) (filter : LogQueryFilter) : result value :=
  reply ← awaited (logQuery client principal (filterToWire filter));
  ds ← get reply "decisions"; rows ← js_map toLogRow ds; Ok (VObj [("rows", rows)]).

Definition resolveLogExplain (principal : OperatorPrincipal) (decision : string) : result value :=
  detail ← awaited (logExplain client principal (VObj [("request_id", vint 0); ("decision_id", VStr decision)]));
  toLogDetail detail.

Definition resolveLogExport (principal : OperatorPrincipal) (commandId : string) (filter : LogQueryFilter) (now : Z) : result value :=
  effect ← awaited (logExport client principal
    (VObj [("operator", VNull); ("query", filterToWire filter); ("command_id", VStr commandId);
           ("issued_at", VNum (f64_floor (f64_div now (f64_ofZ 1000))))]));
  ps ← renamed effect [("exportId", "export_id"); ("commitVersion", "commit_version"); ("rowCount", "row_count")];
  rs ← get effect "rows"; rows ← js_map toLogRow rs;
  Ok (VObj (ps ++ [("rows", rows)])).
End drawer.

(** ** What the drawer promises *)

(** Two outcomes of one run are the same. *)
Ltac same_ok :=
  repeat match goal with
         | H1 : ?x = Ok ?a, H2 : ?x = Ok ?b |- _ => rewrite H1 in H2; injection H2 as H2; try subst
         end.

Section drawer_facts.
Context {NS : NumberToString} {AO : ArithOther}.

(** The answers a drawer reads. *)
Definition drawer_reads (client : string → value → result value) (principal : OperatorPrincipal) (ref : EntityRef)
    : result value * result value * result value * result value * result value :=
  let id := ref_id ref in
  let ask action fields := client action (VObj (("request_id", vint 0) :: fields ++ [("operator", plainDelegation principal)])) in
  let query text := ask "querySubmit" [("text", VStr text); ("params", query_params id)] in
  (ask "listAgents" [], ask "listPrincipals" [],
   ask "entityDecisions" [("entity_type", VStr (kind_name (ref_kind ref))); ("entity_value", VStr id); ("limit", vint 50)],
   query "FIND agent_capabilities WHERE agent_id = $a RETURN relation, target",
   query "FIND construction_report WHERE agent_id = $a RETURN surface, entry").

Lemma drawer_of_reads client principal ref :
  ref_kind ref ≠ kind_object →
  resolveEntityDetail client principal ref =
  (let '(directory, principals, decisions, edges, construction) := drawer_reads client principal ref in
   record ← find_agent directory (ref_id ref);
   row ← find_principal principals (ref_id ref);
   hi ← identity_sections directory principals record row;
   caps ← capability_section directory record edges construction;
   ds ← decision_section decisions;
   Ok (mkEntityDetail ref hi.1 hi.2
         (sec_pending "forge" "Forge VTZ membership store (not queryable in crdb)") caps
         (sec_pending "forge" "Forge effective-policy resolution (not queryable in crdb)") ds)).
Proof using. intros Hk. unfold resolveEntityDetail, drawer_reads. destruct (ref_kind ref); [..|by destruct Hk]; reflexivity. Qed.

(** An identity shown is the one asked for. *)
Lemma find_agent_id directory id r : find_agent directory id = Ok (Some r) → get r "agent_id" = Ok (VStr id).
Proof using.
  unfold find_agent. destruct directory as [d|]; [|done]. intros H. bind_step H as_. bind_step H items. clear Eitems.
  induction items as [|x items IH]; cbn in H; [done|]. bind_step H b. apply bind_Ok in Eb as (i & Ei & [= <-]).
  destruct (is_str id i) eqn:E; [|by apply IH]. simplify_eq. apply is_str_iff in E as ->. done.
Qed.

Lemma find_principal_id principals id r : find_principal principals id = Ok (Some r) → pr_id r = VStr id.
Proof using.
  unfold find_principal. destruct principals as [d|]; [|done]. intros H. bind_step H rows. injection H as H.
  destruct rows as [rows|]; [|done]. cbn in H. apply find_some in H as [_ H]. by apply is_str_iff in H.
Qed.

(** The sections of the drawer stand on their own.  For an agent, a principal or a
    zone, the header and information of an answered drawer depend only on the two directory
    reads, the decisions only on theirs, the capabilities only on the agent directory and the
    two capability reads; a drawer whose reads are all refused is still answered, each of
    those sections saying so; and an identity shown is that of the entity asked for. *)
Theorem drawer_sections_independent client1 client2 principal ref v1 v2 :
  ref_kind ref ≠ kind_object →
  resolveEntityDetail client1 principal ref = Ok v1 → resolveEntityDetail client2 principal ref = Ok v2 →
  let same action := ∀ request, client1 action request = client2 action request in
  (same "listAgents" → same "listPrincipals" → header v1 = header v2 ∧ info v1 = info v2) ∧
  (same "entityDecisions" → recentDecisions v1 = recentDecisions v2) ∧
  (same "listAgents" → same "querySubmit" → capability v1 = capability v2) ∧
  (∀ e, ∃ v, resolveEntityDetail (λ _ _, Throw e) principal ref = Ok v ∧
     header v = sec_error "entity directory unavailable" ∧ info v = sec_error "entity directory unavailable" ∧
     capability v = sec_error "agent directory unavailable" ∧ recentDecisions v = sec_error "decisions unavailable") ∧
  (∀ h, header v1 = sec_ok h →
     (∃ record, get record "agent_id" = Ok (VStr (ref_id ref)) ∧ toHeader record = Ok h) ∨
     (∃ row, pr_id row = VStr (ref_id ref) ∧ h = principalHeader row)).
Proof using.
  intros Hk E1 E2. cbv zeta. rewrite drawer_of_reads in E1, E2 by done. unfold drawer_reads in *. cbv zeta in *.
  bind_step E1 record1. bind_step E1 row1. bind_step E1 hi1. bind_step E1 caps1. bind_step E1 ds1.
  bind_step E2 record2. bind_step E2 row2. bind_step E2 hi2. bind_step E2 caps2. bind_step E2 ds2.
  injection E1 as <-. injection E2 as <-. cbn. split_and!.
  - intros Ha Hp. rewrite Ha in *. rewrite Hp in *. by same_ok.
  - intros Hd. rewrite Hd in *. by same_ok.
  - intros Ha Hq. rewrite Ha in *. rewrite !Hq in *. by same_ok.
  - intros e. rewrite drawer_of_reads by done. cbn. eexists. split; [done|]. by cbn.
  - intros h Hh. unfold identity_sections in Ehi1. destruct record1 as [r|], row1 as [row|].
    1,2: left; bind_step Ehi1 h0; bind_step Ehi1 i0; simplify_eq/=; apply find_agent_id in Erecord1; eauto.
    + right. bind_step Ehi1 i0. simplify_eq/=. apply find_principal_id in Erow1. eauto.
    + simplify_eq. by destruct (_ && _).
Qed.
End drawer_facts.

Definition empty_directory (action : string) (request : value) : result value :=
  if bool_decide (action = "listAgents") then Ok (VObj [("agents", VArr [])])
  else if bool_decide (action = "listPrincipals") then Ok (VObj [("principals", VArr [])])
  else if bool_decide (action = "entityDecisions") then Ok (VObj [("decisions", VArr [])])
  else Ok (VObj [("rows", VArr [])]).

Definition sample_operator : OperatorPrincipal := mkPrincipal "s" Admin "p" "t" None.
Definition sample_ref : EntityRef := mkRef kind_principal "agent:7".
Definition empty_drawer : EntityDetailView :=
  mkEntityDetail sample_ref sec_empty sec_empty
    (sec_pending "forge" "Forge VTZ membership store (not queryable in crdb)") sec_not_applicable
    (sec_pending "forge" "Forge effective-policy resolution (not queryable in crdb)") sec_empty.

Lemma drawer_sections_independent_witness :
  @resolveEntityDetail (λ _, "") (λ _ _ _, Ok VNull) empty_directory sample_operator sample_ref = Ok empty_drawer ∧
  ∀ e, ∃ v, @resolveEntityDetail (λ _, "") (λ _ _ _, Ok VNull) (λ _ _, Throw e) sample_operator sample_ref = Ok v ∧
     recentDecisions v = sec_error "decisions unavailable".
Proof.
  split; [reflexivity|]. intros e.
  destruct (@drawer_sections_independent (λ _, "") (λ _ _ _, Ok VNull) empty_directory empty_directory sample_operator
              sample_ref empty_drawer empty_drawer ltac:(discriminate) eq_refl eq_refl) as (_ & _ & _ & H & _).
  destruct (H e) as (v & Hv & _ & _ & _ & Hd). by exists v.
Defined.

(** A principal directory that carries an unknown tag is read as no directory: an entity
    that is in neither list is shown as absent ([empty]), not as unavailable. *)
Theorem unreadable_directory_shown_empty {NS : NumberToString} {AO : ArithOther} client principal ref v al pl ps :
  ref_kind ref ≠ kind_object →
  (drawer_reads client principal ref).1.1.1.1 = Ok al → get al "agents" = Ok (VArr []) →
  (drawer_reads client principal ref).1.1.1.2 = Ok pl → get pl "principals" = Ok (VArr ps) →
  project_all toPrincipalRow ps = Ok None →
  resolveEntityDetail client principal ref = Ok v → header v = sec_empty ∧ info v = sec_empty.
Proof.
  intros Hk E1 E2 E3 E4 E5 H. rewrite drawer_of_reads in H by done.
  destruct (drawer_reads client principal ref) as [[[[d p] ds] e] c]. cbn in E1, E3. subst d p.
  unfold find_agent, find_principal, toPrincipalRows in H. rewrite E2, E4 in H. cbn [mbind result_bind js_array js_find js_iterate js_spread] in H.
  rewrite E5 in H. cbn in H. bind_step H sec. by simplify_eq.
Qed.

Lemma unreadable_directory_shown_empty_witness :
  let client := λ (action : string) (_ : value),
    if bool_decide (action = "listPrincipals") then Ok (VObj [("principals", VArr [VObj [("account_type", VStr "robot")]])])
    else empty_directory action VNull in
  ∃ v, @resolveEntityDetail (λ _, "") (λ _ _ _, Ok VNull) client sample_operator sample_ref = Ok v ∧ header v = sec_empty.
Proof.
  exists empty_drawer. split; [reflexivity|].
  refine (proj1 (@unreadable_directory_shown_empty (λ _, "") (λ _ _ _, Ok VNull) _ sample_operator sample_ref empty_drawer
    (VObj [("agents", VArr [])]) (VObj [("principals", VArr [VObj [("account_type", VStr "robot")]])])
    [VObj [("account_type", VStr "robot")]] _ _ _ _ _ _ _)).
  7: instantiate (1 := λ (action : string) (_ : value),
    if bool_decide (action = "listPrincipals") then Ok (VObj [("principals", VArr [VObj [("account_type", VStr "robot")]])])
    else empty_directory action VNull).
  all: first [reflexivity | discriminate].
Defined.
