(* ===== verification/Soc.v ===== *)
(** * SOC operations ([packages/contracts/src/soc.ts], [apps/bff/src/engine/soc.ts])

    The closed vocabularies, the projections that fail closed on a tag outside them, the
    operator's acts and dispositions as they are parsed and put on the wire, the settings,
    and the resolvers; the ranked queue is walked page by page.  View models that no other
    definition looks into are the objects the code builds. *)
From S2P Require Import Prelude Bytes Float64 Cbor JsValue JsString Num64 Rbac OperatorEngine Vtz Policies JsOps.
From stdpp Require Import list.
Open Scope Z_scope.

(** ** Vocabularies *)

Definition AUTHORITY_STATES : list string := ["automatic"; "approval_required"; "review_required"; "contained"].
Definition INCIDENT_POSTURES : list string := ["observe-only"; "candidate"; "escalate"].
Definition CONFIDENCE_TIERS : list string := ["HIGH"; "MEDIUM"; "LOW"; "CONTESTED"].
Definition LINEAGE_LANES : list string := ["attack_path"; "evidence"; "decision"].
Definition LINEAGE_NODE_KINDS : list string := ["subject"; "network"; "process"; "evidence"; "decision"; "response"].
Definition EDGE_STATES : list string := ["observed"; "inferred"; "verified"; "pending"].
Definition PLAN_STEP_STATES : list string := ["proposed"; "approved"; "executed"; "refused"].
Definition RESPONSE_ACTIONS : list string := ["quarantine"; "deny"].
Definition WITHHELD_RULINGS : list string := ["overstated"; "unsupported"].
Definition TELEMETRY_ANCHORS : list string := ["unanchored"; "window_unavailable"; "anchored"].
Definition OBSERVATION_OUTCOMES : list string := ["resolved"; "aged_out"; "restricted"].
Definition EVIDENCE_KINDS : list string := ["data_component"; "leg"].
Definition INCIDENT_ACTS : list string :=
  ["plan_proposed"; "plan_withheld"; "plan_modified"; "plan_approved"; "contained"; "dispositioned"; "assigned";
   "acked"; "noted"; "closed"; "siem_enriched"].
Definition CASE_ACTS : list string := ["assigned"; "acked"; "noted"; "closed"].
Definition DISPOSITIONS : list string :=
  ["false_positive"; "benign_authorized"; "true_positive_remediated"; "true_positive_blocked";
   "true_positive_risk_accepted"; "duplicate"; "undetermined"].
Definition REMEDIATION_ACTIONS : list string := ["reimage"; "credential_rotation"; "patch"; "isolate"; "remove"].
Definition IMPACT_BANDS : list string := ["Informational"; "Low"; "Medium"; "High"; "Critical"].
Definition IMPACT_SENTENCE_STATES : list string := ["not_assessed"; "refused"; "published"].
Definition RUN_STATES : list string := ["started"; "running"; "recorded"; "refused"].
Definition REPORT_SECTION_NAMES : list string :=
  ["executive_summary"; "what_happened"; "business_impact"; "immediate_actions"; "severity_justification";
   "confidence_explanation"].
Definition REPORT_SECTION_SOURCES : list string := ["model"; "engine"; "template"].
Definition REPORT_NARRATIVE_STATES : list string := ["published"; "refused"; "absent"].
Definition SIEM_VENDORS : list string := ["splunk"; "sentinel"; "qradar"; "elastic"; "chronicle"].
Definition CLASSIFICATION_TAGS : list string := ["unclassified"; "internal"; "confidential"; "restricted"; "secret"].
Definition MAX_NOTE_CHARS : Z := 4000.
Definition RISK_ACCEPTANCE_MAX_DAYS : Z := 365.
Definition SOC_TIER_MILLI_MAX : Z := 1000.

(** ** The queue *)

Record SocIncidentRow := mkIncident {
  incidentId : value; ruleId : value; anchor : value; subject : value; subjectName : value; inc_destination : value;
  finding : value; authority : string; posture : string; confidence : string; credibilityMilli : value;
  impliedProbabilityMilli : value; openedAt : value; lastSeen : value; evidenceCount : value }.

Definition toAuthority : value → option string := toTag AUTHORITY_STATES.
Definition toPosture : value → option string := toTag INCIDENT_POSTURES.
Definition toConfidence : value → option string := toTag CONFIDENCE_TIERS.
Definition toLane : value → option string := toTag LINEAGE_LANES.
Definition toNodeKind : value → option string := toTag LINEAGE_NODE_KINDS.
Definition toEdgeState : value → option string := toTag EDGE_STATES.
Definition toStepState : value → option string := toTag PLAN_STEP_STATES.
Definition toWithheldRuling : value → option string := toTag WITHHELD_RULINGS.
Definition narrowTag : list string → value → option string := toTag.

Definition toIncidentRow (row : value) : result (option SocIncidentRow) :=
  a ← get row "authority"; p ← get row "posture"; c ← get row "confidence";
  match toAuthority a, toPosture p, toConfidence c with
  | Some a, Some p, Some c =>
      i ← get row "incident_id"; r ← get row "rule_id"; an ← get row "anchor"; s ← get row "subject";
      sn ← get_or_null row "subject_name"; d ← get_or_null row "destination"; f ← get row "finding";
      cm ← get_or_null row "credibility_milli"; ip ← get_or_null row "implied_probability_milli";
      o ← get row "opened_at"; l ← get row "last_seen"; e ← get row "evidence_count";
      Ok (Some (mkIncident i r an s sn d f a p c cm ip o l e))
  | _, _, _ => Ok None
  end.

(** [if (reply.refused)] *)
Definition refused (reply : value) : result bool := r ← get reply "refused"; Ok (negb (falsy r)).

Definition toIncidentQueue (l : value) : result (option (list SocIncidentRow)) :=
  r ← refused l;
  if (r : bool) then Ok None
  else rows ← get l "rows"; items ← js_iterate rows; project_all toIncidentRow items.

Record SocIncidentPage := mkPage { page_rows : list SocIncidentRow; page_total : value; nextCursor : value }.

Definition toIncidentPage (l : value) : result (option SocIncidentPage) :=
  rows ← toIncidentQueue l;
  match rows with
  | None => Ok None
  | Some rows =>
      t ← get l "total"; c ← get_or_null l "next_cursor";
      Ok (Some (mkPage rows (or_else t (vint (Z.of_nat (length rows)))) c))
  end.

(** [authority === 'approval_required' || authority === 'review_required'] *)
Definition isWaitingOnAHuman (a : string) : bool :=
  bool_decide (a = "approval_required") || bool_decide (a = "review_required").

(** ** One incident *)

Record LineageNode := mkNode { node_id : value; node_lane : string; node_kind : string; node_label : value; sublabel : value }.
Record LineageEdge := mkEdge { edge_from : value; edge_to : value; edge_state : string }.
Record ResponseStep := mkStep {
  ordinal : value; title : value; action : option string; step_authority : string; step_state : string; step_explanation : value }.
Record SocIncidentDetail := mkDetail {
  det_row : SocIncidentRow; nodes : list LineageNode; edges : list LineageEdge; evidence : list value;
  plan : list ResponseStep; planRevision : value; planApproved : value; narrativeRef : value }.

(** The outer option is the failed projection; an empty tag is an investigative step. *)
Definition toResponseAction (t : value) : result (option (option string)) :=
  if is_undefined t || is_str "" t then Ok (Some None)
  else s ← as_string t; Ok (option_map Some (toTag RESPONSE_ACTIONS (VStr (toLowerCase s)))).

Definition toLineageNode (node : value) : result (option LineageNode) :=
  l ← get node "lane"; k ← get node "kind";
  match toLane l, toNodeKind k with
  | Some l, Some k => i ← get node "id"; la ← get node "label"; s ← get node "sublabel"; Ok (Some (mkNode i l k la s))
  | _, _ => Ok None
  end.

Definition toLineageEdge (e : value) : result (option LineageEdge) :=
  s ← get e "state";
  match toEdgeState s with
  | None => Ok None
  | Some s => f ← get e "from"; t ← get e "to"; Ok (Some (mkEdge f t s))
  end.

Definition toResponseStep (step : value) : result (option ResponseStep) :=
  a ← get step "authority"; s ← get step "state"; ac ← get step "action"; ac ← toResponseAction ac;
  match toAuthority a, toStepState s, ac with
  | Some a, Some s, Some ac =>
      o ← get step "ordinal"; t ← get step "title"; e ← get step "explanation";
      Ok (Some (mkStep o t ac a s (or_else e (VStr ""))))
  | _, _, _ => Ok None
  end.

(** [x === undefined || x === '' ? null : x] *)
Definition text_or_null (v : value) : value := if is_undefined v || is_str "" v then VNull else v.

(** The loop over one field of the reply. *)
Definition project_field {A} (f : value → result (option A)) (reply : value) (k : string) : result (option (list A)) :=
  xs ← get reply k; items ← js_iterate xs; project_all f items.

(** The options of a result, in sequence. *)
Definition then_some {A B} (m : result (option A)) (f : A → result (option B)) : result (option B) :=
  x ← m; match x with None => Ok None | Some x => f x end.

Definition toIncidentDetail (detail : value) : result (option SocIncidentDetail) :=
  r ← refused detail;
  if (r : bool) then Ok None
  else
    row ← get detail "row";
    then_some (toIncidentRow row) (λ row,
    then_some (project_field toLineageNode detail "nodes") (λ ns,
    then_some (project_field toLineageEdge detail "edges") (λ es,
    then_some (project_field toResponseStep detail "plan") (λ pl,
      ev ← get detail "evidence"; legs ← js_array ev;
      rev ← get detail "plan_revision"; ok ← get detail "plan_approved"; nr ← get detail "narrative_ref";
      Ok (Some (mkDetail row ns es (map (λ leg, VObj [("leg", leg)]) legs) pl rev ok (text_or_null nr))))))).

(** ** The narrative and the plan *)

Definition toWithheldClaim (claim : value) : result (option value) :=
  r ← get claim "ruling";
  match toWithheldRuling r with
  | None => Ok None
  | Some r =>
      a ← renamed claim [("section", "section"); ("text", "text")];
      b ← renamed claim [("explanation", "explanation"); ("cited", "cited")];
      Ok (Some (VObj (a ++ [("ruling", VStr r)] ++ b)))
  end.

Definition toVerdictNarrative (narrative : value) : result (option value) :=
  then_some (project_field toWithheldClaim narrative "withheld") (λ withheld,
    a ← renamed narrative [("found", "found"); ("published", "published")];
    re ← get narrative "refusal";
    b ← renamed narrative [("headline", "headline"); ("narrative", "narrative"); ("impact", "impact");
                           ("response", "response"); ("citedEvidence", "cited_evidence")];
    c ← renamed narrative [("needsHumanReview", "needs_human_review"); ("modelRef", "model_ref"); ("inputHash", "input_hash")];
    Ok (Some (VObj (a ++ [("refusal", if is_null re then VNull else text_or_null re)] ++ b ++
                    [("withheld", VArr withheld)] ++ c)))).

Record SocPlanEffect := mkEffect {
  eff_incident : value; revision : value; approved : value; eff_steps : list ResponseStep; enforcementActive : value }.

Definition toPlanEffect (effect : value) : result (option SocPlanEffect) :=
  then_some (project_field toResponseStep effect "steps") (λ steps,
    i ← get effect "incident"; r ← get effect "revision"; a ← get effect "approved"; e ← get effect "enforcement_active";
    Ok (Some (mkEffect i r a steps e))).

Record ResponseStepDraft := mkStepDraft { sd_title : string; sd_action : option string }.

Definition toWirePlanSteps (steps : list ResponseStepDraft) : list value :=
  map (λ s, VObj [("title", VStr (sd_title s)); ("action", VStr (default "" (sd_action s)))]) steps.

(** One entry of the authored plan. *)
Definition toStepDraft (entry : value) : result (option ResponseStepDraft) :=
  if not_object entry then Ok None
  else
    t ← get entry "title";
    let t := match t with VStr s => trim s | _ => "" end in
    if bool_decide (t = "") then Ok None
    else
      a ← get entry "action";
      Ok (if is_nullish a || is_str "" a then Some (mkStepDraft t None)
          else match a with
               | VStr s => option_map (λ a, mkStepDraft t (Some a)) (toTag RESPONSE_ACTIONS (VStr (toLowerCase s)))
               | _ => None
               end).

Definition toResponseStepDrafts (raw : value) : result (option (list ResponseStepDraft)) :=
  match raw with VArr items => project_all toStepDraft items | _ => Ok None end.

(** ** The KPI strip *)

Section kpis.
Context {AO : ArithOther}.

Definition toSocCoverage (coverage : value) : result value :=
  if is_undefined coverage then Ok VNull
  else
    a ← renamed coverage [("source", "source"); ("rulesLoaded", "rules_loaded"); ("evaluable", "evaluable");
                          ("unevaluable", "unevaluable")];
    let blockers rows := js_map (λ row, ps ← renamed row [("name", "name"); ("rules", "rules")]; Ok (VObj ps)) rows in
    ls ← get coverage "blocking_logsources"; ls ← blockers ls;
    fs ← get coverage "blocking_fields"; fs ← blockers fs;
    b ← renamed coverage [("truncated", "truncated")];
    Ok (VObj (a ++ [("blockingLogsources", ls); ("blockingFields", fs)] ++ b)).

Fixpoint sum_fires (total : value) (rows : list value) : result value :=
  match rows with
  | [] => Ok total
  | row :: rows => f ← get row "fires"; t ← js_add total f; sum_fires t rows
  end.

Definition decisionWaiting (queue : list SocIncidentRow) : Z :=
  Z.of_nat (length (List.filter (λ row, isWaitingOnAHuman (authority row)) queue)).

Definition toSocKpis (summary : value) (queue : list SocIncidentRow) : result (option value) :=
  r ← get summary "summary_refused";
  if negb (falsy r) then Ok None
  else
    cov ← get summary "coverage"; cov ← toSocCoverage cov;
    a ← renamed summary [("eventsAnalyzed", "events_analyzed"); ("noiseCollapsed", "muted_total")];
    ts ← get summary "techniques"; rows ← js_array ts; total ← sum_fires (vint 0) rows;
    su ← get_or_null summary "sustained_total"; wh ← get_or_null summary "window_hours"; cu ← get summary "count_unit";
    mi ← get summary "active_alerts"; mr ← get_or_null summary "active_alerts_refused_tenants";
    ac ← get summary "auto_contained"; en ← get summary "enabled";
    inputs ← js_map (λ row, ps ← renamed row [("anchor", "anchor"); ("falsePositiveFeedback", "muted_fp_feedback");
                                             ("ratifiedBaseline", "muted_ratified"); ("firings", "fires")]; Ok (VObj ps)) ts;
    Ok (Some (VObj ([("coverage", cov)] ++ a ++
      [("totalFirings", total); ("sustained", su); ("windowHours", wh);
       ("countUnit", if is_str "RuleEvaluations" cu then VStr "rule_evaluations" else VNull);
       ("materialIncidents", mi); ("materialRefusedTenants", mr); ("autoContained", ac);
       ("decisionWaiting", vint (decisionWaiting queue)); ("detectionEnabled", en); ("suppressingInputs", inputs)]))).
End kpis.

(** [kpis.suppressingInputs?.find(row => row.anchor === anchor) ?? null] *)
Definition suppressingInputsFor (kpis : value) (a : string) : result value :=
  xs ← get kpis "suppressingInputs";
  if is_nullish xs then Ok VNull
  else items ← js_array xs; r ← js_find (λ row, x ← get row "anchor"; Ok (is_str a x)) items; Ok (default VNull r).

(** ** Labels *)

Definition authorityLabel (a : string) : option string :=
  map_get [("automatic", "Automatic"); ("approval_required", "Approval required");
           ("review_required", "Review required"); ("contained", "Contained")] a.
Definition postureLabel (p : string) : option string :=
  map_get [("observe-only", "Observe only"); ("candidate", "Candidate"); ("escalate", "Escalate")] p.
Definition confidenceLabel (c : string) : option string :=
  map_get [("HIGH", "High"); ("MEDIUM", "Medium"); ("LOW", "Low"); ("CONTESTED", "Contested")] c.

Definition reportSectionLabel (name : string) : option string :=
  map_get [("executive_summary", "Executive summary"); ("what_happened", "What happened");
           ("business_impact", "Business impact"); ("immediate_actions", "Immediate actions");
           ("severity_justification", "Severity justification"); ("confidence_explanation", "Confidence explanation")] name.
Definition reportSourceLabel (source : string) : option string :=
  map_get [("model", "model (adjudicated)"); ("engine", "engine (record)"); ("template", "template (declared fallback)")] source.

(** ** The evidence reads *)

Definition toTelemetryObservation (row : value) : result (option value) :=
  o ← get row "outcome";
  match narrowTag OBSERVATION_OUTCOMES o with
  | None => Ok None
  | Some o =>
      i ← get row "observation_id"; t ← get row "observed_at"; c ← get row "category"; fs ← get row "fields";
      fs ← js_map (λ pair, items ← js_iterate pair;
                           Ok (VArr [default VUndefined (items !! 0%nat); default VUndefined (items !! 1%nat)])) fs;
      Ok (Some (VObj [("observationId", i); ("outcome", VStr o); ("observedAt", t); ("category", text_or_null c); ("fields", fs)]))
  end.

Definition toCitedEvidence (cited : value) : result (option value) :=
  k ← get cited "kind";
  match narrowTag EVIDENCE_KINDS k with
  | None => Ok None
  | Some k => e ← get cited "entry"; Ok (Some (VObj [("entry", e); ("kind", VStr k)]))
  end.

Definition toIncidentTelemetry (wire : value) : result (option value) :=
  r ← refused wire;
  if (r : bool) then Ok None
  else
    a ← get wire "anchor";
    match narrowTag TELEMETRY_ANCHORS a with
    | None => Ok None
    | Some a =>
        then_some (project_field toCitedEvidence wire "cited_evidence") (λ cited,
        then_some (project_field toTelemetryObservation wire "observations") (λ obs,
          Ok (Some (VObj [("anchor", VStr a); ("citedEvidence", VArr cited); ("observations", VArr obs)]))))
    end.

Definition toIncidentAct (row : value) : result (option value) :=
  a ← get row "act";
  match narrowTag INCIDENT_ACTS a with
  | None => Ok None
  | Some a =>
      p ← get row "principal"; t ← get row "at_seconds"; d ← get row "detail";
      Ok (Some (VObj [("act", VStr a); ("principal", p); ("atSeconds", t); ("detail", text_or_null d)]))
  end.

Definition toAuditTrail (wire : value) : result (option (list value)) :=
  r ← refused wire; if (r : bool) then Ok None else project_field toIncidentAct wire "acts".

Definition toBusinessImpact (wire : value) : result (option value) :=
  r ← refused wire;
  if (r : bool) then Ok None
  else
    b ← get wire "band"; s ← get wire "sentence_state";
    match narrowTag IMPACT_BANDS b, narrowTag IMPACT_SENTENCE_STATES s with
    | Some b, Some s =>
        se ← get wire "sentence";
        let se := text_or_null se in
        if bool_decide (s = "published") && is_null se then Ok None
        else
          t ← get wire "total_milli"; fs ← get wire "factors";
          fs ← js_map (λ f, ps ← renamed f [("factor", "factor"); ("weightMilli", "weight_milli"); ("basis", "basis")];
                            Ok (VObj ps)) fs;
          Ok (Some (VObj [("band", VStr b); ("totalMilli", t); ("factors", fs); ("sentenceState", VStr s); ("sentence", se)]))
    | _, _ => Ok None
    end.

Definition toCognitionRunState (wire : value) : result (option value) :=
  s ← get wire "state";
  match narrowTag RUN_STATES s with
  | None => Ok None
  | Some s => d ← get wire "detail"; Ok (Some (VObj [("state", VStr s); ("detail", text_or_null d)]))
  end.

(** ** The case acts *)

Inductive CaseActDraft := assigned (assignee : string) | acked | noted (note : string) | closed.
Definition case_act (d : CaseActDraft) : string :=
  match d with assigned _ => "assigned" | acked => "acked" | noted _ => "noted" | closed => "closed" end.

Definition hex_any_case (c : Ascii.ascii) : bool := let b := byte_of_ascii (toLower_char c) in in_range 48 57 b || in_range 97 102 b.
Definition is_hyphen (c : Ascii.ascii) : bool := byte_of_ascii c =? 45.

(** A pattern of one character class per position. *)
Fixpoint matches_exactly (ps : list (Ascii.ascii → bool)) (s : string) : bool :=
  match ps, s with
  | [], EmptyString => true
  | p :: ps, String c s => p c && matches_exactly ps s
  | _, _ => false
  end.

Definition PRINCIPAL_ID : list (Ascii.ascii → bool) :=
  replicate 8 hex_any_case ++ [is_hyphen] ++ replicate 4 hex_any_case ++ [is_hyphen] ++ replicate 4 hex_any_case ++
  [is_hyphen] ++ replicate 4 hex_any_case ++ [is_hyphen] ++ replicate 12 hex_any_case.

Definition isPrincipalId (v : string) : bool := matches_exactly PRINCIPAL_ID (trim v).

Definition toCaseActDraft (raw : value) : result (option CaseActDraft) :=
  if not_object raw then Ok None
  else
    a ← get raw "act";
    match narrowTag CASE_ACTS a with
    | None => Ok None
    | Some a =>
        who ← get raw "assignee"; note ← get raw "note";
        Ok (if bool_decide (a = "assigned") then
              match who with
              | VStr who => if isPrincipalId who && is_undefined note then Some (assigned (toLowerCase (trim who))) else None
              | _ => None
              end
            else if bool_decide (a = "noted") then
              match note with
              | VStr note => if bool_decide (trim note = "") || negb (is_undefined who) then None else Some (noted note)
              | _ => None
              end
            else if negb (is_undefined who) || negb (is_undefined note) then None
            else Some (if bool_decide (a = "acked") then acked else closed))
    end.

Definition toWireCaseAct (draft : CaseActDraft) (incident : string) (rid : Z) : value :=
  VObj ([("request_id", vint rid); ("incident", VStr incident); ("act", VStr (case_act draft))] ++
        match draft with assigned who => [("assignee", VStr who)] | noted n => [("note", VStr n)] | _ => [] end).

(** [recorded] with its fields, or the engine's refusal in its own words. *)
Definition refusal (wire : value) : result value :=
  e ← get wire "explanation"; Ok (VObj [("kind", VStr "refused"); ("explanation", or_else e (VStr ""))]).

Definition toCaseActResult (wire : value) : result (option value) :=
  r ← refused wire;
  if (r : bool) then v ← refusal wire; Ok (Some v)
  else
    a ← get wire "act";
    match narrowTag CASE_ACTS (or_else a (VStr "")) with
    | None => Ok None
    | Some a =>
        c ← get wire "closed_now"; n ← get wire "note_ref";
        Ok (Some (VObj [("kind", VStr "recorded"); ("act", VStr a); ("closedNow", c); ("noteRef", text_or_null n)]))
    end.

Definition toIncidentNotes (wire : value) : result value :=
  r ← refused wire;
  if (r : bool) then Ok VNull
  else
    ns ← get wire "notes";
    js_map (λ note, ps ← renamed note [("principal", "principal"); ("atSeconds", "at_seconds"); ("noteRef", "note_ref");
                                       ("text", "text")]; Ok (VObj ps)) ns.

(** ** The disposition verdict *)

Inductive DispositionDraft :=
  | false_positive (justification : string)
  | benign_authorized (authorizedBy : string)
  | true_positive_remediated (actionTaken : string)
  | true_positive_blocked (blockingControl : string)
  | true_positive_risk_accepted (acceptingParty : string) (expirySeconds : Z)
  | duplicate (predecessor : string)
  | undetermined.

Definition disposition_tag (d : DispositionDraft) : string :=
  match d with
  | false_positive _ => "false_positive" | benign_authorized _ => "benign_authorized"
  | true_positive_remediated _ => "true_positive_remediated" | true_positive_blocked _ => "true_positive_blocked"
  | true_positive_risk_accepted _ _ => "true_positive_risk_accepted" | duplicate _ => "duplicate"
  | undetermined => "undetermined"
  end.

Definition requiredText (body : value) (key : string) : result (option string) :=
  v ← get body key;
  Ok match v with VStr s => if bool_decide (trim s = "") then None else Some (trim s) | _ => None end.

(** [Number.isInteger(x) && x > 0], as 64 bits *)
Definition positive_integer (v : value) : option Z :=
  match v with VNum x => if f64_isInteger x && f64_lt 0 x then Some x else None | _ => None end.

Definition toDispositionDraft (raw : value) : result (option DispositionDraft) :=
  if not_object raw then Ok None
  else
    t ← get raw "disposition";
    match narrowTag DISPOSITIONS t with
    | None => Ok None
    | Some t =>
        let one key (f : string → DispositionDraft) := s ← requiredText raw key; Ok (option_map f s) in
        if bool_decide (t = "false_positive") then one "justification" false_positive
        else if bool_decide (t = "benign_authorized") then one "authorizedBy" benign_authorized
        else if bool_decide (t = "true_positive_remediated") then
          s ← requiredText raw "actionTaken";
          Ok (a ← s; true_positive_remediated <$> narrowTag REMEDIATION_ACTIONS (VStr (toLowerCase a)))
        else if bool_decide (t = "true_positive_blocked") then one "blockingControl" true_positive_blocked
        else if bool_decide (t = "true_positive_risk_accepted") then
          s ← requiredText raw "acceptingParty"; e ← get raw "expirySeconds";
          Ok match s, positive_integer e with Some s, Some e => Some (true_positive_risk_accepted s e) | _, _ => None end
        else if bool_decide (t = "duplicate") then one "predecessor" duplicate
        else Ok (Some undetermined)
    end.

Definition toWireDisposition (draft : DispositionDraft) (incident : string) (rid : Z) : value :=
  VObj ([("request_id", vint rid); ("incident", VStr incident); ("disposition", VStr (disposition_tag draft))] ++
        match draft with
        | false_positive s => [("justification", VStr s)]
        | benign_authorized s => [("authorized_by", VStr s)]
        | true_positive_remediated s => [("action_taken", VStr s)]
        | true_positive_blocked s => [("blocking_control", VStr s)]
        | true_positive_risk_accepted s e => [("accepting_party", VStr s); ("expiry_seconds", VNum e)]
        | duplicate s => [("predecessor", VStr s)]
        | undetermined => []
        end).

Definition toDispositionResult (wire : value) : result (option value) :=
  r ← refused wire;
  if (r : bool) then v ← refusal wire; Ok (Some v)
  else
    d ← get wire "disposition";
    match narrowTag DISPOSITIONS (or_else d (VStr "")) with
    | None => Ok None
    | Some d => c ← get wire "closed_now"; Ok (Some (VObj [("kind", VStr "recorded"); ("disposition", VStr d); ("closedNow", c)]))
    end.

(** ** The report *)

Record ReportSection := mkSection { sec_name : string; sec_source : string; sec_lines : value }.
Record SocReport := mkReport {
  rep_incident : value; generatedAt : value; narrativeState : string; narrativeDetail : value; modelRef : value;
  inputHash : value; sections : list ReportSection; rep_cited : value; needsHumanReview : value }.

Definition toReportSection (wire : value) : result (option ReportSection) :=
  n ← get wire "name"; s ← get wire "source";
  match narrowTag REPORT_SECTION_NAMES n, narrowTag REPORT_SECTION_SOURCES s with
  | Some n, Some s => l ← get wire "lines"; Ok (Some (mkSection n s l))
  | _, _ => Ok None
  end.

(** The loop over the sections; [seen] holds the names so far. *)
Fixpoint report_loop (seen : list string) (items : list value) : result (option (list ReportSection)) :=
  match items with
  | [] => Ok (Some [])
  | x :: items =>
      then_some (toReportSection x) (λ s,
        if bool_decide (sec_name s ∈ seen) then Ok None
        else rest ← report_loop (sec_name s :: seen) items; Ok (option_map (cons s) rest))
  end.

Definition toSocReport (wire : value) : result (option SocReport) :=
  r ← refused wire;
  if (r : bool) then Ok None
  else
    st ← get wire "narrative_state";
    match narrowTag REPORT_NARRATIVE_STATES st with
    | None => Ok None
    | Some st =>
        xs ← get wire "sections"; items ← js_iterate xs;
        then_some (report_loop [] items) (λ secs,
          i ← get wire "incident"; g ← get wire "generated_at"; d ← get wire "narrative_detail"; m ← get wire "model_ref";
          h ← get wire "input_hash"; c ← get wire "cited_evidence"; n ← get wire "needs_human_review";
          Ok (Some (mkReport i g st (text_or_null d) (text_or_null m) h secs c n)))
    end.

(** ** The weekly volume *)

Definition toWeekRow (row : value) : result value :=
  ps ← renamed row [("weekStartSeconds", "week_start_seconds"); ("fires", "fires"); ("opened", "opened");
                    ("promoted", "promoted"); ("transitioned", "transitioned"); ("demoted", "demoted");
                    ("dropped", "dropped"); ("muted", "muted"); ("eventsAnalyzed", "events_analyzed");
                    ("techniquesFired", "techniques_fired"); ("incidentsOpened", "incidents_opened");
                    ("incidentsClosed", "incidents_closed")];
  Ok (VObj ps).

(** No week starts at or before the one listed before it. *)
Fixpoint weeks_ascend `{CompareOther} (weeks : list value) : result bool :=
  match weeks with
  | prev :: ((cur :: _) as rest) =>
      a ← get cur "weekStartSeconds"; b ← get prev "weekStartSeconds";
      if js_le a b then Ok false else weeks_ascend rest
  | _ => Ok true
  end.

Definition toSocWeekly `{CompareOther} (wire : value) : result (option value) :=
  r ← refused wire;
  if (r : bool) then Ok None
  else
    ws ← get wire "weeks"; ws ← js_map toWeekRow ws; weeks ← js_array ws;
    ok ← weeks_ascend weeks;
    if negb ok then Ok None
    else
      c ← get wire "coverage"; c ← toSocCoverage c; e ← get wire "episodes_truncated"; u ← get wire "until_seconds";
      Ok (Some (VObj [("weeks", VArr weeks); ("coverage", c); ("episodesTruncated", e); ("untilSeconds", u)])).

(** ** The settings *)

Definition socTiersOrdered (pLowMilli pHighMilli : Z) : bool :=
  f64_isInteger pLowMilli && f64_isInteger pHighMilli && f64_le 0 pLowMilli && f64_le pLowMilli pHighMilli &&
  f64_le pHighMilli (f64_ofZ SOC_TIER_MILLI_MAX).

Record SiemWritebackSettings := mkSiem {
  siem_enabled : value; vendor : string; siem_host : value; stream : value; caseUrlBase : value; ceiling : string }.
Record SocSettingsPatch := mkSocPatch { patch_tiers : option (Z * Z); patch_siem : option SiemWritebackSettings }.

Definition toSiemWritebackSettings (wire : value) : result (option SiemWritebackSettings) :=
  v ← get wire "vendor"; c ← get wire "ceiling";
  match narrowTag SIEM_VENDORS v, narrowTag CLASSIFICATION_TAGS c with
  | Some v, Some c =>
      e ← get wire "enabled"; h ← get wire "host"; s ← get wire "stream"; u ← get wire "case_url_base";
      Ok (Some (mkSiem e v h s u c))
  | _, _ => Ok None
  end.

Record SocSettings := mkSocSettings {
  soc_version : value; tiers : value; siemWriteback : SiemWritebackSettings; narrativeModelRef : value;
  soc_dualControlRequired : value; soc_registry : value }.

Definition toSocSettings (wire : value) : result (option SocSettings) :=
  r ← refused wire;
  if (r : bool) then Ok None
  else
    w ← get wire "siem_writeback";
    then_some (toSiemWritebackSettings w) (λ siem,
      v ← get wire "version"; t ← get wire "tiers"; lo ← get t "p_low_milli"; hi ← get t "p_high_milli";
      m ← get wire "narrative_model_ref"; d ← get wire "dual_control_required"; rs ← get wire "registry";
      rs ← js_map (λ row, ps ← renamed row [("key", "key"); ("valueType", "value_type"); ("defaultValue", "default_value");
                                           ("bound", "bound"); ("liveApply", "live_apply"); ("uiBinding", "ui_binding");
                                           ("summary", "summary")]; Ok (VObj ps)) rs;
      Ok (Some (mkSocSettings v (VObj [("pLowMilli", lo); ("pHighMilli", hi)]) siem (text_or_null m) d rs))).

Definition toWireSocSettingsCommitFields (patch : SocSettingsPatch) : props :=
  match patch_tiers patch with
  | Some (lo, hi) => [("tiers", VObj [("p_low_milli", VNum lo); ("p_high_milli", VNum hi)])]
  | None => []
  end ++
  match patch_siem patch with
  | Some s => [("siem_writeback", VObj [("enabled", siem_enabled s); ("vendor", VStr (vendor s)); ("host", siem_host s);
                                        ("stream", stream s); ("case_url_base", caseUrlBase s); ("ceiling", VStr (ceiling s))])]
  | None => []
  end.

Definition toSocSettingsReceipt (wire : value) : result value :=
  a ← renamed wire [("version", "version"); ("dualControlRequired", "dual_control_required"); ("violations", "violations");
                    ("refused", "refused")];
  e ← get wire "explanation"; Ok (VObj (a ++ [("explanation", text_or_null e)])).

(** An integer between 0 and 65535, as 64 bits. *)
Definition milli (v : value) : option Z :=
  match v with
  | VNum x => if f64_isInteger x && f64_le 0 x && f64_le x (f64_ofZ 65535) then Some x else None
  | _ => None
  end.
Definition is_boolean (v : value) : bool := match v with VBool _ => true | _ => false end.

Definition patch_tiers_input (t : value) : result (option (Z * Z)) :=
  if not_object t then Ok None
  else
    lo ← get t "pLowMilli"; hi ← get t "pHighMilli";
    Ok match milli lo, milli hi with Some lo, Some hi => Some (lo, hi) | _, _ => None end.

Definition patch_siem_input (w : value) : result (option SiemWritebackSettings) :=
  if not_object w then Ok None
  else
    v ← get w "vendor"; c ← get w "ceiling"; e ← get w "enabled"; h ← get w "host"; s ← get w "stream"; u ← get w "caseUrlBase";
    Ok match narrowTag SIEM_VENDORS v, narrowTag CLASSIFICATION_TAGS c with
       | Some v, Some c =>
           if is_boolean e && is_string h && is_string s && is_string u then Some (mkSiem e v h s u c) else None
       | _, _ => None
       end.

Definition toSocSettingsPatch (raw : value) : result (option SocSettingsPatch) :=
  if not_object raw then Ok None
  else
    t ← get raw "tiers";
    then_some (if is_undefined t then Ok (Some None) else r ← patch_tiers_input t; Ok (option_map Some r)) (λ ts,
      w ← get raw "siemWriteback";
      then_some (if is_undefined w then Ok (Some None) else r ← patch_siem_input w; Ok (option_map Some r)) (λ siem,
        Ok (Some (mkSocPatch ts siem)))).

(** ** Resolvers *)

Definition QUEUE_PAGE : Z := 200.
Definition QUEUE_MAX_PAGES : nat := 100.
Definition MAX_WEEKLY_WEEKS : Z := 12.

Definition soc_unavailable (what : string) : exn := SocUnavailableError what.

(** Membership in a [Set]: primitives by value; objects of two rows are never the same. *)
Definition same_key (a b : value) : bool :=
  match a, b with
  | VStr s, VStr t => bool_decide (s = t)
  | VNum x, VNum y => f64_eq x y || (f64_isNaN x && f64_isNaN y)
  | VBool x, VBool y => bool_decide (x = y)
  | VBigInt x, VBigInt y => x =? y
  | VNull, VNull | VUndefined, VUndefined => true
  | _, _ => false
  end.

(** The rows pushed for a page, and the ids seen after it. *)
Fixpoint fresh_rows (seen : list value) (rows : list SocIncidentRow) : list SocIncidentRow * list value :=
  match rows with
  | [] => ([], seen)
  | row :: rows =>
      if existsb (same_key (incidentId row)) seen then fresh_rows seen rows
      else let '(kept, seen) := fresh_rows (incidentId row :: seen) rows in (row :: kept, seen)
  end.

(** [`...${list.explanation ?? 'no reason given'})`] when refused *)
Definition queue_failure `{NumberToString} (l : value) : exn :=
  match refused l, get l "explanation" with
  | Ok true, Ok e =>
      soc_unavailable ("the engine refused the queue (" +:+ js_String (or_else e (VStr "no reason given")) +:+ ")")
  | _, _ => soc_unavailable "an incident row carries an unknown engine tag"
  end.

Section resolvers.
Context {NS : NumberToString} {TN : ToNumberOther} {AO : ArithOther} {CO : CompareOther} (client : string → value → result value)
  (principal : OperatorPrincipal).

(** The request for the page at [cursor] ([null] at the start). *)
Definition queue_request (rid : Z) (cursor : value) : value :=
  VObj ([("request_id", vint rid); ("limit", vint QUEUE_PAGE)] ++ (if is_null cursor then [] else [("cursor", cursor)])).

(** The loop from the page after [fuel] remain, with the rows and ids so far. *)
Fixpoint queue_loop (fuel : nat) (next : Z) (cursor : value) (seen : list value) (rows : list SocIncidentRow)
    : result (list SocIncidentRow) * Z :=
  match fuel with
  | O => (Throw (soc_unavailable "the queue did not end within 100 pages"), next)
  | S fuel =>
      let '(rid, next) := requestId next in
      match awaited (socIncidentList client principal (queue_request rid cursor)) with
      | Throw e => (Throw e, next)
      | Ok l =>
          match toIncidentPage l with
          | Throw e => (Throw e, next)
          | Ok None => (Throw (queue_failure l), next)
          | Ok (Some page) =>
              let '(kept, seen) := fresh_rows seen (page_rows page) in
              if is_null (nextCursor page) then (Ok (rows ++ kept), next)
              else queue_loop fuel next (nextCursor page) seen (rows ++ kept)
          end
      end
  end.

Definition resolveIncidentQueue (next : Z) : result (list SocIncidentRow) * Z :=
  queue_loop QUEUE_MAX_PAGES next VNull [] [].

(** A read of one incident: [None] is the engine's refusal, a failed projection is thrown. *)
Definition incident_read {A} (method : OperatorPrincipal → value → result (EngineDelegation * result value))
    (project : value → result (option A)) (what : string) (next : Z) (fields : props) : result (option A) * Z :=
  let '(rid, next) := requestId next in
  (wire ← awaited (method principal (VObj (("request_id", vint rid) :: fields)));
   r ← refused wire;
   if (r : bool) then Ok None
   else view ← project wire;
        match view with None => Throw (soc_unavailable what) | Some v => Ok (Some v) end, next).

(** A read or command whose reply has no refusal of its own. *)
Definition projected {A} (method : OperatorPrincipal → value → result (EngineDelegation * result value))
    (project : value → result (option A)) (what : string) (request : value) : result A :=
  wire ← awaited (method principal request);
  view ← project wire;
  match view with None => Throw (soc_unavailable what) | Some v => Ok v end.

Definition resolveIncidentDetail (next : Z) (incident : string) :=
  incident_read (socIncidentDetail client) toIncidentDetail
    "the incident carries an unknown lane, edge state, or authority" next [("incident", VStr incident)].

Definition resolveNarrative (next : Z) (incident : string) : result value * Z :=
  let '(rid, next) := requestId next in
  (projected (socNarrative client) toVerdictNarrative "a withheld claim carries an unknown ruling"
     (VObj [("request_id", vint rid); ("incident", VStr incident)]), next).

(** [Promise.all]: the summary is requested, then the queue is walked; the first to fail in
    the order listed stands for the failure. *)
Definition resolveSocKpis (next : Z) : result value * Z :=
  let '(rid, next) := requestId next in
  let summary := awaited (detectSummary client principal (VObj [("request_id", vint rid)])) in
  let '(queue, next) := resolveIncidentQueue next in
  (summary ← summary; queue ← queue;
   kpis ← toSocKpis summary queue;
   match kpis with None => Throw (soc_unavailable "the engine refused the detection summary") | Some k => Ok k end, next).

Definition resolveApprovePlan (next : Z) (incident : string) (atRevision : value) : result SocPlanEffect * Z :=
  let '(rid, next) := requestId next in
  (projected (socPlanApprove client) toPlanEffect "the approved plan carries a step the Console cannot narrow"
     (VObj [("request_id", vint rid); ("incident", VStr incident); ("at_revision", atRevision)]), next).

Definition resolveModifyPlan (next : Z) (incident : string) (steps : list ResponseStepDraft) : result SocPlanEffect * Z :=
  let '(rid, next) := requestId next in
  (projected (socPlanModify client) toPlanEffect "the modified plan carries a step the Console cannot narrow"
     (VObj [("request_id", vint rid); ("incident", VStr incident); ("steps", VArr (toWirePlanSteps steps))]), next).

Definition resolveIncidentTelemetry (next : Z) (incident : string) :=
  incident_read (socTelemetry client) toIncidentTelemetry
    "a telemetry row carries an unknown anchor, outcome, or kind" next [("incident", VStr incident)].

Definition resolveAuditTrail (next : Z) (incident : string) :=
  incident_read (socAudit client) toAuditTrail "an audit act carries an unknown verb" next [("incident", VStr incident)].

Definition resolveBusinessImpact (next : Z) (incident : string) :=
  incident_read (socImpact client) toBusinessImpact "the impact carries an unknown band or sentence state" next
    [("incident", VStr incident)].

Definition resolveIncidentReport (next : Z) (incident : string) :=
  incident_read (socReport client) toSocReport "the report carries an unknown section, source or narrative state" next
    [("incident", VStr incident)].

(** [Math.trunc], up to the sign of a zero: from 2^52 on every number is its own. *)
Definition Math_trunc (x : Z) : Z := if 1075 <=? f64_expo x then x else f64_ofZ (f64_trunc x).

(** [Math.min(Math.max(1, Math.trunc(weeks)), 12)], as 64 bits *)
Definition clamped_weeks (weeks : Z) : Z :=
  Math_min (Math_max (f64_ofZ 1) (Math_trunc weeks)) (f64_ofZ MAX_WEEKLY_WEEKS).

Definition resolveWeekly (next weeks : Z) :=
  incident_read (socWeekly client) toSocWeekly "the weekly summary is not in week order" next
    [("weeks", VNum (clamped_weeks weeks))].

Definition resolveSocSettings (next : Z) :=
  incident_read (socSettingsRead client) toSocSettings "the settings carry an unknown vendor or ceiling" next [].

Definition resolveSocSettingsCommit (next : Z) (patch : SocSettingsPatch) : result value * Z :=
  let '(rid, next) := requestId next in
  (wire ← awaited (socSettingsCommit client principal
             (VObj (("request_id", vint rid) :: toWireSocSettingsCommitFields patch)));
   toSocSettingsReceipt wire, next).

Definition resolveCognitionRun (next : Z) (incident : string) : result value * Z :=
  let '(rid, next) := requestId next in
  (projected (socCognitionRun client) toCognitionRunState "the run state is outside the contract vocabulary"
     (VObj [("request_id", vint rid); ("incident", VStr incident)]), next).

Definition resolveCaseAct (next : Z) (incident : string) (draft : CaseActDraft) : result value * Z :=
  let '(rid, next) := requestId next in
  (projected (socIncidentAct client) toCaseActResult "the recorded act carries a verb the Console cannot narrow"
     (toWireCaseAct draft incident rid), next).

Definition resolveIncidentNotes (next : Z) (incident : string) : result value * Z :=
  let '(rid, next) := requestId next in
  (wire ← awaited (socNotes client principal (VObj [("request_id", vint rid); ("incident", VStr incident)]));
   toIncidentNotes wire, next).

Definition resolveDisposition (next : Z) (incident : string) (draft : DispositionDraft) : result value * Z :=
  let '(rid, next) := requestId next in
  (projected (socDisposition client) toDispositionResult
     "the recorded disposition carries a verdict the Console cannot narrow" (toWireDisposition draft incident rid), next).
End resolvers.
