(* ===== verification/SocProofs.v ===== *)
(** * The ranked queue, whole or not at all

    What [resolveIncidentQueue] returns, against the pages the engine gives along its cursor. *)
From S2P Require Import Prelude Bytes Float64 Cbor JsValue JsString Num64 Rbac OperatorEngine Vtz Policies JsOps Soc.
From stdpp Require Import list.
Open Scope Z_scope.

(** ** First sightings *)

Definition sees (seen : list value) (row : SocIncidentRow) : bool := existsb (same_key (incidentId row)) seen.

Lemma fresh_rows_app seen l1 l2 :
  fresh_rows seen (l1 ++ l2) =
  let '(k1, seen1) := fresh_rows seen l1 in let '(k2, seen2) := fresh_rows seen1 l2 in (k1 ++ k2, seen2).
Proof.
  revert seen. induction l1 as [|row l1 IH]; intros seen; cbn; [by destruct (fresh_rows seen l2)|].
  destruct (existsb _ _); [apply IH|]. rewrite IH.
  destruct (fresh_rows (incidentId row :: seen) l1) as [k1 s1]. by destruct (fresh_rows s1 l2).
Qed.

Lemma fresh_rows_sublist seen rows : (fresh_rows seen rows).1 `sublist_of` rows.
Proof.
  revert seen. induction rows as [|row rows IH]; intros seen; cbn; [constructor|].
  destruct (existsb _ _); [by constructor|]. specialize (IH (incidentId row :: seen)).
  destruct (fresh_rows _ rows). by constructor.
Qed.

(** The ids seen after a page are those before it and those of the rows kept. *)
Lemma fresh_rows_seen seen rows : (fresh_rows seen rows).2 = reverse (incidentId <$> (fresh_rows seen rows).1) ++ seen.
Proof.
  revert seen. induction rows as [|row rows IH]; intros seen; cbn; [done|].
  destruct (existsb _ _); [apply IH|]. specialize (IH (incidentId row :: seen)).
  destruct (fresh_rows _ rows) as [k s]. cbn [fst snd] in *. by rewrite IH, fmap_cons, reverse_cons, <- app_assoc.
Qed.

(** No kept row has an id seen before it. *)
Fixpoint all_fresh (seen : list value) (rows : list SocIncidentRow) : Prop :=
  match rows with [] => True | row :: rows => sees seen row = false ∧ all_fresh (incidentId row :: seen) rows end.

Lemma fresh_rows_fresh seen rows : all_fresh seen (fresh_rows seen rows).1.
Proof.
  revert seen. induction rows as [|row rows IH]; intros seen; cbn; [done|].
  destruct (existsb _ _) eqn:E; [apply IH|]. specialize (IH (incidentId row :: seen)).
  by destruct (fresh_rows _ rows).
Qed.

(** Every row was kept or its id had been seen. *)
Lemma sees_mono seen seen' row : (∀ x, x ∈ seen → x ∈ seen') → sees seen row = true → sees seen' row = true.
Proof.
  unfold sees. rewrite !existsb_exists. intros H (x & Hx & Hk). exists x. split; [|done].
  rewrite <- list_elem_of_In in *. by apply H.
Qed.

Lemma fresh_rows_covers seen rows row : row ∈ rows → row ∈ (fresh_rows seen rows).1 ∨ sees (fresh_rows seen rows).2 row = true.
Proof.
  revert seen. induction rows as [|row' rows IH]; intros seen Hr; [by apply elem_of_nil in Hr|].
  apply elem_of_cons in Hr. cbn. destruct (existsb _ _) eqn:E.
  - destruct Hr as [->|Hr]; [|by apply IH]. right. eapply sees_mono; [|exact E].
    intros x Hx. rewrite fresh_rows_seen. apply elem_of_app. by right.
  - specialize (IH (incidentId row' :: seen)). destruct (fresh_rows _ rows) as [k s]. cbn in *.
    destruct Hr as [->|Hr]; [left; left|]. destruct (IH Hr); [left; by right|by right].
Qed.

(** ** The engine's pages *)

Section queue.
Context {NS : NumberToString} {TN : ToNumberOther} {AO : ArithOther} {CO : CompareOther} (client : string → value → result value)
  (principal : OperatorPrincipal).

(** The page the engine answers the request numbered [rid] at [cursor] with. *)
Definition page_at (rid : Z) (cursor : value) : result (option SocIncidentPage) :=
  l ← awaited (socIncidentList client principal (queue_request rid cursor)); toIncidentPage l.

(** The pages along the engine's cursor from [cursor] to its end, asked from counter [next]. *)
Inductive queue_pages : Z → value → list (list SocIncidentRow) → Prop :=
  | pages_end next cursor page :
      page_at (requestId next).1 cursor = Ok (Some page) → is_null (nextCursor page) = true →
      queue_pages next cursor [page_rows page]
  | pages_more next cursor page pages :
      page_at (requestId next).1 cursor = Ok (Some page) → is_null (nextCursor page) = false →
      queue_pages (requestId next).2 (nextCursor page) pages →
      queue_pages next cursor (page_rows page :: pages).

Lemma page_at_Ok rid cursor page :
  page_at rid cursor = Ok (Some page) ↔
  ∃ l, awaited (socIncidentList client principal (queue_request rid cursor)) = Ok l ∧ toIncidentPage l = Ok (Some page).
Proof using.
  unfold page_at. destruct (awaited _) as [l|e]; cbn; split; [by eexists|by intros (? & [= <-] & ?)|done|by intros (? & ? & ?)].
Qed.

Lemma queue_loop_exact fuel next cursor seen acc rows :
  (queue_loop client principal fuel next cursor seen acc).1 = Ok rows ↔
  ∃ pages, queue_pages next cursor pages ∧ (length pages ≤ fuel)%nat ∧ rows = acc ++ (fresh_rows seen (concat pages)).1.
Proof using.
  revert next cursor seen acc. induction fuel as [|fuel IH]; intros next cursor seen acc.
  { cbn. split; [done|]. intros (pages & Hp & Hl & _). destruct Hp; cbn in Hl; lia. }
  cbn [queue_loop]. split.
  - destruct (requestId next) as [rid next'] eqn:En. destruct (awaited _) as [l|] eqn:El; [|done].
    destruct (toIncidentPage l) as [[page|]|] eqn:Ep; [|done..].
    assert (page_at (requestId next).1 cursor = Ok (Some page)) as Hpage by (rewrite En; apply page_at_Ok; by exists l).
    destruct (fresh_rows seen (page_rows page)) as [kept seen'] eqn:Ef. destruct (is_null (nextCursor page)) eqn:Ec.
    + intros [= <-]. exists [page_rows page]. split_and!; [by apply pages_end|cbn; lia|]. cbn. by rewrite app_nil_r, Ef.
    + intros (pages & Hp & Hl & ->)%IH. exists (page_rows page :: pages). split_and!; [|cbn; lia|].
      * apply pages_more; [done..|]. by rewrite En.
      * cbn. rewrite fresh_rows_app, Ef. destruct (fresh_rows seen' (concat pages)). cbn. by rewrite app_assoc.
  - intros (pages & Hp & Hl & ->). destruct Hp as [next cursor page Hpage Hc|next cursor page pages Hpage Hc Hp];
      apply page_at_Ok in Hpage as (l & El & Ep); destruct (requestId next) as [rid next']; cbn in *;
      rewrite El, Ep, Hc.
    + rewrite app_nil_r. by destruct (fresh_rows seen (page_rows page)).
    + destruct (fresh_rows seen (page_rows page)) as [kept seen'] eqn:Ef. apply IH. exists pages. split_and!; [done|lia|].
      rewrite fresh_rows_app, Ef. destruct (fresh_rows seen' (concat pages)). cbn. by rewrite app_assoc.
Qed.

(** C19: the incident queue is the whole of the engine's, or there is none.  The
    resolver answers rows exactly when the engine's pages, followed along its cursor, all
    project and end within a hundred pages; the rows are then the engine's in its order -- the
    pages put together, less the later sightings of an id -- and every incident the engine
    ranked is among them.  In every other case it throws: never a shorter queue. *)
Theorem incident_queue_whole next rows :
  (resolveIncidentQueue client principal next).1 = Ok rows ↔
  ∃ pages, queue_pages next VNull pages ∧ (length pages ≤ 100)%nat ∧ rows = (fresh_rows [] (concat pages)).1 ∧
    rows `sublist_of` concat pages ∧ all_fresh [] rows ∧
    ∀ row, row ∈ concat pages → row ∈ rows ∨ ∃ row', row' ∈ rows ∧ same_key (incidentId row) (incidentId row') = true.
Proof using.
  unfold resolveIncidentQueue. rewrite queue_loop_exact. split.
  - intros (pages & Hp & Hl & ->). exists pages. cbn. split_and!; [done..|apply fresh_rows_sublist|apply fresh_rows_fresh|].
    intros row Hr. destruct (fresh_rows_covers [] _ _ Hr) as [|Hs]; [by left|]. right.
    unfold sees in Hs. rewrite fresh_rows_seen, app_nil_r in Hs. apply existsb_exists in Hs as (x & Hx & Hk).
    rewrite <- list_elem_of_In, elem_of_reverse in Hx. apply list_elem_of_fmap in Hx as (row' & -> & Hr'). by exists row'.
  - intros (pages & Hp & Hl & -> & _). by exists pages.
Qed.
End queue.
