(* ===== verification/Settings.v ===== *)
(** * Governed settings ([packages/contracts/src/settings.ts], [apps/bff/src/engine/settings.ts])

    The registry as the engine serves it, the commit as the console asks for it, and the
    receipts, reports, approvals and history.  The resolvers share the request counter of
    [soc.ts]. *)
From S2P Require Import Prelude Bytes Float64 Cbor JsValue JsString Num64 Rbac OperatorEngine Vtz Policies JsOps Soc.
From stdpp Require Import list.
Open Scope Z_scope.

Definition SETTING_ORIGINS : list string := ["knob"; "section"; "env"; "const"].
Definition CONSOLE_ROLES : list string := ["global-admin"; "tenant-admin"; "tenant-user"].
Definition ADMIN_CAPABILITIES : list string :=
  ["read-status"; "server-lifecycle"; "storage-manage"; "maintenance-manage"; "security-policy-change"; "key-issue";
   "identity-manage"; "artifact-approve"; "tenant-config"; "config-read"; "audit-read"; "audit-export"].
Definition SETTING_REFUSAL_CAUSES : list string :=
  ["unknown_key"; "not_a_knob"; "boot_bound"; "pending_subsystem"; "unparseable"; "kind_mismatch"; "duplicate"].
Definition SETTINGS_REPORT_NAMES : list string :=
  ["server"; "connectivity"; "security"; "telemetry"; "key_issuing"; "egress"].
Definition MAX_SETTING_EDITS : Z := 64.
Definition MAX_SETTING_VALUE_CHARS : Z := 256.
Definition MAX_SECTION_TEXT_CHARS : Z := 256.
Definition MAX_EGRESS_ID_CHARS : Z := 128.
Definition LUG_THRESHOLD_PERMILLE_MAX : Z := 1000.
Definition MAX_SECTION_ENTRIES : Z := 256.
Definition SETTINGS_HISTORY_MAX : Z := 100.

(** ** The read *)

Record SettingRow := mkSettingRow {
  row_key : value; surface : value; row_origin : string; row_value : value; valueType : value; defaultValue : value;
  bound : value; liveApply : value; changeVia : value; uiBinding : value; summary : value; editable : value }.

Definition ADMIN_ROLE_LABELS : list (string * string) :=
  [("operator", "Operator"); ("securityadmin", "Security admin"); ("tenantadmin", "Tenant admin");
   ("auditor", "Auditor"); ("root", "Root")].
Definition adminRoleLabel (name : string) : string := default name (map_get ADMIN_ROLE_LABELS name).

(** [xs.map(...)] renaming the fields of each item. *)
Definition map_renamed (ks : list (string * string)) (xs : value) : result value :=
  js_map (λ x, ps ← renamed x ks; Ok (VObj ps)) xs.

Definition toIdentityValues (w : value) : result value :=
  if is_undefined w then Ok VNull
  else
    a ← get w "admins";
    a ← map_renamed [("identity", "identity"); ("roles", "roles"); ("clearance", "clearance")] (or_else a (VArr []));
    g ← get w "sso_group_roles";
    g ← map_renamed [("group", "group"); ("roles", "roles")] (or_else g (VArr []));
    Ok (VObj [("admins", a); ("ssoGroupRoles", g)]).

Definition toSettingRow (row : value) : result (option SettingRow) :=
  o ← get row "origin";
  match toTag SETTING_ORIGINS o with
  | None => Ok None
  | Some o =>
      k ← get row "key"; s ← get row "surface"; v ← get row "value"; vt ← get row "value_type"; d ← get row "default_value";
      b ← get row "bound"; l ← get row "live_apply"; c ← get row "change_via"; u ← get row "ui_binding";
      su ← get row "summary"; e ← get row "editable";
      Ok (Some (mkSettingRow k s o (if is_undefined v then VNull else v) vt d b l c u su e))
  end.

Definition toLug (l : value) : result value :=
  ps ← renamed l [("enabled", "enabled"); ("resolutionEnabled", "resolution_enabled");
                  ("maxAccountsPerNamespace", "max_accounts_per_namespace");
                  ("maxGroupsPerNamespace", "max_groups_per_namespace");
                  ("maxSessionsPerDevice", "max_sessions_per_device"); ("lastSeenBucketHours", "last_seen_bucket_hours");
                  ("bindingConfirmThresholdPermille", "binding_confirm_threshold_permille");
                  ("snapshotCadenceHours", "snapshot_cadence_hours")];
  Ok (VObj ps).

(** Null unless every section is present. *)
Definition toSectionValues (p : value) : result value :=
  if is_undefined p then Ok VNull
  else
    dc ← get p "dual_control"; eg ← get p "egress_destinations"; lug ← get p "lug_exposure";
    df ← get p "disabled_decoder_families"; sf ← get p "source_format_map"; mr ← get p "soc_narrative_model_ref";
    if existsb is_undefined [dc; eg; lug; df; sf; mr] then Ok VNull
    else
      eg ← map_renamed [("id", "id"); ("ceiling", "ceiling")] eg; lug ← toLug lug;
      sf ← map_renamed [("source", "source"); ("format", "format")] sf;
      Ok (VObj [("dualControl", dc); ("egressDestinations", eg); ("lugExposure", lug); ("disabledDecoderFamilies", df);
                ("sourceFormatMap", sf); ("socNarrativeModelRef", if is_str "" mr then VNull else mr)]).

Record SettingsView := mkSettingsView {
  set_version : value; set_rows : list SettingRow; surfaces : value; set_dualControlRequired : value;
  sectionValues : value; identity : value }.

Definition toSettingsView (wire : value) : result (option SettingsView) :=
  r ← refused wire;
  if (r : bool) then Ok None
  else
    then_some (project_field toSettingRow wire "rows") (λ rows,
      v ← get wire "version"; s ← get wire "surfaces"; d ← get wire "dual_control_required";
      sv ← get wire "section_values"; sv ← toSectionValues sv; i ← get wire "identity_values"; i ← toIdentityValues i;
      Ok (Some (mkSettingsView v rows s d sv i))).

Definition settingSourceLabel `{NumberToString} (row : SettingRow) (version : Z) : string :=
  if bool_decide (row_origin row = "knob") || bool_decide (row_origin row = "section") then
    if f64_eq version 0 then "fail-closed default (nothing committed)"
    else "committed at version " +:+ js_String (VNum version)
  else if bool_decide (row_origin row = "env") then "node environment at boot" else "compile-time constant".

Definition settingApplyClass (row : SettingRow) : result string :=
  if bool_decide (row_origin row = "env") || bool_decide (row_origin row = "const") then Ok "fixed"
  else
    l ← as_string (liveApply row);
    Ok (if startsWith l "live" then "live" else if startsWith l "pending" then "pending" else "boot-bound").

(** [row.editable && ...] as a condition *)
Definition isKeyEditable (row : SettingRow) : bool :=
  negb (falsy (editable row)) && bool_decide (row_origin row = "knob") && negb (is_str "CapabilitySet" (valueType row)).

(** ** The commit *)

Record SettingEdit := mkEdit { edit_key : string; edit_value : string }.
Record LugExposure := mkLug {
  lug_enabled : bool; lug_resolution : bool; lug_accounts : Z; lug_groups : Z; lug_sessions : Z; lug_bucket : Z;
  lug_threshold : Z; lug_cadence : Z }.
Record SectionPatch := mkPatch {
  dualControl : option (list string); egressDestinations : option (list (string * string));
  lugExposure : option LugExposure; disabledDecoderFamilies : option (list string);
  sourceFormatMap : option (list (string * string)); socNarrativeModelRef : option string }.
Record SettingsCommitRequest := mkCommit { commit_edits : list SettingEdit; commit_sections : option SectionPatch }.

Definition lower_or_underscore (c : Ascii.ascii) : bool :=
  let b := byte_of_ascii c in in_range 97 122 b || (b =? 95).
Definition key_char (c : Ascii.ascii) : bool :=
  let b := byte_of_ascii c in lower_or_underscore c || in_range 48 57 b || (b =? 46).
Fixpoint all_chars (p : Ascii.ascii → bool) (s : string) : bool :=
  match s with EmptyString => true | String c s => p c && all_chars p s end.

(** [/^[a-z_][a-z0-9_.]{0,127}$/] *)
Definition setting_key (s : string) : bool :=
  match s with
  | EmptyString => false
  | String c s => lower_or_underscore c && all_chars key_char s && (String.length s <=? 127)%nat
  end.

Definition toEditInput (edit : value) : result (option SettingEdit) :=
  if not_object edit then Ok None
  else
    k ← get edit "key"; v ← get edit "value";
    Ok match k, v with
       | VStr k, VStr v => if setting_key k && (js_strlen v <=? MAX_SETTING_VALUE_CHARS) then Some (mkEdit k v) else None
       | _, _ => None
       end.

(** The items of an array of at most [max] entries. *)
Definition bounded_array (max : Z) (raw : value) : option (list value) :=
  match raw with VArr items => if Z.of_nat (length items) <=? max then Some items else None | _ => None end.

Definition text_entry (v : value) : result (option string) :=
  Ok match v with VStr s => if js_strlen s <=? MAX_SECTION_TEXT_CHARS then Some s else None | _ => None end.

Definition stringList (raw : value) : result (option (list string)) :=
  match bounded_array MAX_SECTION_ENTRIES raw with None => Ok None | Some items => project_all text_entry items end.

(** As 64 bits. *)
Definition nonNegativeInt (v : value) (max : Z) : option Z :=
  match v with
  | VNum x => if f64_isInteger x && f64_le 0 x && f64_le x (f64_ofZ max) then Some x else None
  | _ => None
  end.

Definition egress_entry (r : value) : result (option (string * string)) :=
  if not_object r then Ok None
  else
    i ← get r "id"; c ← get r "ceiling";
    Ok match i, toTag CLASSIFICATION_TAGS c with
       | VStr i, Some c =>
           if negb (bool_decide (trim i = "")) && (js_strlen i <=? MAX_EGRESS_ID_CHARS) then Some (i, c) else None
       | _, _ => None
       end.

Definition format_entry (r : value) : result (option (string * string)) :=
  if not_object r then Ok None
  else
    s ← get r "source"; f ← get r "format";
    Ok match s, f with
       | VStr s, VStr f => if bool_decide (trim s = "") || bool_decide (trim f = "") then None else Some (s, f)
       | _, _ => None
       end.

Definition entries {A} (f : value → result (option A)) (raw : value) : result (option (list A)) :=
  match bounded_array MAX_SECTION_ENTRIES raw with None => Ok None | Some items => project_all f items end.

Definition lug_input (l : value) : result (option LugExposure) :=
  if not_object l then Ok None
  else
    a ← get l "maxAccountsPerNamespace"; g ← get l "maxGroupsPerNamespace"; se ← get l "maxSessionsPerDevice";
    lb ← get l "lastSeenBucketHours"; bt ← get l "bindingConfirmThresholdPermille"; sc ← get l "snapshotCadenceHours";
    e ← get l "enabled"; re ← get l "resolutionEnabled";
    let u32 v := nonNegativeInt v 4294967295 in
    Ok match e, re, u32 a, u32 g, u32 se, u32 lb, nonNegativeInt bt 65535, u32 sc with
       | VBool e, VBool re, Some a, Some g, Some se, Some lb, Some bt, Some sc => Some (mkLug e re a g se lb bt sc)
       | _, _, _, _, _, _, _, _ => None
       end.

(** [if (p[k] !== undefined) out.k = f(p[k]), or give up] *)
Definition section_field {A} (p : value) (k : string) (f : value → result (option A)) : result (option (option A)) :=
  v ← get p k; if is_undefined v then Ok (Some None) else r ← f v; Ok (option_map Some r).

Definition empty_patch (p : SectionPatch) : bool :=
  match p with mkPatch None None None None None None => true | _ => false end.

Definition toSectionPatch (raw : value) : result (option SectionPatch) :=
  if not_object raw then Ok None
  else
    then_some (section_field raw "dualControl" stringList) (λ dc,
    then_some (section_field raw "egressDestinations" (entries egress_entry)) (λ eg,
    then_some (section_field raw "lugExposure" lug_input) (λ lug,
    then_some (section_field raw "disabledDecoderFamilies" stringList) (λ df,
    then_some (section_field raw "sourceFormatMap" (entries format_entry)) (λ sf,
    then_some (section_field raw "socNarrativeModelRef" text_entry) (λ mr,
      let out := mkPatch dc eg lug df sf mr in
      Ok (if empty_patch out then None else Some out))))))).

Definition toSettingsCommitRequest (raw : value) : result (option SettingsCommitRequest) :=
  if not_object raw then Ok None
  else
    e ← get raw "edits";
    match bounded_array MAX_SETTING_EDITS (or_else e (VArr [])) with
    | None => Ok None
    | Some items =>
        then_some (project_all toEditInput items) (λ edits,
        then_some (section_field raw "sections" toSectionPatch) (λ sections,
          Ok (match edits, sections with [], None => None | _, _ => Some (mkCommit edits sections) end)))
    end.

(** [...(x === undefined ? {} : { k: f(x) })] *)
Definition opt_prop {A} (k : string) (f : A → value) (x : option A) : props :=
  match x with None => [] | Some x => [(k, f x)] end.

Definition toWireSectionPatch (p : SectionPatch) : value :=
  VObj (opt_prop "dual_control" (λ l, VArr (map VStr l)) (dualControl p) ++
        opt_prop "egress_destinations"
          (λ l, VArr (map (λ e : string * string, VObj [("id", VStr e.1); ("ceiling", VStr e.2)]) l)) (egressDestinations p) ++
        opt_prop "lug_exposure"
          (λ l, VObj [("enabled", VBool (lug_enabled l)); ("resolution_enabled", VBool (lug_resolution l));
                      ("max_accounts_per_namespace", VNum (lug_accounts l));
                      ("max_groups_per_namespace", VNum (lug_groups l));
                      ("max_sessions_per_device", VNum (lug_sessions l)); ("last_seen_bucket_hours", VNum (lug_bucket l));
                      ("binding_confirm_threshold_permille", VNum (lug_threshold l));
                      ("snapshot_cadence_hours", VNum (lug_cadence l))]) (lugExposure p) ++
        opt_prop "disabled_decoder_families" (λ l, VArr (map VStr l)) (disabledDecoderFamilies p) ++
        opt_prop "source_format_map"
          (λ l, VArr (map (λ e : string * string, VObj [("source", VStr e.1); ("format", VStr e.2)]) l)) (sourceFormatMap p) ++
        opt_prop "soc_narrative_model_ref" VStr (socNarrativeModelRef p)).

Definition toWireSettingsCommitFields (request : SettingsCommitRequest) : props :=
  ("edits", VArr (map (λ e, VObj [("key", VStr (edit_key e)); ("value", VStr (edit_value e))]) (commit_edits request)))
    :: opt_prop "sections" toWireSectionPatch (commit_sections request).

(** ** Receipts *)

Definition approvalRefusalLabel (cause : string) : option string :=
  map_get [("self_approval", "You proposed this change; a different Admin must approve it.");
           ("unknown_proposal", "That proposal no longer exists (it was approved, discarded, or the node restarted).");
           ("stale", "The configuration changed after this was proposed, so approving it would undo that change. The proposal was discarded; propose again.");
           ("other", "The engine refused the approval.")] cause.

Definition textOrNull : value → value := text_or_null.

Definition toRefusals (refusals : value) : result value :=
  js_map (λ r,
    k ← get r "key"; c ← get r "cause"; d ← get r "detail";
    Ok (VObj [("key", k); ("cause", VStr (default "other" (toTag SETTING_REFUSAL_CAUSES c))); ("causeTag", c);
              ("detail", textOrNull d)])) refusals.

(** [x === 0], on numbers *)
Definition is_zero (v : value) : bool := match v with VNum x => f64_eq x 0 | _ => false end.

Definition APPROVAL_REFUSALS : list string := ["self_approval"; "unknown_proposal"; "stale"].

Definition toSettingsReceipt (wire : value) : result value :=
  a ← renamed wire [("version", "version"); ("needsRestart", "needs_restart"); ("dualControlRequired", "dual_control_required")];
  re ← get wire "refused_edits"; re ← toRefusals re;
  b ← renamed wire [("violations", "violations"); ("refused", "refused")];
  e ← get wire "explanation"; p ← get wire "proposal"; ar ← get wire "approval_refused";
  Ok (VObj (a ++ [("refusedEdits", re)] ++ b ++
    [("explanation", textOrNull e); ("proposal", if is_undefined p || is_zero p then VNull else p);
     ("approvalRefused", if is_undefined ar || is_str "" ar then VNull
                         else VStr (default "other" (toTag APPROVAL_REFUSALS ar)))])).

Definition refusalCauseLabel (cause causeTag : string) : string :=
  default ("refused (" +:+ causeTag +:+ ")")
    (map_get [("unknown_key", "not a governed setting"); ("not_a_knob", "a section: change it through its form");
              ("boot_bound", "boot-bound: needs a restart, not editable here");
              ("pending_subsystem", "pending: nothing applies it yet");
              ("unparseable", "not a valid value for this setting"); ("kind_mismatch", "the wrong kind of value");
              ("duplicate", "listed twice in one commit")] cause).

Definition toSettingsProposalReceipt (wire : value) : result value :=
  r ← get wire "refused"; p ← get wire "proposal"; re ← get wire "refused_edits"; re ← toRefusals re;
  v ← get wire "violations"; e ← get wire "explanation";
  Ok (VObj [("proposal", if negb (falsy r) || is_zero p then VNull else p); ("refusedEdits", re); ("violations", v);
            ("refused", r); ("explanation", textOrNull e)]).

Definition toPendingProposals (wire : value) : result value :=
  r ← refused wire;
  if (r : bool) then Ok VNull
  else ps ← get wire "proposals";
       map_renamed [("proposal", "proposal"); ("proposer", "proposer"); ("proposedAtMs", "proposed_at_ms");
                    ("changedKeys", "changed_keys"); ("stale", "stale")] ps.

Definition toSettingsHistoryView (wire : value) : result value :=
  r ← refused wire;
  if (r : bool) then Ok VNull
  else
    vs ← get wire "versions";
    vs ← js_map (λ v, n ← get v "version"; p ← get v "principal"; a ← get v "at_ms"; c ← get v "changed_keys";
                      Ok (VObj [("version", n); ("principal", textOrNull p);
                                ("atMs", if is_undefined a || is_zero a then VNull else a); ("changedKeys", c)])) vs;
    c ← get wire "complete"; Ok (VObj [("versions", vs); ("complete", c)]).

(** ** Reports *)

Inductive EngineBuild := commit_build (commit : string) (dirty : bool) | unstamped (reported : string).

Definition is_lower_hex (c : Ascii.ascii) : bool := let b := byte_of_ascii c in in_range 48 57 b || in_range 97 102 b.

Fixpoint drop_chars (n : nat) (s : string) : string :=
  match n, s with S n, String _ s => drop_chars n s | _, _ => s end.

(** [/^([0-9a-f]{n})(-dirty)?$/] *)
Definition build_id (n : nat) (version : string) : option (string * bool) :=
  let commit := String.substring 0 n version in
  let rest := drop_chars n version in
  if matches_exactly (replicate n is_lower_hex) commit then
    if bool_decide (rest = "") then Some (commit, false)
    else if bool_decide (rest = "-dirty") then Some (commit, true) else None
  else None.

Definition parseEngineBuild (version : string) : EngineBuild :=
  match build_id 40 version with
  | Some (c, d) => commit_build c d
  | None => match build_id 64 version with Some (c, d) => commit_build c d | None => unstamped version end
  end.

Definition build_view (b : EngineBuild) : value :=
  match b with
  | commit_build c d => VObj [("kind", VStr "commit"); ("commit", VStr c); ("dirty", VBool d)]
  | unstamped r => VObj [("kind", VStr "unstamped"); ("reported", VStr r)]
  end.

Section report_names.
Definition comma : Ascii.ascii := ascii_of_byte 44.

(** [out] holds the names so far. *)
Fixpoint names_loop (out : list string) (parts : list string) : option (list string) :=
  match parts with
  | [] => Some out
  | part :: parts =>
      let name := trim part in
      if bool_decide (name ∈ SETTINGS_REPORT_NAMES) then
        names_loop (if bool_decide (name ∈ out) then out else out ++ [name]) parts
      else None
  end.

Definition toSettingsReportNames (raw : option string) : option (list string) :=
  match raw with
  | None => None
  | Some raw => if bool_decide (trim raw = "") then None else names_loop [] (split_on comma raw)
  end.
End report_names.

(** A part of the reply that may be absent. *)
Definition part (wire : value) (k : string) (f : value → result value) : result value :=
  v ← get wire k; if is_undefined v then Ok VNull else f v.

Definition server_part (s : value) : result value :=
  a ← renamed s [("shards", "shards"); ("serving", "serving"); ("durable", "durable");
                 ("maintenanceEnabled", "maintenance_enabled"); ("maintenanceCadenceSecs", "maintenance_cadence_secs");
                 ("maxPayload", "max_payload"); ("version", "version")];
  v ← get s "version"; b ← get_or_null s "build_time_unix";
  let build := match v with
               | VStr v => build_view (parseEngineBuild v)
               | _ => VObj [("kind", VStr "unstamped"); ("reported", v)]
               end in
  Ok (VObj (a ++ [("build", build); ("builtAtUnix", b)])).

Definition renamed_part (ks : list (string * string)) (v : value) : result value := ps ← renamed v ks; Ok (VObj ps).

Definition toSettingsReportsView (wire : value) : result value :=
  r ← refused wire;
  if (r : bool) then Ok VNull
  else
    ap ← get wire "admin_plane"; s ← part wire "server" server_part;
    c ← part wire "connectivity" (renamed_part
          [("listenAddr", "listen_addr"); ("mutualTls", "mutual_tls"); ("identitiesBound", "identities_bound");
           ("postQuantumKx", "post_quantum_kx"); ("cryptoProvider", "crypto_provider"); ("fipsModule", "fips_module")]);
    sec ← part wire "security" (renamed_part
          [("classification", "classification"); ("auditHeadVersion", "audit_head_version");
           ("auditEntries", "audit_entries"); ("auditChainVerified", "audit_chain_verified");
           ("artifactsSpotChecked", "artifacts_spot_checked"); ("artifactSpotFailures", "artifact_spot_failures");
           ("templateArtifacts", "template_artifacts")]);
    t ← part wire "telemetry" (renamed_part
          [("enabled", "enabled"); ("grpcAddr", "grpc_addr"); ("httpAddr", "http_addr");
           ("queueCapacity", "queue_capacity"); ("tenantsBound", "tenants_bound")]);
    k ← part wire "key_issuing" (renamed_part
          [("enabled", "enabled"); ("dualControlRequired", "dual_control_required"); ("keyValiditySecs", "key_validity_secs")]);
    eg ← part wire "egress" (map_renamed [("id", "id"); ("ceiling", "ceiling")]);
    Ok (VObj [("adminPlane", ap); ("server", s); ("connectivity", c); ("security", sec); ("telemetry", t);
              ("keyIssuing", k); ("egress", eg)]).

Definition sessionGroupLabel (group : string) : string :=
  if bool_decide (group = "X25519MLKEM768") then "Hybrid post-quantum (X25519MLKEM768)"
  else if bool_decide (group = "secp384r1") then "Classical P-384 floor (CNSA 1.0)"
  else "Other (" +:+ group +:+ ")".

(** ** Ids and limits *)

Definition is_digit (c : Ascii.ascii) : bool := in_range 48 57 (byte_of_ascii c).

(** [/^[0-9]{1,15}$/] *)
Definition short_digits (s : string) : bool :=
  all_chars is_digit s && (1 <=? String.length s)%nat && (String.length s <=? 15)%nat.

(** [Number.isSafeInteger(x) && x > 0], as 64 bits *)
Definition safe_positive (x : Z) : bool := f64_isInteger x && f64_le x (f64_ofZ MAX_SAFE) && f64_lt 0 x.

Definition toPositiveId (raw : value) : option Z :=
  let n := match raw with VStr s => if short_digits s then VNum (StringToNumber s) else raw | _ => raw end in
  match n with VNum x => if safe_positive x then Some x else None | _ => None end.

Definition toHistoryLimit (raw : option string) : option Z :=
  match raw with
  | None | Some "" => Some 0
  | Some s => match toPositiveId (VStr s) with
              | Some n => if f64_le n (f64_ofZ SETTINGS_HISTORY_MAX) then Some n else None
              | None => None
              end
  end.

(** ** The console's role map *)

Record ConsoleRoleGrant := mkGrant { grant_key : string; grant_role : string; grant_tenant : option string }.
Record ConsoleRbacView := mkRbacView {
  groupRoles : list ConsoleRoleGrant; localRbac : list ConsoleRoleGrant; rbac_defaultTenant : option string }.

(** A string or [null]; the outer option is the failed narrowing. *)
Definition nullable_string (v : value) : option (option string) :=
  match v with VNull => Some None | VStr s => Some (Some s) | _ => None end.

Definition toConsoleGrant (item : value) : result (option ConsoleRoleGrant) :=
  if not_object item then Ok None
  else
    k ← get item "key"; r ← get item "role"; t ← get item "tenant";
    Ok match k, toTag CONSOLE_ROLES r, nullable_string t with
       | VStr k, Some r, Some t => Some (mkGrant k r t)
       | _, _, _ => None
       end.

Definition toConsoleGrants (raw : value) : result (option (list ConsoleRoleGrant)) :=
  match raw with VArr items => project_all toConsoleGrant items | _ => Ok None end.

Definition toConsoleRbacView (raw : value) : result (option ConsoleRbacView) :=
  if not_object raw then Ok None
  else
    g ← get raw "groupRoles"; g ← toConsoleGrants g; l ← get raw "localRbac"; l ← toConsoleGrants l;
    d ← get raw "defaultTenant";
    Ok match g, l, nullable_string d with
       | Some g, Some l, Some d => Some (mkRbacView g l d)
       | _, _, _ => None
       end.

(** ** Resolvers *)

Section resolvers.
Context (client : string → value → result value) (principal : OperatorPrincipal).

Definition resolveSettings (next : Z) (surface : option string) : result (option SettingsView) * Z :=
  let '(rid, next) := requestId next in
  (wire ← awaited (settingsRead client principal (VObj (("request_id", vint rid) :: opt_prop "surface" VStr surface)));
   r ← refused wire;
   if (r : bool) then Ok None
   else view ← toSettingsView wire;
        match view with
        | None => Throw (SettingsUnavailableError "a setting carries an origin this build does not know")
        | Some v => Ok (Some v)
        end, next).

(** A fresh request id, the call, and the projection of its reply. *)
Definition settings_call (method : OperatorPrincipal → value → result (EngineDelegation * result value))
    (project : value → result value) (next : Z) (fields : props) : result value * Z :=
  let '(rid, next) := requestId next in
  (wire ← awaited (method principal (VObj (("request_id", vint rid) :: fields))); project wire, next).

Definition resolveSettingsCommit (next : Z) (request : SettingsCommitRequest) :=
  settings_call (settingsCommit client) toSettingsReceipt next (toWireSettingsCommitFields request).
Definition resolveSettingsReports (next : Z) (names : list string) :=
  settings_call (settingsReports client) toSettingsReportsView next [("reports", VArr (map VStr names))].
Definition resolveSettingsPropose (next : Z) (request : SettingsCommitRequest) :=
  settings_call (settingsPropose client) toSettingsProposalReceipt next (toWireSettingsCommitFields request).
Definition resolveSettingsApprovals (next : Z) :=
  settings_call (settingsApprovals client) toPendingProposals next [].
Definition resolveSettingsApprove (next proposal : Z) :=
  settings_call (settingsApprove client) toSettingsReceipt next [("proposal", VNum proposal)].
Definition resolveSettingsHistory (next limit : Z) :=
  settings_call (settingsHistory client) toSettingsHistoryView next [("limit", VNum limit)].
Definition resolveSettingsRollback (next to : Z) :=
  settings_call (settingsRollback client) toSettingsReceipt next [("to", VNum to)].
End resolvers.
