(* ===== verification/Decimal.v ===== *)
(** * Integers as text

    [String(n)] of a non-negative safe integer is its decimal digits, and [Number] and
    [Number.parseInt] read them back: the round trip under every number the console puts
    into a URL. *)
From S2P Require Import Prelude Bytes Float64 Cbor JsString Num64 Cookie Settings.
From stdpp Require Import list pretty.
Open Scope Z_scope.

(** The digits of [x]. *)
Definition decimal (x : N) (d : string) : Prop :=
  all_chars is_digit d = true ∧
  ∀ a c s, digit_run 10 a c (d +:+ s) = digit_run 10 (a * 10 ^ Z.of_nat (String.length d) + Z.of_N x) (c + Z.of_nat (String.length d)) s.

Lemma all_chars_app p a b : all_chars p (a +:+ b) = all_chars p a && all_chars p b.
Proof. induction a as [|c a IH]; [done|]. rewrite str_app_cons. cbn. by rewrite IH, andb_assoc. Qed.

Lemma pretty_char x : (x < 10)%N → is_digit (pretty_N_char x) = true ∧ digit_value (pretty_N_char x) = Some (Z.of_N x).
Proof.
  intros Hx. assert (x = 0 ∨ x = 1 ∨ x = 2 ∨ x = 3 ∨ x = 4 ∨ x = 5 ∨ x = 6 ∨ x = 7 ∨ x = 8 ∨ x = 9)%N as H by lia.
  repeat destruct H as [->|H]; subst; done.
Qed.

Lemma pretty_go_decimal x s : ∃ d, pretty_N_go x s = d +:+ s ∧ decimal x d ∧ ((0 < x)%N → d ≠ "").
Proof.
  revert s. induction (N.lt_wf_0 x) as [x _ IH]; intros s. destruct (decide (x = 0)%N) as [->|Hx].
  { exists "". rewrite pretty_N_go_0. split_and!; [done| |lia]. split; [done|]. intros a c t. cbn. f_equal; lia. }
  rewrite pretty_N_go_step by lia.
  destruct (IH (x `div` 10)%N ltac:(apply N.div_lt; lia) (String (pretty_N_char (x `mod` 10)) s)) as (d & -> & [Hd Hr] & _).
  destruct (pretty_char (x `mod` 10)) as [Hc Hv]; [by apply N.mod_lt|].
  exists (d +:+ String (pretty_N_char (x `mod` 10)) ""). split_and!; [by rewrite str_app_assoc| |by destruct d].
  split; [by rewrite all_chars_app, Hd; cbn; rewrite Hc|]. intros a c t. rewrite str_app_assoc, Hr, str_app_cons, str_nil_app.
  cbn [digit_run]. rewrite Hv. pose proof (N.mod_lt x 10 ltac:(lia)). rewrite (proj2 (Z.ltb_lt _ _)) by lia.
  rewrite str_length_app. cbn [String.length]. rewrite Nat2Z.inj_add. f_equal; [|lia].
  rewrite Z.pow_add_r by lia. assert (Z.of_N x = 10 * Z.of_N (x `div` 10) + Z.of_N (x `mod` 10)) as E
    by (pose proof (N.div_mod x 10 ltac:(lia)); lia). rewrite E. change (10 ^ Z.of_nat 1) with 10. ring.
Qed.

Lemma digit_token c : is_digit c = true → token_char c = true.
Proof. destruct c as [[] [] [] [] [] [] [] []]; vm_compute; done. Qed.

Lemma digits_token d : all_chars is_digit d = true → token d = true.
Proof. induction d as [|c d IH]; [done|]. cbn. intros [Hc Hd]%andb_prop. by rewrite digit_token, IH. Qed.

(** The text of a number: digits, of which there are some, that read as the number. *)
Lemma pretty_go_length k x s : (x < 10 ^ N.of_nat k)%N → (String.length (pretty_N_go x s) ≤ k + String.length s)%nat.
Proof.
  revert x s. induction k as [|k IH]; intros x s Hx.
  - assert (x = 0%N) as -> by (cbn in Hx; lia). rewrite pretty_N_go_0. lia.
  - destruct (decide (x = 0%N)) as [->|Hne]; [rewrite pretty_N_go_0; lia|]. rewrite pretty_N_go_step by lia.
    etrans; [apply IH|cbn; lia]. apply N.Div0.div_lt_upper_bound. by rewrite <- N.pow_succ_r', <- Nat2N.inj_succ.
Qed.

(** Fewer than [k] digits below [10 ^ k]. *)
Lemma pretty_length k n : 0 < n < 10 ^ Z.of_nat k → (String.length (pretty n) ≤ k)%nat.
Proof.
  intros Hn. destruct n as [|p|p]; [lia| |lia]. change (pretty (Zpos p)) with (pretty_N_go (Npos p) "").
  etrans; [apply (pretty_go_length k)|cbn; lia]. apply N2Z.inj_lt. rewrite N2Z.inj_pow, nat_N_Z. cbn. lia.
Qed.

Lemma pretty_decimal n : 0 ≤ n → ∃ c d, pretty n = String c d ∧ all_chars is_digit (String c d) = true ∧
  ∀ count, digit_run 10 0 count (String c d) = (count + Z.of_nat (String.length (String c d)), n, "").
Proof.
  intros Hn. destruct n as [|p|p]; [|..|lia].
  { exists (ascii_of_byte 48), "". split_and!; [done|done|]. intros count. cbn. done. }
  destruct (pretty_go_decimal (Npos p) "") as (d & E & [Hd Hr] & Hne). rewrite str_app_nil in E.
  assert (pretty (Zpos p) = d) as Ep by (rewrite <- E; done). destruct d as [|c d]; [by destruct Hne|].
  exists c, d. split_and!; [done|done|]. intros count. specialize (Hr 0 count ""). rewrite str_app_nil in Hr. by rewrite Hr.
Qed.

(** No text of digits is a literal of another radix, a signed number or [Infinity]. *)
Lemma digits_no_radix c d k : all_chars is_digit (String c d) = true → is_digit k = false →
  JsString.strip_prefix (String (ascii_of_byte 48) (String k "")) (toLowerCase (String c d)) = None.
Proof.
  cbn [all_chars]. intros [Hc Hd]%andb_prop Hk. destruct (JsString.strip_prefix _ _) as [r|] eqn:E; [|done].
  apply strip_prefix_Some in E. destruct d as [|c' d]; [done|]. apply andb_prop in Hd as [Hc' _].
  injection E as _ E _. exfalso. assert (toLower_char c' = c') as E'.
  { clear -Hc'. revert Hc'. destruct c' as [[] [] [] [] [] [] [] []]; vm_compute; done. }
  congruence.
Qed.

Lemma digits_plain c d : all_chars is_digit (String c d) = true → sign_of (String c d) = (false, String c d) ∧ String c d ≠ "Infinity".
Proof.
  cbn [all_chars]. intros [Hc _]%andb_prop. split; [|by intros [= -> _]].
  revert Hc. destruct c as [[] [] [] [] [] [] [] []]; vm_compute; done.
Qed.

Lemma digits_read n c d : 0 ≤ n ≤ MAX_SAFE → (∀ count, digit_run 10 0 count (String c d) = (count + Z.of_nat (String.length (String c d)), n, "")) →
  decimal_literal false (String c d) = f64_ofZ n.
Proof.
  intros Hn Hr. unfold decimal_literal. rewrite Hr. change (JsString.strip_prefix "." "") with (@None string). cbn [exponent_part].
  rewrite (proj2 (Z.eqb_neq _ _)) by (cbn [String.length]; lia). unfold f64_decimal. cbn -[f64_ratio Z.pow Z.mul].
  rewrite Z.mul_1_r, f64_ratio_int by done. unfold f64_ofZ. by rewrite (proj2 (Z.ltb_ge _ _)), Z.abs_eq by lia.
Qed.

Lemma StringToNumber_pretty n : 0 ≤ n ≤ MAX_SAFE → StringToNumber (pretty n) = f64_ofZ n.
Proof.
  intros Hn. destruct (pretty_decimal n) as (c & d & -> & Hd & Hr); [lia|]. unfold StringToNumber.
  rewrite trim_token by (by apply digits_token). rewrite bool_decide_eq_false_2 by done.
  destruct (digits_plain c d Hd) as [Hs Hi].
  change "0x" with (String (ascii_of_byte 48) "x"). change "0o" with (String (ascii_of_byte 48) "o").
  change "0b" with (String (ascii_of_byte 48) "b"). rewrite !digits_no_radix by done.
  rewrite Hs, bool_decide_eq_false_2 by done. by apply digits_read.
Qed.

Lemma parseInt10_pretty n : 0 ≤ n ≤ MAX_SAFE → parseInt10 (pretty n) = f64_ofZ n.
Proof.
  intros Hn. destruct (pretty_decimal n) as (c & d & -> & Hd & Hr); [lia|]. unfold parseInt10.
  rewrite trim_token by (by apply digits_token). destruct (digits_plain c d Hd) as [-> _]. rewrite Hr.
  rewrite (proj2 (Z.eqb_neq _ _)) by (cbn [String.length]; lia). rewrite f64_ratio_int by done.
  unfold f64_ofZ. by rewrite (proj2 (Z.ltb_ge _ _)), Z.abs_eq by lia.
Qed.

Section text.
Context {NS : NumberToString}.

(** [String(n)] *)
Lemma js_String_int n : 0 ≤ n ≤ MAX_SAFE → js_String (VNum (f64_ofZ n)) = pretty n.
Proof using.
  intros Hn. destruct (f64_ofZ_spec n ltac:(lia)) as (Hi & Hz & _). cbn. rewrite Hi, Hz.
  unfold MAX_SAFE in Hn. by rewrite (proj2 (Z.ltb_lt _ _)) by lia.
Qed.
End text.

(** The order of non-negative safe integers is that of their bits. *)
Lemma f64_ofZ_mono a b : 0 ≤ a ≤ b → b ≤ MAX_SAFE → f64_ofZ a ≤ f64_ofZ b.
Proof.
  unfold MAX_SAFE. intros Ha Hb. unfold f64_ofZ, f64_make. rewrite !(proj2 (Z.ltb_ge _ _)), !Z.abs_eq by lia.
  destruct (Z.eqb_spec a 0) as [->|Ha0]; destruct (Z.eqb_spec b 0) as [->|Hb0]; try lia.
  { destruct (make_k b ltac:(lia)) as [Hk _]. pose proof (make_f b ltac:(lia)). lia. }
  destruct (make_k a ltac:(lia)) as [Hka _], (make_k b ltac:(lia)) as [Hkb _].
  pose proof (make_f a ltac:(lia)) as Hfa. pose proof (make_f b ltac:(lia)) as Hfb.
  pose proof (Z.log2_le_mono a b ltac:(lia)). set (ka := Z.log2 a) in *. set (kb := Z.log2 b) in *.
  destruct (decide (ka = kb)) as [->|]; [|lia]. assert (0 < 2 ^ (52 - kb)) by (apply Z.pow_pos_nonneg; lia). nia.
Qed.

Lemma f64_key_nonneg n : 0 ≤ n ≤ MAX_SAFE → f64_key (f64_ofZ n) = f64_ofZ n ∧ f64_isNaN (f64_ofZ n) = false.
Proof.
  intros Hn. destruct (f64_ofZ_parts n ltac:(lia)) as (HN & _ & _ & _ & Hs). split; [|done].
  unfold f64_key. destruct (f64_sign (f64_ofZ n)); [|done]. by assert (n < 0) by (by apply Hs); lia.
Qed.

Lemma f64_lt_pos n : 0 < n ≤ MAX_SAFE → f64_lt 0 (f64_ofZ n) = true.
Proof.
  intros Hn. destruct (f64_key_nonneg n ltac:(lia)) as [_ HN]. unfold f64_lt. rewrite HN. cbn [negb andb].
  destruct (f64_key_ofZ n ltac:(lia)) as [H1 H2]. change (negb (f64_isNaN 0)) with true. change (f64_key 0) with 0. cbn [andb]. lia.
Qed.

Lemma Math_min_ofZ n max : 0 ≤ n ≤ max → max ≤ MAX_SAFE → Math_min (f64_ofZ n) (f64_ofZ max) = f64_ofZ n.
Proof.
  intros Hn Hm. destruct (f64_key_nonneg n ltac:(lia)) as [E1 H1], (f64_key_nonneg max ltac:(lia)) as [E2 H2].
  unfold Math_min. rewrite H1, H2, E1, E2. cbn [orb]. pose proof (f64_ofZ_mono n max ltac:(lia) ltac:(lia)).
  by rewrite (proj2 (Z.ltb_ge _ _)).
Qed.

Lemma f64_floor_ofZ n : Z.abs n ≤ MAX_SAFE → f64_floor (f64_ofZ n) = f64_ofZ n.
Proof. intros Hn. destruct (f64_ofZ_spec n Hn) as (Hi & _ & HN & _). unfold f64_floor. by rewrite HN, Hi. Qed.
