(* ===== verification/ModelAccess.v ===== *)
(** * Model access ([packages/contracts/src/model-access.ts], [apps/bff/src/engine/model-access.ts])

    The frontier catalog, the agents' grants and the spend grouped back per agent and day;
    a grant change as the page asks for it, and what the engine did with it. *)
From S2P Require Import Prelude Bytes Float64 Cbor JsValue JsString Num64 Rbac OperatorEngine Vtz Policies JsOps Soc Settings.
From stdpp Require Import list.
Open Scope Z_scope.

(** ** Text and dates *)

Definition colon : Ascii.ascii := ascii_of_byte 58.

(** [/^agent-door:(.+):d(\d+)$/]: the digits hold no colon, so the last colon parts them from
    the agent. *)
Definition parseAgentDoorSession (session : string) : option (string * Z) :=
  rest ← JsString.strip_prefix "agent-door:" session;
  let parts := split_on colon rest in
  match list.last parts with
  | Some (String d digits) =>
      let agent := JsString.join ":" (take (length parts - 1) parts) in
      if Ascii.eqb d (ascii_of_byte 100) && negb (bool_decide (digits = "")) && all_chars is_digit digits &&
         (2 <=? length parts)%nat && negb (bool_decide (agent = "")) && negb (has_line_terminator agent)
      then Some (agent, parseInt10 digits) else None
  | _ => None
  end.

Definition DAY_MS : Z := 86400000.

(** Year, month and day of a day counted from 1970-01-01, in the proleptic Gregorian calendar. *)
Definition civil_of_day (day : Z) : Z * Z * Z :=
  let z := day + 719468 in
  let era := z / 146097 in
  let doe := z mod 146097 in
  let yoe := (doe - doe / 1460 + doe / 36524 - doe / 146096) / 365 in
  let doy := doe - (365 * yoe + yoe / 4 - yoe / 100) in
  let mp := (5 * doy + 2) / 153 in
  let d := doy - (153 * mp + 2) / 5 + 1 in
  let m := if mp <? 10 then mp + 3 else mp - 9 in
  (yoe + era * 400 + (if m <=? 2 then 1 else 0), m, d).

(** [digits] with zeroes in front up to [n] characters *)
Fixpoint zeros (n : nat) : string := match n with O => "" | S n => String (ascii_of_byte 48) (zeros n) end.
Definition padded (n : nat) (z : Z) : string := let s := pretty z in zeros (n - String.length s) +:+ s.

(** [new Date(day * DAY_MS).toISOString().slice(0, 10)], where [day] is a non-negative integer as
    64 bits; a time value past 8.64e15 is no date. *)
Definition epochDayDate (day : Z) : result string :=
  let ms := f64_mul day (f64_ofZ DAY_MS) in
  if f64_le ms (f64_ofZ 8640000000000000) then
    let '(y, m, d) := civil_of_day (f64_toZ ms / DAY_MS) in
    let year := if 9999 <? y then "+" +:+ padded 6 y else padded 4 y in
    Ok (String.substring 0 10 (year +:+ "-" +:+ padded 2 m +:+ "-" +:+ padded 2 d))
  else Throw (RangeError "Invalid time value").

(** The code units of one code point kept as UTF-8. *)
Definition units_of (c : string) : list Z :=
  match string_bytes c with
  | [a] => [a]
  | [a; b] => [(a - 0xc0) * 64 + (b - 0x80)]
  | [a; b; c] => [(a - 0xe0) * 4096 + (b - 0x80) * 64 + (c - 0x80)]
  | [a; b; c; d] =>
      let p := (a - 0xf0) * 262144 + (b - 0x80) * 4096 + (c - 0x80) * 64 + (d - 0x80) - 0x10000 in
      [0xd800 + p / 1024; 0xdc00 + p mod 1024]
  | _ => []
  end.
Definition utf16 (s : string) : list Z := concat (map units_of (js_chars s)).

Fixpoint compare_units (a b : list Z) : Z :=
  match a, b with
  | [], [] => 0
  | [], _ => -1
  | _, [] => 1
  | x :: a, y :: b => if x <? y then -1 else if y <? x then 1 else compare_units a b
  end.

(** [names.sort()], by code units *)
Definition sort_strings : list string → result (list string) := js_sort (λ a b, Ok (compare_units (utf16 a) (utf16 b))).

(** ** The view *)

Definition classification : value → option string := toTag CLASSIFICATION_TAGS.

Record AgentGrantRow := mkGrantRow {
  g_models : value; g_tools : value; readScopes : value; workspaces : value; g_classification : string }.
Record AgentDaySpend := mkDaySpend {
  day : Z; date : string; calls : value; costMicroUsd : value; inputTokens : value; cacheReadTokens : value;
  outputTokens : value }.
Record AgentAccess := mkAccess { agent : string; grant : option AgentGrantRow; spend : list AgentDaySpend }.
Record ModelAccessView := mkAccessView {
  adminPlane : value; catalogConfigured : value; catalogVersion : value; ma_models : list value; ma_roles : value;
  agents : list AgentAccess; otherSpend : list value; grantsTruncated : value; spendTruncated : value }.

Definition toAgentGrantRow (wire : value) : result (option AgentGrantRow) :=
  c ← get wire "class";
  match classification c with
  | None => Ok None
  | Some c =>
      m ← get wire "models"; m ← js_spread m; t ← get wire "tools"; t ← js_spread t;
      r ← get wire "read_scopes"; r ← js_spread r; w ← get wire "workspaces"; w ← js_spread w;
      Ok (Some (mkGrantRow m t r w c))
  end.

Definition toModelRow (m : value) : result (option value) :=
  c ← get m "ceiling";
  match classification c with
  | None => Ok None
  | Some c =>
      a ← renamed m [("id", "id"); ("version", "version"); ("vendorModel", "vendor_model"); ("destination", "destination");
                     ("surface", "surface"); ("pin", "pin"); ("lifecycle", "lifecycle")];
      b ← renamed m [("region", "region"); ("contextWindow", "context_window"); ("maxOutputTokens", "max_output_tokens")];
      p ← renamed m [("uncachedInput", "price_uncached_input"); ("cacheRead", "price_cache_read");
                     ("cacheWrite", "price_cache_write"); ("output", "price_output")];
      d ← renamed m [("zdrEligible", "zdr_eligible"); ("retentionDays", "retention_days")];
      Ok (Some (VObj (a ++ [("ceiling", VStr c)] ++ b ++ [("prices", VObj p)] ++ d)))
  end.

(** The grants in the order first named; a later grant of an agent replaces its row.  Agents and
    sessions are strings. *)
Fixpoint grants_loop (acc : list (string * AgentGrantRow)) (items : list value)
    : result (option (list (string * AgentGrantRow))) :=
  match items with
  | [] => Ok (Some acc)
  | g :: items =>
      then_some (toAgentGrantRow g) (λ row,
        a ← get g "agent"; a ← as_string a; grants_loop (map_set acc a row) items)
  end.

Section view.
Context {AO : ArithOther}.

Abbreviation day_map := (list (Z * AgentDaySpend)).

(** A map from days: [get] and [set] *)
Fixpoint day_get (m : day_map) (d : Z) : option AgentDaySpend :=
  match m with [] => None | (d', s) :: m => if d' =? d then Some s else day_get m d end.
Fixpoint day_set (m : day_map) (d : Z) (s : AgentDaySpend) : day_map :=
  match m with [] => [(d, s)] | (d', s') :: m => if d' =? d then (d, s) :: m else (d', s') :: day_set m d s end.

(** [(prior?.k ?? 0) + a] *)
Definition add_to (prior : option value) (a : value) : result value :=
  js_add (or_else (default VUndefined prior) (vint 0)) a.

(** The day's totals with one row added. *)
Definition add_spend (prior : option AgentDaySpend) (d : Z) (row : value) : result AgentDaySpend :=
  dt ← epochDayDate d;
  c ← get row "calls"; c ← add_to (calls <$> prior) c;
  m ← get row "cost_micro_usd"; m ← add_to (costMicroUsd <$> prior) m;
  u ← get row "uncached_input"; i ← add_to (inputTokens <$> prior) u; w ← get row "cache_write"; i ← js_add i w;
  r ← get row "cache_read"; r ← add_to (cacheReadTokens <$> prior) r;
  o ← get row "output"; o ← add_to (outputTokens <$> prior) o;
  Ok (mkDaySpend d dt c m i r o).

Definition spend_row (spends : list (string * day_map)) (a : string) (d : Z) (row : value)
    : result (list (string * day_map)) :=
  let days := default [] (map_get spends a) in
  s ← add_spend (day_get days d) d row;
  Ok (map_set spends a (day_set days d s)).

Definition other_row (row : value) : result value :=
  ps ← renamed row [("session", "session"); ("principal", "principal"); ("model", "model"); ("calls", "calls");
                    ("costMicroUsd", "cost_micro_usd")];
  Ok (VObj ps).

Fixpoint spend_loop (spends : list (string * day_map)) (others : list value) (items : list value)
    : result (list (string * day_map) * list value) :=
  match items with
  | [] => Ok (spends, others)
  | row :: items =>
      s ← get row "session"; s ← as_string s;
      match parseAgentDoorSession s with
      | None => o ← other_row row; spend_loop spends (others ++ [o]) items
      | Some (a, d) => spends ← spend_row spends a d row; spend_loop spends others items
      end
  end.

(** [(a, b) => b.day - a.day] *)
Definition compare_days (a b : AgentDaySpend) : result Z :=
  let x := f64_sub (day b) (day a) in
  Ok (if f64_lt x 0 then -1 else if f64_lt 0 x then 1 else 0).

(** [[...new Set(xs)]] *)
Fixpoint unique (seen xs : list string) : list string :=
  match xs with
  | [] => []
  | x :: xs => if bool_decide (x ∈ seen) then unique seen xs else x :: unique (x :: seen) xs
  end.

Definition toAgentAccess (grants : list (string * AgentGrantRow)) (spends : list (string * day_map)) (a : string)
    : result AgentAccess :=
  s ← js_sort compare_days (map snd (default [] (map_get spends a)));
  Ok (mkAccess a (map_get grants a) s).

Definition toModelAccessView (wire : value) : result (option ModelAccessView) :=
  r ← refused wire;
  if (r : bool) then Ok None
  else
    then_some (project_field toModelRow wire "models") (λ models,
    gs ← get wire "grants"; gitems ← js_iterate gs;
    then_some (grants_loop [] gitems) (λ grants,
      ss ← get wire "spend"; sitems ← js_iterate ss;
      sp ← spend_loop [] [] sitems;
      names ← sort_strings (unique [] (map fst grants ++ map fst sp.1));
      ap ← get wire "admin_plane"; cc ← get wire "catalog_configured"; cv ← get wire "catalog_version";
      rs ← get wire "roles"; rs ← map_renamed [("role", "role"); ("model", "model"); ("version", "version")] rs;
      ags ← mapM (toAgentAccess grants sp.1) names;
      gt ← get wire "grants_truncated"; st ← get wire "spend_truncated";
      Ok (Some (mkAccessView ap cc cv models rs ags sp.2 gt st)))).
End view.

(** ** Grant changes *)

Definition MAX_GRANT_ENTRIES : Z := 256.
Definition MAX_NAME_LENGTH : Z := 256.

Record AgentGrantChange := mkChange {
  ch_agent : string; ch_models : list string; ch_tools : list string; expectedModels : list string; expectedTools : list string }.

(** A name that is not blank and not too long. *)
Definition name_input (v : value) : option string :=
  match v with
  | VStr s => if bool_decide (trim s = "") || (MAX_NAME_LENGTH <? js_strlen s) then None else Some s
  | _ => None
  end.

Definition names (v : value) : result (option (list string)) :=
  match bounded_array MAX_GRANT_ENTRIES v with
  | None => Ok None
  | Some items => project_all (λ x, Ok (name_input x)) items
  end.

Definition toAgentGrantChange (body : value) : result (option AgentGrantChange) :=
  if not_object body then Ok None
  else
    a ← get body "agent";
    match name_input a with
    | None => Ok None
    | Some a =>
        m ← get body "models"; m ← names m; t ← get body "tools"; t ← names t;
        em ← get body "expectedModels"; em ← names em; et ← get body "expectedTools"; et ← names et;
        Ok match m, t, em, et with
           | Some m, Some t, Some em, Some et => Some (mkChange a m t em et)
           | _, _, _, _ => None
           end
    end.

Definition toggleEntry (l : list string) (entry : string) : result (list string) :=
  sort_strings (if bool_decide (entry ∈ l) then filter (λ e, e ≠ entry) l else l ++ [entry]).

Inductive AgentGrantOutcome := applied (g : AgentGrantRow) | conflicting (current : option AgentGrantRow).

Definition toAgentGrantOutcome (wire : value) : result (option AgentGrantOutcome) :=
  r ← refused wire;
  if (r : bool) then Ok None
  else
    c ← get wire "conflict";
    if negb (falsy c) then
      cur ← get wire "current";
      if is_undefined cur then Ok (Some (conflicting None))
      else g ← toAgentGrantRow cur; Ok (option_map (λ g, conflicting (Some g)) g)
    else
      g ← get wire "grant";
      if is_undefined g then Ok None else g ← toAgentGrantRow g; Ok (option_map applied g).

(** ** Resolvers *)

Definition MAX_SPEND_DAYS : Z := 31.

(** All four numbers as 64 bits. *)
Definition spendWindow (days nowMs : Z) : Z * Z :=
  let today := f64_floor (f64_div nowMs (f64_ofZ DAY_MS)) in
  (f64_mul (f64_sub today (f64_sub days (f64_ofZ 1))) (f64_ofZ DAY_MS), f64_add nowMs (f64_ofZ 1)).

Section resolvers.
Context {AO : ArithOther} (client : string → value → result value) (principal : OperatorPrincipal).

Definition resolveModelAccess (next days nowMs : Z) : result (option ModelAccessView) * Z :=
  let '(from, to) := spendWindow days nowMs in
  let '(rid, next) := requestId next in
  (wire ← awaited (modelAccessRead client principal
             (VObj [("request_id", vint rid); ("from_unix_ms", VNum from); ("to_unix_ms", VNum to)]));
   toModelAccessView wire, next).

Definition applyAgentGrant (next : Z) (change : AgentGrantChange) : result (option AgentGrantOutcome) * Z :=
  let '(rid, next) := requestId next in
  (wire ← awaited (agentGrantSet client principal
             (VObj [("request_id", vint rid); ("agent", VStr (ch_agent change));
                    ("models", VArr (map VStr (ch_models change))); ("tools", VArr (map VStr (ch_tools change)));
                    ("expected_models", VArr (map VStr (expectedModels change)));
                    ("expected_tools", VArr (map VStr (expectedTools change)))]));
   toAgentGrantOutcome wire, next).
End resolvers.

Example sample_door :
  parseAgentDoorSession "agent-door:spiffe://a/b:c:d19700" = Some ("spiffe://a/b:c", f64_ofZ 19700) ∧
  epochDayDate (f64_ofZ 19700) = Ok "2023-12-09" ∧ epochDayDate (f64_ofZ 11016) = Ok "2000-02-29".
Proof. split_and!; vm_compute; reflexivity. Qed.
