(* ===== verification/Http.v ===== *)
(** * Requests as the server reads them

    The parts of the platform [server.ts] uses on a request: the path and query of its URL,
    [decodeURIComponent], [URLSearchParams], the bounded body, and the patterns of the paths
    with a variable part.  Texts are UTF-8. *)
From S2P Require Import Prelude Bytes Float64 Cbor JsValue JsString Num64 LineExchange Rbac OperatorEngine Vtz Policies JsOps Soc Settings.
From stdpp Require Import list.
Open Scope Z_scope.

(** ** Percent encoding *)

Definition percent : Ascii.ascii := ascii_of_byte 37.

Definition hex_value (c : Ascii.ascii) : option Z :=
  let b := byte_of_ascii c in
  if in_range 48 57 b then Some (b - 48)
  else if in_range 97 102 b then Some (b - 87)
  else if in_range 65 70 b then Some (b - 55) else None.

(** The byte of the escape [%XX] at the front. *)
Definition escape (s : string) : option (Z * string) :=
  match s with
  | String c (String a (String b rest)) =>
      if Ascii.eqb c percent then
        match hex_value a, hex_value b with
        | Some x, Some y => Some (16 * x + y, rest)
        | _, _ => None
        end
      else None
  | _ => None
  end.

(** [n] escapes in a row. *)
Fixpoint escapes (n : nat) (s : string) : option (bytes * string) :=
  match n with
  | O => Some ([], s)
  | S n => '(b, s) ← escape s; '(bs, s) ← escapes n s; Some (b :: bs, s)
  end.

(** The loop of [decodeURIComponent]; every turn consumes a character. *)
Fixpoint decode_loop (fuel : nat) (s : string) : result string :=
  match fuel, s with
  | _, EmptyString => Ok ""
  | O, _ => Throw OutOfFuel
  | S fuel, String c rest =>
      if negb (Ascii.eqb c percent) then t ← decode_loop fuel rest; Ok (String c t)
      else
        match escape s with
        | None => Throw URIError
        | Some (b, after) =>
            if b <? 0x80 then t ← decode_loop fuel after; Ok (String (ascii_of_byte b) t)
            else
              match utf8_lead b with
              | None => Throw URIError
              | Some (_, _, n) =>
                  match escapes n after with
                  | None => Throw URIError
                  | Some (bs, after) =>
                      if utf8_valid (b :: bs) then t ← decode_loop fuel after; Ok (string_of_bytes (b :: bs) +:+ t)
                      else Throw URIError
                  end
              end
        end
  end.

Definition decodeURIComponent (s : string) : result string := decode_loop (String.length s) s.

(** ** The URL *)

Definition question : Ascii.ascii := ascii_of_byte 63.
Definition ampersand : Ascii.ascii := ascii_of_byte 38.
Definition equals : Ascii.ascii := ascii_of_byte 61.
Definition hash : Ascii.ascii := ascii_of_byte 35.

(** [(req.url ?? '/').split('?')[0]] *)
Definition url_path (url : string) : string := default "/" (list.head (split_on question url)).

(** The bytes of a query name or value: [+] is a space, an escape is its byte, anything else stands. *)
Fixpoint form_bytes (fuel : nat) (s : string) : bytes :=
  match fuel, s with
  | S fuel, String c rest =>
      if byte_of_ascii c =? 43 then 32 :: form_bytes fuel rest
      else match escape s with
           | Some (b, after) => b :: form_bytes fuel after
           | None => byte_of_ascii c :: form_bytes fuel rest
           end
  | _, _ => []
  end.
Definition form_decode (s : string) : string := string_of_bytes (utf8_lossy (form_bytes (String.length s) s)).

(** [new URL(url, 'http://localhost').searchParams] for a URL that starts with a path *)
Definition searchParams (url : string) : list (string * string) :=
  match cut_at question (match cut_at hash url with Some (u, _) => u | None => url end) with
  | None => []
  | Some (_, query) =>
      omap (λ part, if bool_decide (part = "") then None
                    else match cut_at equals part with
                         | Some (n, v) => Some (form_decode n, form_decode v)
                         | None => Some (form_decode part, "")
                         end) (split_on ampersand query)
  end.

(** [params.get(key)]: the first *)
Definition param (params : list (string * string)) (key : string) : option string := map_get params key.

(** [params.get(key)?.trim()], where the empty text counts as absent *)
Definition param_text (params : list (string * string)) (key : string) : option string :=
  match param params key with
  | Some s => if bool_decide (trim s = "") then None else Some (trim s)
  | None => None
  end.

(** ** The body *)

(** The chunks of a request body; a request may break off. *)
Record body_stream := mkBody { chunks : list bytes; aborted : bool }.

Fixpoint read_body (limit size : Z) (cs : list bytes) : result bytes :=
  match cs with
  | [] => Ok []
  | c :: cs =>
      let size := size + byte_len c in
      if limit <? size then Throw (Error "request body too large")
      else rest ← read_body limit size cs; Ok (c ++ rest)
  end.

Section body.
Context (JSON_parse : string → result value).

Definition readJsonBody (limit : Z) (b : body_stream) : result value :=
  bs ← read_body limit 0 (chunks b);
  if aborted b then Throw (Error "aborted")
  else
    let text := trim (string_of_bytes (utf8_lossy bs)) in
    if bool_decide (text = "") then Ok (VObj []) else JSON_parse text.
End body.

(** The whole of an accepted body is within the limit. *)
Lemma read_body_bounded limit size cs bs : read_body limit size cs = Ok bs → size ≤ limit → size + byte_len bs ≤ limit.
Proof.
  revert size bs. induction cs as [|c cs IH]; intros size bs E Hs; cbn in E.
  - injection E as <-. unfold byte_len. cbn. lia.
  - destruct (Z.ltb_spec limit (size + byte_len c)); [done|]. bind_step E rest. injection E as <-.
    specialize (IH _ _ Erest). unfold byte_len in *. rewrite length_app. lia.
Qed.

(** A malformed escape is the only failure of [decodeURIComponent]. *)
Lemma escape_shorter s b r : escape s = Some (b, r) → (String.length s = 3 + String.length r)%nat.
Proof.
  destruct s as [|c [|a [|d s]]]; try done. cbn [escape String.length]. destruct (Ascii.eqb c percent); [|done].
  destruct (hex_value a); [|done]. destruct (hex_value d); [|done]. by intros [= _ <-].
Qed.

Lemma escapes_shorter n s bs r : escapes n s = Some (bs, r) → (String.length r ≤ String.length s)%nat.
Proof.
  revert s bs. induction n as [|n IH]; intros s bs; cbn; [intros [= _ <-]; lia|].
  destruct (escape s) as [[b s']|] eqn:E; [|done]. cbn. destruct (escapes n s') as [[bs' r']|] eqn:E'; [|done]. cbn.
  intros [= _ <-]. apply escape_shorter in E. apply IH in E'. lia.
Qed.

Lemma decode_loop_total fuel s e : (String.length s ≤ fuel)%nat → decode_loop fuel s = Throw e → e = URIError.
Proof.
  revert s. induction fuel as [|fuel IH]; intros s Hl; [by destruct s; [|cbn in Hl; lia]|].
  destruct s as [|c rest]; [done|]. cbn [decode_loop]. cbn in Hl.
  assert (∀ r (g : string → string), (String.length r ≤ fuel)%nat →
    (t ← decode_loop fuel r; Ok (g t)) = Throw e → e = URIError) as Hrec.
  { intros r g Hr. destruct (decode_loop fuel r) eqn:E; [done|]. intros [= <-]. by eapply IH. }
  destruct (negb (Ascii.eqb c percent)); [apply (Hrec _ (String c)); lia|].
  destruct (escape (String c rest)) as [[b after]|] eqn:E; [|by intros [= <-]].
  apply escape_shorter in E. cbn in E. destruct (b <? 128); [apply (Hrec _ (String (ascii_of_byte b))); lia|].
  destruct (utf8_lead b) as [[[lo hi] n]|]; [|by intros [= <-]].
  destruct (escapes n after) as [[bs after']|] eqn:E'; [|by intros [= <-]]. apply escapes_shorter in E'.
  destruct (utf8_valid (b :: bs)); [|by intros [= <-]]. apply (Hrec _ (λ t, string_of_bytes (b :: bs) +:+ t)). lia.
Qed.

Lemma decodeURIComponent_total s e : decodeURIComponent s = Throw e → e = URIError.
Proof. apply decode_loop_total. lia. Qed.

Example sample_url :
  decodeURIComponent "a%2Fb%C3%A9" = Ok ("a/b" +:+ string_of_bytes [0xc3; 0xa9]) ∧ decodeURIComponent "100%" = Throw URIError ∧
  decodeURIComponent "%ED%A0%80" = Throw URIError ∧
  searchParams "/api/logs?limit=5&search=a+b%26c&&x" = [("limit", "5"); ("search", "a b&c"); ("x", "")].
Proof. split_and!; vm_compute; reflexivity. Qed.
