(* ===== verification/Uri.v ===== *)
(** * Percent encoding, as the console writes it

    [encodeURIComponent] and [URLSearchParams.prototype.toString], the two encoders of the
    console's requests, with the round trips through the server's readers ([Http]): every
    text the console puts into a path segment or a query comes out of the server's decoder
    unchanged. *)
From S2P Require Import Prelude Bytes JsString LineExchange Http.
From stdpp Require Import list.
Open Scope Z_scope.

(** ** Encoding *)

Definition hex_upper (n : Z) : Ascii.ascii := ascii_of_byte (if n <? 10 then n + 48 else n + 55).

(** [%XX] *)
Definition escaped (c : Ascii.ascii) : string :=
  let b := byte_of_ascii c in String percent (String (hex_upper (b / 16)) (String (hex_upper (b mod 16)) "")).

Definition alphanumeric (c : Ascii.ascii) : bool :=
  let b := byte_of_ascii c in in_range 48 57 b || in_range 65 90 b || in_range 97 122 b.

(** The marks [encodeURIComponent] leaves alone: [- _ . ! ~ * ' ( )]. *)
Definition uri_char (c : Ascii.ascii) : string :=
  if alphanumeric c || bool_decide (byte_of_ascii c ∈ [45; 95; 46; 33; 126; 42; 39; 40; 41])
  then String c "" else escaped c.

(** The form serializer leaves [* - . _] alone and writes a space as [+]. *)
Definition form_char (c : Ascii.ascii) : string :=
  if byte_of_ascii c =? 32 then "+"
  else if alphanumeric c || bool_decide (byte_of_ascii c ∈ [42; 45; 46; 95]) then String c "" else escaped c.

Fixpoint encode_with (f : Ascii.ascii → string) (s : string) : string :=
  match s with EmptyString => "" | String c s => f c +:+ encode_with f s end.

Definition encodeURIComponent : string → string := encode_with uri_char.
Definition form_encode : string → string := encode_with form_char.

(** [params.toString()] *)
Definition params_toString (ps : list (string * string)) : string :=
  JsString.join "&" (map (λ p : string * string, form_encode p.1 +:+ "=" +:+ form_encode p.2) ps).

(** A text is well-formed UTF-8. *)
Definition utf8_text (s : string) : bool := utf8_valid (string_bytes s).

(** ** Characters *)

(** What an encoder makes of a character: itself, a plus for a space, or an escape. *)
Definition encodes (f : Ascii.ascii → string) : Prop :=
  ∀ c, (f c = String c "" ∧ byte_of_ascii c ≠ 43 ∧ byte_of_ascii c ≠ 37 ∧ byte_of_ascii c < 128) ∨
       (f c = "+" ∧ byte_of_ascii c = 32) ∨ f c = escaped c.

(** The characters that end a part of a URL. *)
Definition delimiters : list Ascii.ascii := map ascii_of_byte [47; 63; 38; 61; 35].

Ltac each_char := intros [[] [] [] [] [] [] [] []].

Lemma uri_cases c :
  (uri_char c = String c "" ∧ byte_of_ascii c ≠ 43 ∧ byte_of_ascii c ≠ 37 ∧ byte_of_ascii c < 128) ∨ uri_char c = escaped c.
Proof. revert c. each_char; vm_compute; first [by left | by right]. Qed.

Lemma uri_encodes : encodes uri_char.
Proof. intros c. destruct (uri_cases c); auto. Qed.

Lemma form_encodes : encodes form_char.
Proof. each_char; vm_compute; first [by left | by right; left | by right; right]. Qed.

Lemma escape_escaped c s : escape (escaped c +:+ s) = Some (byte_of_ascii c, s).
Proof. unfold escaped. rewrite !str_app_cons, str_nil_app. revert c. each_char; reflexivity. Qed.

Lemma uri_delimited c : forallb (λ d, no_char d (uri_char c)) delimiters = true.
Proof. revert c. each_char; reflexivity. Qed.

Lemma form_delimited c : forallb (λ d, no_char d (form_char c)) delimiters = true.
Proof. revert c. each_char; reflexivity. Qed.

Lemma encode_no_char f d s : (∀ c, forallb (λ d, no_char d (f c)) delimiters = true) → d ∈ delimiters →
  no_char d (encode_with f s) = true.
Proof.
  intros Hf Hd. induction s as [|c s IH]; [done|]. cbn. rewrite no_char_app, IH, andb_true_r.
  specialize (Hf c). rewrite forallb_forall in Hf. by apply Hf, list_elem_of_In.
Qed.

(** ** UTF-8 sequences *)

(** Closes a case of [utf8_cut] with its continuation bytes. *)
Ltac use_tests := repeat match goal with H : _ = true |- _ => rewrite !H | H : _ = false |- _ => rewrite !H end.
Ltac seq_of Hv bs rest :=
  repeat (rewrite andb_true_iff in Hv; let H := fresh in destruct Hv as [Hv H]);
  unfold utf8_cont in *; eexists _, _, bs, rest; split_and!;
  [done | done | cbn [utf8_valid]; unfold utf8_cont; use_tests; done | done
  | repeat constructor; unfold in_range in *; lia
  | cbn [utf8_lossy negb Nat.eqb length app]; unfold utf8_cont; use_tests; done].

(** The first sequence of a well-formed text that does not start with an ASCII character. *)
Lemma utf8_cut b l : utf8_valid (b :: l) = true → (b <? 0x80) = false →
  ∃ lo hi bs rest, utf8_lead b = Some (lo, hi, length bs) ∧ l = bs ++ rest ∧ utf8_valid (b :: bs) = true ∧
    utf8_valid rest = true ∧ Forall (λ x, (x <? 0x80) = false) bs ∧ utf8_lossy (b :: l) = b :: bs ++ utf8_lossy rest.
Proof.
  intros Hv Hb. cbn [utf8_valid utf8_lossy] in *. rewrite Hb in *. unfold utf8_lead.
  destruct l as [|c1 l]; [done|]. destruct (in_range 0xc2 0xdf b) eqn:E1.
  { seq_of Hv [c1] l. }
  destruct l as [|c2 l]; [done|]. destruct (b =? 0xe0) eqn:E2; [seq_of Hv [c1; c2] l|].
  destruct (b =? 0xed) eqn:E3; [seq_of Hv [c1; c2] l|]. destruct (in_range 0xe1 0xef b) eqn:E4; [seq_of Hv [c1; c2] l|].
  destruct l as [|c3 l]; [done|]. destruct (b =? 0xf0) eqn:E5; [seq_of Hv [c1; c2; c3] l|].
  destruct (in_range 0xf1 0xf3 b) eqn:E6; [seq_of Hv [c1; c2; c3] l|].
  destruct (b =? 0xf4) eqn:E7; [seq_of Hv [c1; c2; c3] l|done].
Qed.

Lemma string_bytes_cons c s : string_bytes (String c s) = byte_of_ascii c :: string_bytes s.
Proof. done. Qed.

Lemma string_bytes_split s bs rest : string_bytes s = bs ++ rest →
  ∃ t u, s = t +:+ u ∧ string_bytes t = bs ∧ string_bytes u = rest.
Proof.
  revert s. induction bs as [|b bs IH]; intros s E; [by exists "", s|].
  destruct s as [|c s]; [done|]. rewrite string_bytes_cons in E. injection E as <- E.
  destruct (IH s E) as (t & u & -> & <- & <-). by exists (String c t), u.
Qed.

(** Texts can be taken apart one character or one sequence at a time. *)
Lemma utf8_text_ind (P : string → Prop) :
  P "" →
  (∀ c s, (byte_of_ascii c <? 128) = true → P s → P (String c s)) →
  (∀ c t s lo hi, (byte_of_ascii c <? 128) = false → utf8_lead (byte_of_ascii c) = Some (lo, hi, String.length t) →
     utf8_text (String c t) = true → Forall (λ x, (x <? 128) = false) (string_bytes t) → P s → P (String c (t +:+ s))) →
  ∀ s, utf8_text s = true → P s.
Proof.
  intros H0 H1 H2 s. remember (String.length s) as n eqn:En. revert s En.
  induction (lt_wf n) as [n _ IH]; intros [|c s] -> Hs; [done|]. unfold utf8_text in Hs. rewrite string_bytes_cons in Hs.
  destruct (byte_of_ascii c <? 128) eqn:Ec.
  - apply H1; [done|]. apply (IH (String.length s)); [cbn; lia|done|]. cbn [utf8_valid] in Hs. by rewrite Ec in Hs.
  - destruct (utf8_cut _ _ Hs Ec) as (lo & hi & bs & rest & El & Es & Hv & Hr & Hf & _).
    destruct (string_bytes_split _ _ _ Es) as (t & u & -> & <- & <-). rewrite string_bytes_length in El.
    apply (H2 _ _ _ lo hi); try done. apply (IH (String.length u)); [cbn; rewrite str_length_app; lia|done|done].
Qed.

(** ** Round trips *)

Lemma ascii_byte c : ascii_of_byte (byte_of_ascii c) = c.
Proof. unfold ascii_of_byte, byte_of_ascii. by rewrite N2Z.id, Ascii.ascii_N_embedding. Qed.

Lemma encode_app f a b : encode_with f (a +:+ b) = encode_with f a +:+ encode_with f b.
Proof. induction a as [|c a IH]; [done|]. rewrite str_app_cons. cbn. by rewrite IH, str_app_assoc. Qed.

Lemma decode_loop_escaped fuel c s :
  decode_loop (S fuel) (escaped c +:+ s) =
  if byte_of_ascii c <? 0x80 then t ← decode_loop fuel s; Ok (String (ascii_of_byte (byte_of_ascii c)) t)
  else match utf8_lead (byte_of_ascii c) with
       | None => Throw URIError
       | Some (_, _, n) =>
           match escapes n s with
           | None => Throw URIError
           | Some (bs, after) =>
               if utf8_valid (byte_of_ascii c :: bs)
               then t ← decode_loop fuel after; Ok (string_of_bytes (byte_of_ascii c :: bs) +:+ t) else Throw URIError
           end
       end.
Proof. pose proof (escape_escaped c s) as E. unfold escaped in *. rewrite str_app_cons in *. cbn [decode_loop]. by rewrite E. Qed.

Lemma escapes_encoded t s : Forall (λ x, (x <? 128) = false) (string_bytes t) →
  escapes (String.length t) (encodeURIComponent t +:+ s) = Some (string_bytes t, s).
Proof.
  induction t as [|c t IH]; [done|]. rewrite string_bytes_cons. intros [Hc Ht]%Forall_cons.
  destruct (uri_cases c) as [(_ & _ & _ & ?)|E]; [lia|].
  cbn. unfold encodeURIComponent in *. cbn. rewrite E, str_app_assoc, escape_escaped. cbn. by rewrite IH.
Qed.

Lemma encode_seq c t s :
  encodeURIComponent (String c (t +:+ s)) = uri_char c +:+ encodeURIComponent t +:+ encodeURIComponent s.
Proof. unfold encodeURIComponent. cbn. by rewrite encode_app. Qed.

Lemma decode_loop_encoded s : utf8_text s = true →
  ∀ fuel, (String.length (encodeURIComponent s) ≤ fuel)%nat → decode_loop fuel (encodeURIComponent s) = Ok s.
Proof.
  intros Hs. pattern s. revert s Hs. apply utf8_text_ind; [by intros [|fuel]| |].
  - intros c s Hc IH [|fuel] Hl; unfold encodeURIComponent in *; cbn [encode_with] in *; rewrite str_length_app in Hl;
      destruct (uri_cases c) as [(E & _ & Hp & _)|E]; rewrite E in *; cbn in Hl; try lia.
    + rewrite str_app_cons, str_nil_app. cbn [decode_loop]. destruct (Ascii.eqb_spec c percent) as [->|_]; [done|].
      cbn [negb]. by rewrite IH by lia.
    + rewrite decode_loop_escaped, Hc, IH by lia. cbn. by rewrite ascii_byte.
  - intros c t s lo hi Hc Hlead Hv Hf IH [|fuel] Hl; destruct (uri_cases c) as [(_ & _ & _ & ?)|E]; try lia;
      rewrite encode_seq, E in *; rewrite !str_length_app in Hl; cbn in Hl; [lia|].
    rewrite decode_loop_escaped, Hc, Hlead, escapes_encoded, <- string_bytes_cons by done.
    unfold utf8_text in Hv. by rewrite Hv, IH, string_of_bytes_bytes by lia.
Qed.

Lemma decodeURIComponent_encode s : utf8_text s = true → decodeURIComponent (encodeURIComponent s) = Ok s.
Proof. intros Hs. by apply decode_loop_encoded. Qed.

Lemma utf8_lossy_valid bs : utf8_valid bs = true → utf8_lossy bs = bs.
Proof.
  remember (length bs) as n eqn:En. revert bs En. induction (lt_wf n) as [n _ IH]; intros [|b l] -> Hv; [done|].
  destruct (b <? 128) eqn:Eb.
  - cbn [utf8_valid utf8_lossy] in *. rewrite Eb in *. f_equal. by apply (IH (length l)); [cbn; lia|..].
  - destruct (utf8_cut _ _ Hv Eb) as (lo & hi & bs & rest & _ & -> & _ & Hr & _ & ->).
    rewrite (IH (length rest)); [done|cbn; rewrite length_app; lia|done..].
Qed.

(** Every encoder is read back by the form decoder. *)
Lemma form_bytes_encoded f s : encodes f →
  ∀ fuel, (String.length (encode_with f s) ≤ fuel)%nat → form_bytes fuel (encode_with f s) = string_bytes s.
Proof.
  intros Hf. induction s as [|c s IH]; intros fuel Hl; [by destruct fuel|].
  cbn [encode_with] in *. rewrite str_length_app in Hl. rewrite string_bytes_cons.
  destruct (Hf c) as [(E & Hp & Hq & _)|[[E Hc]|E]]; rewrite E in *; (destruct fuel as [|fuel]; [cbn in Hl; lia|]).
  - rewrite str_app_cons, str_nil_app. cbn [form_bytes]. rewrite (proj2 (Z.eqb_neq _ _)) by done.
    assert (escape (String c (encode_with f s)) = None) as ->.
    { destruct (encode_with f s) as [|x [|y r]]; try done. cbn [escape].
      by destruct (Ascii.eqb_spec c percent) as [->|_]. }
    rewrite IH by (cbn in Hl; lia). done.
  - change ("+" +:+ encode_with f s) with (String (ascii_of_byte 43) (encode_with f s)). cbn [form_bytes].
    change (byte_of_ascii (ascii_of_byte 43) =? 43) with true. cbn in Hl. by rewrite IH, Hc by lia.
  - pose proof (escape_escaped c (encode_with f s)) as Ee. unfold escaped in *. rewrite str_app_cons in *.
    cbn [form_bytes]. rewrite Ee. cbn in Hl. by rewrite IH by lia.
Qed.

Lemma form_decode_encoded f s : encodes f → utf8_text s = true → form_decode (encode_with f s) = s.
Proof.
  intros Hf Hs. unfold form_decode. rewrite form_bytes_encoded, utf8_lossy_valid by done. apply string_of_bytes_bytes.
Qed.

Lemma cut_at_none sep s : no_char sep s = true → cut_at sep s = None.
Proof.
  induction s as [|c s IH]; cbn; [done|]. intros [Hc Hs]%andb_prop. apply negb_true_iff in Hc. by rewrite Hc, IH.
Qed.

Lemma join_no_char d ps : no_char d "&" = true → Forall (λ p, no_char d p = true) ps → no_char d (JsString.join "&" ps) = true.
Proof.
  intros Ha. unfold JsString.join. induction 1 as [|p ps Hp Hps IH]; [done|]. destruct ps; [done|].
  change (String.concat "&" (p :: s :: ps)) with (p +:+ "&" +:+ String.concat "&" (s :: ps)).
  by rewrite !no_char_app, Hp, Ha, IH.
Qed.

(** A query written by the console is read as its parameters. *)
Lemma searchParams_written f path ps :
  encodes f → (∀ c, forallb (λ d, no_char d (f c)) delimiters = true) → ps ≠ [] →
  no_char question path = true → no_char hash path = true →
  Forall (λ p, utf8_text p.1 = true ∧ utf8_text p.2 = true) ps →
  searchParams (path +:+ "?" +:+ JsString.join "&" (map (λ p, encode_with f p.1 +:+ "=" +:+ encode_with f p.2) ps)) = ps.
Proof.
  intros Hf Hd Hne Hq Hh Hps. unfold searchParams. set (part := λ p : string * string, encode_with f p.1 +:+ "=" +:+ encode_with f p.2).
  assert (∀ d, d ∈ delimiters → no_char d "=" = true → Forall (λ p, no_char d p = true) (map part ps)) as Hpart.
  { intros d Hin He. apply Forall_map, Forall_true. intros p. unfold part. by rewrite !no_char_app, !encode_no_char, He. }
  assert (no_char hash (path +:+ "?" +:+ JsString.join "&" (map part ps)) = true) as Hhash.
  { rewrite !no_char_app, Hh, join_no_char; [done|done|]. apply Hpart; [|done]. right. right. right. right. left. }
  rewrite (cut_at_none hash) by done.
  change ("?" +:+ JsString.join "&" (map part ps)) with (String question (JsString.join "&" (map part ps))).
  rewrite cut_at_first by done.
  change "&" with (String ampersand ""). rewrite split_join; [| |apply Hpart; [|done]; right; right; left].
  2: { by destruct ps. }
  clear Hhash Hpart Hne. induction Hps as [|[k v] ps [Hk Hv] _ IH]; [done|]. cbn.
  change (part (k, v)) with (encode_with f k +:+ String equals (encode_with f v)).
  rewrite bool_decide_eq_false_2 by (by destruct (encode_with f k)). rewrite cut_at_first by (apply encode_no_char; [done|right; right; right; left]).
  rewrite !form_decode_encoded by done. f_equal. exact IH.
Qed.
