(* ===== verification/Console.v ===== *)
(** * The console's requests ([apps/console/src])

    The client layer of the single-page application: every function of the console that
    talks to the gateway, as the requests it sends and what it makes of the answers.  All
    requests go to the page's own origin with the session cookie ([credentials: 'include']);
    a body is the value before [JSON.stringify].  The hooks around these functions hand them
    to the query library, which is not modelled; rendering is not modelled either. *)
From S2P Require Import Prelude Bytes Float64 Cbor JsValue JsString Num64 Rbac OperatorEngine Vtz Policies JsOps Overview EntityDetail.
From S2P Require Import Settings Http Uri.
From stdpp Require Import list.
Open Scope Z_scope.

(** ** Requests and answers *)

Record fetch_request := mkFetch { f_method : string; f_url : string; f_body : option value }.

(** [res.status] and what [res.json()] resolves to; [None] is a body that does not parse. *)
Record fetch_response := mkFetched { res_status : Z; res_json : option value }.

(** [res.ok] *)
Definition res_ok (res : fetch_response) : bool := (200 <=? res_status res) && (res_status res <=? 299).

Inductive VtzCommandFailure := vtz_denied | vtz_conflict | vtz_malformed | vtz_unavailable.

(** What the console throws: an [Error] with its message, a failed fetch, an unreadable body,
    an error of the language, the refusal classes that carry a status or a status and a reason, and the zone command's. *)
Inductive console_error :=
  | PlainError (message : string)
  | FetchFailed
  | BodyUnreadable
  | Thrown (e : exn)
  | StatusError (name : string) (status : Z)
  | ReasonError (name : string) (status : Z) (reason : string)
  | VtzCommandError (failure : VtzCommandFailure) (settingsCommitted : bool).

Inductive flow (A : Type) :=
  | Return (a : A)
  | Reject (e : console_error)
  | Fetch (r : fetch_request) (k : option fetch_response → flow A).
Arguments Return {_}. Arguments Reject {_}. Arguments Fetch {_}.

Fixpoint flow_bind {A B} (f : A → flow B) (c : flow A) : flow B :=
  match c with
  | Return a => f a
  | Reject e => Reject e
  | Fetch r k => Fetch r (λ o, flow_bind f (k o))
  end.
#[export] Instance flow_MBind : MBind flow := λ A B f c, flow_bind f c.
#[export] Instance flow_MRet : MRet flow := λ A a, Return a.

(** The requests sent and what comes of the call, when the answers come in turn. *)
Fixpoint exchange_with {A} (answers : list (option fetch_response)) (c : flow A) {struct c} : list fetch_request * option (A + console_error) :=
  match c with
  | Return a => ([], Some (inl a))
  | Reject e => ([], Some (inr e))
  | Fetch r k =>
      match answers with
      | [] => ([r], None)
      | a :: answers => let '(rs, o) := exchange_with answers (k a) in (r :: rs, o)
      end
  end.

(** The first request of a call. *)
Definition request_of {A} (c : flow A) : option fetch_request := match c with Fetch r _ => Some r | _ => None end.

Definition fetch_ (r : fetch_request) : flow fetch_response :=
  Fetch r (λ o, match o with Some res => Return res | None => Reject FetchFailed end).

(** [await res.json()] *)
Definition json (res : fetch_response) : flow value :=
  match res_json res with Some v => Return v | None => Reject BodyUnreadable end.

Definition get_request (url : string) : fetch_request := mkFetch "GET" url None.
Definition post_request (url : string) (b : value) : fetch_request := mkFetch "POST" url (Some b).

(** The body of a 2xx, or [e status]. *)
Definition json_or (e : Z → console_error) (res : fetch_response) : flow value :=
  if res_ok res then json res else Reject (e (res_status res)).

Definition failed (what : string) (status : Z) : console_error := PlainError (what +:+ " failed: " +:+ pretty status).

(** A read; and a read one of whose statuses is an answer of its own, [null]. *)
Definition read_url (what url : string) : flow value :=
  res ← fetch_ (get_request url); json_or (failed what) res.
Definition read_or_null (null_status : Z) (what url : string) : flow value :=
  res ← fetch_ (get_request url);
  if res_status res =? null_status then Return VNull else json_or (failed what) res.

(** A command: the body of a 2xx, or the status as [e] carries it. *)
Definition post_url (e : Z → console_error) (url : string) (b : value) : flow value :=
  res ← fetch_ (post_request url b); json_or e res.

(** [`${url}?${key}=${encodeURIComponent(text)}`] *)
Definition with_param (url key text : string) : string := url +:+ "?" +:+ key +:+ "=" +:+ encodeURIComponent text.

(** [{ ...base, ...v }] for an object [v] *)
Definition spread_over (base : props) (v : value) : value :=
  VObj (foldl (λ ps p, obj_insert ps p.1 p.2) base (match v with VObj ps => ps | _ => [] end)).

Section console.
Context {NS : NumberToString}.

(** [String(x)] of a number *)
Definition number_text (x : Z) : string := js_String (VNum x).

(** ** Logs ([useLogs.ts], [useExportLogs.ts]) *)

Definition opt_param (key : string) (text : option string) : list (string * string) :=
  match text with Some t => [(key, t)] | None => [] end.

Definition logs_params (filter : LogQueryFilter) : list (string * string) :=
  opt_param "since" (number_text <$> f_since filter) ++ opt_param "until" (number_text <$> f_until filter) ++
  opt_param "technique" (f_technique filter) ++ opt_param "tactic" (f_tactic filter) ++
  opt_param "ruleId" (f_ruleId filter) ++ opt_param "confidence" (f_confidence filter) ++
  opt_param "action" (f_action filter) ++ opt_param "search" (f_search filter) ++
  [("limit", number_text (f_limit filter))] ++
  opt_param "offset" (x ← f_offset filter; if f64_lt 0 x then Some (number_text x) else None).

Definition logsQueryString (filter : LogQueryFilter) : string := params_toString (logs_params filter).

Definition fetchLogs (filter : LogQueryFilter) : flow value :=
  read_url "logs query" ("/api/logs?" +:+ logsQueryString filter).

Definition fetchLogExplain (decisionId : string) : flow value :=
  read_url "log explain" ("/api/logs/explain/" +:+ encodeURIComponent decisionId).

Definition postLogExport (request : value) : flow value := post_url (StatusError "LogExportError") "/api/logs/export" request.

Definition BACKFILL_PAGE_SIZE : Z := 100.
Definition BACKFILL_MAX_PAGES : nat := 50.

(** [rows.push(...fetched.rows)] *)
Definition page_rows_of (fetched : value) : flow (list value) :=
  match (rs ← get fetched "rows"; js_array rs) with Ok rows => Return rows | Throw e => Reject (Thrown e) end.

Definition no_filter (limit : Z) (offset : option Z) : LogQueryFilter :=
  mkFilter None None None None None None None None limit offset.

(** The walk of the background pager: the rows so far, and whether a short page ended it. *)
Fixpoint backfill_loop (pages : nat) (pageSize page : Z) (rows : list value) : flow (list value * bool) :=
  match pages with
  | O => Return (rows, false)
  | S pages =>
      fetched ← fetchLogs (no_filter (f64_ofZ pageSize) (Some (f64_ofZ (page * pageSize))));
      new ← page_rows_of fetched;
      if Z.of_nat (length new) <? pageSize then Return (rows ++ new, true)
      else backfill_loop pages pageSize (page + 1) (rows ++ new)
  end.

Definition logs_backfill (pageSize : Z) : flow (list value * bool) := backfill_loop BACKFILL_MAX_PAGES pageSize 0 [].

(** ** Overview ([useOverview.ts], [useEntityConnections.ts], [useClassMembers.ts]) *)

Definition overviewQueryString (query : OverviewQuery) : string :=
  params_toString (opt_param "since" (number_text <$> q_since query) ++ opt_param "until" (number_text <$> q_until query) ++
                   [("limit", number_text (q_limit query))]).

Definition fetchOverview (query : OverviewQuery) : flow value :=
  read_url "overview sankey" ("/api/overview/sankey?" +:+ overviewQueryString query).

Definition fetchEntityConnections (id kind : string) : flow value :=
  read_url "entity connections" ("/api/overview/entity-connections?" +:+ params_toString [("id", id); ("kind", kind)]).

Definition fetchClassMembers (container : string) : flow value :=
  read_url "container members" (with_param "/api/overview/members" "container" container).

(** ** Zones ([useVtzTree.ts], [useDistribution.ts], [useVtzMutation.ts]) *)

Definition fetchVtzTree (limit : Z) : flow value := read_url "vtz tree" ("/api/vtz/tree?limit=" +:+ number_text limit).
Definition fetchVtzDetail (id : string) : flow value := read_url "vtz detail" (with_param "/api/vtz/detail" "id" id).
Definition fetchConvergence (id : string) : flow value := read_url "convergence read" (with_param "/api/vtz/convergence" "id" id).

(** The [mutationFn] of [useDistribute]; [None] is no zone selected. *)
Definition distribute_members_of (id : option string) (members : list string) : flow value :=
  match id with
  | None => Reject (PlainError "no zone selected")
  | Some id =>
      if bool_decide (members = []) then Reject (PlainError "no endpoints to distribute to")
      else post_url (failed "distribute") ("/api/vtz/" +:+ encodeURIComponent id +:+ "/distribute")
             (VObj [("members", VArr (map VStr members))])
  end.

Definition failureFor (res : fetch_response) : console_error :=
  if res_status res =? 400 then VtzCommandError vtz_malformed false
  else if res_status res =? 409 then VtzCommandError vtz_conflict false
  else if res_status res =? 403 then
    match (match res_json res with Some b => get b "reason" | None => Ok VUndefined end) with
    | Ok reason => VtzCommandError (if is_str "conflict" reason then vtz_conflict else vtz_denied) false
    | Throw e => Thrown e
    end
  else VtzCommandError vtz_unavailable false.

Definition send_zone (url meth : string) (b : option value) : flow value :=
  res ← fetch_ (mkFetch meth url b); if res_ok res then json res else Reject (failureFor res).

Inductive ZoneCommand :=
  | zone_create (spec : value)
  | zone_save (id : string) (spec : value) (moveTo : option string)
  | zone_delete (id : string).

(** [catch (error)]: the move was refused after the settings were committed *)
Fixpoint mark_committed {A} (c : flow A) : flow A :=
  match c with
  | Return a => Return a
  | Reject (VtzCommandError failure _) => Reject (VtzCommandError failure true)
  | Reject e => Reject e
  | Fetch r k => Fetch r (λ o, mark_committed (k o))
  end.

Definition zone_url (id : string) : string := "/api/vtz/" +:+ encodeURIComponent id.

Definition runVtzCommand (command : ZoneCommand) : flow value :=
  match command with
  | zone_create spec => send_zone "/api/vtz" "POST" (Some spec)
  | zone_delete id => send_zone (zone_url id) "DELETE" None
  | zone_save id spec moveTo =>
      edited ← send_zone (zone_url id) "PUT" (Some spec);
      match moveTo with
      | None => Return edited
      | Some name => mark_committed (send_zone (zone_url id +:+ "/rescope") "POST" (Some (VObj [("newName", VStr name)])))
      end
  end.

(** ** Entities ([useEntityDetail.ts], [useIsolate.ts]) *)

Definition entity_url (ref : EntityRef) : string :=
  "/api/entity/" +:+ kind_name (ref_kind ref) +:+ "/" +:+ encodeURIComponent (ref_id ref).

Definition fetchEntityDetail (ref : EntityRef) : flow value := read_url "entity detail" (entity_url ref).

Definition postIsolate (ref : EntityRef) (posture commandId : string) : flow value :=
  post_url (StatusError "IsolateError") (entity_url ref +:+ "/isolate")
    (VObj [("commandId", VStr commandId); ("posture", VStr posture)]).

(** ** SOC operations ([useSoc.ts], [useCognitionRun.ts], [useCaseCommand.ts], [usePlanCommand.ts]) *)

Definition fetchSocKpis : flow value := read_url "soc kpis" "/api/soc/kpis".
Definition fetchSocIncidents : flow value := read_url "soc incidents" "/api/soc/incidents".

(** A read of one incident; 404 is the engine's one refusal. *)
Definition incident_or_null (what url incidentId : string) : flow value := read_or_null 404 what (with_param url "id" incidentId).

Definition fetchSocIncident : string → flow value := incident_or_null "soc incident" "/api/soc/incident".
Definition fetchSocNarrative (incidentId : string) : flow value := read_url "soc narrative" (with_param "/api/soc/narrative" "id" incidentId).
Definition fetchSocTelemetry : string → flow value := incident_or_null "soc telemetry" "/api/soc/telemetry".
Definition fetchSocAuditTrail : string → flow value := incident_or_null "soc audit" "/api/soc/audit".
Definition fetchSocImpact : string → flow value := incident_or_null "soc impact" "/api/soc/impact".
Definition fetchSocNotes : string → flow value := incident_or_null "soc notes" "/api/soc/notes".
Definition fetchSocReport : string → flow value := incident_or_null "soc report" "/api/soc/report".
Definition fetchSocWeekly (weeks : Z) : flow value := read_or_null 404 "soc weekly" ("/api/soc/weekly?weeks=" +:+ number_text weeks).

Definition runRefusalReason (status : Z) : string :=
  if status =? 403 then "This operator is not permitted to start a run."
  else if status =? 401 then "Your session has expired. Sign in again; nothing was started."
  else if status =? 502 then "The engine could not complete the request."
  else if status =? 503 then "The engine is unavailable, or answered with something the Console will not render."
  else "The run request did not reach the engine.".

Definition postGenerate (incidentId : string) : flow value :=
  post_url (λ status, ReasonError "CognitionRunError" status (runRefusalReason status)) "/api/soc/generate"
    (VObj [("incident", VStr incidentId)]).

Definition caseRefusalReason (status : Z) (explanation : option string) : string :=
  if status =? 409 then
    match explanation with
    | None | Some "" => "The engine refused the act and recorded no reason."
    | Some e => "The engine refused it: " +:+ e
    end
  else if status =? 404 then
    "The incident is unknown, another tenant" +:+ string_of_bytes [0xe2; 0x80; 0x99] +:+ "s, or above this session" +:+
    string_of_bytes [0xe2; 0x80; 0x99] +:+ "s clearance."
  else if status =? 400 then "The request was not accepted as sent (malformed, or too large)."
  else if status =? 403 then "This operator is not permitted to act on cases."
  else if status =? 401 then "Your session has expired. Sign in again; nothing was committed."
  else if status =? 502 then "The engine could not complete the request."
  else if status =? 503 then "The engine is unavailable, or answered with something the Console will not render."
  else "The command did not reach the engine.".

(** The reason a 409 carries; an unreadable body is no reason. *)
Definition refusal_explanation (res : fetch_response) : option string :=
  if res_status res =? 409 then
    match (b ← res_json res; match get b "explanation" with Ok v => Some v | Throw _ => None end) with
    | Some (VStr e) => Some e
    | _ => None
    end
  else None.

Definition post_case (url : string) (b : value) : flow value :=
  res ← fetch_ (post_request url b);
  if res_ok res then json res
  else Reject (ReasonError "CaseCommandError" (res_status res) (caseRefusalReason (res_status res) (refusal_explanation res))).

Definition case_act_call (incidentId : string) (draft : value) : flow value :=
  post_case "/api/soc/act" (spread_over [("incident", VStr incidentId)] draft).
Definition disposition_call (incidentId : string) (draft : value) : flow value :=
  post_case "/api/soc/disposition" (spread_over [("incident", VStr incidentId)] draft).

Definition planRefusalReason (status : Z) : string :=
  if status =? 409 then
    "The plan changed, was already approved, or does not exist yet. Re-read the incident and try again."
  else if status =? 400 then "The plan was not accepted as sent (malformed, or too large)."
  else if status =? 403 then "This operator is not permitted to act on this plan."
  else if status =? 401 then "Your session has expired. Sign in again; nothing was committed."
  else if status =? 502 then "The engine could not complete the request."
  else if status =? 503 then "The engine is unavailable, or answered with something the Console will not render."
  else "The command did not reach the engine.".

Definition post_plan (url : string) (b : value) : flow value :=
  post_url (λ status, ReasonError "PlanCommandError" status (planRefusalReason status)) url b.

Definition approve_plan_call (incidentId : string) (atRevision : value) : flow value :=
  post_plan "/api/soc/plan/approve" (VObj [("incident", VStr incidentId); ("atRevision", atRevision)]).
Definition modify_plan_call (incidentId : string) (steps : value) : flow value :=
  post_plan "/api/soc/plan/modify" (VObj [("incident", VStr incidentId); ("steps", steps)]).

(** ** Users, objects, policies ([useUsers.ts], [useObjects.ts], [usePolicies.ts], [usePolicyMutation.ts]) *)

Definition fetchUsers : flow value := read_url "users list" "/api/users".
Definition fetchGroups : flow value := read_url "groups list" "/api/users/groups".
Definition post_users : string → value → flow value := post_url (StatusError "GroupCreateError").
Definition create_user_call (draft : value) : flow value := post_users "/api/users" draft.
Definition edit_user_call (draft : value) : flow value := post_users "/api/users/edit" draft.
Definition user_status_call (username status : string) : flow value :=
  post_users "/api/users/status" (VObj [("username", VStr username); ("status", VStr status)]).
Definition create_group_call (name description : string) : flow value :=
  post_users "/api/users/groups" (VObj [("name", VStr name); ("description", VStr description)]).

Definition fetchObjects : flow value := read_url "objects list" "/api/objects".
Definition fetchObjectDetail (name : string) : flow value := read_url "object detail" (with_param "/api/objects/detail" "name" name).
Definition post_objects : string → value → flow value := post_url (StatusError "ObjectCommandError").
Definition object_write_call (create : bool) (draft : value) : flow value :=
  post_objects (if create then "/api/objects" else "/api/objects/edit") draft.
Definition delete_object_call (name : string) : flow value := post_objects "/api/objects/delete" (VObj [("name", VStr name)]).

Definition fetchPolicyZones : flow value := read_url "policies list" "/api/policies".
Definition post_policy : string → value → flow value := post_url (StatusError "PolicyCommandError").

(** [authored.id], which throws on [null] *)
Definition read_prop (v : value) (key : string) : flow value :=
  match get v key with Ok x => Return x | Throw e => Reject (Thrown e) end.

(** [None] as the id is [null]: the version of a policy being created has none yet. *)
Definition save_policy_call (create : bool) (id : option string) (vtz : string) (draft : value) (publish : bool) : flow value :=
  authored ← (if create then post_policy "/api/policies" draft
              else post_policy "/api/policies/edit"
                     (spread_over [("id", match id with Some i => VStr i | None => VNull end)] draft));
  if publish then
    i ← read_prop authored "id"; v ← read_prop authored "version";
    post_policy "/api/policies/publish" (VObj [("vtz", VStr vtz); ("id", i); ("version", v)])
  else Return authored.

Definition delete_policy_call (vtz id : string) : flow value :=
  post_policy "/api/policies/delete" (VObj [("vtz", VStr vtz); ("id", VStr id)]).

(** ** Identity connectors ([useIdam.ts]) *)

Definition fetchIdamConnectors : flow value := read_url "idam connectors list" "/api/idam/connectors".
Definition idam_sync_call (provider : string) : flow value :=
  post_url (StatusError "IdamSyncError") "/api/idam/sync" (VObj [("provider", VStr provider)]).

Record IdamConnectInput := mkConnectInput {
  in_provider : string; in_domain : string; in_clientId : string; in_audience : string; in_secret : string;
  in_pollIntervalSecs : value; in_fullSyncCadenceHours : value }.

(** A step of the onboarding: only its status is looked at. *)
Definition connect_step (url : string) (b : value) : flow unit :=
  res ← fetch_ (post_request url b); if res_ok res then Return tt else Reject (StatusError "IdamConnectError" (res_status res)).

Definition idam_connect_call (input : IdamConnectInput) : flow unit :=
  connect_step "/api/idam/secret" (VObj [("provider", VStr (in_provider input)); ("secret", VStr (in_secret input))]) ≫=
  λ _, connect_step "/api/idam/connect"
    (VObj [("provider", VStr (in_provider input)); ("domain", VStr (in_domain input)); ("clientId", VStr (in_clientId input));
           ("audience", VStr (in_audience input))]) ≫=
  λ _, connect_step "/api/idam/configure"
    (VObj [("provider", VStr (in_provider input)); ("enabled", VBool true); ("pollIntervalSecs", in_pollIntervalSecs input);
           ("fullSyncCadenceHours", in_fullSyncCadenceHours input)]).

(** ** Settings and model access ([useSettings.ts], [useModelAccess.ts]) *)

(** A settings read; 403 is the refusal of the tier. *)
Definition settings_or_null : string → string → flow value := read_or_null 403.
Definition fetchSocSettings : flow value := settings_or_null "soc settings" "/api/settings/soc".
Definition postSocSettings : value → flow value := post_url (failed "soc settings commit") "/api/settings/soc".
Definition fetchGovernedSettings : flow value := settings_or_null "settings" "/api/settings".
Definition postGovernedSettings : value → flow value := post_url (failed "settings commit") "/api/settings".
Definition fetchSettingsReports (names : list string) : flow value :=
  settings_or_null "settings reports" ("/api/settings/reports?names=" +:+ JsString.join "," names).
Definition fetchSecuritySession : flow value := read_url "security session" "/api/settings/security-session".
Definition postSettings (url : string) (b : value) : flow value := post_url (failed url) url b.
Definition propose_call (request : value) : flow value := postSettings "/api/settings/propose" request.
Definition fetchApprovals : flow value :=
  res ← fetch_ (get_request "/api/settings/approvals");
  if res_status res =? 403 then Return VNull
  else b ← json_or (failed "approvals") res; read_prop b "proposals".
Definition approve_call (proposal : Z) : flow value :=
  postSettings ("/api/settings/approvals/" +:+ number_text proposal +:+ "/approve") (VObj []).
Definition fetchHistory : flow value := settings_or_null "history" "/api/settings/history?limit=50".
Definition rollback_call (to : value) : flow value := postSettings "/api/settings/rollback" (VObj [("to", to)]).

Definition fetchModelAccess (days : Z) : flow value :=
  settings_or_null "model access read" ("/api/model-access?days=" +:+ number_text days).
Definition putAgentGrant (change : value) : flow value :=
  res ← fetch_ (mkFetch "PUT" "/api/model-access/grant" (Some change));
  if res_status res =? 403 then Return VNull
  else if negb (res_ok res) && negb (res_status res =? 409) then Reject (failed "agent grant change" (res_status res))
  else json res.

(** The body of the answer, narrowed by the shared contract; [None] is the refusal of the role. *)
Definition fetchConsoleRbac : flow (option ConsoleRbacView) :=
  res ← fetch_ (get_request "/api/settings/console-rbac");
  if res_status res =? 403 then Return None
  else
    b ← json_or (failed "console rbac") res;
    match toConsoleRbacView b with
    | Throw e => Reject (Thrown e)
    | Ok None => Reject (PlainError "console rbac: unrecognized shape")
    | Ok (Some view) => Return (Some view)
    end.

(** ** Signing in ([auth/api.ts]) *)

Definition postJson (url : string) (b : option value) : flow fetch_response := fetch_ (mkFetch "POST" url b).

Definition getMe : flow value :=
  res ← fetch_ (get_request "/auth/me");
  if res_status res =? 401 then Return VNull
  else data ← json_or (failed "auth/me") res; read_prop data "operator".

Definition startLogin : flow value := res ← postJson "/auth/login" None; json_or (failed "auth/login") res.

Definition pollLogin (loginId : string) : flow value :=
  res ← postJson "/auth/login/poll" (Some (VObj [("loginId", VStr loginId)]));
  if res_status res =? 404 then Return (VObj [("status", VStr "expired")]) else json res.

Definition logout : flow unit := postJson "/auth/logout" None ≫= λ _, Return tt.
End console.
