(* ===== verification/LoginPage.v ===== *)
(** * The sign-in page ([Login.tsx]) against the auth router

    The page as a state machine: its phase, the one timer, the call in flight, and the
    session it seeds.  A poll is answered by the router, or its promise is rejected (the
    request is lost or the answer cannot be read). *)
From S2P Require Import Prelude Bytes Float64 Cbor JsValue JsString Num64 LineExchange Cache Rbac Sessions Cookie Oidc.
From S2P Require Import AuthRouter OperatorEngine Vtz Policies JsOps Overview EntityDetail Settings Http Uri Console.
From stdpp Require Import list.
Open Scope Z_scope.

Record LoginStart := mkStart {
  ls_loginId : string; ls_userCode : string; ls_verificationUri : string; ls_verificationUriComplete : option string;
  ls_expiresInSecs : Z; ls_intervalSecs : Z }.

Inductive Phase := ph_idle | ph_starting | ph_awaiting (start : LoginStart) | ph_error (message : string).

(** [pg_starting] and [pg_polling] are the calls in flight; [pg_session] is what was seeded. *)
Record page := mkPage {
  pg_phase : Phase; pg_alive : bool; pg_timer : option LoginStart; pg_starting : bool; pg_polling : option LoginStart;
  pg_session : option value }.

Definition page_init : page := mkPage ph_idle true None false None None.

(** The button is rendered and enabled. *)
Definition can_begin (p : page) : bool := pg_alive p && match pg_phase p with ph_idle | ph_error _ => true | _ => false end.

Definition begin (p : page) : page := mkPage ph_starting (pg_alive p) (pg_timer p) true (pg_polling p) (pg_session p).

(** [startLogin] settled; [None] is a rejection. *)
Definition started (p : page) (r : option LoginStart) : page :=
  if pg_alive p then
    match r with
    | Some start => mkPage (ph_awaiting start) true (Some start) false (pg_polling p) (pg_session p)
    | None => mkPage (ph_error "Could not reach the sign-in service.") true (pg_timer p) false (pg_polling p) (pg_session p)
    end
  else mkPage (pg_phase p) false (pg_timer p) false (pg_polling p) (pg_session p).

(** The timer fires: a poll is sent. *)
Definition fire (p : page) (start : LoginStart) : page :=
  mkPage (pg_phase p) (pg_alive p) None (pg_starting p) (Some start) (pg_session p).

(** [switch (result.status)]; an answer with another status, and a rejected poll, change nothing. *)
Definition polled (p : page) (start : LoginStart) (r : option value) : page :=
  let p' phase timer session := mkPage phase (pg_alive p) timer (pg_starting p) None session in
  let same := p' (pg_phase p) (pg_timer p) (pg_session p) in
  match (result ← r; match get result "status" with Ok s => Some (result, s) | Throw _ => None end) with
  | None => same
  | Some (result, status) =>
      if negb (pg_alive p) then same
      else if is_str "pending" status then p' (pg_phase p) (Some start) (pg_session p)
      else if is_str "complete" status then
        p' (pg_phase p) (pg_timer p) (Some (match get result "operator" with Ok o => o | Throw _ => VUndefined end))
      else if is_str "expired" status then p' (ph_error "The sign-in request expired. Try again.") (pg_timer p) (pg_session p)
      else if is_str "error" status then p' (ph_error "Sign-in failed. Try again.") (pg_timer p) (pg_session p)
      else same
  end.

Definition unmount (p : page) : page := mkPage (pg_phase p) false None (pg_starting p) (pg_polling p) (pg_session p).

Section machine.
(** The ways a poll can settle. *)
Context (settles : option value → Prop).

Inductive page_step (p : page) : page → Prop :=
  | ps_begin : can_begin p = true → page_step p (begin p)
  | ps_started r : pg_starting p = true → page_step p (started p r)
  | ps_fire start : pg_timer p = Some start → page_step p (fire p start)
  | ps_polled start r : pg_polling p = Some start → settles r → page_step p (polled p start r)
  | ps_unmount : page_step p (unmount p).

Inductive page_reaches : page → Prop :=
  | pr_init : page_reaches page_init
  | pr_step p p' : page_reaches p → page_step p p' → page_reaches p'.

(** At most one thing is under way, and it is what the phase says. *)
Record page_inv (p : page) : Prop := {
  pi_starting : pg_starting p = true → pg_timer p = None ∧ pg_polling p = None ∧ (pg_alive p = true → pg_phase p = ph_starting);
  pi_phase : pg_phase p = ph_starting → pg_alive p = true → pg_starting p = true;
  pi_timer : ∀ s, pg_timer p = Some s → pg_polling p = None ∧ pg_phase p = ph_awaiting s ∧ pg_alive p = true;
  pi_polling : ∀ s, pg_polling p = Some s → pg_phase p = ph_awaiting s }.

Lemma page_step_inv p p' : page_inv p → page_step p p' → page_inv p'.
Proof using.
  intros [H1 H2 H3 H4] Hs. destruct p as [ph al tm st pl se]. cbn [pg_phase pg_alive pg_timer pg_starting pg_polling pg_session] in *.
  destruct Hs as [Hb|r Hr|start Ht|start r Hp Hr|]; cbn [pg_phase pg_alive pg_timer pg_starting pg_polling pg_session] in *.
  - unfold can_begin in Hb. cbn in Hb. apply andb_prop in Hb as [-> Hb].
    assert (tm = None) as -> by (destruct tm as [s|]; [destruct (H3 s eq_refl) as (_ & -> & _); done|done]).
    assert (pl = None) as -> by (destruct pl as [s|]; [rewrite (H4 s eq_refl) in Hb; done|done]).
    by constructor.
  - destruct (H1 Hr) as (-> & -> & _). unfold started. cbn. destruct al; [destruct r|]; constructor; cbn; naive_solver.
  - subst tm. destruct (H3 start eq_refl) as (-> & -> & ->). constructor; cbn; naive_solver.
  - subst pl. pose proof (H4 start eq_refl) as ->. assert (st = false) as -> by (destruct st; [by destruct (H1 eq_refl) as (_ & ? & _)|done]).
    assert (tm = None) as -> by (destruct tm as [s|]; [by destruct (H3 s eq_refl)|done]).
    unfold polled. destruct (mbind _ r) as [[result status]|]; cbn; [|constructor; cbn; naive_solver].
    destruct al; cbn; [|constructor; cbn; naive_solver].
    repeat match goal with |- context [if is_str ?a ?b then _ else _] => destruct (is_str a b) end; constructor; cbn; naive_solver.
  - constructor; cbn; naive_solver.
Qed.

Lemma page_reaches_inv p : page_reaches p → page_inv p.
Proof using. induction 1 as [|p p' _ IH Hs]; [constructor; cbn; naive_solver|by eapply page_step_inv]. Qed.

(** Something is under way that will move the page on. *)
Definition under_way (p : page) : Prop := pg_starting p = true ∨ pg_timer p ≠ None ∨ pg_polling p ≠ None.

(** A page that shows it is waiting. *)
Definition waiting (p : page) : Prop :=
  pg_alive p = true ∧ pg_session p = None ∧ match pg_phase p with ph_starting | ph_awaiting _ => True | _ => False end.

(** The answers the page knows. *)
Definition known_status (v : value) : Prop :=
  ∃ s, get v "status" = Ok (VStr s) ∧ s ∈ ["pending"; "complete"; "expired"; "error"].

Lemma polled_known p start v : pg_alive p = true → known_status v →
  (pg_timer (polled p start (Some v)) = Some start) ∨ (pg_session (polled p start (Some v)) ≠ None) ∨
  (∃ m, pg_phase (polled p start (Some v)) = ph_error m).
Proof using.
  intros Ha (s & Hs & Hin). unfold polled. cbn [mbind option_bind]. rewrite Hs, Ha. cbn [negb].
  apply list_elem_of_In in Hin. cbn in Hin. destruct_or! Hin; subst; cbn; eauto.
Qed.

Lemma waiting_under_way p : (∀ r, settles r → ∃ v, r = Some v ∧ known_status v) →
  page_reaches p → waiting p → under_way p.
Proof using.
  intros Hsettles. induction 1 as [|p p' Hr IH Hs]; [by intros (_ & _ & ?)|]. pose proof (page_reaches_inv p Hr) as [H1 H2 H3 H4].
  unfold waiting, under_way in *. destruct Hs as [Hb|r Hst|start Ht|start r Hp Hrs|].
  - intros _. by left.
  - unfold started. destruct (pg_alive p); [destruct r|]; cbn; [by eauto|by intros (_ & _ & ?)|by intros (? & _)].
  - cbn. eauto.
  - intros (Ha & Hse & Hph). assert (pg_alive p = true) as Hal.
    { unfold polled in Ha. destruct (mbind _ r) as [[]|]; cbn in Ha; [|done]. destruct (pg_alive p); [done|]. cbn in Ha. done. }
    destruct (Hsettles r Hrs) as (v & -> & Hk). destruct (polled_known p start v Hal Hk) as [E|[E|[m E]]]; [|done|by rewrite E in Hph].
    right. left. by rewrite E.
  - by intros (? & _).
Qed.
End machine.

(** A lost poll leaves the page waiting for ever. *)
Lemma lost_poll_hangs settles p start :
  page_reaches settles p → pg_alive p = true → pg_session p = None → pg_polling p = Some start →
  let q := polled p start None in
  waiting q ∧ ¬ under_way q ∧ ∀ q', page_step settles q q' → q' = unmount q.
Proof.
  intros Hr Ha Hs Hp. destruct (page_reaches_inv settles p Hr) as [H1 H2 H3 H4]. pose proof (H4 start Hp) as Hph.
  assert (pg_starting p = false) as Hst by (destruct (pg_starting p); [destruct (H1 eq_refl) as (_ & ? & _); congruence|done]).
  assert (pg_timer p = None) as Ht by (destruct (pg_timer p) as [s|]; [destruct (H3 s eq_refl) as [? _]; congruence|done]).
  cbv zeta. assert (polled p start None = mkPage (ph_awaiting start) true None false None None) as ->.
  { unfold polled. cbn. by rewrite Hph, Ha, Ht, Hst, Hs. }
  split_and!; [done|unfold under_way; cbn; naive_solver|]. intros q' [Hb|r Hb|s Hb|s r Hb _|]; done.
Qed.

(** ** The answers of the router *)

(** What the console makes of one response to its poll: the value [pollLogin] resolves to, or a rejection. *)
Definition poll_settled (loginId : string) (res : option fetch_response) : option value :=
  match exchange_with [res] (pollLogin loginId) with (_, Some (inl v)) => Some v | _ => None end.

Definition fetched (r : response) : fetch_response := mkFetched (resp_status r) (Some (resp_body r)).

Section router.
Context (deps : AuthRouterDeps) (JSON_parse : bytes → result value).

(** The responses the router has for a poll that names a login. *)
Inductive poll_reply (loginId : string) : response → Prop :=
  | reply_now st st' chunks now r : AuthRouter.readJsonBody JSON_parse chunks = Ok (VObj [("loginId", VStr loginId)]) →
      handlePoll_start JSON_parse st chunks now = (st', inl r) → poll_reply loginId r
  | reply_polled st st' lid p r : handlePoll_polled st lid p = (st', inl r) → poll_reply loginId r
  | reply_verified st st' lid v now sid r : handlePoll_verified deps st lid v now sid = (st', r) → poll_reply loginId r.

Lemma poll_reply_known loginId r : loginId ≠ "" → poll_reply loginId r →
  ∃ v, poll_settled loginId (Some (fetched r)) = Some v ∧ known_status v.
Proof using.
  intros Hne [st st' chunks now r' Hb H|st st' lid p r' H|st st' lid v now sid r' H].
  - unfold handlePoll_start in H. rewrite Hb in H.
    assert (stringField (VObj [("loginId", VStr loginId)]) "loginId" = Some loginId) as E.
    { unfold stringField. cbn [typeof_object is_nullish negb orb get obj_get]. rewrite bool_decide_eq_true_2 by done.
      cbn [default from_option]. unfold id. by rewrite bool_decide_eq_false_2. }
    rewrite E in H.
    destruct (login_get _ _ _) as [[l|] m]; [done|]. injection H as _ <-. eexists. split; [reflexivity|]. exists "expired". split; [done|]. set_solver.
  - destruct p as [[|]|]; cbn in H; simplify_eq; (eexists; split; [reflexivity|]); eexists; (split; [reflexivity|]); set_solver.
  - unfold handlePoll_verified in H. destruct v as [[identity|]|]; simplify_eq; [|(eexists; split; [reflexivity|]); eexists; (split; [reflexivity|]); set_solver..].
    destruct (session_create _ _ _ _ _ _) as [session m]. injection H as _ <-.
    eexists. split; [reflexivity|]. eexists. split; [reflexivity|]. set_solver.
Qed.

(** How a poll of the page settles when every poll is answered by the router. *)
Definition answered (loginId : string) (r : option value) : Prop :=
  ∃ resp, poll_reply loginId resp ∧ r = poll_settled loginId (Some (fetched resp)).

(** C17: The sign-in page does not hang on any answer of the auth router: in every reachable state at most one of the
    start call, the timer and the poll is under way, it is the one the phase shows, and a mounted page that shows it is
    waiting, with no session seeded, has one under way -- as long as every poll is answered by the router (whatever the
    identity provider did: pending, completed, failed, refused, unknown or expired login).  A poll that is lost, or whose
    answer cannot be read, does hang it: the page still shows that it waits, nothing is under way, and no step other than
    leaving the page is possible. *)
Theorem login_page_progress loginId p : loginId ≠ "" → page_reaches (answered loginId) p →
  page_inv p ∧ (waiting p → under_way p) ∧
  (∀ start, pg_alive p = true → pg_session p = None → pg_polling p = Some start →
     let q := polled p start None in
     waiting q ∧ ¬ under_way q ∧ ∀ q', page_step (answered loginId) q q' → q' = unmount q).
Proof using.
  intros Hne Hp. split_and!; [by eapply page_reaches_inv| |intros start; by apply lost_poll_hangs].
  apply (waiting_under_way (answered loginId)); [|done].
  intros r (resp & Hr & ->). destruct (poll_reply_known loginId resp Hne Hr) as (v & -> & Hk). by exists v.
Qed.
End router.

Definition sample_login : LoginStart := mkStart "L" "ABCD" "https://idp/device" None 600 5.
Definition sample_polling : page := fire (started (begin page_init) (Some sample_login)) sample_login.

Lemma sample_polling_reached settles : page_reaches settles sample_polling.
Proof.
  eapply pr_step; [|by apply ps_fire]. eapply pr_step; [|by apply ps_started]. eapply pr_step; [apply pr_init|by apply ps_begin].
Qed.

(** The router's answer to a poll whose login is gone ends the wait; a lost poll does not. *)
Lemma login_page_progress_witness :
  let p := polled sample_polling sample_login (poll_settled "L" (Some (fetched (sendJson 404 (error_body "login_expired"))))) in
  pg_phase p = ph_error "The sign-in request expired. Try again." ∧ page_inv p ∧
  waiting (polled sample_polling sample_login None) ∧ ¬ under_way (polled sample_polling sample_login None).
Proof.
  split; [vm_compute; reflexivity|]. split.
  - apply (login_page_progress AuthRouter.sample_deps AuthRouter.sample_parse "L"); [discriminate|].
    eapply pr_step; [apply sample_polling_reached|]. apply ps_polled; [reflexivity|].
    exists (sendJson 404 (error_body "login_expired")). split; [|reflexivity].
    apply (reply_now _ _ _ (mkAuth [] []) (mkAuth [] []) [[1]] 0); vm_compute; reflexivity.
  - destruct (login_page_progress AuthRouter.sample_deps AuthRouter.sample_parse "L" sample_polling) as (_ & _ & H);
      [discriminate|apply sample_polling_reached|].
    destruct (H sample_login eq_refl eq_refl eq_refl) as (H1 & H2 & _). split; [exact H1|exact H2].
Defined.
