(* ===== verification/Server.v ===== *)
(** * The HTTP surface ([apps/bff/src/server.ts])

    Every handler of the server as a program over what it does to the outside: the session
    it looks up, the cache it reads and writes, the body and the calls it awaits, and the
    responses it sends: a program goes on after a response, so two of them, or none, can be
    written down.  A handler runs without interruption between two awaits, so
    requests interleave exactly at [ReadBody] and [Await].

    [Some p] is a handler that claimed the request; [None] leaves it to the next one, which
    the handlers decide before they do anything. *)
From S2P Require Import Prelude Bytes Float64 Cbor JsValue JsString Num64 LineExchange Cache Rbac Sessions Cookie Oidc.
From S2P Require Import AuthRouter OperatorEngine Vtz Policies Forge Distribute Routes JsOps Overview Users Objects EntityDetail Soc Settings.
From S2P Require Import ModelAccess Http.
From stdpp Require Import list.
Open Scope Z_scope.

(** ** What a handler awaits *)

Inductive VtzCommand :=
  | vtz_create (spec : VtzSpecInput)
  | vtz_edit (spec : VtzSpecInput)
  | vtz_rescope (id newName : string)
  | vtz_delete (id : string).

(** A resolver with its arguments; the principal is beside it. *)
Inductive call :=
  | c_entityDetail (ref : EntityRef)
  | c_isolate (ref : EntityRef) (request : IsolateRequest)
  | c_logExport (commandId : string) (filter : LogQueryFilter)
  | c_logQuery (filter : LogQueryFilter)
  | c_logExplain (decision : string)
  | c_overviewSankey (query : OverviewQuery)
  | c_entityConnections (id kind : string)
  | c_classMembers (container : string)
  | c_vtzTree (limit : Z)
  | c_vtzDetail (id : string)
  | c_bundleConvergence (id : string)
  | c_distribute (zoneId : string) (members : list string)
  | c_vtzCommand (command : VtzCommand)
  | c_usersList
  | c_groupsList
  | c_createPrincipal (draft : PrincipalDraft)
  | c_editPrincipal (draft : PrincipalDraft)
  | c_setPrincipalStatus (username status : string)
  | c_setGroupMembers (name : string) (members : list string)
  | c_createGroup (name description : string)
  | c_editGroup (name description : string)
  | c_objectCatalog
  | c_objectDetail (name : string)
  | c_createObject (draft : ObjectDraft)
  | c_editObject (draft : ObjectDraft)
  | c_deleteObject (name : string)
  | c_policyZones
  | c_policyDetail (vtz id : string)
  | c_createPolicy (draft : PolicyDraft)
  | c_editPolicy (id : string) (draft : PolicyDraft)
  | c_publishPolicy (vtz id version : string)
  | c_deletePolicy (vtz id : string)
  | c_idamConnectors
  | c_idamSync (provider : string)
  | c_idamConnect (draft : IdamConnectDraft) (secretRef : string)
  | c_idamConfigure (draft : IdamConnectorDraft)
  | c_socKpis
  | c_incidentQueue
  | c_incidentDetail (incident : string)
  | c_narrative (incident : string)
  | c_incidentTelemetry (incident : string)
  | c_auditTrail (incident : string)
  | c_incidentNotes (incident : string)
  | c_businessImpact (incident : string)
  | c_incidentReport (incident : string)
  | c_weekly (weeks : Z)
  | c_cognitionRun (incident : string)
  | c_caseAct (incident : string) (draft : CaseActDraft)
  | c_disposition (incident : string) (draft : DispositionDraft)
  | c_approvePlan (incident : string) (atRevision : value)
  | c_modifyPlan (incident : string) (steps : list ResponseStepDraft)
  | c_settings (surface : option string)
  | c_settingsCommit (request : SettingsCommitRequest)
  | c_settingsReports (names : list string)
  | c_settingsPropose (request : SettingsCommitRequest)
  | c_settingsApprovals
  | c_settingsApprove (proposal : Z)
  | c_settingsHistory (limit : Z)
  | c_settingsRollback (to : Z)
  | c_socSettings
  | c_socSettingsCommit (patch : SocSettingsPatch)
  | c_modelAccess (days : Z)
  | c_agentGrant (change : AgentGrantChange).

(** The exchanges with the sidecar, the engine's ping and the file system. *)
Inductive local_call :=
  | l_secret (provider secret : string)
  | l_sessionGroup (remotePort : Z)
  | l_ping
  | l_readFile (path : string).

(** What a call resolves to and what a response carries. *)
Inductive view :=
  | V (v : value)
  | V_entity (d : EntityDetailView)
  | V_sankey (s : OverviewSankey)
  | V_members (l : list OverviewMember)
  | V_tree (t : VtzTree)
  | V_zone (d : VtzDetailView)
  | V_vtzMutation (m : VtzMutationResult)
  | V_convergence (c : BundleConvergenceView)
  | V_distributed (d : DistributeResult)
  | V_principals (l : list PrincipalRow)
  | V_objects (l : list ObjectCard)
  | V_object (o : ObjectDetailView)
  | V_policyZones (l : list PolicyZoneGroup)
  | V_policy (p : PolicyDetailView)
  | V_policyMutation (m : PolicyMutation)
  | V_queue (l : list SocIncidentRow)
  | V_incident (d : SocIncidentDetail)
  | V_effect (e : SocPlanEffect)
  | V_report (r : SocReport)
  | V_socSettings (s : SocSettings)
  | V_settings (s : SettingsView)
  | V_access (a : ModelAccessView)
  | V_grant (g : AgentGrantOutcome)
  | V_rbac (r : RbacConfigView)
  | V_file (contentType : string) (content : bytes).

(** [view === null] *)
Definition null_view (v : view) : bool := match v with V VNull => true | _ => false end.

(** ** Programs *)

Record response := mkResponse { status : Z; body : view }.

(** What a handler does: it sends a response and goes on, ends, throws, looks up the session, uses the cache, or awaits
    the request's body, a resolver -- with all the engine's replies the resolver asks for in turn -- or an exchange
    of this host. *)
Inductive prog :=
  | Send (r : response) (k : prog)
  | Done
  | Raise (e : exn)
  | GetSession (k : option OperatorSession → prog)
  | CacheGet (key version : string) (k : option view → prog)
  | CacheSet (key version : string) (v : view) (k : prog)
  | CacheDrop (prefix : string) (k : prog)
  | ReadBody (limit : Z) (k : result value → prog)
  | Await (p : OperatorPrincipal) (c : call) (k : result view → prog)
  | AwaitLocal (c : local_call) (k : result view → prog).

(** [sendJson(...); return;] *)
Notation Reply r := (Send r Done).

Record BffConfig := mkConfig {
  signerPort : option Z; secretPort : option Z; sessionPort : option Z; spaDir : option string; rbac : RbacConfig }.

(** What the server is built over: which dependencies it was given, its configuration, and
    the directory it runs in. *)
Record ServerDeps := mkServerDeps {
  authRouter : bool; operatorEngine : bool; config : BffConfig; cwd : list string }.

(** The parts of a request the handlers read. *)
Record http_request := mkHttp {
  http_method : option string; http_url : option string; http_cookie : option string; x_active_tenant : option string;
  remotePort : option Z }.

Definition request_method (req : http_request) : string := default "GET" (http_method req).
Definition request_url (req : http_request) : string := default "/" (http_url req).
Definition request_path (req : http_request) : string := url_path (request_url req).
Definition params (req : http_request) : list (string * string) := searchParams (request_url req).

Definition activeTenantOverride (req : http_request) : option string :=
  match x_active_tenant req with
  | Some v => if bool_decide (trim v = "") then None else Some (trim v)
  | None => None
  end.

(** [{ error: e }] *)
Definition error_view (e : string) : view := V (VObj [("error", VStr e)]).
Definition fail (status : Z) (e : string) : prog := Reply (mkResponse status (error_view e)).

Section server.
Context {NS : NumberToString} {TN : ToNumberOther}.
(** [JSON.stringify], which throws on what it cannot serialise. *)
Context (JSON_stringify : view → result string) (deps : ServerDeps) (req : http_request).

Let meth := request_method req.
Let path := request_path req.

(** [sendJson(res, status, v)], in a [try] whose handler is [catch] *)
Definition send (status : Z) (v : view) (catch : exn → prog) : prog :=
  match JSON_stringify v with Ok _ => Reply (mkResponse status v) | Throw e => catch e end.

(** [sendJson] outside of any [try] *)
Definition send_out (status : Z) (v : view) : prog := send status v Raise.

(** A computation inside a [try]. *)
Definition attempt {A} (r : result A) (catch : exn → prog) (k : A → prog) : prog :=
  match r with Ok a => k a | Throw e => catch e end.

(** An await inside a [try]. *)
Definition awaiting (p : OperatorPrincipal) (c : call) (catch : exn → prog) (k : view → prog) : prog :=
  Await p c (λ r, attempt r catch k).

(** [sendJson(res, status, { error: 'refused', class: err.wireError.class })] *)
Definition refused_with (code : value → Z) (wireError : value) : prog :=
  attempt (get wireError "class") Raise (λ cls,
    send_out (code cls) (V (VObj [("error", VStr "refused"); ("class", cls)]))).

Definition engine_error : prog := fail 502 "engine_error".

(** [cls === 'Conflict' ? 409 : cls === 'Framing' ? 400 : 403] *)
Definition command_status (cls : value) : Z :=
  if is_str "Conflict" cls then 409 else if is_str "Framing" cls then 400 else 403.

(** The [catch] of a read: the surface's own error is 503, a refusal 403, anything else 502. *)
Definition catch_read (unavailable : exn → bool) (e : exn) : prog :=
  if unavailable e then fail 503 "unavailable"
  else match e with EngineRefusedError w => refused_with (λ _, 403) w | _ => engine_error end.

Definition catch_command (unavailable : exn → bool) (e : exn) : prog :=
  if unavailable e then fail 503 "unavailable"
  else match e with EngineRefusedError w => refused_with command_status w | _ => engine_error end.

Definition never (e : exn) : bool := false.

(** [if (!session) return 401] *)
Definition with_session (k : OperatorSession → prog) : prog :=
  GetSession (λ s, match s with None => fail 401 "unauthorized" | Some s => k s end).

(** [if (!deps.operatorEngine) return 503] *)
Definition with_engine (k : prog) : prog := if operatorEngine deps then k else fail 503 "engine_unavailable".

(** The session gate, the engine gate, and the operator's principal. *)
Definition gated (k : OperatorPrincipal → prog) : prog :=
  with_session (λ s, with_engine (k (principalFromSession s (activeTenantOverride req)))).

Definition malformed : prog := fail 400 "malformed_request".
Definition bad_request : prog := fail 400 "bad_request".
Definition not_found : prog := fail 404 "not_found".
Definition method_not_allowed : prog := fail 405 "method_not_allowed".

Definition MAX_COMMAND_BODY_BYTES : Z := 8192.

(** [try { body = await readJsonBody(...) } catch { 400 }] *)
Definition with_body (limit : Z) (k : value → prog) : prog :=
  ReadBody limit (λ r, match r with Ok b => k b | Throw _ => malformed end).

(** ** Entities *)

(** [/^\/api\/entity\/(principal|vtz|object)\/(.+)$/] *)
Definition entity_match (p : string) : option (EntityKind * string) :=
  let after k name := rest ← JsString.strip_prefix ("/api/entity/" +:+ name +:+ "/") p;
    if bool_decide (rest = "") || has_line_terminator rest then None else Some (k, rest) in
  match after kind_principal "principal" with
  | Some m => Some m
  | None => match after kind_vtz "vtz" with Some m => Some m | None => after kind_object "object" end
  end.

(** [s] without a trailing [suffix]. *)
Definition strip_suffix (suffix s : string) : option string :=
  option_map (λ r, str_rev_app r "") (JsString.strip_prefix (str_rev_app suffix "") (str_rev_app s "")).

(** [/^\/api\/entity\/(principal|vtz|object)\/(.+)\/isolate$/] *)
Definition isolate_match (p : string) : option (EntityKind * string) :=
  '(k, rest) ← entity_match p; id ← strip_suffix "/isolate" rest;
  if bool_decide (id = "") then None else Some (k, id).

Definition entityRefOf (kind : EntityKind) (id : string) : EntityRef := mkRef kind id.

Definition handleEntityDetail : option prog :=
  match entity_match path with
  | None => None
  | Some (kind, encoded) =>
      Some (gated (λ p,
        attempt (decodeURIComponent encoded) Raise (λ id,
          awaiting p (c_entityDetail (entityRefOf kind id)) Raise (λ v, send_out 200 v))))
  end.

(** A text that is not blank. *)
Definition nonblank (v : value) : option string :=
  match v with VStr s => if bool_decide (trim s = "") then None else Some s | _ => None end.

Definition parseIsolateRequest (b : value) : result (option IsolateRequest) :=
  if not_object b then Ok None
  else
    c ← get b "commandId"; p ← get b "posture";
    Ok (c ← nonblank c;
        if is_str "quarantine" p then Some (mkIsolate c posture_quarantine)
        else if is_str "deny" p then Some (mkIsolate c posture_deny) else None).

(** [try { request = parse(await readJsonBody(...)) } catch { request = null }], null is 400 *)
Definition with_request {A} (parse : value → result (option A)) (bad : prog) (k : A → prog) : prog :=
  ReadBody MAX_COMMAND_BODY_BYTES (λ r,
    match (b ← r; parse b) with Ok (Some a) => k a | _ => bad end).

Definition handleEntityIsolate : option prog :=
  match isolate_match path with
  | None => None
  | Some (kind, encoded) =>
      Some (if negb (bool_decide (meth = "POST")) then method_not_allowed
            else gated (λ p,
              attempt (decodeURIComponent encoded) Raise (λ id,
                let ref := entityRefOf kind id in
                with_request parseIsolateRequest malformed (λ request,
                  awaiting p (c_isolate ref request) (catch_read never) (λ v, send 200 v (catch_read never))))))
  end.

(** ** Logs *)

Definition DEFAULT_LOG_LIMIT : Z := 100.
Definition MAX_LOG_LIMIT : Z := 500.

(** [requested > 0 ? Math.min(requested, max) : default], as 64 bits *)
Definition bounded_limit (requested : option Z) (max default : Z) : Z :=
  match requested with
  | Some x => if f64_lt 0 x then Math_min x (f64_ofZ max) else f64_ofZ default
  | None => f64_ofZ default
  end.

(** [params.get(key)] where the empty text counts as absent *)
Definition param_str (key : string) : option string :=
  match param (params req) key with Some "" | None => None | Some s => Some s end.

(** ... and as a finite number *)
Definition param_num (key : string) : option Z :=
  s ← param_str key; let x := StringToNumber s in if f64_isFinite x then Some x else None.

Definition parseLogFilter : LogQueryFilter :=
  mkFilter (param_num "since") (param_num "until") (param_str "technique") (param_str "tactic") (param_str "ruleId")
    (param_str "confidence") (param_str "action") (param_str "search")
    (bounded_limit (param_num "limit") MAX_LOG_LIMIT DEFAULT_LOG_LIMIT)
    (x ← param_num "offset"; if f64_lt 0 x then Some (f64_floor x) else None).

(** [typeof v === 'string' && v !== ''] *)
Definition body_str (v : value) : option string :=
  match v with VStr "" => None | VStr s => Some s | _ => None end.

(** [typeof v === 'number' && Number.isFinite(v)] *)
Definition body_num (v : value) : option Z :=
  match v with VNum x => if f64_isFinite x then Some x else None | _ => None end.

(** [Number(v)], where a bigint converts *)
Definition js_Number (v : value) : Z :=
  match v with
  | VStr s => StringToNumber s
  | VBigInt z => f64_ratio (z <? 0) (Z.abs z) 1
  | _ => match js_ToNumber v with Ok x => x | Throw _ => f64_NaN end
  end.

Definition parseLogExportRequest (b : value) : result (option (string * LogQueryFilter)) :=
  if not_object b then Ok None
  else
    c ← get b "commandId"; f ← get b "filter";
    match nonblank c with
    | None => Ok None
    | Some c =>
        if not_object f then Ok None
        else
          l ← get f "limit"; si ← get f "since"; un ← get f "until"; te ← get f "technique"; ta ← get f "tactic";
          ru ← get f "ruleId"; co ← get f "confidence"; ac ← get f "action"; se ← get f "search"; o ← get f "offset";
          let offset := js_Number (or_else o (vint 0)) in
          Ok (Some (c, mkFilter (body_num si) (body_num un) (body_str te) (body_str ta) (body_str ru) (body_str co)
                         (body_str ac) (body_str se) (bounded_limit (body_num l) MAX_LOG_LIMIT DEFAULT_LOG_LIMIT)
                         (if f64_isFinite offset && f64_lt 0 offset then Some (f64_floor offset) else None)))
    end.

Definition handleLogExport : option prog :=
  if negb (bool_decide (path = "/api/logs/export")) then None
  else Some (if negb (bool_decide (meth = "POST")) then method_not_allowed
             else gated (λ p,
               with_request parseLogExportRequest malformed (λ request,
                 awaiting p (c_logExport request.1 request.2) (catch_read never) (λ v, send 200 v (catch_read never))))).

(** [/^\/api\/logs\/explain\/(.+)$/] *)
Definition explain_match (p : string) : option string :=
  rest ← JsString.strip_prefix "/api/logs/explain/" p;
  if bool_decide (rest = "") || has_line_terminator rest then None else Some rest.

(** A refused EXPLAIN is a 404. *)
Definition catch_explain (e : exn) : prog :=
  match e with EngineRefusedError _ => not_found | _ => engine_error end.

Definition handleLogs : option prog :=
  match explain_match path with
  | Some encoded =>
      Some (gated (λ p,
        attempt (decodeURIComponent encoded) catch_explain (λ id,
          awaiting p (c_logExplain id) catch_explain (λ v, send 200 v catch_explain))))
  | None =>
      if negb (bool_decide (path = "/api/logs")) then None
      else Some (gated (λ p,
             awaiting p (c_logQuery parseLogFilter) (catch_read never) (λ v, send 200 v (catch_read never))))
  end.

(** ** Overview *)

Definition DEFAULT_OVERVIEW_LIMIT : Z := 10000.
Definition MAX_OVERVIEW_LIMIT : Z := 10000.
Definition OVERVIEW_CACHE_VERSION : string := "overview-v2".

Definition parseOverviewQuery : OverviewQuery :=
  mkQuery (param_num "since") (param_num "until") (bounded_limit (param_num "limit") MAX_OVERVIEW_LIMIT DEFAULT_OVERVIEW_LIMIT).

(** A projection served from the cache when it is warm, and kept when it is resolved. *)
Definition cached_read (key version : string) (p : OperatorPrincipal) (c : call) (catch : exn → prog) : prog :=
  CacheGet key version (λ hit,
    match hit with
    | Some v => send_out 200 v
    | None => awaiting p c catch (λ v, CacheSet key version v (send 200 v catch))
    end).

(** [String(x ?? '')] *)
Definition opt_number (x : option Z) : string := match x with Some x => js_String (VNum x) | None => "" end.

Definition is_overview_unavailable (e : exn) : bool := match e with OverviewUnavailableError => true | _ => false end.

Definition overview_key (kind tenant : string) (q : OverviewQuery) : string :=
  "overview:" +:+ kind +:+ ":" +:+ tenant +:+ ":" +:+ opt_number (q_since q) +:+ ":" +:+ opt_number (q_until q) +:+ ":" +:+
  js_String (VNum (q_limit q)).

Definition serveOverviewRead (kind : string) (resolve : OverviewQuery → call) : prog :=
  gated (λ p,
    let query := parseOverviewQuery in
    cached_read (overview_key kind (p_tenant p) query) OVERVIEW_CACHE_VERSION p (resolve query)
      (catch_read is_overview_unavailable)).

Definition connections_key (tenant kind id : string) : string := "overview:connections:" +:+ tenant +:+ ":" +:+ kind +:+ ":" +:+ id.

Definition serveEntityConnections : prog :=
  gated (λ p,
    match param_text (params req) "id", param_text (params req) "kind" with
    | Some id, Some kind =>
        cached_read (connections_key (p_tenant p) kind id) OVERVIEW_CACHE_VERSION p (c_entityConnections id kind) (catch_read never)
    | _, _ => bad_request
    end).

Definition members_key (tenant container : string) : string := "overview:members:" +:+ tenant +:+ ":" +:+ container.

Definition catch_members (e : exn) : prog :=
  match e with UnknownContainerError _ => bad_request | _ => catch_read never e end.

Definition serveClassMembers : prog :=
  gated (λ p,
    match param_text (params req) "container" with
    | Some container =>
        cached_read (members_key (p_tenant p) container) OVERVIEW_CACHE_VERSION p (c_classMembers container) catch_members
    | None => bad_request
    end).

Definition handleOverview : option prog :=
  if bool_decide (path = "/api/overview/sankey") then Some (serveOverviewRead "sankey" c_overviewSankey)
  else if bool_decide (path = "/api/overview/entity-connections") then Some serveEntityConnections
  else if bool_decide (path = "/api/overview/members") then Some serveClassMembers
  else None.

(** ** Virtual trust zones *)

Definition VTZ_CACHE_VERSION : string := "vtz-v1".
Definition DEFAULT_VTZ_TREE_LIMIT : Z := 200.

Definition vtzCachePrefix (tenant : string) : string := "vtz:" +:+ tenant +:+ ":".

Definition parseVtzLimit : Z :=
  match param (params req) "limit" with
  | None | Some "" => f64_ofZ DEFAULT_VTZ_TREE_LIMIT
  | Some raw =>
      let x := StringToNumber raw in
      if negb (f64_isFinite x) || f64_le x 0 then f64_ofZ DEFAULT_VTZ_TREE_LIMIT
      else Math_min x (f64_ofZ MAX_VTZ_TREE_LIMIT)
  end.

Definition is_vtz_unavailable (e : exn) : bool := match e with VtzUnavailableError => true | _ => false end.

Definition vtz_tree_key (tenant : string) (limit : Z) : string := vtzCachePrefix tenant +:+ "tree:" +:+ js_String (VNum limit).
Definition vtz_detail_key (tenant zoneId : string) : string := vtzCachePrefix tenant +:+ "detail:" +:+ zoneId.

Definition handleVtz : option prog :=
  let zoneId := param_text (params req) "id" in
  let catch := catch_read is_vtz_unavailable in
  if bool_decide (path = "/api/vtz/tree") then
    Some (gated (λ p,
      cached_read (vtz_tree_key (p_tenant p) parseVtzLimit) VTZ_CACHE_VERSION p (c_vtzTree parseVtzLimit) catch))
  else if bool_decide (path = "/api/vtz/detail") then
    Some (gated (λ p,
      match zoneId with
      | None => bad_request
      | Some id => cached_read (vtz_detail_key (p_tenant p) id) VTZ_CACHE_VERSION p (c_vtzDetail id) catch
      end))
  else if bool_decide (path = "/api/vtz/convergence") then
    Some (gated (λ p,
      match zoneId with
      | None => bad_request
      | Some id => awaiting p (c_bundleConvergence id) catch (λ v, send 200 v catch)
      end))
  else None.

(** The segment after [/api/vtz/], followed by [tail]. *)
Definition vtz_segment (tail p : string) : option string :=
  rest ← JsString.strip_prefix "/api/vtz/" p; seg ← strip_suffix tail rest;
  if bool_decide (seg = "") || negb (no_char slash seg) then None else Some seg.

(** [VTZ_RESCOPE_RE], the distribute pattern, and [VTZ_ZONE_RE] *)
Definition rescope_match : string → option string := vtz_segment "/rescope".
Definition distribute_match : string → option string := vtz_segment "/distribute".
Definition zone_match (p : string) : option string :=
  seg ← vtz_segment "" p; if bool_decide (seg ∈ ["tree"; "detail"]) then None else Some seg.

Definition parseRescopeName (b : value) : result (option string) :=
  if not_object b then Ok None else n ← get b "newName"; Ok (trim <$> nonblank n).

(** What a body resolves a zone command to; [None] is a body that did not validate. *)
Inductive vtz_parse :=
  | vtz_body (parse : value → result (option VtzCommand))
  | vtz_now (r : result (option VtzCommand))
  | vtz_none.

Definition parseVtzCommand : vtz_parse :=
  let spec_of (f : VtzSpecInput → VtzCommand) b := s ← toVtzSpecInput b; Ok (option_map f s) in
  match rescope_match path, bool_decide (meth = "POST") with
  | Some seg, true =>
      vtz_body (λ b, n ← parseRescopeName b;
                     match n with
                     | None => Ok None
                     | Some n => id ← decodeURIComponent seg; Ok (Some (vtz_rescope id n))
                     end)
  | _, _ =>
      if bool_decide (path = "/api/vtz") && bool_decide (meth = "POST") then vtz_body (spec_of vtz_create)
      else match zone_match path with
           | Some seg =>
               if bool_decide (meth = "PUT") then vtz_body (spec_of vtz_edit)
               else if bool_decide (meth = "DELETE") then vtz_now (id ← decodeURIComponent seg; Ok (Some (vtz_delete id)))
               else vtz_none
           | None => vtz_none
           end
  end.

Definition catch_vtz_command (e : exn) : prog :=
  match e with
  | VtzMutationRefusedError kind =>
      let reason := match kind with conflict => "conflict" | denied => "denied" end in
      Reply (mkResponse (match kind with conflict => 409 | denied => 403 end)
               (V (VObj [("error", VStr "refused"); ("reason", VStr reason)])))
  | _ => catch_read is_vtz_unavailable e
  end.

Definition run_vtz_command (p : OperatorPrincipal) (command : VtzCommand) : prog :=
  awaiting p (c_vtzCommand command) catch_vtz_command (λ v,
    CacheDrop (vtzCachePrefix (p_tenant p)) (send 200 v catch_vtz_command)).

Definition handleVtzCommand : option prog :=
  if negb (startsWith path "/api/vtz") then None
  else if bool_decide (path ∈ ["/api/vtz/tree"; "/api/vtz/detail"; "/api/vtz/convergence"]) then None
  else if bool_decide (meth = "GET") then None
  else Some (gated (λ p,
    match parseVtzCommand with
    | vtz_body parse => with_request parse malformed (run_vtz_command p)
    | vtz_now (Ok (Some command)) => run_vtz_command p command
    | vtz_now _ => malformed
    | vtz_none => method_not_allowed
    end)).

Definition MAX_DISTRIBUTE_BODY_BYTES : Z := 64 * 1024.

(** [members] of the body: a non-empty array of non-empty strings *)
Definition distribute_members (b : value) : result (option (list string)) :=
  raw ← get b "members";
  match raw with
  | VArr (x :: items) => project_all (λ m, Ok (body_str m)) (x :: items)
  | _ => Ok None
  end.

Definition catch_distribute (e : exn) : prog :=
  match e with
  | DistributeZoneUnknownError _ => fail 404 "unknown_zone"
  | DistributeCompositionError _ => fail 503 "unavailable"
  | SigningRefusedError _ => fail 422 "signing_refused"
  | SigningUnavailableError _ => fail 503 "signer_unavailable"
  | EngineRefusedError w => refused_with (λ cls, if is_str "Framing" cls then 409 else 403) w
  | _ => engine_error
  end.

Definition handleVtzDistribute : option prog :=
  match distribute_match path with
  | Some seg =>
      if negb (bool_decide (meth = "POST")) then None
      else Some (gated (λ p,
        match signerPort (config deps) with
        | None => fail 503 "signer_unavailable"
        | Some _ =>
            ReadBody MAX_DISTRIBUTE_BODY_BYTES (λ r,
              match (b ← r; distribute_members b) with
              | Ok (Some members) =>
                  attempt (decodeURIComponent seg) catch_distribute (λ zoneId,
                    awaiting p (c_distribute zoneId members) catch_distribute (λ v, send 200 v catch_distribute))
              | _ => malformed
              end)
        end))
  | None => None
  end.

(** ** Users *)

Definition USERS_COMMAND_PATHS : list string :=
  ["/api/users"; "/api/users/edit"; "/api/users/status"; "/api/users/groups"; "/api/users/groups/edit";
   "/api/users/groups/members"].

(** [typeof body[key] === 'string' ? body[key].trim() : ''] *)
Definition field_text (b : value) (key : string) : result string :=
  v ← get b key; Ok (match v with VStr s => trim s | _ => "" end).

Definition optional_text (b : value) (key : string) : result (option string) :=
  v ← get b key; Ok (trim <$> nonblank v).

Definition parsePrincipalDraft (b : value) : result (option PrincipalDraft) :=
  u ← field_text b "username"; k ← get b "kind";
  match toTag ["human"; "service"] k with
  | Some k => if bool_decide (u = "") then Ok None
              else e ← optional_text b "email"; o ← optional_text b "org"; Ok (Some (mkPrincipalDraft u k e o))
  | None => Ok None
  end.

(** [xs.filter(x => typeof x === 'string')] of an array *)
Definition strings_of (v : value) : option (list string) :=
  match v with VArr items => Some (omap (λ x, match x with VStr s => Some s | _ => None end) items) | _ => None end.

(** The command of a body; [None] is malformed. *)
Definition users_command (name description : string) (b : value) : result (option call) :=
  if bool_decide (path = "/api/users") then d ← parsePrincipalDraft b; Ok (option_map c_createPrincipal d)
  else if bool_decide (path = "/api/users/edit") then d ← parsePrincipalDraft b; Ok (option_map c_editPrincipal d)
  else if bool_decide (path = "/api/users/status") then
    u ← field_text b "username"; s ← get b "status";
    Ok (if bool_decide (u = "") then None
        else option_map (c_setPrincipalStatus u) (toTag ["active"; "suspended"; "revoked"] s))
  else if bool_decide (path = "/api/users/groups/members") then
    ms ← get b "members";
    Ok (if bool_decide (name = "") then None else option_map (c_setGroupMembers name) (strings_of ms))
  else if bool_decide (name = "") then Ok None
  else Ok (Some (if bool_decide (path = "/api/users/groups") then c_createGroup name description
                 else c_editGroup name description)).

(** A command whose parse and call share one [try]. *)
Definition run_command (p : OperatorPrincipal) (catch : exn → prog) (parsed : result (option call)) (after : prog → prog) : prog :=
  attempt parsed catch (λ c,
    match c with
    | None => malformed
    | Some c => awaiting p c catch (λ v, after (send 200 v catch))
    end).

Definition handleUsersCommand : option prog :=
  if negb (bool_decide (path ∈ USERS_COMMAND_PATHS)) || negb (bool_decide (meth = "POST")) then None
  else Some (gated (λ p,
    with_body MAX_COMMAND_BODY_BYTES (λ b,
      attempt (field_text b "name") Raise (λ name,
      attempt (field_text b "description") Raise (λ description,
        run_command p (catch_command never) (users_command name description b) (λ k, k)))))).

Definition is_users_unavailable (e : exn) : bool := match e with UsersUnavailableError _ => true | _ => false end.

(** A read with no cache. *)
Definition plain_read (p : OperatorPrincipal) (c : call) (catch : exn → prog) : prog :=
  awaiting p c catch (λ v, send 200 v catch).

Definition handleUsers : option prog :=
  if bool_decide (path = "/api/users") then Some (gated (λ p, plain_read p c_usersList (catch_read is_users_unavailable)))
  else if bool_decide (path = "/api/users/groups") then
    Some (gated (λ p, plain_read p c_groupsList (catch_read is_users_unavailable)))
  else None.

(** ** Objects *)

Definition parseObjectDraft (b : value) : result (option ObjectDraft) :=
  n ← field_text b "name"; k ← get b "kind"; sk ← get b "selectorKind"; sv ← field_text b "selectorValue";
  l ← get b "lifecycle";
  match toTag OBJECT_KINDS k, toTag SELECTOR_KINDS sk, toTag OBJECT_LIFECYCLES l with
  | Some k, Some sk, Some l =>
      if bool_decide (n = "") || bool_decide (sv = "") then Ok None
      else
        ts ← get b "tags"; d ← field_text b "description";
        Ok (Some (mkObjectDraft n k sk sv d (default [] (strings_of ts)) l))
  | _, _, _ => Ok None
  end.

Definition objects_command (b : value) : result (option call) :=
  if bool_decide (path = "/api/objects/delete") then
    n ← field_text b "name"; Ok (if bool_decide (n = "") then None else Some (c_deleteObject n))
  else d ← parseObjectDraft b;
       Ok (option_map (if bool_decide (path = "/api/objects") then c_createObject else c_editObject) d).

Definition catch_objects_command (e : exn) : prog :=
  match e with
  | ObjectCommandError cls => send_out (command_status cls) (V (VObj [("error", VStr "refused"); ("class", cls)]))
  | _ => catch_command never e
  end.

Definition handleObjectsCommand : option prog :=
  if negb (bool_decide (path ∈ ["/api/objects"; "/api/objects/edit"; "/api/objects/delete"])) ||
     negb (bool_decide (meth = "POST")) then None
  else Some (gated (λ p,
    with_body MAX_COMMAND_BODY_BYTES (λ b, run_command p catch_objects_command (objects_command b) (λ k, k)))).

Definition is_objects_unavailable (e : exn) : bool := match e with ObjectsUnavailableError _ => true | _ => false end.

Definition handleObjects : option prog :=
  let catch := catch_read is_objects_unavailable in
  if bool_decide (path = "/api/objects") then Some (gated (λ p, plain_read p c_objectCatalog catch))
  else if bool_decide (path = "/api/objects/detail") then
    Some (gated (λ p,
      match param_text (params req) "name" with
      | None => bad_request
      | Some n => plain_read p (c_objectDetail n) catch
      end))
  else None.

(** ** SOC operations *)

Definition SOC_CACHE_VERSION : string := "soc-v1".
Definition socCachePrefix (tenant : string) : string := "soc:" +:+ tenant +:+ ":".

Definition is_soc_unavailable (e : exn) : bool := match e with SocUnavailableError _ => true | _ => false end.

(** [typeof r === 'number' && Number.isInteger(r) && r >= 0] *)
Definition shown_revision (v : value) : bool :=
  match v with VNum x => f64_isInteger x && f64_le 0 x | _ => false end.

(** The answer to an act or a verdict: the engine's refusal is in the result. *)
Definition act_reply (catch : exn → prog) (v : view) : prog :=
  match v with
  | V outcome =>
      attempt (get outcome "kind") catch (λ kind,
        if is_str "refused" kind then
          attempt (get outcome "explanation") catch (λ e,
            if is_str "" e then not_found
            else send 409 (V (VObj [("error", VStr "refused"); ("explanation", e)])) catch)
        else send 200 v catch)
  | _ => send 200 v catch
  end.

Definition soc_command (p : OperatorPrincipal) (incident : string) (b : value) : prog :=
  let catch := catch_command is_soc_unavailable in
  let drop k := CacheDrop (socCachePrefix (p_tenant p)) k in
  if bool_decide (path = "/api/soc/generate") then
    awaiting p (c_cognitionRun incident) catch (λ v, drop (send 200 v catch))
  else if bool_decide (path = "/api/soc/act") || bool_decide (path = "/api/soc/disposition") then
    attempt (if bool_decide (path = "/api/soc/act")
             then d ← toCaseActDraft b; Ok (option_map (c_caseAct incident) d)
             else d ← toDispositionDraft b; Ok (option_map (c_disposition incident) d)) catch (λ c,
      match c with
      | None => malformed
      | Some c => awaiting p c catch (λ v, drop (act_reply catch v))
      end)
  else if bool_decide (path = "/api/soc/plan/approve") then
    attempt (get b "atRevision") catch (λ r,
      if shown_revision r then awaiting p (c_approvePlan incident r) catch (λ v, drop (send 200 v catch)) else malformed)
  else
    run_command p catch (s ← get b "steps"; s ← toResponseStepDrafts s; Ok (option_map (c_modifyPlan incident) s)) drop.

Definition handleSocCommand : option prog :=
  if negb (bool_decide (path ∈ ["/api/soc/plan/approve"; "/api/soc/plan/modify"; "/api/soc/generate"; "/api/soc/act";
                                "/api/soc/disposition"])) || negb (bool_decide (meth = "POST")) then None
  else Some (gated (λ p,
    with_body MAX_COMMAND_BODY_BYTES (λ b,
      attempt (field_text b "incident") Raise (λ incident,
        if bool_decide (incident = "") then malformed else soc_command p incident b)))).

(** A read whose [null] is a 404 that is not kept. *)
Definition cached_or_404 (key version : string) (p : OperatorPrincipal) (c : call) (catch : exn → prog) : prog :=
  CacheGet key version (λ hit,
    match hit with
    | Some v => send_out 200 v
    | None => awaiting p c catch (λ v,
                if null_view v then not_found else CacheSet key version v (send 200 v catch))
    end).

(** The per-incident reads: the cache kind, the call, and whether [null] is a refusal. *)
Definition SOC_INCIDENT_READS : list (string * (string * (string → call) * bool)) :=
  [("/api/soc/incident", ("detail", c_incidentDetail, true)); ("/api/soc/narrative", ("narrative", c_narrative, false));
   ("/api/soc/telemetry", ("telemetry", c_incidentTelemetry, true)); ("/api/soc/audit", ("audit", c_auditTrail, true));
   ("/api/soc/notes", ("notes", c_incidentNotes, true)); ("/api/soc/impact", ("impact", c_businessImpact, true));
   ("/api/soc/report", ("report", c_incidentReport, true))].

(** [weeksParam === null ? 4 : Number.parseInt(weeksParam, 10)] *)
Definition weeks_param : Z :=
  match param (params req) "weeks" with None => f64_ofZ 4 | Some s => parseInt10 s end.

Definition handleSoc : option prog :=
  let catch := catch_read is_soc_unavailable in
  let key p suffix := socCachePrefix (p_tenant p) +:+ suffix in
  match map_get SOC_INCIDENT_READS path with
  | Some (kind, c, nullable) =>
      Some (gated (λ p,
        match param_text (params req) "id" with
        | None => bad_request
        | Some incident =>
            (if (nullable : bool) then cached_or_404 else cached_read)
              (key p (kind +:+ ":" +:+ incident)) SOC_CACHE_VERSION p (c incident) catch
        end))
  | None =>
      if bool_decide (path = "/api/soc/kpis") then
        Some (gated (λ p, cached_read (key p "kpis") SOC_CACHE_VERSION p c_socKpis catch))
      else if bool_decide (path = "/api/soc/incidents") then
        Some (gated (λ p, cached_read (key p "incidents") SOC_CACHE_VERSION p c_incidentQueue catch))
      else if bool_decide (path = "/api/soc/weekly") then
        Some (gated (λ p,
          let weeks := weeks_param in
          if negb (f64_isFinite weeks) || f64_lt weeks (f64_ofZ 1) || f64_lt (f64_ofZ 12) weeks then bad_request
          else cached_or_404 (key p ("weekly:" +:+ js_String (VNum weeks))) SOC_CACHE_VERSION p (c_weekly weeks) catch))
      else None
  end.

(** ** Policies *)

Definition POLICIES_CACHE_VERSION : string := "policies-v1".
Definition policiesCachePrefix (tenant : string) : string := "policies:" +:+ tenant +:+ ":".
Definition is_policies_unavailable (e : exn) : bool := match e with PoliciesUnavailableError _ => true | _ => false end.

Definition policies_detail_key (tenant vtz id : string) : string :=
  policiesCachePrefix tenant +:+ "detail:" +:+ vtz +:+ ":" +:+ id.

Definition handlePolicies : option prog :=
  let catch := catch_read is_policies_unavailable in
  if bool_decide (path = "/api/policies") then
    Some (gated (λ p,
      cached_read (policiesCachePrefix (p_tenant p) +:+ "byZone") POLICIES_CACHE_VERSION p c_policyZones catch))
  else if bool_decide (path = "/api/policies/detail") then
    Some (gated (λ p,
      match param_text (params req) "vtz", param_text (params req) "id" with
      | Some vtz, Some id =>
          cached_read (policies_detail_key (p_tenant p) vtz id) POLICIES_CACHE_VERSION p (c_policyDetail vtz id) catch
      | _, _ => bad_request
      end))
  else None.

Definition policies_command (b : value) : result (option call) :=
  if bool_decide (path = "/api/policies/delete") then
    z ← field_text b "vtz"; i ← field_text b "id";
    Ok (if bool_decide (z = "") || bool_decide (i = "") then None else Some (c_deletePolicy z i))
  else if bool_decide (path = "/api/policies/publish") then
    z ← field_text b "vtz"; i ← field_text b "id"; v ← field_text b "version";
    Ok (if bool_decide (z = "") || bool_decide (i = "") || bool_decide (v = "") then None else Some (c_publishPolicy z i v))
  else
    d ← toPolicyDraftInput b;
    match d with
    | None => Ok None
    | Some d =>
        if bool_decide (path = "/api/policies") then Ok (Some (c_createPolicy d))
        else i ← field_text b "id"; Ok (if bool_decide (i = "") then None else Some (c_editPolicy i d))
    end.

Definition handlePoliciesCommand : option prog :=
  if negb (bool_decide (path ∈ ["/api/policies"; "/api/policies/edit"; "/api/policies/publish"; "/api/policies/delete"])) ||
     negb (bool_decide (meth = "POST")) then None
  else Some (gated (λ p,
    with_body MAX_COMMAND_BODY_BYTES (λ b,
      run_command p (catch_command is_policies_unavailable) (policies_command b)
        (CacheDrop (policiesCachePrefix (p_tenant p)))))).

(** ** Identity providers *)

Definition IDAM_SECRET_REF : string := "/etc/cdb/secrets/auth0-management.secret".

Definition is_integer (v : value) : bool := match v with VNum x => f64_isInteger x | _ => false end.

Definition configure_draft (b : value) : result (option IdamConnectorDraft) :=
  pr ← field_text b "provider"; e ← get b "enabled"; po ← get b "pollIntervalSecs"; fu ← get b "fullSyncCadenceHours";
  Ok (match e with
      | VBool e => if bool_decide (pr = "") || negb (is_integer po) || negb (is_integer fu) then None
                   else Some (mkIdamDraft pr e po fu)
      | _ => None
      end).

(** A command whose body is checked before the [try]. *)
Definition idam_post (parse : value → result (option call)) : prog :=
  gated (λ p,
    with_body MAX_COMMAND_BODY_BYTES (λ b,
      attempt (parse b) Raise (λ c,
        match c with
        | None => malformed
        | Some c => plain_read p c (catch_command never)
        end))).

Definition handleIdamConfigure : option prog :=
  if negb (bool_decide (path = "/api/idam/configure")) || negb (bool_decide (meth = "POST")) then None
  else Some (idam_post (λ b, d ← configure_draft b; Ok (option_map c_idamConfigure d))).

Definition connect_draft (b : value) : result (option IdamConnectDraft) :=
  pr ← field_text b "provider"; d ← field_text b "domain"; c ← field_text b "clientId"; a ← field_text b "audience";
  Ok (if bool_decide (pr = "") || bool_decide (d = "") || bool_decide (c = "") then None else Some (mkConnectDraft pr d c a)).

Definition handleIdamConnect : option prog :=
  if negb (bool_decide (path = "/api/idam/connect")) || negb (bool_decide (meth = "POST")) then None
  else Some (idam_post (λ b, d ← connect_draft b; Ok (option_map (λ d, c_idamConnect d IDAM_SECRET_REF) d))).

Definition handleIdamCommand : option prog :=
  if negb (bool_decide (path = "/api/idam/sync")) || negb (bool_decide (meth = "POST")) then None
  else Some (idam_post (λ b, pr ← field_text b "provider"; Ok (if bool_decide (pr = "") then None else Some (c_idamSync pr)))).

Definition handleIdam : option prog :=
  if negb (bool_decide (path = "/api/idam/connectors")) then None
  else Some (gated (λ p, plain_read p c_idamConnectors (catch_read never))).

(** The secret goes to the sidecar; it is in no response. *)
Definition handleIdamSecret : option prog :=
  if negb (bool_decide (path = "/api/idam/secret")) || negb (bool_decide (meth = "POST")) then None
  else Some (with_session (λ _,
    match secretPort (config deps) with
    | None => fail 503 "secret_plane_unprovisioned"
    | Some _ =>
        with_body MAX_COMMAND_BODY_BYTES (λ b,
          attempt (field_text b "provider") Raise (λ provider,
          attempt (get b "secret") Raise (λ s,
            let secret := match s with VStr s => s | _ => "" end in
            if bool_decide (provider = "") || bool_decide (secret = "") then malformed
            else AwaitLocal (l_secret provider secret) (λ r,
              match r with
              | Ok _ => Reply (mkResponse 200 (V (VObj [("ok", VBool true)])))
              | Throw (SecretRefusedError _) => fail 409 "refused"
              | Throw _ => fail 503 "secret_plane_unavailable"
              end))))
    end)).

(** ** Settings *)

Definition is_settings_unavailable (e : exn) : bool := match e with SettingsUnavailableError _ => true | _ => false end.

(** [sendJson(res, 403, { error: 'refused', class: c })] *)
Definition refused_as (cls : string) : prog :=
  Reply (mkResponse 403 (V (VObj [("error", VStr "refused"); ("class", VStr cls)]))).

(** A settings read: [null] is the engine's refusal of the tier. *)
Definition tiered_read (p : OperatorPrincipal) (c : call) (catch : exn → prog) : prog :=
  awaiting p c catch (λ v, if null_view v then refused_as "Tier" else send 200 v catch).

(** [/^[a-z_]{1,64}$/] *)
Definition surface_name (s : string) : bool :=
  all_chars lower_or_underscore s && (1 <=? String.length s)%nat && (String.length s <=? 64)%nat.

Definition commitGovernedSettings (p : OperatorPrincipal) : prog :=
  with_body MAX_COMMAND_BODY_BYTES (λ b,
    attempt (toSettingsCommitRequest b) Raise (λ request,
      match request with
      | None => malformed
      | Some request => plain_read p (c_settingsCommit request) (catch_read never)
      end)).

Definition handleGovernedSettings : option prog :=
  if negb (bool_decide (path = "/api/settings")) ||
     (negb (bool_decide (meth = "GET")) && negb (bool_decide (meth = "POST"))) then None
  else Some (gated (λ p,
    if bool_decide (meth = "POST") then commitGovernedSettings p
    else
      match param_text (params req) "surface" with
      | Some s => if surface_name s then tiered_read p (c_settings (Some s)) (catch_read is_settings_unavailable) else bad_request
      | None => tiered_read p (c_settings None) (catch_read is_settings_unavailable)
      end)).

(** The session gate, the role gate, the engine gate. *)
Definition with_global_admin (k : OperatorSession → prog) : prog :=
  with_session (λ s, if bool_decide (role s = global_admin) then k s else refused_as "Role").

Definition handleModelAccess : option prog :=
  let isRead := bool_decide (path = "/api/model-access") && bool_decide (meth = "GET") in
  let isWrite := bool_decide (path = "/api/model-access/grant") && bool_decide (meth = "PUT") in
  if negb isRead && negb isWrite then None
  else Some (with_global_admin (λ s, with_engine (
    let p := principalFromSession s (activeTenantOverride req) in
    if isRead then
      let days := match param (params req) "days" with None => f64_ofZ 7 | Some raw => StringToNumber raw end in
      if negb (f64_isInteger days) || f64_lt days (f64_ofZ 1) || f64_lt (f64_ofZ MAX_SPEND_DAYS) days then bad_request
      else tiered_read p (c_modelAccess days) (catch_read never)
    else
      with_request toAgentGrantChange bad_request (λ change,
        awaiting p (c_agentGrant change) (catch_read never) (λ v,
          if null_view v then refused_as "Tier"
          else send (match v with V_grant (conflicting _) => 409 | _ => 200 end) v (catch_read never)))))).

Definition handleConsoleRbac : option prog :=
  if negb (bool_decide (path = "/api/settings/console-rbac")) || negb (bool_decide (meth = "GET")) then None
  else Some (with_global_admin (λ _, send_out 200 (V_rbac (rbacConfigView (rbac (config deps)))))).

Definition handleSettingsReports : option prog :=
  if negb (bool_decide (path = "/api/settings/reports")) || negb (bool_decide (meth = "GET")) then None
  else Some (gated (λ p,
    match toSettingsReportNames (param (params req) "names") with
    | None => bad_request
    | Some names => tiered_read p (c_settingsReports names) (catch_read never)
    end)).

Definition status_view (ps : props) : view := V (VObj ps).

Definition handleSecuritySession : option prog :=
  if negb (bool_decide (path = "/api/settings/security-session")) || negb (bool_decide (meth = "GET")) then None
  else Some (with_session (λ _,
    match sessionPort (config deps), remotePort req with
    | None, _ => Reply (mkResponse 200 (status_view [("status", VStr "unconfigured")]))
    | Some _, None => Reply (mkResponse 200 (status_view [("status", VStr "not-tunnelled")]))
    | Some _, Some port =>
        AwaitLocal (l_sessionGroup port) (λ outcome,
          match outcome with
          | Ok (V (VStr g)) => Reply (mkResponse 200 (status_view [("status", VStr "negotiated"); ("group", VStr g)]))
          | Ok _ => Reply (mkResponse 200 (status_view [("status", VStr "not-tunnelled")]))
          | Throw _ => fail 503 "unavailable"
          end)
    end)).

(** [/^\/api\/settings\/approvals\/([0-9]{1,15})\/approve$/] *)
Definition approve_match (p : string) : option string :=
  rest ← JsString.strip_prefix "/api/settings/approvals/" p; id ← strip_suffix "/approve" rest;
  if short_digits id then Some id else None.

(** The proposals under the name the page reads. *)
Definition proposals_view (v : view) : view := match v with V pending => V (VObj [("proposals", pending)]) | _ => v end.

(** A body that cannot be read is [undefined]. *)
Definition or_undefined (outcome : result value) : value := match outcome with Ok b => b | Throw _ => VUndefined end.

Definition handleSettingsGovernance : option prog :=
  let catch := catch_read never in
  let post := bool_decide (meth = "POST") in
  let get_ := bool_decide (meth = "GET") in
  if bool_decide (path = "/api/settings/propose") && post then
    Some (gated (λ p,
      ReadBody MAX_COMMAND_BODY_BYTES (λ outcome,
        attempt (toSettingsCommitRequest (or_undefined outcome)) catch (λ request,
          match request with
          | None => malformed
          | Some request => plain_read p (c_settingsPropose request) catch
          end))))
  else if bool_decide (path = "/api/settings/approvals") && get_ then
    Some (gated (λ p,
      awaiting p c_settingsApprovals catch (λ v,
        if null_view v then refused_as "Tier" else send 200 (proposals_view v) catch)))
  else match approve_match path, post with
  | Some id, true =>
      Some (gated (λ p,
        match toPositiveId (VStr id) with
        | None => bad_request
        | Some proposal => plain_read p (c_settingsApprove proposal) catch
        end))
  | _, _ =>
      if bool_decide (path = "/api/settings/history") && get_ then
        Some (gated (λ p,
          match toHistoryLimit (param (params req) "limit") with
          | None => bad_request
          | Some limit => tiered_read p (c_settingsHistory limit) catch
          end))
      else if bool_decide (path = "/api/settings/rollback") && post then
        Some (gated (λ p,
          ReadBody MAX_COMMAND_BODY_BYTES (λ outcome,
            let b := or_undefined outcome in
            attempt (if not_object b then Ok None else to ← get b "to"; Ok (toPositiveId to)) catch (λ to,
              match to with
              | None => malformed
              | Some to => plain_read p (c_settingsRollback to) catch
              end))))
      else None
  end.

Definition handleSocSettings : option prog :=
  let catch := catch_read is_soc_unavailable in
  if negb (bool_decide (path = "/api/settings/soc")) ||
     (negb (bool_decide (meth = "GET")) && negb (bool_decide (meth = "POST"))) then None
  else Some (gated (λ p,
    if bool_decide (meth = "GET") then tiered_read p c_socSettings catch
    else
      with_body MAX_COMMAND_BODY_BYTES (λ b,
        attempt (toSocSettingsPatch b) catch (λ patch,
          match patch with
          | None | Some (mkSocPatch None None) => malformed
          | Some patch => plain_read p (c_socSettingsCommit patch) catch
          end)))).

(** ** Static files ([static.ts]) *)

(** The segments of an absolute path [resolve] keeps. *)
Fixpoint resolve_segments (acc : list string) (segs : list string) : list string :=
  match segs with
  | [] => rev acc
  | s :: segs =>
      if bool_decide (s = "") || bool_decide (s = ".") then resolve_segments acc segs
      else if bool_decide (s = "..") then resolve_segments (tail acc) segs
      else resolve_segments (s :: acc) segs
  end.

(** [resolve(root, rel)] for an absolute [root] given by its segments *)
Definition resolve_under (root : list string) (rel : string) : list string :=
  resolve_segments (rev root) (split_on slash rel).

Definition path_of (segs : list string) : string := "/" +:+ JsString.join "/" segs.

(** [candidate === root || candidate.startsWith(root + sep)] *)
Definition safePath (root : list string) (urlPath : string) : option (list string) :=
  let candidate := resolve_under root ("." +:+ urlPath) in
  if bool_decide (path_of candidate = path_of root) || startsWith (path_of candidate) (path_of root +:+ "/")
  then Some candidate else None.

Definition dot : Ascii.ascii := ascii_of_byte 46.

(** [extname(p)]: from the last dot of the last segment, unless it starts the segment *)
Definition extname (p : string) : string :=
  let base := default "" (list.last (filter (λ s, s ≠ "") (split_on slash p))) in
  match cut_at dot (str_rev_app base "") with
  | Some (ext_rev, front_rev) => if bool_decide (front_rev = "") || bool_decide (base = "..") then ""
                                 else String dot (str_rev_app ext_rev "")
  | None => ""
  end.

Definition CONTENT_TYPES : list (string * string) :=
  [(".html", "text/html; charset=utf-8"); (".js", "text/javascript; charset=utf-8"); (".mjs", "text/javascript; charset=utf-8");
   (".css", "text/css; charset=utf-8"); (".json", "application/json; charset=utf-8"); (".map", "application/json; charset=utf-8");
   (".svg", "image/svg+xml"); (".png", "image/png"); (".jpg", "image/jpeg"); (".gif", "image/gif"); (".ico", "image/x-icon");
   (".webp", "image/webp"); (".woff2", "font/woff2"); (".woff", "font/woff"); (".ttf", "font/ttf")].

Definition contentType (p : string) : string := default "application/octet-stream" (map_get CONTENT_TYPES (toLowerCase (extname p))).

Definition isMissing (e : exn) : bool :=
  match e with SystemError code => bool_decide (code ∈ ["ENOENT"; "EISDIR"; "ENOTDIR"]) | _ => false end.

(** The file at [p], or [missing]. *)
Definition tryServeFile (p : string) (missing : prog) : prog :=
  AwaitLocal (l_readFile p) (λ outcome,
    match outcome with
    | Ok (V (VBytes bs)) => Reply (mkResponse 200 (V_file (contentType p) bs))
    | Ok _ => missing
    | Throw e => if isMissing e then missing else Raise e
    end).

Definition serveSpa (root : list string) (urlPath : string) (otherwise : prog) : prog :=
  match safePath root urlPath with
  | None => fail 403 "forbidden"
  | Some target =>
      tryServeFile (path_of target)
        (if bool_decide (extname urlPath = "")
         then tryServeFile (path_of (resolve_under root "index.html")) otherwise else otherwise)
  end.

(** ** Routing *)

(** The handlers matched before the read-only gate, and after it, in order. *)
Definition COMMAND_HANDLERS : list (option prog) :=
  [handleEntityIsolate; handleLogExport; handleVtzDistribute; handleVtzCommand; handleUsersCommand; handleObjectsCommand;
   handlePoliciesCommand; handleIdamCommand; handleIdamConnect; handleIdamSecret; handleGovernedSettings;
   handleConsoleRbac; handleSettingsReports; handleModelAccess; handleSecuritySession; handleSettingsGovernance;
   handleSocSettings; handleIdamConfigure; handleSocCommand].

Definition READ_HANDLERS : list (option prog) :=
  [handleEntityDetail; handleLogs; handleOverview; handleUsers; handleObjects; handleSoc; handlePolicies; handleIdam; handleVtz].

Fixpoint first_claim (handlers : list (option prog)) : option prog :=
  match handlers with
  | [] => None
  | Some p :: _ => Some p
  | None :: handlers => first_claim handlers
  end.

(** [resolve(dir)] *)
Definition spa_root (dir : string) : list string := resolve_under (if startsWith dir "/" then [] else cwd deps) dir.

(** [openApiDocument()] *)
Context (openApiDocument : value).

Definition operational : prog :=
  if bool_decide (path = "/healthz") then Reply (mkResponse 200 (V (VObj [("status", VStr "ok")])))
  else if bool_decide (path = "/readyz") then
    AwaitLocal l_ping (λ outcome,
      match outcome with
      | Ok _ => Reply (mkResponse 200 (V (VObj [("ready", VBool true)])))
      | Throw _ => Reply (mkResponse 503 (V (VObj [("ready", VBool false)])))
      end)
  else if bool_decide (path = "/openapi.json") then send_out 200 (V openApiDocument)
  else match first_claim READ_HANDLERS with
       | Some p => p
       | None => match spaDir (config deps) with
                 | Some dir => serveSpa (spa_root dir) path not_found
                 | None => not_found
                 end
       end.

Definition dispatch : prog :=
  match first_claim COMMAND_HANDLERS with
  | Some p => p
  | None => if bool_decide (meth = "GET") then operational else method_not_allowed
  end.

Definition route : prog :=
  if startsWith path "/api/" then
    match apiRouteVerdict meth path with
    | undeclared => not_found
    | Routes.method => method_not_allowed
    | declared => dispatch
    end
  else dispatch.
End server.
