(* ===== verification/ConsoleProofs.v ===== *)
(** * The console and the server together

    What the server makes of the console's requests: each request is declared, claimed by the
    handler of its surface, and asks the engine for what the console's function says.  The
    handlers claim paths of their own surface only, so a request is followed through the
    route chain by its area. *)
From S2P Require Import Prelude Bytes Float64 Cbor JsValue JsString Num64 LineExchange Cache Rbac Sessions Cookie Oidc.
From S2P Require Import AuthRouter OperatorEngine Vtz VtzProofs Policies Forge Distribute Routes JsOps Overview Users Objects EntityDetail Soc Settings.
From S2P Require Import Decimal ModelAccess Http Uri Console Server.
From stdpp Require Import list.
Open Scope Z_scope.

(** ** Areas *)

Lemma startsWith_iff p a : startsWith p a = true ↔ ∃ r, p = a +:+ r.
Proof.
  unfold startsWith. destruct (JsString.strip_prefix a p) as [r|] eqn:E.
  - apply strip_prefix_Some in E as ->. naive_solver.
  - split; [done|]. intros [r Hr]. by rewrite (proj2 (strip_prefix_Some _ _ _) Hr) in E.
Qed.

Lemma strip_both a b p r s : p = a +:+ r → p = b +:+ s → JsString.strip_prefix a b ≠ None ∨ JsString.strip_prefix b a ≠ None.
Proof.
  revert b p. induction a as [|c a IH]; intros b p; [by left|]. destruct b as [|d b]; [by right|].
  rewrite !str_app_cons. intros -> [= -> E]. cbn. rewrite Ascii.eqb_refl. by apply (IH b (a +:+ r)).
Qed.

(** A path is in one area only. *)
Lemma apart a b p : startsWith a b = false → startsWith b a = false → startsWith p a = true → startsWith p b = false.
Proof.
  intros H1 H2 [r Hr]%startsWith_iff. destruct (startsWith p b) eqn:E; [|done]. apply startsWith_iff in E as [s Hs].
  unfold startsWith in H1, H2. destruct (strip_both _ _ _ _ _ Hr Hs); repeat case_match; done.
Qed.

Lemma not_at p pre c : startsWith p pre = false → startsWith c pre = true → bool_decide (p = c) = false.
Proof. intros H1 H2. apply bool_decide_eq_false_2. by intros ->; rewrite H1 in H2. Qed.

Lemma at_not p pre c : startsWith p pre = true → startsWith c pre = false → bool_decide (p = c) = false.
Proof. intros H1 H2. apply bool_decide_eq_false_2. by intros ->; rewrite H1 in H2. Qed.

Lemma not_among p pre l : startsWith p pre = false → forallb (λ c, startsWith c pre) l = true → bool_decide (p ∈ l) = false.
Proof.
  intros H1 H2. apply bool_decide_eq_false_2. intros Hin%list_elem_of_In. rewrite forallb_forall in H2.
  by rewrite (H2 p Hin) in H1.
Qed.

Lemma not_under p pre x : startsWith p pre = false → startsWith x pre = true → JsString.strip_prefix x p = None.
Proof.
  intros H1 [r ->]%startsWith_iff. destruct (JsString.strip_prefix _ p) as [s|] eqn:E; [|done].
  apply strip_prefix_Some in E as ->.
  assert (startsWith ((pre +:+ r) +:+ s) pre = true) as H2; [|by rewrite H2 in H1].
  apply startsWith_iff. exists (r +:+ s). by rewrite str_app_assoc.
Qed.

Section areas.
Context {NS : NumberToString} {TN : ToNumberOther}.
Context (JSON_stringify : view → result string) (deps : ServerDeps) (req : http_request).
Notation path := (request_path req).

(** Rewrites a handler's tests to false for a path outside of [pre]. *)
Ltac outside pre :=
  intros H; cbv beta zeta; repeat first
    [ rewrite (not_at _ pre _ H) by reflexivity | rewrite (not_among _ pre _ H) by reflexivity
    | rewrite (not_under _ pre _ H) by reflexivity ];
  try done.

Lemma isolate_outside : startsWith path "/api/entity/" = false → handleEntityIsolate JSON_stringify deps req = None.
Proof using. unfold handleEntityIsolate, isolate_match, entity_match. outside "/api/entity/". Qed.
Lemma detail_outside : startsWith path "/api/entity/" = false → handleEntityDetail JSON_stringify deps req = None.
Proof using. unfold handleEntityDetail, entity_match. outside "/api/entity/". Qed.
Lemma export_outside : startsWith path "/api/logs" = false → handleLogExport JSON_stringify deps req = None.
Proof using. unfold handleLogExport. outside "/api/logs". Qed.
Lemma logs_outside : startsWith path "/api/logs" = false → handleLogs JSON_stringify deps req = None.
Proof using. unfold handleLogs, explain_match. outside "/api/logs". Qed.
Lemma distribute_outside : startsWith path "/api/vtz" = false → handleVtzDistribute JSON_stringify deps req = None.
Proof using. unfold handleVtzDistribute, distribute_match, vtz_segment. outside "/api/vtz". Qed.
Lemma vtz_command_outside : startsWith path "/api/vtz" = false → handleVtzCommand JSON_stringify deps req = None.
Proof using. unfold handleVtzCommand. by intros ->. Qed.
Lemma vtz_outside : startsWith path "/api/vtz" = false → handleVtz JSON_stringify deps req = None.
Proof using. unfold handleVtz. outside "/api/vtz". Qed.
Lemma users_command_outside : startsWith path "/api/users" = false → handleUsersCommand JSON_stringify deps req = None.
Proof using. unfold handleUsersCommand. outside "/api/users". Qed.
Lemma users_outside : startsWith path "/api/users" = false → handleUsers JSON_stringify deps req = None.
Proof using. unfold handleUsers. outside "/api/users". Qed.
Lemma objects_command_outside : startsWith path "/api/objects" = false → handleObjectsCommand JSON_stringify deps req = None.
Proof using. unfold handleObjectsCommand. outside "/api/objects". Qed.
Lemma objects_outside : startsWith path "/api/objects" = false → handleObjects JSON_stringify deps req = None.
Proof using. unfold handleObjects. outside "/api/objects". Qed.
Lemma policies_command_outside : startsWith path "/api/policies" = false → handlePoliciesCommand JSON_stringify deps req = None.
Proof using. unfold handlePoliciesCommand. outside "/api/policies". Qed.
Lemma policies_outside : startsWith path "/api/policies" = false → handlePolicies JSON_stringify deps req = None.
Proof using. unfold handlePolicies. outside "/api/policies". Qed.
Lemma idam_command_outside : startsWith path "/api/idam" = false → handleIdamCommand JSON_stringify deps req = None.
Proof using. unfold handleIdamCommand. outside "/api/idam". Qed.
Lemma idam_connect_outside : startsWith path "/api/idam" = false → handleIdamConnect JSON_stringify deps req = None.
Proof using. unfold handleIdamConnect. outside "/api/idam". Qed.
Lemma idam_secret_outside : startsWith path "/api/idam" = false → handleIdamSecret deps req = None.
Proof using. unfold handleIdamSecret. outside "/api/idam". Qed.
Lemma idam_configure_outside : startsWith path "/api/idam" = false → handleIdamConfigure JSON_stringify deps req = None.
Proof using. unfold handleIdamConfigure. outside "/api/idam". Qed.
Lemma idam_outside : startsWith path "/api/idam" = false → handleIdam JSON_stringify deps req = None.
Proof using. unfold handleIdam. outside "/api/idam". Qed.
Lemma governed_outside : startsWith path "/api/settings" = false → handleGovernedSettings JSON_stringify deps req = None.
Proof using. unfold handleGovernedSettings. outside "/api/settings". Qed.
Lemma rbac_outside : startsWith path "/api/settings" = false → handleConsoleRbac JSON_stringify deps req = None.
Proof using. unfold handleConsoleRbac. outside "/api/settings". Qed.
Lemma reports_outside : startsWith path "/api/settings" = false → handleSettingsReports JSON_stringify deps req = None.
Proof using. unfold handleSettingsReports. outside "/api/settings". Qed.
Lemma security_outside : startsWith path "/api/settings" = false → handleSecuritySession deps req = None.
Proof using. unfold handleSecuritySession. outside "/api/settings". Qed.
Lemma governance_outside : startsWith path "/api/settings" = false → handleSettingsGovernance JSON_stringify deps req = None.
Proof using. unfold handleSettingsGovernance, approve_match. outside "/api/settings". Qed.
Lemma soc_settings_outside : startsWith path "/api/settings" = false → handleSocSettings JSON_stringify deps req = None.
Proof using. unfold handleSocSettings. outside "/api/settings". Qed.
Lemma access_outside : startsWith path "/api/model-access" = false → handleModelAccess JSON_stringify deps req = None.
Proof using. unfold handleModelAccess. outside "/api/model-access". Qed.
Lemma soc_command_outside : startsWith path "/api/soc" = false → handleSocCommand JSON_stringify deps req = None.
Proof using. unfold handleSocCommand. outside "/api/soc". Qed.
Lemma soc_outside : startsWith path "/api/soc" = false → handleSoc JSON_stringify deps req = None.
Proof using. unfold handleSoc, SOC_INCIDENT_READS, map_get. outside "/api/soc". Qed.
Lemma overview_outside : startsWith path "/api/overview" = false → handleOverview JSON_stringify deps req = None.
Proof using. unfold handleOverview. outside "/api/overview". Qed.
End areas.

(** ** Queries *)

Lemma with_param_read url key text :
  no_char question url = true → no_char hash url = true → encodeURIComponent key = key → utf8_text key = true →
  utf8_text text = true → searchParams (with_param url key text) = [(key, text)].
Proof.
  intros Hq Hh Hk Hk' Ht. rewrite <- (searchParams_written uri_char url [(key, text)]); try done; [|apply uri_encodes|apply uri_delimited|by repeat constructor].
  unfold with_param. cbn. unfold encodeURIComponent in *. by rewrite Hk.
Qed.

Lemma params_read url ps :
  ps ≠ [] → no_char question url = true → no_char hash url = true →
  Forall (λ p, utf8_text p.1 = true ∧ utf8_text p.2 = true) ps → searchParams (url +:+ "?" +:+ params_toString ps) = ps.
Proof. intros. apply searchParams_written; try done; [apply form_encodes|apply form_delimited]. Qed.

Lemma encode_digits d : all_chars is_digit d = true → encodeURIComponent d = d.
Proof.
  unfold encodeURIComponent. induction d as [|c d IH]; [done|]. cbn. intros [Hc Hd]%andb_prop. rewrite IH by done.
  assert (uri_char c = String c "") as ->; [|done].
  clear -Hc. revert Hc. destruct c as [[] [] [] [] [] [] [] []]; vm_compute; done.
Qed.

Lemma ascii_text s : is_ascii s = true → utf8_text s = true.
Proof.
  unfold utf8_text. induction s as [|c s IH]; [done|]. cbn [is_ascii]. intros [Hc Hs]%andb_prop.
  rewrite string_bytes_cons. cbn [utf8_valid]. by rewrite Hc, IH.
Qed.

Lemma is_ascii_app a b : is_ascii (a +:+ b) = is_ascii a && is_ascii b.
Proof. induction a as [|c a IH]; [done|]. rewrite str_app_cons. cbn. by rewrite IH, andb_assoc. Qed.

Lemma digits_ascii d : all_chars is_digit d = true → is_ascii d = true.
Proof.
  induction d as [|c d IH]; [done|]. cbn. intros [Hc Hd]%andb_prop. rewrite IH, andb_true_r by done.
  revert Hc. unfold is_digit, in_range. lia.
Qed.

(** The text of a number in a URL. *)
Lemma number_digits `{NumberToString} n : 0 ≤ n ≤ MAX_SAFE →
  number_text (f64_ofZ n) = pretty n ∧ encodeURIComponent (pretty n) = pretty n ∧ utf8_text (pretty n) = true ∧ pretty n ≠ "" ∧
  all_chars is_digit (pretty n) = true.
Proof.
  intros Hn. split; [by apply js_String_int|]. destruct (pretty_decimal n) as (c & d & -> & Hd & _); [lia|].
  split_and!; [by apply encode_digits|by apply ascii_text, digits_ascii|done|done].
Qed.

(** A text the server takes as it is. *)
Definition plain_text (s : string) : Prop := utf8_text s = true ∧ trim s = s ∧ s ≠ "".

Lemma param_text_in ps key s : map_get ps key = Some s → plain_text s → param_text ps key = Some s.
Proof.
  intros Hg (_ & Ht & Hne). unfold param_text, param. rewrite Hg. cbn. by rewrite Ht, bool_decide_eq_false_2.
Qed.

Lemma param_text_one key s : plain_text s → param_text [(key, s)] key = Some s.
Proof. apply param_text_in. cbn. by rewrite bool_decide_eq_true_2. Qed.

Lemma map_get_app {V} (a b : list (string * V)) k :
  map_get (a ++ b) k = match map_get a k with Some v => Some v | None => map_get b k end.
Proof. induction a as [|[x v] a IH]; [done|]. cbn. by destruct (bool_decide (k = x)). Qed.

Lemma opt_param_get key text k : map_get (opt_param key text) k = if bool_decide (k = key) then text else None.
Proof. by destruct text; cbn; destruct (bool_decide (k = key)). Qed.

(** A number of a query: a non-negative safe integer, as 64 bits. *)
Definition whole (x : Z) : Prop := ∃ n, 0 ≤ n ≤ MAX_SAFE ∧ x = f64_ofZ n.

Section filters.
Context {NS : NumberToString}.

Lemma whole_read x : whole x → StringToNumber (number_text x) = x ∧ number_text x ≠ "" ∧ f64_isFinite x = true ∧ utf8_text (number_text x) = true.
Proof using.
  intros (n & Hn & ->). destruct (number_digits n Hn) as (-> & _ & Hu & Hne & _). rewrite StringToNumber_pretty by done.
  destruct (f64_ofZ_parts n ltac:(lia)) as (_ & ? & _). done.
Qed.

(** A filter as the surface builds it: set texts are not empty, numbers are whole, the limit is
    within the page bound and an offset is past the first row. *)
Record filter_ok (max : Z) (f : LogQueryFilter) : Prop := {
  fo_texts : Forall (λ o, ∀ s, o = Some s → utf8_text s = true ∧ s ≠ "")
               [f_technique f; f_tactic f; f_ruleId f; f_confidence f; f_action f; f_search f];
  fo_numbers : Forall (λ o, ∀ x, o = Some x → whole x) [f_since f; f_until f];
  fo_limit : ∃ n, 0 < n ≤ max ∧ f_limit f = f64_ofZ n;
  fo_offset : ∀ x, f_offset f = Some x → ∃ n, 0 < n ≤ MAX_SAFE ∧ x = f64_ofZ n }.

Definition text_of (v : option string) : option string := match v with Some "" | None => None | Some s => Some s end.
Definition number_of (v : option string) : option Z :=
  s ← text_of v; let x := StringToNumber s in if f64_isFinite x then Some x else None.

Lemma text_of_set o : (∀ s, o = Some s → utf8_text s = true ∧ s ≠ "") → text_of o = o.
Proof using. destruct o as [[|c s]|]; [|done|done]. intros H. by destruct (H "" eq_refl). Qed.

Lemma number_of_set o : (∀ x, o = Some x → whole x) → number_of (number_text <$> o) = o.
Proof using.
  destruct o as [x|]; [|done]. intros H. destruct (whole_read x (H x eq_refl)) as (Hr & Hne & Hf & _).
  unfold number_of. change (number_text <$> Some x) with (Some (number_text x)).
  destruct (number_text x) as [|c s]; [done|]. cbn [text_of mbind option_bind]. by rewrite Hr, Hf.
Qed.

Lemma number_of_one n : 0 ≤ n ≤ MAX_SAFE → number_of (Some (number_text (f64_ofZ n))) = Some (f64_ofZ n).
Proof using. intros Hn. apply (number_of_set (Some (f64_ofZ n))). intros x [= <-]. by exists n. Qed.

Lemma param_str_of req key : param_str req key = text_of (map_get (params req) key).
Proof using. done. Qed.
Lemma param_num_of req key : param_num req key = number_of (map_get (params req) key).
Proof using. done. Qed.

Lemma limit_read n max default : 0 < n ≤ max → max ≤ MAX_SAFE → bounded_limit (Some (f64_ofZ n)) max default = f64_ofZ n.
Proof using. intros Hn Hm. unfold bounded_limit. rewrite f64_lt_pos, Math_min_ofZ by lia. done. Qed.

(** Looks the keys of a query up. *)
Ltac lookup :=
  rewrite ?param_num_of, ?param_str_of;
  repeat match goal with
  | Hp : params ?req = _ |- context [params ?req] => rewrite Hp
  | |- context [map_get (_ ++ _) _] => rewrite map_get_app
  | |- context [map_get (opt_param _ _) _] => rewrite opt_param_get
  | |- context [bool_decide (?a = ?b)] =>
      let v := eval vm_compute in (bool_decide (a = b)) in
      match v with true => idtac | false => idtac end; change (bool_decide (a = b)) with v
  | _ => progress cbn [map_get]
  end.

Lemma or_none {A} (o : option A) : match o with Some v => Some v | None => None end = o.
Proof using. by destruct o. Qed.

Lemma log_filter_read req f : filter_ok MAX_LOG_LIMIT f → params req = logs_params f → parseLogFilter req = f.
Proof using.
  intros [Ht Hn (l & Hl & El) Ho] Hp. unfold logs_params in Hp. unfold parseLogFilter. lookup. rewrite !or_none.
  rewrite !Forall_cons in Ht. rewrite !Forall_cons in Hn. destruct Ht as (? & ? & ? & ? & ? & ? & _), Hn as (? & ? & _).
  rewrite !text_of_set, !number_of_set by done. rewrite El.
  rewrite number_of_one, limit_read by (unfold MAX_LOG_LIMIT, MAX_SAFE in *; lia).
  rewrite <- El. transitivity (mkFilter (f_since f) (f_until f) (f_technique f) (f_tactic f) (f_ruleId f) (f_confidence f)
    (f_action f) (f_search f) (f_limit f) (f_offset f)); [f_equal|by destruct f].
  destruct (f_offset f) as [x|]; [|done]. destruct (Ho x eq_refl) as (n & Hn & ->). cbn [mbind option_bind].
  rewrite f64_lt_pos, number_of_one by lia. cbn [mbind option_bind]. by rewrite f64_lt_pos, f64_floor_ofZ by lia.
Qed.

(** The same for the window of the overview. *)
Record query_ok (q : OverviewQuery) : Prop := {
  qo_numbers : Forall (λ o, ∀ x, o = Some x → whole x) [q_since q; q_until q];
  qo_limit : ∃ n, 0 < n ≤ MAX_OVERVIEW_LIMIT ∧ q_limit q = f64_ofZ n }.

Lemma overview_query_read req q : query_ok q →
  params req = opt_param "since" (number_text <$> q_since q) ++ opt_param "until" (number_text <$> q_until q) ++
               [("limit", number_text (q_limit q))] → parseOverviewQuery req = q.
Proof using.
  intros [Hn (l & Hl & El)] Hp. unfold parseOverviewQuery. lookup. rewrite !or_none.
  rewrite !Forall_cons in Hn. destruct Hn as (? & ? & _). rewrite !number_of_set by done.
  rewrite El, number_of_one, limit_read by (unfold MAX_OVERVIEW_LIMIT, MAX_SAFE in *; lia). rewrite <- El. by destruct q.
Qed.

Lemma opt_param_text key o : utf8_text key = true → (∀ s, o = Some s → utf8_text s = true) →
  Forall (λ p, utf8_text p.1 = true ∧ utf8_text p.2 = true) (opt_param key o).
Proof using. intros Hk Ho. destruct o; repeat constructor; cbn; auto. Qed.

Lemma whole_text o : (∀ x, o = Some x → whole x) → ∀ s, number_text <$> o = Some s → utf8_text s = true.
Proof using. intros Ho s. destruct o as [x|]; intros [= <-]. by destruct (whole_read x (Ho x eq_refl)) as (_ & _ & _ & ?). Qed.

Lemma overview_params_text q : query_ok q →
  Forall (λ p, utf8_text p.1 = true ∧ utf8_text p.2 = true)
    (opt_param "since" (number_text <$> q_since q) ++ opt_param "until" (number_text <$> q_until q) ++ [("limit", number_text (q_limit q))]).
Proof using.
  intros [Hn (l & Hl & El)]. rewrite !Forall_cons in Hn. destruct Hn as (H1 & H2 & _).
  repeat apply Forall_app_2; [apply opt_param_text; [done|by apply whole_text]..|].
  repeat constructor. cbn [snd]. rewrite El. apply whole_read. exists l. unfold MAX_OVERVIEW_LIMIT, MAX_SAFE in *. split; [lia|done].
Qed.

Lemma logs_params_text f : filter_ok MAX_LOG_LIMIT f → Forall (λ p, utf8_text p.1 = true ∧ utf8_text p.2 = true) (logs_params f).
Proof using.
  intros [Ht Hn (l & Hl & El) Ho]. rewrite !Forall_cons in Ht. rewrite !Forall_cons in Hn.
  destruct Ht as (H1 & H2 & H3 & H4 & H5 & H6 & _), Hn as (H7 & H8 & _). unfold logs_params.
  repeat apply Forall_app_2; try (apply opt_param_text; [done|by apply whole_text]);
    try (apply opt_param_text; [done|intros s Hs; by (destruct (H1 s Hs) || destruct (H2 s Hs) || destruct (H3 s Hs) ||
      destruct (H4 s Hs) || destruct (H5 s Hs) || destruct (H6 s Hs))]).
  - repeat constructor. cbn [snd]. rewrite El. apply whole_read. exists l. unfold MAX_LOG_LIMIT, MAX_SAFE in *. split; [lia|done].
  - apply opt_param_text; [done|]. intros s. destruct (f_offset f) as [x|] eqn:Eo; [|done]. destruct (Ho x eq_refl) as (n & Hx & ->).
    cbn [mbind option_bind]. rewrite f64_lt_pos by lia. intros [= <-]. apply whole_read. exists n. split; [lia|done].
Qed.
End filters.

(** ** What a request asks the engine for *)

(** The first call a program makes when the session is the caller's, the cache is cold and the
    body is read. *)
Fixpoint first_call (session : OperatorSession) (b : value) (p : prog) : option (OperatorPrincipal * call) :=
  match p with
  | Send _ k => first_call session b k
  | Done | Raise _ | AwaitLocal _ _ => None
  | GetSession k => first_call session b (k (Some session))
  | CacheGet _ _ k => first_call session b (k None)
  | CacheSet _ _ _ k | CacheDrop _ k => first_call session b k
  | ReadBody _ k => first_call session b (k (Ok b))
  | Await p c _ => Some (p, c)
  end.

Section reach.
Context {NS : NumberToString} {TN : ToNumberOther}.
Context (JSON_stringify : view → result string) (deps : ServerDeps) (session : OperatorSession) (openApiDocument : value).
Notation route := (route JSON_stringify deps).
Notation dispatch := (dispatch JSON_stringify deps).

(** A request the server takes to the engine as [c], under the operator of the session. *)
Definition asks (r : fetch_request) (c : call) : Prop :=
  ∀ req, http_method req = Some (f_method r) → http_url req = Some (f_url r) →
  first_call session (default (VObj []) (f_body r)) (route req openApiDocument) =
    Some (principalFromSession session (activeTenantOverride req), c).

Lemma asks_intro r c path :
  url_path (f_url r) = path → startsWith path "/api/" = true → apiRouteVerdict (f_method r) path = declared →
  (∀ req, request_method req = f_method r → request_path req = path → params req = searchParams (f_url r) →
     first_call session (default (VObj []) (f_body r)) (dispatch req openApiDocument) =
       Some (principalFromSession session (activeTenantOverride req), c)) →
  asks r c.
Proof using.
  intros Hp Ha Hv Hd req Hm Hu.
  assert (request_path req = path) as Hp' by (unfold request_path, request_url; by rewrite Hu).
  assert (request_method req = f_method r) as Hm' by (unfold request_method; by rewrite Hm).
  unfold Server.route. rewrite Hp', Ha, Hm', Hv. apply Hd; [done..|]. unfold params, request_url. by rewrite Hu.
Qed.

Lemma url_path_query p q : no_char question p = true → url_path (p +:+ "?" +:+ q) = p.
Proof using.
  intros Hp. unfold url_path. change ("?" +:+ q) with (String question q). by rewrite split_first.
Qed.

Context (req : http_request).

(** What is left of the route chain for a path of one surface. *)
Definition surface_chain (commands reads : list (option prog)) : prog :=
  match first_claim commands with
  | Some p => p
  | None =>
      if bool_decide (request_method req = "GET") then
        match first_claim reads with
        | Some p => p
        | None => match spaDir (config deps) with
                  | Some dir => serveSpa (spa_root deps dir) (request_path req) not_found
                  | None => not_found
                  end
        end
      else method_not_allowed
  end.

Ltac chain pre :=
  intros H; unfold Server.dispatch, operational, COMMAND_HANDLERS, READ_HANDLERS, surface_chain;
  rewrite ?isolate_outside, ?detail_outside, ?export_outside, ?logs_outside, ?distribute_outside, ?vtz_command_outside,
    ?vtz_outside, ?users_command_outside, ?users_outside, ?objects_command_outside, ?objects_outside,
    ?policies_command_outside, ?policies_outside, ?idam_command_outside, ?idam_connect_outside, ?idam_secret_outside,
    ?idam_configure_outside, ?idam_outside, ?governed_outside, ?rbac_outside, ?reports_outside, ?security_outside,
    ?governance_outside, ?soc_settings_outside, ?access_outside, ?soc_command_outside, ?soc_outside, ?overview_outside
    by (apply (apart pre); [reflexivity|reflexivity|exact H]);
  rewrite !(at_not _ pre _ H) by reflexivity; reflexivity.

Lemma entity_chain : startsWith (request_path req) "/api/entity/" = true → dispatch req openApiDocument =
  surface_chain [handleEntityIsolate JSON_stringify deps req]
    [handleEntityDetail JSON_stringify deps req].
Proof using. chain "/api/entity/". Qed.
Lemma logs_chain : startsWith (request_path req) "/api/logs" = true → dispatch req openApiDocument =
  surface_chain [handleLogExport JSON_stringify deps req]
    [handleLogs JSON_stringify deps req].
Proof using. chain "/api/logs". Qed.
Lemma vtz_chain : startsWith (request_path req) "/api/vtz" = true → dispatch req openApiDocument =
  surface_chain [handleVtzDistribute JSON_stringify deps req; handleVtzCommand JSON_stringify deps req]
    [handleVtz JSON_stringify deps req].
Proof using. chain "/api/vtz". Qed.
Lemma users_chain : startsWith (request_path req) "/api/users" = true → dispatch req openApiDocument =
  surface_chain [handleUsersCommand JSON_stringify deps req]
    [handleUsers JSON_stringify deps req].
Proof using. chain "/api/users". Qed.
Lemma objects_chain : startsWith (request_path req) "/api/objects" = true → dispatch req openApiDocument =
  surface_chain [handleObjectsCommand JSON_stringify deps req]
    [handleObjects JSON_stringify deps req].
Proof using. chain "/api/objects". Qed.
Lemma policies_chain : startsWith (request_path req) "/api/policies" = true → dispatch req openApiDocument =
  surface_chain [handlePoliciesCommand JSON_stringify deps req]
    [handlePolicies JSON_stringify deps req].
Proof using. chain "/api/policies". Qed.
Lemma idam_chain : startsWith (request_path req) "/api/idam" = true → dispatch req openApiDocument =
  surface_chain [handleIdamCommand JSON_stringify deps req; handleIdamConnect JSON_stringify deps req; handleIdamSecret deps req; handleIdamConfigure JSON_stringify deps req]
    [handleIdam JSON_stringify deps req].
Proof using. chain "/api/idam". Qed.
Lemma settings_chain : startsWith (request_path req) "/api/settings" = true → dispatch req openApiDocument =
  surface_chain [handleGovernedSettings JSON_stringify deps req; handleConsoleRbac JSON_stringify deps req; handleSettingsReports JSON_stringify deps req; handleSecuritySession deps req; handleSettingsGovernance JSON_stringify deps req; handleSocSettings JSON_stringify deps req]
    [].
Proof using. chain "/api/settings". Qed.
Lemma access_chain : startsWith (request_path req) "/api/model-access" = true → dispatch req openApiDocument =
  surface_chain [handleModelAccess JSON_stringify deps req]
    [].
Proof using. chain "/api/model-access". Qed.
Lemma soc_chain : startsWith (request_path req) "/api/soc" = true → dispatch req openApiDocument =
  surface_chain [handleSocCommand JSON_stringify deps req]
    [handleSoc JSON_stringify deps req].
Proof using. chain "/api/soc". Qed.
Lemma overview_chain : startsWith (request_path req) "/api/overview" = true → dispatch req openApiDocument =
  surface_chain []
    [handleOverview JSON_stringify deps req].
Proof using. chain "/api/overview". Qed.
End reach.

(** ** Texts in paths *)

(** A text that can be a segment of a path: the browser resolves [.] and [..] away. *)
Definition path_text (s : string) : Prop := utf8_text s = true ∧ s ∉ [""; "."; ".."].

Lemma path_text_nonempty s : path_text s → s ≠ "".
Proof. intros [_ H] ->. set_solver. Qed.

Lemma token_app a b : token (a +:+ b) = token a && token b.
Proof. induction a as [|c a IH]; [done|]. rewrite str_app_cons. cbn. by rewrite IH, andb_assoc. Qed.

Lemma strip_suffix_Some suffix s a : Server.strip_suffix suffix s = Some a ↔ s = a +:+ suffix.
Proof.
  unfold Server.strip_suffix. split.
  - destruct (JsString.strip_prefix _ _) as [x|] eqn:E; intros [= <-]. apply strip_prefix_Some in E.
    rewrite <- (str_rev_involutive s), E, str_rev_app_app, str_rev_app_acc, str_rev_involutive. done.
  - intros ->. rewrite str_rev_app_app, (str_rev_app_acc suffix (str_rev_app a "")), (proj2 (strip_prefix_Some _ _ _) eq_refl). cbn. by rewrite str_rev_involutive.
Qed.

Lemma strip_suffix_none suffix s : (∀ a, s ≠ a +:+ suffix) → Server.strip_suffix suffix s = None.
Proof. intros H. destruct (Server.strip_suffix suffix s) as [a|] eqn:E; [|done]. by apply strip_suffix_Some, H in E. Qed.

(** A text in a path. *)
Lemma encoded_token s : token (encodeURIComponent s) = true.
Proof.
  unfold encodeURIComponent. induction s as [|c s IH]; [done|]. cbn [encode_with]. rewrite token_app, IH, andb_true_r. clear.
  revert c. each_char; vm_compute; done.
Qed.

Lemma encoded_nonempty s : s ≠ "" → encodeURIComponent s ≠ "".
Proof.
  destruct s as [|c s]; [done|]. intros _. unfold encodeURIComponent. cbn [encode_with].
  assert (uri_char c ≠ "") by (revert c; each_char; vm_compute; done). by destruct (uri_char c).
Qed.

Lemma encoded_no_char d s : d ∈ delimiters → no_char d (encodeURIComponent s) = true.
Proof. apply encode_no_char, uri_delimited. Qed.

Lemma token_chars s : token s = true → js_chars s = map (λ c, String c "") (String.list_ascii_of_string s).
Proof.
  induction s as [|c s IH]; [done|]. cbn. intros [Hc Hs]%andb_prop. rewrite IH by done.
  destruct s as [|d s]; [done|]. cbn in Hs |- *. apply andb_prop in Hs as [Hd _].
  assert (utf8_cont (byte_of_ascii d) = false) as ->; [|done]. clear -Hd. revert d Hd. each_char; vm_compute; done.
Qed.

Lemma token_one_line s : token s = true → has_line_terminator s = false ∧ all_in any_char s = true.
Proof.
  intros Hs. unfold has_line_terminator. rewrite token_chars by done. induction s as [|c s IH]; [done|].
  cbn [token] in Hs. apply andb_prop in Hs as [Hc Hs]. destruct (IH Hs) as [H1 H2].
  cbn [String.list_ascii_of_string map existsb all_in]. rewrite H1, H2, orb_false_r, andb_true_r.
  clear -Hc. revert c Hc. each_char; vm_compute; done.
Qed.

Lemma url_path_plain p : no_char question p = true → url_path p = p.
Proof. intros Hp. unfold url_path. by rewrite split_none. Qed.

Lemma declared_path m path route : route ∈ API_ROUTES → route_serves route m path → apiRouteVerdict m path = declared.
Proof. intros. apply verdict_iff. eauto. Qed.

Lemma entity_rest k rest : rest ≠ "" → has_line_terminator rest = false →
  entity_match ("/api/entity/" +:+ kind_name k +:+ "/" +:+ rest) = Some (k, rest).
Proof.
  intros Hne Hl. assert (bool_decide (rest = "") || has_line_terminator rest = false) as Ht by (by rewrite bool_decide_eq_false_2).
  clear Hl Hne. unfold entity_match.
  destruct k; cbn [kind_name];
    repeat match goal with |- context [JsString.strip_prefix ?a ?b] =>
      first [change (JsString.strip_prefix a b) with (Some rest) | change (JsString.strip_prefix a b) with (@None string)];
      cbn [mbind option_bind]; rewrite ?Ht end; done.
Qed.

Lemma entity_path k id : id ≠ "" → entity_match ("/api/entity/" +:+ kind_name k +:+ "/" +:+ encodeURIComponent id) = Some (k, encodeURIComponent id).
Proof. intros Hne. apply entity_rest; [by apply encoded_nonempty|]. apply token_one_line, encoded_token. Qed.

Lemma isolate_path k id : isolate_match ("/api/entity/" +:+ kind_name k +:+ "/" +:+ encodeURIComponent id) = None.
Proof.
  unfold isolate_match. destruct (decide (id = "")) as [->|Hne]; [by destruct k|]. rewrite entity_path by done. cbn [mbind option_bind].
  rewrite strip_suffix_none; [done|]. intros a E. pose proof (encoded_no_char slash id ltac:(left)) as Hs. rewrite E in Hs.
  by rewrite no_char_app, andb_false_r in Hs.
Qed.


(** ** Following a request *)

(** Decides the tests on the request's own method and path. *)
Ltac decide_tests :=
  repeat match goal with
  | |- context [bool_decide ?P] =>
      let v := eval vm_compute in (bool_decide P) in
      match v with true => idtac | false => idtac end; change (bool_decide P) with v
  | |- context [startsWith ?a ?b] =>
      let v := eval vm_compute in (startsWith a b) in
      match v with true => idtac | false => idtac end; change (startsWith a b) with v
  | |- context [JsString.strip_prefix ?a ?b] =>
      let v := eval vm_compute in (JsString.strip_prefix a b) in
      match v with None => idtac end; change (JsString.strip_prefix a b) with v; cbn [mbind option_bind]
  end.

(** Follows a request to a constant path through the chain of its area. *)
Ltac serve path chain unfolding :=
  apply (asks_intro _ _ _ _ _ _ path);
  [ first [reflexivity | apply url_path_query; reflexivity] | reflexivity | vm_compute; reflexivity |];
  let req := fresh "req" in let Hm := fresh "Hm" in let Hp := fresh "Hp" in let Hq := fresh "Hq" in
  intros req Hm Hp Hq; rewrite chain by (rewrite Hp; reflexivity);
  unfold surface_chain; unfolding; rewrite ?Hm, ?Hp; cbn [f_method get_request post_request];
  decide_tests; cbn [orb andb negb first_claim];
  unfold gated, with_session, with_engine; cbn [first_call]; match goal with H : operatorEngine _ = true |- _ => rewrite ?H end.

(** Matches a path against a template, segment by segment. *)
Ltac segments :=
  match goal with |- Forall2 segment_is (split_on slash ?t) _ =>
    let l := eval vm_compute in (split_on slash t) in assert (split_on slash t = l) as -> by (vm_compute; reflexivity) end;
  repeat first [apply Forall2_nil_2 | apply Forall2_cons_2; [first [reflexivity | idtac]|]].
