(* ===== verification/ConsoleReads.v ===== *)
(** * What the console's reads ask the engine for

    Every read of the console, with the call it means; the server takes the one to the other
    for any arguments the surfaces pass. *)
From S2P Require Import Prelude Bytes Float64 Cbor JsValue JsString Num64 LineExchange Cache Rbac Sessions Cookie Oidc.
From S2P Require Import AuthRouter OperatorEngine Vtz VtzProofs Policies Forge Distribute Routes JsOps Overview Users Objects EntityDetail Soc Settings.
From S2P Require Import Decimal ModelAccess Http Uri Console Server ConsoleProofs.
From stdpp Require Import list.
Open Scope Z_scope.

(** The reads, and the calls they stand for. *)
Inductive reads_as {NS : NumberToString} (session : OperatorSession) : option fetch_request → call → Prop :=
  | r_users : reads_as session (request_of fetchUsers) c_usersList
  | r_groups : reads_as session (request_of fetchGroups) c_groupsList
  | r_objects : reads_as session (request_of fetchObjects) c_objectCatalog
  | r_object name : plain_text name → reads_as session (request_of (fetchObjectDetail name)) (c_objectDetail name)
  | r_policies : reads_as session (request_of fetchPolicyZones) c_policyZones
  | r_connectors : reads_as session (request_of fetchIdamConnectors) c_idamConnectors
  | r_tree n : 0 < n ≤ MAX_VTZ_TREE_LIMIT → reads_as session (request_of (fetchVtzTree (f64_ofZ n))) (c_vtzTree (f64_ofZ n))
  | r_zone id : plain_text id → reads_as session (request_of (fetchVtzDetail id)) (c_vtzDetail id)
  | r_convergence id : plain_text id → reads_as session (request_of (fetchConvergence id)) (c_bundleConvergence id)
  | r_overview query : query_ok query → reads_as session (request_of (fetchOverview query)) (c_overviewSankey query)
  | r_connections id kind : plain_text id → plain_text kind →
      reads_as session (request_of (fetchEntityConnections id kind)) (c_entityConnections id kind)
  | r_members container : plain_text container → reads_as session (request_of (fetchClassMembers container)) (c_classMembers container)
  | r_logs filter : filter_ok MAX_LOG_LIMIT filter → reads_as session (request_of (fetchLogs filter)) (c_logQuery filter)
  | r_explain id : path_text id → reads_as session (request_of (fetchLogExplain id)) (c_logExplain id)
  | r_entity ref : path_text (ref_id ref) → reads_as session (request_of (fetchEntityDetail ref)) (c_entityDetail ref)
  | r_kpis : reads_as session (request_of fetchSocKpis) c_socKpis
  | r_incidents : reads_as session (request_of fetchSocIncidents) c_incidentQueue
  | r_incident id : plain_text id → reads_as session (request_of (fetchSocIncident id)) (c_incidentDetail id)
  | r_narrative id : plain_text id → reads_as session (request_of (fetchSocNarrative id)) (c_narrative id)
  | r_telemetry id : plain_text id → reads_as session (request_of (fetchSocTelemetry id)) (c_incidentTelemetry id)
  | r_audit id : plain_text id → reads_as session (request_of (fetchSocAuditTrail id)) (c_auditTrail id)
  | r_notes id : plain_text id → reads_as session (request_of (fetchSocNotes id)) (c_incidentNotes id)
  | r_impact id : plain_text id → reads_as session (request_of (fetchSocImpact id)) (c_businessImpact id)
  | r_report id : plain_text id → reads_as session (request_of (fetchSocReport id)) (c_incidentReport id)
  | r_weekly n : 1 ≤ n ≤ 12 → reads_as session (request_of (fetchSocWeekly (f64_ofZ n))) (c_weekly (f64_ofZ n))
  | r_soc_settings : reads_as session (request_of fetchSocSettings) c_socSettings
  | r_settings : reads_as session (request_of fetchGovernedSettings) (c_settings None)
  | r_reports names : names ≠ [] → Forall (λ n, n ∈ SETTINGS_REPORT_NAMES) names → NoDup names →
      reads_as session (request_of (fetchSettingsReports names)) (c_settingsReports names)
  | r_approvals : reads_as session (request_of fetchApprovals) c_settingsApprovals
  | r_history : reads_as session (request_of fetchHistory) (c_settingsHistory (f64_ofZ 50))
  | r_access n : 1 ≤ n ≤ MAX_SPEND_DAYS → role session = global_admin →
      reads_as session (request_of (fetchModelAccess (f64_ofZ n))) (c_modelAccess (f64_ofZ n)).

Section meanings.
Context {NS : NumberToString} {TN : ToNumberOther}.
Context (JSON_stringify : view → result string) (deps : ServerDeps) (session : OperatorSession) (openApiDocument : value).
Notation asks := (asks JSON_stringify deps session openApiDocument).
Hypothesis Hengine : operatorEngine deps = true.

Lemma asks_users r : request_of fetchUsers = Some r → asks r c_usersList.
Proof using Hengine. intros [= <-]. serve "/api/users" (users_chain JSON_stringify deps) ltac:(unfold handleUsersCommand, handleUsers). reflexivity. Qed.
Lemma asks_groups r : request_of fetchGroups = Some r → asks r c_groupsList.
Proof using Hengine. intros [= <-]. serve "/api/users/groups" (users_chain JSON_stringify deps) ltac:(unfold handleUsersCommand, handleUsers). reflexivity. Qed.
Lemma asks_objects r : request_of fetchObjects = Some r → asks r c_objectCatalog.
Proof using Hengine. intros [= <-]. serve "/api/objects" (objects_chain JSON_stringify deps) ltac:(unfold handleObjectsCommand, handleObjects). reflexivity. Qed.
Lemma asks_policies r : request_of fetchPolicyZones = Some r → asks r c_policyZones.
Proof using Hengine. intros [= <-]. serve "/api/policies" (policies_chain JSON_stringify deps) ltac:(unfold handlePoliciesCommand, handlePolicies). reflexivity. Qed.
Lemma asks_connectors r : request_of fetchIdamConnectors = Some r → asks r c_idamConnectors.
Proof using Hengine. intros [= <-]. serve "/api/idam/connectors" (idam_chain JSON_stringify deps) ltac:(unfold handleIdamCommand, handleIdamConnect, handleIdamSecret, handleIdamConfigure, handleIdam). reflexivity. Qed.
Lemma asks_kpis r : request_of fetchSocKpis = Some r → asks r c_socKpis.
Proof using Hengine. intros [= <-]. serve "/api/soc/kpis" (soc_chain JSON_stringify deps) ltac:(unfold handleSocCommand, handleSoc). reflexivity. Qed.
Lemma asks_incidents r : request_of fetchSocIncidents = Some r → asks r c_incidentQueue.
Proof using Hengine. intros [= <-]. serve "/api/soc/incidents" (soc_chain JSON_stringify deps) ltac:(unfold handleSocCommand, handleSoc). reflexivity. Qed.
Lemma asks_soc_settings r : request_of fetchSocSettings = Some r → asks r c_socSettings.
Proof using Hengine. intros [= <-]. serve "/api/settings/soc" (settings_chain JSON_stringify deps) ltac:(unfold handleGovernedSettings, handleConsoleRbac, handleSettingsReports, handleSecuritySession, handleSettingsGovernance, handleSocSettings). reflexivity. Qed.
Lemma asks_settings r : request_of fetchGovernedSettings = Some r → asks r (c_settings None).
Proof using Hengine. intros [= <-]. serve "/api/settings" (settings_chain JSON_stringify deps) ltac:(unfold handleGovernedSettings). by rewrite Hq. Qed.
Lemma asks_approvals r : request_of fetchApprovals = Some r → asks r c_settingsApprovals.
Proof using Hengine. intros [= <-]. serve "/api/settings/approvals" (settings_chain JSON_stringify deps) ltac:(unfold handleGovernedSettings, handleConsoleRbac, handleSettingsReports, handleSecuritySession, handleSettingsGovernance). reflexivity. Qed.

(** The same where the query names one text. *)
Ltac serve_text Ht path chain unfolding :=
  serve path chain unfolding;
  match goal with Hq : params _ = searchParams _ |- _ =>
    cbn [f_url get_request] in Hq; rewrite with_param_read in Hq by first [reflexivity | apply Ht]; rewrite Hq end;
  rewrite param_text_one by exact Ht; reflexivity.

Lemma asks_object r id : plain_text id → request_of (fetchObjectDetail id) = Some r → asks r (c_objectDetail id).
Proof using Hengine. intros Ht [= <-]. serve_text Ht "/api/objects/detail" (objects_chain JSON_stringify deps) ltac:(unfold handleObjectsCommand, handleObjects). Qed.
Lemma asks_zone r id : plain_text id → request_of (fetchVtzDetail id) = Some r → asks r (c_vtzDetail id).
Proof using Hengine. intros Ht [= <-]. serve_text Ht "/api/vtz/detail" (vtz_chain JSON_stringify deps) ltac:(unfold handleVtzDistribute, handleVtzCommand, handleVtz). Qed.
Lemma asks_convergence r id : plain_text id → request_of (fetchConvergence id) = Some r → asks r (c_bundleConvergence id).
Proof using Hengine. intros Ht [= <-]. serve_text Ht "/api/vtz/convergence" (vtz_chain JSON_stringify deps) ltac:(unfold handleVtzDistribute, handleVtzCommand, handleVtz). Qed.
Lemma asks_members r id : plain_text id → request_of (fetchClassMembers id) = Some r → asks r (c_classMembers id).
Proof using Hengine. intros Ht [= <-]. serve_text Ht "/api/overview/members" (overview_chain JSON_stringify deps) ltac:(unfold handleOverview, serveClassMembers). Qed.
Lemma asks_incident r id : plain_text id → request_of (fetchSocIncident id) = Some r → asks r (c_incidentDetail id).
Proof using Hengine. intros Ht [= <-]. serve_text Ht "/api/soc/incident" (soc_chain JSON_stringify deps) ltac:(unfold handleSocCommand, handleSoc, SOC_INCIDENT_READS; cbn [map_get]). Qed.
Lemma asks_narrative r id : plain_text id → request_of (fetchSocNarrative id) = Some r → asks r (c_narrative id).
Proof using Hengine. intros Ht [= <-]. serve_text Ht "/api/soc/narrative" (soc_chain JSON_stringify deps) ltac:(unfold handleSocCommand, handleSoc, SOC_INCIDENT_READS; cbn [map_get]). Qed.
Lemma asks_telemetry r id : plain_text id → request_of (fetchSocTelemetry id) = Some r → asks r (c_incidentTelemetry id).
Proof using Hengine. intros Ht [= <-]. serve_text Ht "/api/soc/telemetry" (soc_chain JSON_stringify deps) ltac:(unfold handleSocCommand, handleSoc, SOC_INCIDENT_READS; cbn [map_get]). Qed.
Lemma asks_audit r id : plain_text id → request_of (fetchSocAuditTrail id) = Some r → asks r (c_auditTrail id).
Proof using Hengine. intros Ht [= <-]. serve_text Ht "/api/soc/audit" (soc_chain JSON_stringify deps) ltac:(unfold handleSocCommand, handleSoc, SOC_INCIDENT_READS; cbn [map_get]). Qed.
Lemma asks_notes r id : plain_text id → request_of (fetchSocNotes id) = Some r → asks r (c_incidentNotes id).
Proof using Hengine. intros Ht [= <-]. serve_text Ht "/api/soc/notes" (soc_chain JSON_stringify deps) ltac:(unfold handleSocCommand, handleSoc, SOC_INCIDENT_READS; cbn [map_get]). Qed.
Lemma asks_impact r id : plain_text id → request_of (fetchSocImpact id) = Some r → asks r (c_businessImpact id).
Proof using Hengine. intros Ht [= <-]. serve_text Ht "/api/soc/impact" (soc_chain JSON_stringify deps) ltac:(unfold handleSocCommand, handleSoc, SOC_INCIDENT_READS; cbn [map_get]). Qed.
Lemma asks_report r id : plain_text id → request_of (fetchSocReport id) = Some r → asks r (c_incidentReport id).
Proof using Hengine. intros Ht [= <-]. serve_text Ht "/api/soc/report" (soc_chain JSON_stringify deps) ltac:(unfold handleSocCommand, handleSoc, SOC_INCIDENT_READS; cbn [map_get]). Qed.

(** A number in a query. *)
Lemma number_param url key n : 0 ≤ n ≤ MAX_SAFE → no_char question url = true → no_char hash url = true →
  encodeURIComponent key = key → utf8_text key = true →
  searchParams (url +:+ "?" +:+ key +:+ "=" +:+ number_text (f64_ofZ n)) = [(key, pretty n)].
Proof using.
  intros Hn Hq Hh Hk Hk'. destruct (number_digits n Hn) as (-> & He & Hu & _). rewrite <- (with_param_read url key (pretty n)) by done.
  unfold with_param. by rewrite He.
Qed.

(** The query of a request names the number [n] under [key]. *)
Ltac numbered Hq url key n :=
  match type of Hq with params ?req = _ =>
    let Hp := fresh "Hp" in
    assert (param (params req) key = Some (pretty n)) as Hp by
      (replace (params req) with [(key, pretty n)] by
         (rewrite Hq; symmetry; apply (number_param url key n); try done; unfold MAX_SAFE; lia);
       unfold param; cbn [map_get]; by rewrite bool_decide_eq_true_2)
  end.

Lemma f64_le_pos n : 0 < n ≤ MAX_SAFE → f64_le (f64_ofZ n) 0 = false.
Proof using.
  intros Hn. destruct (f64_key_ofZ n ltac:(lia)) as [H1 H2]. unfold f64_le. change (f64_key 0) with 0.
  rewrite andb_false_iff. right. lia.
Qed.

Lemma asks_tree r n : 0 < n ≤ MAX_VTZ_TREE_LIMIT → request_of (fetchVtzTree (f64_ofZ n)) = Some r → asks r (c_vtzTree (f64_ofZ n)).
Proof using Hengine.
  unfold MAX_VTZ_TREE_LIMIT. intros Hn [= <-].
  serve "/api/vtz/tree" (vtz_chain JSON_stringify deps) ltac:(unfold handleVtzDistribute, handleVtzCommand, handleVtz).
  numbered Hq "/api/vtz/tree" "limit" n. assert (parseVtzLimit req = f64_ofZ n) as ->; [|done]. unfold parseVtzLimit. rewrite Hp0.
  assert (0 ≤ n ≤ MAX_SAFE) as Hs by (unfold MAX_SAFE; lia). destruct (number_digits n Hs) as (_ & _ & _ & Hne & _).
  destruct (pretty n) as [|c d] eqn:E; [done|]. rewrite <- E, StringToNumber_pretty by done.
  destruct (f64_ofZ_parts n ltac:(lia)) as (_ & -> & _). rewrite f64_le_pos by lia. cbn [negb orb].
  apply Math_min_ofZ; unfold MAX_SAFE, MAX_VTZ_TREE_LIMIT; lia.
Qed.

(** A small number is one of a list. *)
Ltac enumerate n H :=
  lazymatch type of H with
  | ?lo ≤ n ≤ ?hi =>
      tryif unify lo hi then (assert (n = lo) as -> by lia; reflexivity)
      else (destruct (decide (n = lo)) as [->|]; [reflexivity|];
            let lo' := eval vm_compute in (lo + 1) in assert (lo' ≤ n ≤ hi) by lia; clear H; match goal with H' : lo' ≤ n ≤ hi |- _ => enumerate n H' end)
  end.

Lemma asks_weekly r n : 1 ≤ n ≤ 12 → request_of (fetchSocWeekly (f64_ofZ n)) = Some r → asks r (c_weekly (f64_ofZ n)).
Proof using Hengine.
  intros Hn [= <-]. serve "/api/soc/weekly" (soc_chain JSON_stringify deps) ltac:(unfold handleSocCommand, handleSoc).
  numbered Hq "/api/soc/weekly" "weeks" n. unfold weeks_param. rewrite Hp0, parseInt10_pretty by (unfold MAX_SAFE; lia).
  clear -Hn. enumerate n Hn.
Qed.

Lemma asks_history r : request_of fetchHistory = Some r → asks r (c_settingsHistory (f64_ofZ 50)).
Proof using Hengine.
  intros [= <-]. serve "/api/settings/history" (settings_chain JSON_stringify deps)
    ltac:(unfold handleGovernedSettings, handleConsoleRbac, handleSettingsReports, handleSecuritySession, handleSettingsGovernance, approve_match).
  change (params req = [("limit", "50")]) in Hq. by rewrite Hq.
Qed.

Lemma asks_access r n : 1 ≤ n ≤ MAX_SPEND_DAYS → role session = global_admin →
  request_of (fetchModelAccess (f64_ofZ n)) = Some r → asks r (c_modelAccess (f64_ofZ n)).
Proof using Hengine.
  unfold MAX_SPEND_DAYS. intros Hn Hr [= <-]. serve "/api/model-access" (access_chain JSON_stringify deps) ltac:(unfold handleModelAccess, with_global_admin).
  rewrite Hr, bool_decide_eq_true_2 by done.
  numbered Hq "/api/model-access" "days" n. rewrite Hp0, StringToNumber_pretty by (unfold MAX_SAFE; lia).
  clear -Hn. enumerate n Hn.
Qed.

Lemma asks_logs r filter : filter_ok MAX_LOG_LIMIT filter → request_of (fetchLogs filter) = Some r → asks r (c_logQuery filter).
Proof using Hengine.
  intros Hf [= <-]. serve "/api/logs" (logs_chain JSON_stringify deps) ltac:(unfold handleLogExport, handleLogs).
  rewrite (log_filter_read req filter Hf); [done|]. rewrite Hq.
  change (f_url _) with ("/api/logs" +:+ "?" +:+ params_toString (logs_params filter)). apply params_read; [|done..|by apply logs_params_text].
  unfold logs_params. intros E. apply (f_equal length) in E. rewrite !length_app in E. cbn in E. lia.
Qed.

Lemma asks_overview r query : query_ok query → request_of (fetchOverview query) = Some r → asks r (c_overviewSankey query).
Proof using Hengine.
  intros Hf [= <-]. serve "/api/overview/sankey" (overview_chain JSON_stringify deps) ltac:(unfold handleOverview, serveOverviewRead).
  rewrite (overview_query_read req query Hf); [done|]. rewrite Hq.
  change (f_url _) with ("/api/overview/sankey" +:+ "?" +:+ overviewQueryString query). apply params_read; [|done..|by apply overview_params_text].
  intros E. apply (f_equal length) in E. rewrite !length_app in E. cbn in E. lia.
Qed.

Lemma asks_connections r id kind : plain_text id → plain_text kind →
  request_of (fetchEntityConnections id kind) = Some r → asks r (c_entityConnections id kind).
Proof using Hengine.
  intros Hi Hk [= <-]. serve "/api/overview/entity-connections" (overview_chain JSON_stringify deps) ltac:(unfold handleOverview, serveEntityConnections).
  change (f_url _) with ("/api/overview/entity-connections" +:+ "?" +:+ params_toString [("id", id); ("kind", kind)]) in Hq. rewrite params_read in Hq; [|done..|repeat constructor; first [done | apply Hi | apply Hk]].
  by rewrite Hq, (param_text_in _ "id" id), (param_text_in _ "kind" kind).
Qed.
(** Names joined by commas stand in a query as they are. *)
Definition listed_char (c : Ascii.ascii) : string := if Ascii.eqb c comma then "," else uri_char c.

Lemma listed_encodes : encodes listed_char.
Proof using.
  intros c. unfold listed_char. destruct (Ascii.eqb_spec c comma) as [->|]; [|apply uri_encodes].
  left. split_and!; vm_compute; done.
Qed.

Lemma listed_delimited c : forallb (λ d, no_char d (listed_char c)) delimiters = true.
Proof using. unfold listed_char. destruct (Ascii.eqb c comma); [done|apply uri_delimited]. Qed.

Lemma join_cons_nonempty sep a b (bs : list string) : JsString.join sep (a :: b :: bs) = a +:+ sep +:+ JsString.join sep (b :: bs).
Proof using. done. Qed.

(** What the server needs of a report name. *)
Lemma report_name n : n ∈ SETTINGS_REPORT_NAMES →
  encode_with listed_char n = n ∧ token n = true ∧ is_ascii n = true ∧ no_char comma n = true ∧ n ≠ "".
Proof using. intros H%list_elem_of_In. cbn in H. by destruct_or! H; subst. Qed.

Lemma report_list names : names ≠ [] → Forall (λ n, n ∈ SETTINGS_REPORT_NAMES) names →
  let l := JsString.join "," names in encode_with listed_char l = l ∧ token l = true ∧ is_ascii l = true ∧ l ≠ "".
Proof using.
  intros Hne HF. induction HF as [|n names Hn HF IH]; [done|]. destruct (report_name n Hn) as (He & Ht & Ha & _ & Hn').
  destruct names as [|m names]; [done|]. destruct IH as (He' & Ht' & Ha' & _); [done|]. rewrite join_cons_nonempty. cbv zeta.
  rewrite !encode_app, He, He', !token_app, Ht, Ht', !is_ascii_app, Ha, Ha'. split_and!; [done..|]. by destruct n.
Qed.

Lemma names_loop_known out names : Forall (λ n, n ∈ SETTINGS_REPORT_NAMES) names → NoDup (out ++ names) →
  names_loop out names = Some (out ++ names).
Proof using.
  intros HF. revert out. induction HF as [|n names Hn _ IH]; intros out Hd; [by rewrite app_nil_r|].
  cbn. destruct (report_name n Hn) as (_ & Ht & _). rewrite trim_token, bool_decide_eq_true_2 by done.
  assert (n ∉ out) as Hout. { apply NoDup_app in Hd as (_ & Hd & _). intros Hin. apply (Hd n Hin). left. }
  rewrite bool_decide_eq_false_2, IH by (done || by rewrite <- app_assoc). by rewrite <- app_assoc.
Qed.

Lemma names_read names : names ≠ [] → Forall (λ n, n ∈ SETTINGS_REPORT_NAMES) names → NoDup names →
  toSettingsReportNames (Some (JsString.join "," names)) = Some names.
Proof using.
  intros Hne HF Hd. destruct (report_list names Hne HF) as (_ & Ht & _ & Hl). unfold toSettingsReportNames.
  rewrite trim_token, bool_decide_eq_false_2 by done. change "," with (String comma "").
  rewrite split_join, names_loop_known by (done || by apply (Forall_impl _ _ _ HF), report_name). done.
Qed.

Lemma asks_reports r names : names ≠ [] → Forall (λ n, n ∈ SETTINGS_REPORT_NAMES) names → NoDup names →
  request_of (fetchSettingsReports names) = Some r → asks r (c_settingsReports names).
Proof using Hengine.
  intros Hne HF Hd [= <-]. destruct (report_list names Hne HF) as (He & _ & Ha & _).
  serve "/api/settings/reports" (settings_chain JSON_stringify deps)
    ltac:(unfold handleGovernedSettings, handleConsoleRbac, handleSettingsReports).
  assert (params req = [("names", JsString.join "," names)]) as ->.
  { rewrite Hq. rewrite <- (searchParams_written listed_char "/api/settings/reports" [("names", JsString.join "," names)]);
      [|apply listed_encodes|apply listed_delimited|done..|repeat constructor; cbn; by apply ascii_text].
    cbn [map fst snd]. rewrite He. done. }
  unfold param. cbn [map_get]. rewrite bool_decide_eq_true_2 by done. by rewrite names_read.
Qed.
Lemma asks_explain r id : path_text id → request_of (fetchLogExplain id) = Some r → asks r (c_logExplain id).
Proof using Hengine.
  intros (Hu & Hd) [= <-]. assert (id ≠ "") as Hne by set_solver.
  destruct (token_one_line _ (encoded_token id)) as [Hl Ha].
  apply (asks_intro _ _ _ _ _ _ ("/api/logs/explain/" +:+ encodeURIComponent id)).
  - apply url_path_plain. rewrite no_char_app, encoded_no_char by (right; left). done.
  - done.
  - apply (declared_path _ _ (mkRoute GET "/api/logs/explain/:id+" ["logs.explain"])); [by apply (bool_decide_unpack _)|]. split; [|done].
    exists [""; "api"; "logs"; "explain"; encodeURIComponent id]. split; [|done].
    segments. split; [by apply encoded_nonempty|done].
  - intros req Hm Hp Hq. rewrite logs_chain by (by rewrite Hp). unfold surface_chain, handleLogExport, handleLogs, explain_match.
    rewrite Hp, Hm. cbn [f_method get_request]. decide_tests. cbn [orb andb negb first_claim].
    rewrite (proj2 (strip_prefix_Some _ _ (encodeURIComponent id)) eq_refl). cbn [mbind option_bind].
    rewrite bool_decide_eq_false_2, Hl by (by apply encoded_nonempty). unfold gated, with_session, with_engine. cbn [orb first_claim first_call].
    by rewrite Hengine, decodeURIComponent_encode.
Qed.

Lemma asks_entity r ref : path_text (ref_id ref) → request_of (fetchEntityDetail ref) = Some r → asks r (c_entityDetail ref).
Proof using Hengine.
  intros (Hu & Hd) [= <-]. destruct ref as [k id]. cbn [ref_id] in *. assert (id ≠ "") as Hne by set_solver.
  destruct (token_one_line _ (encoded_token id)) as [Hl Ha].
  apply (asks_intro _ _ _ _ _ _ ("/api/entity/" +:+ kind_name k +:+ "/" +:+ encodeURIComponent id)).
  - apply url_path_plain. unfold entity_url. cbn [ref_id ref_kind f_url get_request].
    rewrite !no_char_app, encoded_no_char by (right; left). by destruct k.
  - by destruct k.
  - apply (declared_path _ _ (mkRoute GET "/api/entity/:kind/:id+" ["entity.header"; "entity.info"; "entity.recentDecisions"; "entity.capabilities"; "objects.detail"])); [by apply (bool_decide_unpack _)|]. split; [|done].
    exists [""; "api"; "entity"; kind_name k; encodeURIComponent id]. split; [|done].
    segments; (split; [first [by destruct k | by apply encoded_nonempty]|first [done | by destruct k]]).
  - intros req Hm Hp Hq. rewrite entity_chain by (rewrite Hp; by destruct k). unfold surface_chain, handleEntityIsolate, handleEntityDetail.
    rewrite Hp, Hm. cbn [f_method get_request]. decide_tests. rewrite isolate_path, entity_path by done.
    unfold gated, with_session, with_engine. cbn [first_claim first_call]. by rewrite Hengine, decodeURIComponent_encode.
Qed.
#[local] Hint Resolve asks_users asks_groups asks_objects asks_object asks_policies asks_connectors asks_tree asks_zone
  asks_convergence asks_overview asks_connections asks_members asks_logs asks_explain asks_entity asks_kpis asks_incidents
  asks_incident asks_narrative asks_telemetry asks_audit asks_notes asks_impact asks_report asks_weekly asks_soc_settings
  asks_settings asks_reports asks_approvals asks_history asks_access : core.

(** C6: What the console reads is what it means to read: for every read of every surface, with the arguments the
    surface passes (any well-formed text, any number within the server's bounds), the request is declared, is claimed by
    the handler of its surface in the whole route chain, and its first effect under a valid session, when nothing is
    cached, is the engine call that stands for the read, with the arguments unchanged and under the principal of the
    session.  In particular, no text escapes its parameter or its path segment. *)
Theorem console_reads_meant r c : reads_as session (Some r) c → asks r c.
Proof using Hengine. intros H. remember (Some r) as o eqn:E. destruct H; eauto. Qed.
End meanings.

#[local] Instance reads_numbers : NumberToString := λ _, "7".
#[local] Instance reads_toNumber : ToNumberOther := λ _, f64_NaN.
Definition sample_reader : OperatorSession := mkSession "S" "auth0|1" None Admin "pid" "acme" global_admin 3600005.
Definition sample_reads_deps : ServerDeps := mkServerDeps true true (mkConfig None None None None (mkRbac [] [] None)) [].
Definition sample_page : LogQueryFilter :=
  mkFilter None None None None None None None (Some "a b&limit=9#") (f64_ofZ 50) (Some (f64_ofZ 100)).

Lemma console_reads_meant_witness :
  asks (λ _, Ok "") sample_reads_deps sample_reader VNull
    (get_request "/api/logs?search=a+b%26limit%3D9%23&limit=50&offset=100") (c_logQuery sample_page).
Proof.
  apply (console_reads_meant (λ _, Ok "") sample_reads_deps sample_reader VNull eq_refl).
  assert (Some (get_request "/api/logs?search=a+b%26limit%3D9%23&limit=50&offset=100") = request_of (fetchLogs sample_page)) as ->
    by (vm_compute; reflexivity).
  apply r_logs. constructor; cbn.
  - repeat (apply Forall_cons_2; [by intros s [= <-]|]). constructor.
  - repeat (apply Forall_cons_2; [by intros s [= <-]|]). constructor.
  - by exists 50.
  - intros x [= <-]. by exists 100.
Defined.
