(* ===== verification/ConsoleCommands.v ===== *)
(** * What the console's commands ask the engine for

    Every command the console sends, with the engine call it means.  A command whose body is
    a draft means what the contract's parser makes of the draft; the other bodies are built by
    the console from what the operator chose, and mean those values unchanged.  The secret of a
    connector is for the sidecar of the node. *)
From S2P Require Import Prelude Bytes Float64 Cbor JsValue WireProofs JsString Num64 LineExchange Cache Rbac Sessions Cookie Oidc.
From S2P Require Import AuthRouter OperatorEngine Vtz VtzProofs Policies Forge Distribute Routes JsOps Overview Users Objects EntityDetail Soc Settings.
From S2P Require Import Decimal ModelAccess Http Uri Console Server ConsoleProofs.
From stdpp Require Import list.
Open Scope Z_scope.

(** ** Drafts that are spread into a body *)

(** An object the language can build: each key once. *)
Definition object (ps : props) : Prop := NoDup (map fst ps).

Lemma spread_get base ps k : object ps →
  obj_get (foldl (λ ps p, obj_insert ps p.1 p.2) base ps) k = match obj_get ps k with Some v => Some v | None => obj_get base k end.
Proof.
  unfold object. revert base. induction ps as [|[x v] ps IH]; intros base; [done|]. cbn. intros [Hx Hd]%NoDup_cons. rewrite IH by done.
  case_bool_decide as E; [subst k|by rewrite obj_get_insert_ne].
  destruct (obj_get ps x) as [w|] eqn:Ew; [|by rewrite obj_get_insert].
  destruct Hx. clear -Ew. induction ps as [|[y u] ps IH]; [done|]. cbn in *. case_bool_decide; [subst; left|right; auto].
Qed.

(** Reading another key of the body reads the draft. *)
Lemma spread_read base ps k : object ps → obj_get base k = None → get (spread_over base (VObj ps)) k = get (VObj ps) k.
Proof. intros Ho Hb. cbn [spread_over get]. rewrite spread_get by done. by rewrite Hb; destruct (obj_get ps k). Qed.

(** Reading the added key reads what the console put there, unless the draft has it. *)
Lemma spread_added key v ps : object ps → obj_get ps key = None → get (spread_over [(key, v)] (VObj ps)) key = Ok v.
Proof. intros Ho Hk. cbn [spread_over get]. rewrite spread_get, Hk by done. cbn. by rewrite bool_decide_eq_true_2. Qed.

Lemma act_spread v ps : object ps → toCaseActDraft (spread_over [("incident", v)] (VObj ps)) = toCaseActDraft (VObj ps).
Proof. intros Ho. unfold toCaseActDraft. rewrite !spread_read by done. done. Qed.

Lemma disposition_spread v ps : object ps → toDispositionDraft (spread_over [("incident", v)] (VObj ps)) = toDispositionDraft (VObj ps).
Proof. intros Ho. unfold toDispositionDraft, requiredText. rewrite !spread_read by done. done. Qed.

Lemma policy_spread v ps : object ps → toPolicyDraftInput (spread_over [("id", v)] (VObj ps)) = toPolicyDraftInput (VObj ps).
Proof. intros Ho. unfold toPolicyDraftInput. rewrite !spread_read by done. done. Qed.

(** ** The commands *)

(** A text the operator typed, which the server trims. *)
Definition field (s : string) : Prop := trim s = s ∧ s ≠ "".

(** The zones the server's patterns leave to the reads. *)
Definition reserved_zones : list string := ["tree"; "detail"; "convergence"].

(** The request a flow comes to after [n] that were answered with [res]. *)
Fixpoint request_after {A} (res : fetch_response) (n : nat) (f : flow A) : option fetch_request :=
  match f with
  | Fetch r k => match n with O => Some r | S n => request_after res n (k (Some res)) end
  | _ => None
  end.

(** An edit is meant for a zone that its path and its spec both name. *)
Inductive commands_as {NS : NumberToString} {TN : ToNumberOther} (deps : ServerDeps) (session : OperatorSession) :
    option fetch_request → call → Prop :=
  | m_export request id filter : parseLogExportRequest request = Ok (Some (id, filter)) →
      commands_as deps session (request_of (postLogExport request)) (c_logExport id filter)
  | m_create spec s : toVtzSpecInput spec = Ok (Some s) →
      commands_as deps session (request_of (runVtzCommand (zone_create spec))) (c_vtzCommand (vtz_create s))
  | m_edit id spec s moveTo : path_text id → id ∉ reserved_zones → toVtzSpecInput spec = Ok (Some s) → spec_name s = id →
      commands_as deps session (request_of (runVtzCommand (zone_save id spec moveTo))) (c_vtzCommand (vtz_edit s))
  | m_delete id : path_text id → id ∉ reserved_zones →
      commands_as deps session (request_of (runVtzCommand (zone_delete id))) (c_vtzCommand (vtz_delete id))
  | m_move id name : path_text id → field name →
      commands_as deps session (request_of (send_zone (zone_url id +:+ "/rescope") "POST" (Some (VObj [("newName", VStr name)]))))
        (c_vtzCommand (vtz_rescope id name))
  | m_distribute id members : path_text id → signerPort (config deps) ≠ None → members ≠ [] → Forall (λ m, m ≠ "") members →
      commands_as deps session (request_of (distribute_members_of (Some id) members)) (c_distribute id members)
  | m_isolate ref posture commandId : path_text (ref_id ref) → trim commandId ≠ "" →
      commands_as deps session (request_of (postIsolate ref (containment_name posture) commandId))
        (c_isolate ref (mkIsolate commandId posture))
  | m_generate incident : field incident → commands_as deps session (request_of (postGenerate incident)) (c_cognitionRun incident)
  | m_act incident ps d : field incident → object ps → obj_get ps "incident" = None → toCaseActDraft (VObj ps) = Ok (Some d) →
      commands_as deps session (request_of (case_act_call incident (VObj ps))) (c_caseAct incident d)
  | m_verdict incident ps d : field incident → object ps → obj_get ps "incident" = None → toDispositionDraft (VObj ps) = Ok (Some d) →
      commands_as deps session (request_of (disposition_call incident (VObj ps))) (c_disposition incident d)
  | m_approve_plan incident revision : field incident → shown_revision revision = true →
      commands_as deps session (request_of (approve_plan_call incident revision)) (c_approvePlan incident revision)
  | m_modify_plan incident steps ss : field incident → toResponseStepDrafts steps = Ok (Some ss) →
      commands_as deps session (request_of (modify_plan_call incident steps)) (c_modifyPlan incident ss)
  | m_create_user ps d : parsePrincipalDraft (VObj ps) = Ok (Some d) →
      commands_as deps session (request_of (create_user_call (VObj ps))) (c_createPrincipal d)
  | m_edit_user ps d : parsePrincipalDraft (VObj ps) = Ok (Some d) →
      commands_as deps session (request_of (edit_user_call (VObj ps))) (c_editPrincipal d)
  | m_user_status username status : field username → status ∈ ["active"; "suspended"; "revoked"] →
      commands_as deps session (request_of (user_status_call username status)) (c_setPrincipalStatus username status)
  | m_create_group name description : field name → trim description = description →
      commands_as deps session (request_of (create_group_call name description)) (c_createGroup name description)
  | m_create_object draft d : parseObjectDraft draft = Ok (Some d) →
      commands_as deps session (request_of (object_write_call true draft)) (c_createObject d)
  | m_edit_object draft d : parseObjectDraft draft = Ok (Some d) →
      commands_as deps session (request_of (object_write_call false draft)) (c_editObject d)
  | m_delete_object name : field name → commands_as deps session (request_of (delete_object_call name)) (c_deleteObject name)
  | m_create_policy id vtz draft publish d : toPolicyDraftInput draft = Ok (Some d) →
      commands_as deps session (request_of (save_policy_call true id vtz draft publish)) (c_createPolicy d)
  | m_edit_policy id vtz ps publish d : field id → object ps → obj_get ps "id" = None → toPolicyDraftInput (VObj ps) = Ok (Some d) →
      commands_as deps session (request_of (save_policy_call false (Some id) vtz (VObj ps) publish)) (c_editPolicy id d)
  | m_publish vtz id version : field vtz → field id → field version →
      commands_as deps session (request_of (post_policy "/api/policies/publish" (VObj [("vtz", VStr vtz); ("id", VStr id); ("version", VStr version)])))
        (c_publishPolicy vtz id version)
  | m_delete_policy vtz id : field vtz → field id →
      commands_as deps session (request_of (delete_policy_call vtz id)) (c_deletePolicy vtz id)
  | m_sync provider : field provider → commands_as deps session (request_of (idam_sync_call provider)) (c_idamSync provider)
  | m_connect input res : res_ok res = true → field (in_provider input) → field (in_domain input) → field (in_clientId input) →
      trim (in_audience input) = in_audience input →
      commands_as deps session (request_after res 1 (idam_connect_call input))
        (c_idamConnect (mkConnectDraft (in_provider input) (in_domain input) (in_clientId input) (in_audience input)) IDAM_SECRET_REF)
  | m_configure input res poll full : res_ok res = true → field (in_provider input) →
      in_pollIntervalSecs input = VNum poll → f64_isInteger poll = true →
      in_fullSyncCadenceHours input = VNum full → f64_isInteger full = true →
      commands_as deps session (request_after res 2 (idam_connect_call input))
        (c_idamConfigure (mkIdamDraft (in_provider input) true (VNum poll) (VNum full)))
  | m_commit request r : toSettingsCommitRequest request = Ok (Some r) →
      commands_as deps session (request_of (postGovernedSettings request)) (c_settingsCommit r)
  | m_propose request r : toSettingsCommitRequest request = Ok (Some r) →
      commands_as deps session (request_of (propose_call request)) (c_settingsPropose r)
  | m_approve n : 0 < n < 10 ^ 15 →
      commands_as deps session (request_of (approve_call (f64_ofZ n))) (c_settingsApprove (f64_ofZ n))
  | m_rollback to n : toPositiveId to = Some n →
      commands_as deps session (request_of (rollback_call to)) (c_settingsRollback n)
  | m_soc_settings request patch : toSocSettingsPatch request = Ok (Some patch) → patch ≠ mkSocPatch None None →
      commands_as deps session (request_of (postSocSettings request)) (c_socSettingsCommit patch)
  | m_grant change g : role session = global_admin → toAgentGrantChange change = Ok (Some g) →
      commands_as deps session (request_of (putAgentGrant change)) (c_agentGrant g).

(** ** Zones in paths *)

Lemma zone_segment tail id : id ≠ "" → vtz_segment tail ("/api/vtz/" +:+ encodeURIComponent id +:+ tail) = Some (encodeURIComponent id).
Proof.
  intros Hne%encoded_nonempty. unfold vtz_segment. rewrite (proj2 (strip_prefix_Some _ _ (encodeURIComponent id +:+ tail)) eq_refl).
  cbn [mbind option_bind]. rewrite (proj2 (strip_suffix_Some tail _ (encodeURIComponent id)) eq_refl). cbn [mbind option_bind].
  by rewrite bool_decide_eq_false_2, encoded_no_char by (done || left).
Qed.

(** A path with one more segment is not the path of a zone, nor of another act on it. *)
Lemma other_segment tail rest seg : no_char slash seg = true → rest ≠ tail → (tail = "" ∨ ∃ t, tail = "/" +:+ t ∧ no_char slash t = true) →
  (rest = "" ∨ ∃ t, rest = "/" +:+ t ∧ no_char slash t = true) → vtz_segment tail ("/api/vtz/" +:+ seg +:+ rest) = None.
Proof.
  intros Hs Hne Htail Hrest. unfold vtz_segment. rewrite (proj2 (strip_prefix_Some _ _ (seg +:+ rest)) eq_refl). cbn [mbind option_bind].
  destruct (Server.strip_suffix tail (seg +:+ rest)) as [a|] eqn:E; [|done]. cbn [mbind option_bind]. apply strip_suffix_Some in E.
  destruct (no_char slash a) eqn:Ha; [|by rewrite orb_true_r]. exfalso.
  destruct Htail as [->|(t & -> & Ht)], Hrest as [->|(u & -> & Hu)]; rewrite ?str_app_nil in E; [done|..].
  - apply (f_equal (no_char slash)) in E. by rewrite no_char_app, Ha, andb_false_r in E.
  - apply (f_equal (no_char slash)) in E. by rewrite no_char_app, Hs, andb_false_r in E.
  - apply (cut_both seg a u t Hs Ha) in E as [_ ->]. done.
Qed.

Lemma encoded_id id key : id ≠ key → utf8_text id = true → utf8_text key = true → encodeURIComponent key = key → encodeURIComponent id ≠ key.
Proof.
  intros Hne Hi Hk Hs E. pose proof (decodeURIComponent_encode id Hi) as H1. pose proof (decodeURIComponent_encode key Hk) as H2.
  rewrite E, <- Hs, H2 in H1. by injection H1.
Qed.
Lemma free_zone id : path_text id → id ∉ reserved_zones → encodeURIComponent id ∉ reserved_zones.
Proof.
  intros [Hu _] Hr Hin. apply list_elem_of_In in Hin. cbn in Hin.
  destruct_or! Hin; try done; symmetry in Hin; revert Hin; apply encoded_id; try done; intros ->; apply Hr; set_solver.
Qed.

Lemma free_path e : e ∉ reserved_zones → bool_decide ("/api/vtz/" +:+ e ∈ ["/api/vtz/tree"; "/api/vtz/detail"; "/api/vtz/convergence"]) = false.
Proof.
  intros Hr. apply bool_decide_eq_false_2. intros Hin. apply list_elem_of_In in Hin. cbn [In] in Hin.
  destruct_or! Hin; try done; apply (inj (String.append "/api/vtz/") _ e) in Hin; subst; apply Hr; set_solver.
Qed.

Lemma not_zone_root e : bool_decide ("/api/vtz/" +:+ e = "/api/vtz") = false.
Proof. by apply bool_decide_eq_false_2. Qed.

Lemma zone_free id : path_text id → id ∉ reserved_zones → zone_match ("/api/vtz/" +:+ encodeURIComponent id) = Some (encodeURIComponent id).
Proof.
  intros Hi Hr. unfold zone_match. rewrite <- (str_app_nil (encodeURIComponent id)) at 1.
  rewrite zone_segment by (by apply path_text_nonempty). cbn [mbind option_bind]. rewrite bool_decide_eq_false_2; [done|].
  pose proof (free_zone id Hi Hr). set_solver.
Qed.

(** The ways a zone's path goes on. *)
Definition zone_tail (tail : string) : Prop := tail = "" ∨ ∃ t, tail = "/" +:+ t ∧ no_char slash t = true.

Lemma other_act tail rest id : rest ≠ tail → zone_tail tail → zone_tail rest →
  vtz_segment tail ("/api/vtz/" +:+ encodeURIComponent id +:+ rest) = None.
Proof. intros. apply other_segment; [apply encoded_no_char; left|done..]. Qed.

Lemma other_act_end tail id : tail ≠ "" → zone_tail tail → vtz_segment tail ("/api/vtz/" +:+ encodeURIComponent id) = None.
Proof. intros. rewrite <- (str_app_nil (encodeURIComponent id)). apply other_act; [done..|by left]. Qed.

Lemma act_tail t : no_char slash t = true → zone_tail ("/" +:+ t).
Proof. intros. right. eauto. Qed.

Lemma zone_path id tail template : path_text id → split_on slash template = [""; "api"; "vtz"; ":id"] ++ tail →
  Forall (λ t, startsWith t ":" = false) tail → path_is template (JsString.join "/" ([""; "api"; "vtz"; encodeURIComponent id] ++ tail)).
Proof.
  intros Hi Ht HF. exists ([""; "api"; "vtz"; encodeURIComponent id] ++ tail). split; [|done]. rewrite Ht. apply Forall2_app.
  - repeat first [apply Forall2_nil_2 | apply Forall2_cons_2; [first [reflexivity | idtac]|]].
    split; [by apply encoded_nonempty, path_text_nonempty|apply encoded_no_char; left].
  - clear -HF. induction HF as [|t tail Ht _ IH]; constructor; [|done]. unfold segment_is. by rewrite Ht.
Qed.
(** A path with a further segment is none of the reads. *)
Lemma act_path id tail : zone_tail tail → tail ≠ "" →
  bool_decide ("/api/vtz/" +:+ encodeURIComponent id +:+ tail ∈ ["/api/vtz/tree"; "/api/vtz/detail"; "/api/vtz/convergence"]) = false.
Proof.
  intros [->|(t & -> & Ht)] Hne; [done|]. apply free_path. intros Hin.
  assert (no_char slash (encodeURIComponent id +:+ "/" +:+ t) = true) as H.
  { apply list_elem_of_In in Hin. cbn [In reserved_zones] in Hin. by destruct_or! Hin; try rewrite <- Hin. }
  by rewrite !no_char_app, andb_false_r in H.
Qed.

Lemma members_read members : members ≠ [] → Forall (λ m, m ≠ "") members →
  distribute_members (VObj [("members", VArr (map VStr members))]) = Ok (Some members).
Proof.
  intros Hne HF. unfold distribute_members. cbn [get obj_get]. rewrite bool_decide_eq_true_2 by done. cbn [default from_option mbind result_bind].
  unfold id. destruct members as [|m members]; [done|]. cbn [map]. apply (proj2 (project_all_Some _ (map VStr (m :: members)) _)).
  clear Hne. induction HF as [|[|c x] l Hx _ IH]; [constructor|done|]. by constructor.
Qed.

Lemma isolate_acts k id : id ≠ "" →
  isolate_match ("/api/entity/" +:+ kind_name k +:+ "/" +:+ encodeURIComponent id +:+ "/isolate") = Some (k, encodeURIComponent id).
Proof.
  intros Hne. unfold isolate_match. rewrite entity_rest.
  - cbn [mbind option_bind]. rewrite (proj2 (strip_suffix_Some _ _ (encodeURIComponent id)) eq_refl). cbn [mbind option_bind].
    by rewrite bool_decide_eq_false_2 by (by apply encoded_nonempty).
  - apply encoded_nonempty in Hne. by destruct (encodeURIComponent id).
  - apply token_one_line. by rewrite token_app, encoded_token.
Qed.

Lemma short_digits_pretty n : 0 < n < 10 ^ 15 → short_digits (pretty n) = true.
Proof.
  intros Hn. destruct (pretty_decimal n) as (c & d & E & Hd & _); [lia|]. pose proof (pretty_length 15 n Hn) as Hl. rewrite E in *.
  unfold short_digits. rewrite Hd. cbn [andb]. apply andb_true_intro. split; [done|]. by apply Nat.leb_le.
Qed.

Lemma safe_positive_ofZ n : 0 < n < 10 ^ 15 → safe_positive (f64_ofZ n) = true.
Proof.
  intros Hn. assert (0 < n ≤ MAX_SAFE) as Hs by (unfold MAX_SAFE; lia). unfold safe_positive, f64_le.
  rewrite f64_lt_pos by lia. destruct (f64_ofZ_spec n ltac:(lia)) as (-> & _). destruct (f64_key_nonneg n ltac:(lia)) as [-> ->].
  destruct (f64_key_nonneg MAX_SAFE ltac:(unfold MAX_SAFE; lia)) as [-> ->]. cbn [negb andb].
  rewrite andb_true_r. apply Z.leb_le. apply f64_ofZ_mono; lia.
Qed.

Lemma approve_path n : 0 < n < 10 ^ 15 → approve_match ("/api/settings/approvals/" +:+ pretty n +:+ "/approve") = Some (pretty n).
Proof.
  intros Hn. unfold approve_match. rewrite (proj2 (strip_prefix_Some _ _ (pretty n +:+ "/approve")) eq_refl). cbn [mbind option_bind].
  rewrite (proj2 (strip_suffix_Some _ _ (pretty n)) eq_refl). cbn [mbind option_bind]. by rewrite short_digits_pretty.
Qed.

(** Follows a command to a constant path, and reads its body. *)
Ltac serve_body path chain unfolding :=
  serve path chain unfolding; unfold with_request, with_body, run_command, idam_post, plain_read, gated, with_session, with_engine;
  cbn [first_call f_body post_request default mbind result_bind or_undefined]; match goal with H : operatorEngine _ = true |- _ => rewrite ?H end;
  unfold id.

(** Reads the properties of a body the console built. *)
Ltac fields :=
  unfold not_object, field_text; cbn [typeof_object is_null negb orb get obj_get]; decide_tests;
  cbn [default from_option mbind result_bind attempt]; unfold Datatypes.id.

(** The sidecar call a program makes first when the session is the caller's and the body is read. *)
Fixpoint first_local (session : OperatorSession) (b : value) (p : prog) : option local_call :=
  match p with
  | Send _ k => first_local session b k
  | Done | Raise _ | Await _ _ _ => None
  | GetSession k => first_local session b (k (Some session))
  | CacheGet _ _ k => first_local session b (k None)
  | CacheSet _ _ _ k | CacheDrop _ k => first_local session b k
  | ReadBody _ k => first_local session b (k (Ok b))
  | AwaitLocal c _ => Some c
  end.

(** The three requests of an onboarding. *)
Definition secret_request (provider secret : string) : fetch_request :=
  post_request "/api/idam/secret" (VObj [("provider", VStr provider); ("secret", VStr secret)]).
Definition connect_request (provider domain clientId audience : string) : fetch_request :=
  post_request "/api/idam/connect"
    (VObj [("provider", VStr provider); ("domain", VStr domain); ("clientId", VStr clientId); ("audience", VStr audience)]).
Definition configure_request (provider : string) (poll full : Z) : fetch_request :=
  post_request "/api/idam/configure"
    (VObj [("provider", VStr provider); ("enabled", VBool true); ("pollIntervalSecs", VNum poll); ("fullSyncCadenceHours", VNum full)]).

Section meanings.
Context {NS : NumberToString} {TN : ToNumberOther}.
Context (JSON_stringify : view → result string) (deps : ServerDeps) (session : OperatorSession) (openApiDocument : value).
Notation asks := (asks JSON_stringify deps session openApiDocument).
Hypothesis Hengine : operatorEngine deps = true.

Lemma does_export r b id filter : parseLogExportRequest b = Ok (Some (id, filter)) → request_of (postLogExport b) = Some r → asks r (c_logExport id filter).
Proof using Hengine.
  intros Hb [= <-]. serve_body "/api/logs/export" (logs_chain JSON_stringify deps) ltac:(unfold handleLogExport). by rewrite Hb.
Qed.

Lemma does_create_user r ps d : parsePrincipalDraft (VObj ps) = Ok (Some d) → request_of (create_user_call (VObj ps)) = Some r → asks r (c_createPrincipal d).
Proof using Hengine.
  intros Hb [= <-]. serve_body "/api/users" (users_chain JSON_stringify deps) ltac:(unfold handleUsersCommand, users_command). by rewrite Hb.
Qed.
Lemma does_edit_user r ps d : parsePrincipalDraft (VObj ps) = Ok (Some d) → request_of (edit_user_call (VObj ps)) = Some r → asks r (c_editPrincipal d).
Proof using Hengine.
  intros Hb [= <-]. serve_body "/api/users/edit" (users_chain JSON_stringify deps) ltac:(unfold handleUsersCommand, users_command). by rewrite Hb.
Qed.
Lemma does_create_object r b d : parseObjectDraft b = Ok (Some d) → request_of (object_write_call true b) = Some r → asks r (c_createObject d).
Proof using Hengine.
  intros Hb [= <-]. serve_body "/api/objects" (objects_chain JSON_stringify deps) ltac:(unfold handleObjectsCommand, objects_command). by rewrite Hb.
Qed.
Lemma does_edit_object r b d : parseObjectDraft b = Ok (Some d) → request_of (object_write_call false b) = Some r → asks r (c_editObject d).
Proof using Hengine.
  intros Hb [= <-]. serve_body "/api/objects/edit" (objects_chain JSON_stringify deps) ltac:(unfold handleObjectsCommand, objects_command). by rewrite Hb.
Qed.
Lemma does_create_policy r id vtz b publish d : toPolicyDraftInput b = Ok (Some d) →
  request_of (save_policy_call true id vtz b publish) = Some r → asks r (c_createPolicy d).
Proof using Hengine.
  intros Hb [= <-]. serve_body "/api/policies" (policies_chain JSON_stringify deps) ltac:(unfold handlePoliciesCommand, policies_command). by rewrite Hb.
Qed.
Lemma does_commit r b c : toSettingsCommitRequest b = Ok (Some c) → request_of (postGovernedSettings b) = Some r → asks r (c_settingsCommit c).
Proof using Hengine.
  intros Hb [= <-]. serve_body "/api/settings" (settings_chain JSON_stringify deps) ltac:(unfold handleGovernedSettings, commitGovernedSettings). by rewrite Hb.
Qed.
Lemma does_propose r b c : toSettingsCommitRequest b = Ok (Some c) → request_of (propose_call b) = Some r → asks r (c_settingsPropose c).
Proof using Hengine.
  intros Hb [= <-]. serve_body "/api/settings/propose" (settings_chain JSON_stringify deps)
    ltac:(unfold handleGovernedSettings, handleConsoleRbac, handleSettingsReports, handleSecuritySession, handleSettingsGovernance).
  by rewrite Hb.
Qed.
Lemma does_rollback r to n : toPositiveId to = Some n → request_of (rollback_call to) = Some r → asks r (c_settingsRollback n).
Proof using Hengine.
  intros Hb [= <-]. serve_body "/api/settings/rollback" (settings_chain JSON_stringify deps)
    ltac:(unfold handleGovernedSettings, handleConsoleRbac, handleSettingsReports, handleSecuritySession, handleSettingsGovernance, approve_match).
  fields. by rewrite Hb.
Qed.
Lemma does_soc_settings r b patch : toSocSettingsPatch b = Ok (Some patch) → patch ≠ mkSocPatch None None →
  request_of (postSocSettings b) = Some r → asks r (c_socSettingsCommit patch).
Proof using Hengine.
  intros Hb Hp' [= <-]. serve_body "/api/settings/soc" (settings_chain JSON_stringify deps)
    ltac:(unfold handleGovernedSettings, handleConsoleRbac, handleSettingsReports, handleSecuritySession, handleSettingsGovernance, handleSocSettings, approve_match).
  rewrite Hb. by destruct patch as [[] []].
Qed.
Lemma does_modify_plan r incident steps ss : field incident → toResponseStepDrafts steps = Ok (Some ss) →
  request_of (modify_plan_call incident steps) = Some r → asks r (c_modifyPlan incident ss).
Proof using Hengine.
  intros [Ht Hne] Hb [= <-]. serve_body "/api/soc/plan/modify" (soc_chain JSON_stringify deps) ltac:(unfold handleSocCommand, soc_command).
  fields. by rewrite Ht, bool_decide_eq_false_2, Hb.
Qed.
Lemma does_generate r incident : field incident → request_of (postGenerate incident) = Some r → asks r (c_cognitionRun incident).
Proof using Hengine.
  intros [Ht Hne] [= <-]. serve_body "/api/soc/generate" (soc_chain JSON_stringify deps) ltac:(unfold handleSocCommand, soc_command).
  fields. by rewrite Ht, bool_decide_eq_false_2.
Qed.
Lemma does_approve_plan r incident revision : field incident → shown_revision revision = true →
  request_of (approve_plan_call incident revision) = Some r → asks r (c_approvePlan incident revision).
Proof using Hengine.
  intros [Ht Hne] Hr [= <-]. serve_body "/api/soc/plan/approve" (soc_chain JSON_stringify deps) ltac:(unfold handleSocCommand, soc_command).
  fields. by rewrite Ht, bool_decide_eq_false_2, Hr.
Qed.
Lemma does_act r incident ps d : field incident → object ps → obj_get ps "incident" = None → toCaseActDraft (VObj ps) = Ok (Some d) →
  request_of (case_act_call incident (VObj ps)) = Some r → asks r (c_caseAct incident d).
Proof using Hengine.
  intros [Ht Hne] Ho Hi Hb [= <-]. serve_body "/api/soc/act" (soc_chain JSON_stringify deps) ltac:(unfold handleSocCommand, soc_command).
  unfold field_text. rewrite spread_added, act_spread, Hb by done. cbn [mbind result_bind attempt]. by rewrite Ht, bool_decide_eq_false_2.
Qed.
Lemma does_verdict r incident ps d : field incident → object ps → obj_get ps "incident" = None → toDispositionDraft (VObj ps) = Ok (Some d) →
  request_of (disposition_call incident (VObj ps)) = Some r → asks r (c_disposition incident d).
Proof using Hengine.
  intros [Ht Hne] Ho Hi Hb [= <-]. serve_body "/api/soc/disposition" (soc_chain JSON_stringify deps) ltac:(unfold handleSocCommand, soc_command).
  unfold field_text. rewrite spread_added, disposition_spread, Hb by done. cbn [mbind result_bind attempt]. by rewrite Ht, bool_decide_eq_false_2.
Qed.
Lemma does_user_status r username status : field username → status ∈ ["active"; "suspended"; "revoked"] →
  request_of (user_status_call username status) = Some r → asks r (c_setPrincipalStatus username status).
Proof using Hengine.
  intros [Ht Hne] Hs [= <-]. serve_body "/api/users/status" (users_chain JSON_stringify deps) ltac:(unfold handleUsersCommand, users_command).
  fields. rewrite Ht, bool_decide_eq_false_2 by done. apply list_elem_of_In in Hs. cbn in Hs. by destruct_or! Hs; subst.
Qed.
Lemma does_create_group r name description : field name → trim description = description →
  request_of (create_group_call name description) = Some r → asks r (c_createGroup name description).
Proof using Hengine.
  intros [Ht Hne] Hs [= <-]. serve_body "/api/users/groups" (users_chain JSON_stringify deps) ltac:(unfold handleUsersCommand, users_command).
  fields. by rewrite Ht, Hs, bool_decide_eq_false_2.
Qed.
Lemma does_delete_object r name : field name → request_of (delete_object_call name) = Some r → asks r (c_deleteObject name).
Proof using Hengine.
  intros [Ht Hne] [= <-]. serve_body "/api/objects/delete" (objects_chain JSON_stringify deps) ltac:(unfold handleObjectsCommand, objects_command).
  fields. by rewrite Ht, bool_decide_eq_false_2.
Qed.
Lemma does_edit_policy r id vtz ps publish d : field id → object ps → obj_get ps "id" = None → toPolicyDraftInput (VObj ps) = Ok (Some d) →
  request_of (save_policy_call false (Some id) vtz (VObj ps) publish) = Some r → asks r (c_editPolicy id d).
Proof using Hengine.
  intros [Ht Hne] Ho Hi Hb [= <-]. serve_body "/api/policies/edit" (policies_chain JSON_stringify deps) ltac:(unfold handlePoliciesCommand, policies_command).
  unfold field_text. rewrite spread_added, policy_spread, Hb by done. cbn [mbind result_bind attempt]. by rewrite Ht, bool_decide_eq_false_2.
Qed.
Lemma does_publish r vtz id version : field vtz → field id → field version →
  request_of (post_policy "/api/policies/publish" (VObj [("vtz", VStr vtz); ("id", VStr id); ("version", VStr version)])) = Some r →
  asks r (c_publishPolicy vtz id version).
Proof using Hengine.
  intros [Ht Hne] [Ht' Hne'] [Ht'' Hne''] [= <-].
  serve_body "/api/policies/publish" (policies_chain JSON_stringify deps) ltac:(unfold handlePoliciesCommand, policies_command).
  fields. by rewrite Ht, Ht', Ht'', !bool_decide_eq_false_2.
Qed.
Lemma does_delete_policy r vtz id : field vtz → field id → request_of (delete_policy_call vtz id) = Some r → asks r (c_deletePolicy vtz id).
Proof using Hengine.
  intros [Ht Hne] [Ht' Hne'] [= <-].
  serve_body "/api/policies/delete" (policies_chain JSON_stringify deps) ltac:(unfold handlePoliciesCommand, policies_command).
  fields. by rewrite Ht, Ht', !bool_decide_eq_false_2.
Qed.
Lemma does_sync r provider : field provider → request_of (idam_sync_call provider) = Some r → asks r (c_idamSync provider).
Proof using Hengine.
  intros [Ht Hne] [= <-]. serve_body "/api/idam/sync" (idam_chain JSON_stringify deps) ltac:(unfold handleIdamCommand, idam_post).
  fields. by rewrite Ht, bool_decide_eq_false_2.
Qed.
Lemma does_grant r b g : role session = global_admin → toAgentGrantChange b = Ok (Some g) →
  request_of (putAgentGrant b) = Some r → asks r (c_agentGrant g).
Proof using Hengine.
  intros Hr Hb [= <-]. serve_body "/api/model-access/grant" (access_chain JSON_stringify deps) ltac:(unfold handleModelAccess, with_global_admin).
  rewrite Hr, bool_decide_eq_true_2 by done. cbn [first_call f_body default from_option mbind result_bind]. unfold id. by rewrite Hb.
Qed.
Lemma does_create r spec sp : toVtzSpecInput spec = Ok (Some sp) → request_of (runVtzCommand (zone_create spec)) = Some r →
  asks r (c_vtzCommand (vtz_create sp)).
Proof using Hengine.
  intros Hb [= <-]. serve_body "/api/vtz" (vtz_chain JSON_stringify deps)
    ltac:(unfold handleVtzDistribute, handleVtzCommand, parseVtzCommand, distribute_match, rescope_match, vtz_segment).
  by rewrite Hb.
Qed.

Lemma zone_request r c id rest route : path_text id → no_char question rest = true →
  f_url r = "/api/vtz/" +:+ encodeURIComponent id +:+ rest → route ∈ API_ROUTES → method_name (route_method route) = f_method r →
  path_is (route_path route) (f_url r) →
  (∀ req, request_method req = f_method r → request_path req = f_url r →
     first_call session (default (VObj []) (f_body r))
       (surface_chain deps req [handleVtzDistribute JSON_stringify deps req; handleVtzCommand JSON_stringify deps req] [handleVtz JSON_stringify deps req]) =
       Some (principalFromSession session (activeTenantOverride req), c)) →
  asks r c.
Proof using.
  intros Hi Hq Hu Hroute Hm Hp Hreq. apply (asks_intro _ _ _ _ _ _ (f_url r)).
  - apply url_path_plain. rewrite Hu, !no_char_app, encoded_no_char, Hq by (right; left). done.
  - by rewrite Hu.
  - by apply (declared_path _ _ route).
  - intros req Hm' Hp' _. rewrite vtz_chain by (by rewrite Hp', Hu). by apply Hreq.
Qed.

(** Decides which act on the zone a path is. *)
Ltac which_act :=
  unfold distribute_match, rescope_match;
  repeat first [ rewrite zone_segment by (by apply path_text_nonempty)
               | rewrite other_act_end; [|done|by apply act_tail]
               | rewrite other_act; [|done|first [by left | by apply act_tail]|first [by left | by apply act_tail]] ].

Lemma does_edit r id spec sp moveTo : path_text id → id ∉ reserved_zones → toVtzSpecInput spec = Ok (Some sp) →
  request_of (runVtzCommand (zone_save id spec moveTo)) = Some r → asks r (c_vtzCommand (vtz_edit sp)).
Proof using Hengine.
  intros Hi Hr Hb [= <-].
  apply (zone_request _ _ id "" (mkRoute PUT "/api/vtz/:id" ["vtz.edit"])); [done|done|by rewrite str_app_nil|by apply (bool_decide_unpack _)|done|by apply (zone_path id [])|].
  cbn [f_method f_url f_body]. intros req Hm Hp. unfold surface_chain, handleVtzDistribute, handleVtzCommand, parseVtzCommand.
  rewrite Hm, Hp. unfold zone_url. rewrite free_path, not_zone_root, zone_free by (done || by apply free_zone).
  which_act. decide_tests. unfold gated, with_session, with_engine, with_request.
  cbn [first_claim negb andb first_call]. rewrite Hengine. cbn [first_call default mbind result_bind]. unfold Datatypes.id. by rewrite Hb.
Qed.
Lemma does_delete r id : path_text id → id ∉ reserved_zones →
  request_of (runVtzCommand (zone_delete id)) = Some r → asks r (c_vtzCommand (vtz_delete id)).
Proof using Hengine.
  intros Hi Hr [= <-].
  apply (zone_request _ _ id "" (mkRoute DELETE "/api/vtz/:id" ["vtz.delete"])); [done|done|by rewrite str_app_nil|by apply (bool_decide_unpack _)|done|by apply (zone_path id [])|].
  cbn [f_method f_url f_body]. intros req Hm Hp. unfold surface_chain, handleVtzDistribute, handleVtzCommand, parseVtzCommand.
  rewrite Hm, Hp. unfold zone_url. rewrite free_path, not_zone_root, zone_free by (done || by apply free_zone).
  which_act. decide_tests. unfold gated, with_session, with_engine.
  cbn [first_claim negb andb first_call]. rewrite Hengine, decodeURIComponent_encode by apply Hi. done.
Qed.

Lemma does_move r id name : path_text id → field name →
  request_of (send_zone (zone_url id +:+ "/rescope") "POST" (Some (VObj [("newName", VStr name)]))) = Some r →
  asks r (c_vtzCommand (vtz_rescope id name)).
Proof using Hengine.
  intros Hi [Ht Hne] [= <-].
  apply (zone_request _ _ id "/rescope" (mkRoute POST "/api/vtz/:id/rescope" ["vtz.rescope"])); [done|done|by unfold zone_url; rewrite str_app_assoc|by apply (bool_decide_unpack _)|done| |].
  { unfold zone_url. cbn [f_url]. rewrite str_app_assoc. apply (zone_path id ["rescope"]); [done|done|by repeat constructor]. }
  cbn [f_method f_url f_body]. intros req Hm Hp. unfold surface_chain, handleVtzDistribute, handleVtzCommand, parseVtzCommand.
  rewrite Hm, Hp. unfold zone_url. rewrite str_app_assoc, act_path by (done || by apply act_tail). which_act. decide_tests.
  unfold gated, with_session, with_engine, with_request, parseRescopeName. cbn [first_claim negb andb first_call]. rewrite Hengine.
  cbn [first_call default mbind result_bind]. unfold Datatypes.id. fields. cbn [nonblank]. rewrite Ht, bool_decide_eq_false_2 by done.
  cbn [fmap option_fmap option_map]. rewrite Ht, decodeURIComponent_encode by apply Hi. done.
Qed.

Lemma does_distribute r id members : path_text id → signerPort (config deps) ≠ None → members ≠ [] → Forall (λ m, m ≠ "") members →
  request_of (distribute_members_of (Some id) members) = Some r → asks r (c_distribute id members).
Proof using Hengine.
  intros Hi Hs Hne HF. unfold distribute_members_of. rewrite bool_decide_eq_false_2 by done. intros [= <-].
  apply (zone_request _ _ id "/distribute" (mkRoute POST "/api/vtz/:id/distribute" ["policies.distribute"])); [done|done|done|by apply (bool_decide_unpack _)|done|apply (zone_path id ["distribute"]); [done|done|by repeat constructor]|].
  cbn [f_method f_url f_body post_request]. intros req Hm Hp. unfold surface_chain, handleVtzDistribute.
  rewrite Hm, Hp. which_act. decide_tests. unfold gated, with_session, with_engine. cbn [first_claim negb andb first_call]. rewrite Hengine.
  destruct (signerPort (config deps)) as [port|]; [|done]. cbn [first_call default mbind result_bind]. unfold Datatypes.id.
  rewrite members_read by done. unfold attempt. by rewrite decodeURIComponent_encode by apply Hi.
Qed.
Lemma does_isolate r ref posture commandId : path_text (ref_id ref) → trim commandId ≠ "" →
  request_of (postIsolate ref (containment_name posture) commandId) = Some r → asks r (c_isolate ref (mkIsolate commandId posture)).
Proof using Hengine.
  intros Hi Hc [= <-]. destruct ref as [k id]. cbn [ref_id] in Hi. unfold entity_url. cbn [ref_id ref_kind]. pose proof (path_text_nonempty _ Hi) as Hne.
  rewrite !str_app_assoc. apply (asks_intro _ _ _ _ _ _ ("/api/entity/" +:+ kind_name k +:+ "/" +:+ encodeURIComponent id +:+ "/isolate")).
  - apply url_path_plain. cbn [f_url post_request]. rewrite !no_char_app, encoded_no_char by (right; left). by destruct k.
  - by destruct k.
  - apply (declared_path _ _ (mkRoute POST "/api/entity/:kind/:id+/isolate" ["entity.isolate"])); [by apply (bool_decide_unpack _)|]. split; [|done].
    exists [""; "api"; "entity"; kind_name k; encodeURIComponent id; "isolate"]. split; [|done].
    segments; (split; [first [by destruct k | by apply encoded_nonempty]|first [by destruct k | apply token_one_line, encoded_token]]).
  - intros req Hm Hp Hq. rewrite entity_chain by (rewrite Hp; by destruct k). unfold surface_chain, handleEntityIsolate.
    rewrite Hp, Hm. cbn [f_method post_request]. rewrite isolate_acts by done. decide_tests.
    unfold gated, with_session, with_engine, with_request, parseIsolateRequest. cbn [first_claim negb first_call]. rewrite Hengine.
    rewrite decodeURIComponent_encode by apply Hi. cbn [attempt first_call f_body post_request default mbind result_bind]. unfold Datatypes.id. fields.
    cbn [nonblank]. rewrite bool_decide_eq_false_2 by done. by destruct posture.
Qed.

Lemma does_approve r n : 0 < n < 10 ^ 15 → request_of (approve_call (f64_ofZ n)) = Some r → asks r (c_settingsApprove (f64_ofZ n)).
Proof using Hengine.
  intros Hn [= <-]. assert (0 ≤ n ≤ MAX_SAFE) as Hs by (unfold MAX_SAFE; lia). destruct (number_digits n Hs) as (-> & He & _ & Hne & Hd).
  apply (asks_intro _ _ _ _ _ _ ("/api/settings/approvals/" +:+ pretty n +:+ "/approve")).
  - apply url_path_plain. cbn [f_url post_request]. rewrite !no_char_app, <- He, encoded_no_char by (right; left). done.
  - done.
  - apply (declared_path _ _ (mkRoute POST "/api/settings/approvals/:proposal/approve" ["settings.approve"])); [by apply (bool_decide_unpack _)|]. split; [|done].
    exists [""; "api"; "settings"; "approvals"; pretty n; "approve"]. split; [|done].
    segments. split; [done|]. rewrite <- He. apply encoded_no_char. left.
  - intros req Hm Hp Hq. rewrite settings_chain by (by rewrite Hp).
    unfold surface_chain, handleGovernedSettings, handleConsoleRbac, handleSettingsReports, handleSecuritySession, handleSettingsGovernance.
    rewrite Hp, Hm. cbn [f_method post_request]. rewrite approve_path by (done || lia). decide_tests.
    cbn [negb andb orb first_claim].
    unfold gated, with_session, with_engine. cbn [first_call]. rewrite Hengine. unfold toPositiveId.
    rewrite short_digits_pretty, StringToNumber_pretty by (done || lia). by rewrite safe_positive_ofZ by lia.
Qed.
(** A request the server hands to the sidecar, and to nothing before it. *)
Definition tells_sidecar (r : fetch_request) (c : local_call) : Prop :=
  ∀ req, http_method req = Some (f_method r) → http_url req = Some (f_url r) →
  first_local session (default (VObj []) (f_body r)) (route JSON_stringify deps req openApiDocument) = Some c.

Lemma stores_secret provider secret : secretPort (config deps) ≠ None → field provider → secret ≠ "" →
  tells_sidecar (secret_request provider secret) (l_secret provider secret).
Proof using.
  intros Hs [Ht Hne] Hsec req Hm Hu. cbn [f_method f_url secret_request post_request] in Hm, Hu.
  assert (request_path req = "/api/idam/secret") as Hp by (unfold request_path, request_url; rewrite Hu; reflexivity).
  assert (request_method req = "POST") as Hm' by (unfold request_method; by rewrite Hm).
  unfold route. rewrite Hp, Hm'. assert (apiRouteVerdict "POST" "/api/idam/secret" = declared) as -> by (vm_compute; reflexivity).
  change (startsWith "/api/idam/secret" "/api/") with true. cbv iota. rewrite idam_chain by (rewrite Hp; reflexivity). unfold surface_chain, handleIdamCommand, handleIdamConnect, handleIdamSecret.
  rewrite Hm', Hp. decide_tests. cbn [orb andb negb first_claim]. unfold with_session, with_body. cbn [first_local]. destruct (secretPort (config deps)); [|done].
  cbn [first_local f_body secret_request post_request default from_option]. unfold id. fields. rewrite Ht. by rewrite !bool_decide_eq_false_2.
Qed.

Lemma does_connect provider domain clientId audience : field provider → field domain → field clientId → trim audience = audience →
  asks (connect_request provider domain clientId audience) (c_idamConnect (mkConnectDraft provider domain clientId audience) IDAM_SECRET_REF).
Proof using Hengine.
  intros [Ht Hne] [Hd Hdne] [Hc Hcne] Ha. unfold connect_request.
  serve_body "/api/idam/connect" (idam_chain JSON_stringify deps) ltac:(unfold handleIdamCommand, handleIdamConnect, connect_draft, idam_post).
  fields. rewrite Ht, Hd, Hc, Ha. by rewrite !bool_decide_eq_false_2.
Qed.

Lemma does_configure provider poll full : field provider → f64_isInteger poll = true → f64_isInteger full = true →
  asks (configure_request provider poll full) (c_idamConfigure (mkIdamDraft provider true (VNum poll) (VNum full))).
Proof using Hengine.
  intros [Ht Hne] Hp Hf. unfold configure_request.
  serve_body "/api/idam/configure" (idam_chain JSON_stringify deps) ltac:(unfold handleIdamCommand, handleIdamConnect, handleIdamSecret, handleIdamConfigure, configure_draft, idam_post).
  fields. rewrite Ht. cbn [is_integer]. by rewrite bool_decide_eq_false_2, Hp, Hf.
Qed.

(** What the onboarding goes on with after each request that succeeds. *)
Lemma connect_requests input res : res_ok res = true →
  request_after res 1 (idam_connect_call input) =
    Some (connect_request (in_provider input) (in_domain input) (in_clientId input) (in_audience input)) ∧
  (∀ poll full, in_pollIntervalSecs input = VNum poll → in_fullSyncCadenceHours input = VNum full →
     request_after res 2 (idam_connect_call input) = Some (configure_request (in_provider input) poll full)).
Proof using. clear. intros Hr. split; [|intros poll full Hp Hf]; cbn; rewrite Hr; cbn; rewrite ?Hr; [done|]. cbn. by rewrite Hp, Hf. Qed.

#[local] Hint Resolve does_export does_create does_edit does_delete does_move does_distribute does_isolate does_generate does_act
  does_verdict does_approve_plan does_modify_plan does_create_user does_edit_user does_user_status does_create_group
  does_create_object does_edit_object does_delete_object does_create_policy does_edit_policy does_publish does_delete_policy
  does_sync does_commit does_propose does_approve does_rollback does_soc_settings does_grant : core.

(** A request the server refuses before any effect. *)
Definition turned_away (r : fetch_request) : Prop :=
  ∀ req, http_method req = Some (f_method r) → http_url req = Some (f_url r) →
  route JSON_stringify deps req openApiDocument = method_not_allowed.

Lemma turned_away_at r m path :
  f_method r = m → f_url r = path → m ∈ ["PUT"; "DELETE"] → path ∈ map (String.append "/api/vtz/") reserved_zones → turned_away r.
Proof using.
  clear Hengine. intros <- <- Hm Hp req Hm' Hu. apply list_elem_of_In in Hm. apply list_elem_of_In in Hp.
  assert (request_method req = f_method r) as Em by (unfold request_method; by rewrite Hm').
  assert (request_path req = f_url r) as Ep by (unfold request_path, request_url; rewrite Hu; cbn in Hp; by destruct_or! Hp; rewrite <- Hp).
  clear Hm' Hu. unfold route. rewrite vtz_chain by (rewrite Ep; cbn in Hp; by destruct_or! Hp; rewrite <- Hp).
  unfold surface_chain, handleVtzDistribute, handleVtzCommand. rewrite Em, Ep. clear Em Ep. cbn in Hm, Hp.
  destruct_or! Hm; try done; destruct_or! Hp; try done; rewrite <- Hm, <- Hp; vm_compute; reflexivity.
Qed.

(** A zone whose id is [tree], [detail] or [convergence] can be created and moved, but not edited or deleted: the
    requests the console sends for it are answered 405 by the router before any handler sees them, whatever the session
    and the engine. *)
Lemma reserved_zone_refused id spec moveTo r : id ∈ reserved_zones →
  request_of (runVtzCommand (zone_save id spec moveTo)) = Some r ∨ request_of (runVtzCommand (zone_delete id)) = Some r →
  turned_away r.
Proof using.
  clear Hengine. intros Hid Hr. assert (zone_url id = "/api/vtz/" +:+ id) as E.
  { apply list_elem_of_In in Hid. cbn in Hid. by destruct_or! Hid; subst. }
  destruct Hr as [[= <-]|[= <-]]; (eapply turned_away_at; [done|exact E|set_solver|by apply list_elem_of_fmap_2]).
Qed.

Lemma commands_ask r c : commands_as deps session (Some r) c → asks r c.
Proof using Hengine.
  intros H. remember (Some r) as o eqn:E. destruct H; eauto.
  - rewrite (proj1 (connect_requests _ _ ltac:(eassumption))) in E. injection E as <-. by apply does_connect.
  - erewrite (proj2 (connect_requests _ _ ltac:(eassumption))) in E by eassumption. injection E as <-. by apply does_configure.
Qed.

End meanings.

#[local] Instance commands_numbers : NumberToString := λ _, "7".
#[local] Instance commands_toNumber : ToNumberOther := λ _, f64_NaN.
Definition sample_commander : OperatorSession := mkSession "S" "auth0|1" None Admin "pid" "acme" tenant_admin 3600005.
Definition sample_commands_deps : ServerDeps := mkServerDeps true true (mkConfig None None None None (mkRbac [] [] None)) [].

