(* ===== verification/ZoneEditor.v ===== *)
(** * The zone editor ([VtzEditor.tsx], [VtzSurface.tsx])

    What the form for a trust zone holds, when it may be submitted, the command a confirmed
    submit becomes, and what the operator is told when the command fails.  The state of the
    form is a value; rendering is not modelled. *)
From S2P Require Import Prelude Bytes Float64 Cbor JsValue JsString Num64 LineExchange Cache Rbac Sessions Cookie Oidc.
From S2P Require Import AuthRouter OperatorEngine Vtz VtzProofs Policies Forge Distribute Routes JsOps Overview Users Objects EntityDetail Soc Settings.
From S2P Require Import Decimal ModelAccess Http Uri Console Server ConsoleProofs ConsoleCommands.
From stdpp Require Import list.
Open Scope Z_scope.

(** ** Names *)

(** The parent prefix and the own segment: cut at the last dot. *)
Definition splitZoneName (name : string) : string * string :=
  match cut_at Vtz.dot (str_rev_app name "") with
  | None => ("", name)
  | Some (leaf, parent) => (str_rev_app parent "", str_rev_app leaf "")
  end.

Definition composeZoneName (parentName leaf : string) : string :=
  let trimmed := trim leaf in
  let parent := trim parentName in
  if bool_decide (trimmed = "") then ""
  else if bool_decide (parent = "") then trimmed else parent +:+ "." +:+ trimmed.

(** ** The form *)

Definition DEFAULT_REAUTH_INTERVAL_HOURS : Z := 8.
Definition VTZ_DESCRIPTION_MAX_BYTES : Z := 1024.

(** The fields of a zone the editor reads, at their declared types; the interval is a number (64 bits). *)
Record EditedZone := mkEdited {
  ez_id : string; ez_name : string; ez_zoneType : VtzArchetype; ez_telemetry : VtzTelemetry; ez_lifecycle : VtzLifecycle;
  ez_microSegmentation : bool; ez_reauthIntervalHours : Z; ez_subZoneCount : Z }.

Record FormState := mkForm {
  fm_description : string; fm_zoneType : VtzArchetype; fm_telemetry : VtzTelemetry; fm_lifecycle : VtzLifecycle;
  fm_microSegmentation : bool; fm_reauthIntervalHours : Z }.

(** [zone] is [None] in create mode. *)
Record EditorState := mkEditor { leaf : string; parentName : string; form : FormState }.

Definition openEditor (zone : option EditedZone) : EditorState :=
  match zone with
  | None => mkEditor "" "" (mkForm "" standard full draft true (f64_ofZ DEFAULT_REAUTH_INTERVAL_HOURS))
  | Some z => let '(p, l) := splitZoneName (ez_name z) in
              mkEditor l p (mkForm "" (ez_zoneType z) (ez_telemetry z) (ez_lifecycle z) (ez_microSegmentation z) (ez_reauthIntervalHours z))
  end.

Definition moveBlocked (zone : option EditedZone) : bool :=
  match zone with Some z => 0 <? ez_subZoneCount z | None => false end.

Definition selectableParents (zone : option EditedZone) (parents : list EditedZone) : list EditedZone :=
  match zone with
  | None => parents
  | Some z => filter (λ p, ez_name p ≠ ez_name z ∧ startsWith (ez_name p) (ez_name z +:+ ".") = false) parents
  end.

Definition composed (s : EditorState) : string := composeZoneName (parentName s) (leaf s).

Definition nameProblem (s : EditorState) : option string := if bool_decide (leaf s = "") then None else vtzNameProblem (composed s).

Definition canSubmit (busy : bool) (s : EditorState) : bool :=
  negb busy && negb (bool_decide (composed s = "")) && bool_decide (nameProblem s = None) &&
  (utf8ByteLength (fm_description (form s)) <=? VTZ_DESCRIPTION_MAX_BYTES) && hours_ok (fm_reauthIntervalHours (form s)).

Definition moveTo (zone : option EditedZone) (s : EditorState) : option string :=
  match zone with
  | Some z => if bool_decide (composed s = ez_name z) then None else Some (composed s)
  | None => None
  end.

Definition specFromForm (s : EditorState) : value :=
  let f := form s in
  VObj [("name", VStr (composed s)); ("description", VStr (fm_description f)); ("zoneType", VStr (archetype_tag (fm_zoneType f)));
        ("ownPostures", VArr []); ("microSegmentation", VBool (fm_microSegmentation f));
        ("telemetry", VStr (telemetry_tag (fm_telemetry f))); ("reauthIntervalHours", VNum (fm_reauthIntervalHours f));
        ("lifecycle", VStr (lifecycle_tag (fm_lifecycle f)))].

(** A confirmed submit, as the surface sends it on. *)
Definition submitted (zone : option EditedZone) (s : EditorState) : ZoneCommand :=
  match zone with
  | None => zone_create (specFromForm s)
  | Some z => zone_save (ez_id z) (specFromForm s) (moveTo zone s)
  end.

(** ** What the operator is told *)

Record EditorFailure := mkFailure { failure_kind : VtzCommandFailure; failure_committed : bool }.

Definition failureOf (error : console_error) : EditorFailure :=
  match error with
  | VtzCommandError failure settingsCommitted => mkFailure failure settingsCommitted
  | _ => mkFailure vtz_unavailable false
  end.

Definition failureMessage (failure : VtzCommandFailure) (settingsCommitted : bool) : string :=
  let outcome := if settingsCommitted then "The settings were committed; the zone was NOT moved and stays where it was."
                 else "Nothing was committed." in
  match failure with
  | vtz_denied => "The engine refused this change: it contradicts a rule the platform enforces on every zone. " +:+ outcome
  | vtz_conflict => "The engine refused this change: the zone already exists, no longer exists, or still has sub-zones. " +:+
                    outcome +:+ " Re-read the tree and try again."
  | vtz_malformed => "That zone definition was rejected before it reached the engine. " +:+ outcome
  | vtz_unavailable => "The zone could not be reached. " +:+ outcome
  end.

(** ** Names, taken apart and put together *)

Lemma label_tail_token s : label_tail s = true → token s = true.
Proof.
  assert (∀ c, alnum c = true ∨ Ascii.eqb c hyphen = true → token_char c = true) as Hc.
  { intros c [H|H]; revert H; [|by rewrite Ascii.eqb_eq; intros ->]. revert c. each_char; vm_compute; done. }
  induction s as [|c s IH]; [done|]. destruct s as [|d s].
  - cbn [label_tail token]. intros H. by rewrite Hc by auto.
  - change (label_tail (String c (String d s))) with ((alnum c || Ascii.eqb c hyphen) && label_tail (String d s)).
    intros [H1%orb_prop H2]%andb_prop. cbn [token]. rewrite Hc by done. by apply IH.
Qed.

Lemma label_token l : VTZ_LABEL_SHAPE l = true → token l = true ∧ l ≠ "".
Proof.
  destruct l as [|c l]; [done|]. cbn [VTZ_LABEL_SHAPE]. intros [Hc Hl]%andb_prop. split; [|done].
  assert (label_tail (String c l) = true) as H by (destruct l; [done|]; cbn in *; by rewrite Hc).
  by apply label_tail_token.
Qed.

Lemma labels_token labels : labels_problem labels = None → Forall (λ l, token l = true ∧ l ≠ "") labels.
Proof.
  induction labels as [|l labels IH]; [constructor|]. cbn. repeat case_match; try done. intros H'. constructor; [|by apply IH].
  apply label_token. by destruct (VTZ_LABEL_SHAPE l).
Qed.

(** What the editor accepts as a name: levels of visible characters, none empty. *)
Lemma name_levels name : vtzNameProblem name = None → Forall (λ l, token l = true ∧ l ≠ "") (split_on Vtz.dot name) ∧ token name = true.
Proof.
  unfold vtzNameProblem. repeat case_match; try done. intros HF%labels_token. split; [done|].
  rewrite <- (join_split Vtz.dot name). clear -HF. induction HF as [|l ls [Hl _] _ IH]; [done|]. destruct ls as [|m ls]; [done|].
  change (JsString.join (String Vtz.dot "") (l :: m :: ls)) with (l +:+ "." +:+ JsString.join (String Vtz.dot "") (m :: ls)).
  by rewrite !token_app, Hl, IH.
Qed.

Lemma splitZoneName_spec name :
  (splitZoneName name = ("", name) ∧ no_char Vtz.dot name = true) ∨
  ∃ p l, splitZoneName name = (p, l) ∧ name = p +:+ "." +:+ l ∧ no_char Vtz.dot l = true.
Proof.
  unfold splitZoneName. destruct (cut_at Vtz.dot (str_rev_app name "")) as [[a b]|] eqn:E.
  - right. apply cut_at_Some in E as [E Ha]. exists (str_rev_app b ""), (str_rev_app a ""). split; [done|]. split.
    + rewrite <- (str_rev_involutive name), E, str_rev_app_app. cbn. by rewrite str_rev_app_acc.
    + by rewrite no_char_rev, Ha.
  - left. split; [done|]. apply cut_at_None in E as H.
    by rewrite no_char_rev, andb_true_r in H.
Qed.

(** Taking a name apart and putting it together again is the name. *)
Lemma compose_split name : vtzNameProblem name = None →
  composeZoneName (splitZoneName name).1 (splitZoneName name).2 = name.
Proof.
  intros Hn. destruct (name_levels name Hn) as [HF Ht].
  destruct (splitZoneName_spec name) as [[-> Hd]|(p & l & -> & -> & Hd)]; unfold composeZoneName; cbn [fst snd].
  - rewrite (split_none _ _ Hd) in HF. inversion HF as [|? ? [_ Hne] _]; subst. by rewrite trim_token, bool_decide_eq_false_2.
  - change (p +:+ "." +:+ l) with (p +:+ String Vtz.dot l) in *. rewrite split_app, (split_none _ _ Hd) in HF. apply Forall_app in HF as [Hp Hl].
    inversion Hl as [|? ? [Hlt Hlne] _]; subst. change (String Vtz.dot l) with ("." +:+ l) in Ht. rewrite !token_app in Ht.
    apply andb_prop in Ht as [Hpt _]. rewrite !trim_token by done. rewrite bool_decide_eq_false_2 by done.
    rewrite bool_decide_eq_false_2; [done|]. intros ->. cbn in Hp. by inversion Hp as [|? ? [_ ?] _].
Qed.

(** ** What a submit commits *)

(** The spec the contract reads off a form. *)
Definition spec_of (s : EditorState) : VtzSpecInput :=
  let f := form s in
  mkSpec (composed s) (fm_description f) (fm_zoneType f) [] (fm_microSegmentation f) (fm_telemetry f) (fm_reauthIntervalHours f) (fm_lifecycle f).

Lemma canSubmit_name busy s : canSubmit busy s = true → vtzNameProblem (composed s) = None ∧ composed s ≠ "" ∧ hours_ok (fm_reauthIntervalHours (form s)) = true.
Proof.
  unfold canSubmit, nameProblem. rewrite !andb_true_iff, !negb_true_iff, bool_decide_eq_true, bool_decide_eq_false.
  intros ((((_ & Hc) & Hn) & _) & Hh). split_and!; [|done|done]. case_bool_decide as Hl; [|done].
  destruct Hc. unfold composed, composeZoneName. by rewrite Hl.
Qed.

(** The server accepts every form that may be submitted, as the operator filled it in. *)
Lemma form_accepted busy s : canSubmit busy s = true → toVtzSpecInput (specFromForm s) = Ok (Some (spec_of s)).
Proof.
  intros (Hn & Hne & Hh)%canSubmit_name. destruct (name_levels _ Hn) as [_ Ht].
  unfold specFromForm, spec_of, toVtzSpecInput. generalize dependent (composed s). intros name Hn Hne Ht.
  destruct (form s) as [d zt tm lc ms h]. cbn [fm_description fm_zoneType fm_telemetry fm_lifecycle fm_microSegmentation fm_reauthIntervalHours] in *.
  cbn [typeof_object is_null negb orb get obj_get]. decide_tests. cbn [default from_option mbind result_bind]. unfold id.
  rewrite trim_token, bool_decide_eq_false_2 by done. rewrite Hh. by destruct zt, tm, lc.
Qed.

(** A zone opened and saved as it is stays where it is: one edit, of the zone by its own name. *)
Lemma opened_unmoved z : vtzNameProblem (ez_name z) = None → composed (openEditor (Some z)) = ez_name z ∧ moveTo (Some z) (openEditor (Some z)) = None.
Proof.
  intros Hn. pose proof (compose_split _ Hn) as H. unfold openEditor, moveTo, composed.
  destruct (splitZoneName (ez_name z)) as [p l]. cbn [fst snd parentName leaf] in *. by rewrite H, bool_decide_eq_true_2.
Qed.

Section editor.
Context {NS : NumberToString} {TN : ToNumberOther}.
Context (JSON_stringify : view → result string) (deps : ServerDeps) (session : OperatorSession) (openApiDocument : value).
Notation asks := (asks JSON_stringify deps session openApiDocument).
Hypothesis Hengine : operatorEngine deps = true.

(** What the zone editor commits, end to end: a form that may be submitted asks the engine, through the whole
    server, to create the zone or to edit it with exactly the name, description, type, telemetry, lifecycle,
    segmentation and session duration in the form; and a zone opened and saved with its name untouched is edited under
    its own name and not moved. *)
Theorem editor_commits_form zone s busy r :
  canSubmit busy s = true → request_of (runVtzCommand (submitted zone s)) = Some r →
  match zone with
  | None => asks r (c_vtzCommand (vtz_create (spec_of s)))
  | Some z => path_text (ez_id z) → ez_id z ∉ reserved_zones →
      asks r (c_vtzCommand (vtz_edit (spec_of s))) ∧
      (vtzNameProblem (ez_name z) = None → leaf s = leaf (openEditor zone) → parentName s = parentName (openEditor zone) →
         spec_name (spec_of s) = ez_name z ∧ moveTo zone s = None)
  end.
Proof using Hengine.
  intros Hs Hr. pose proof (form_accepted busy s Hs) as Ha. destruct zone as [z|]; cbn [submitted] in Hr.
  - intros Hi Hz. split; [eapply does_edit; [done..|exact Hr]|]. intros Hn Hl Hp.
    destruct (opened_unmoved z Hn) as [Hc _]. assert (composed s = ez_name z) as E by (rewrite <- Hc; unfold composed; by rewrite Hl, Hp).
    split; [done|]. unfold moveTo. by rewrite bool_decide_eq_true_2.
  - by eapply does_create.
Qed.

(** C8: A save that moves a zone edits the wrong zone: whenever the form's name differs from the zone's, the first
    engine call of the save -- meant to commit the settings of the zone before the move -- is an edit whose spec names
    the destination and not the zone, and the engine tells zones by the name in the spec; the move to that same
    destination follows only if the edit of it was accepted. *)
Theorem moving_save_edits_destination z s busy r name :
  canSubmit busy s = true → path_text (ez_id z) → ez_id z ∉ reserved_zones → moveTo (Some z) s = Some name →
  request_of (runVtzCommand (submitted (Some z) s)) = Some r →
  (∃ spec, asks r (c_vtzCommand (vtz_edit spec)) ∧ spec_name spec = name ∧ name ≠ ez_name z) ∧
  (∀ answers, match exchange_with answers (runVtzCommand (submitted (Some z) s)) with
              | ([r1; r2], _) => r1 = r ∧ asks r2 (c_vtzCommand (vtz_rescope (ez_id z) name)) ∧
                                 ∃ res b, answers !! 0%nat = Some (Some res) ∧ res_ok res = true ∧ res_json res = Some b
              | (rs, _) => rs = [r]
              end).
Proof using Hengine.
  intros Hs Hi Hz Hmv Hr. pose proof (form_accepted busy s Hs) as Ha. destruct (canSubmit_name _ _ Hs) as (Hn & Hne & _).
  assert (name = composed s ∧ composed s ≠ ez_name z) as [-> Hneq] by (unfold moveTo in Hmv; case_bool_decide; by simplify_eq).
  split; [exists (spec_of s); split; [eapply does_edit; [done..|exact Hr]|done]|]. intros answers.
  destruct (name_levels _ Hn) as [_ Ht]. cbn [submitted] in *. rewrite Hmv in *. unfold runVtzCommand, send_zone in *. cbn in Hr. injection Hr as <-.
  destruct answers as [|[res|] answers]; cbn; [reflexivity| |reflexivity]. destruct (res_ok res) eqn:Eo; cbn.
  2: { destruct (failureFor res); reflexivity. }
  unfold json. destruct (res_json res) as [b|] eqn:Ej; cbn; [|reflexivity].
  assert (asks (mkFetch "POST" (zone_url (ez_id z) +:+ "/rescope") (Some (VObj [("newName", VStr (composed s))])))
            (c_vtzCommand (vtz_rescope (ez_id z) (composed s)))) as Hmove.
  { apply (does_move _ _ _ _ Hengine _ _ _ Hi); [split; [by apply trim_token|done]|reflexivity]. }
  destruct answers as [|[res2|] answers]; cbn; [naive_solver| |naive_solver].
  destruct (res_ok res2); cbn; [unfold json; destruct (res_json res2); cbn; naive_solver|].
  destruct (failureFor res2); cbn; naive_solver.
Qed.
End editor.

(** ** What a failed save says *)

Definition told (e : console_error) : string := failureMessage (failure_kind (failureOf e)) (failure_committed (failureOf e)).

(** The edit of a save was accepted: the server answers 2xx only then. *)
Definition edit_accepted (answers : list (option fetch_response)) : Prop :=
  ∃ res b rest, answers = Some res :: rest ∧ res_ok res = true ∧ res_json res = Some b.

(** C36: What the operator is told when a save that moves a zone fails.  "The settings were committed" is said exactly
    when the edit was accepted and the move was then refused with a readable refusal; but when the edit was accepted and
    the answer to the move never arrives, or a 2xx of either step cannot be read, the operator is told "Nothing was
    committed". *)
Theorem save_failure_told id spec name answers rs e :
  exchange_with answers (runVtzCommand (zone_save id spec (Some name))) = (rs, Some (inr e)) →
  (failure_committed (failureOf e) = true ↔
     edit_accepted answers ∧ ∃ res2 f c, answers !! 1%nat = Some (Some res2) ∧ res_ok res2 = false ∧ failureFor res2 = VtzCommandError f c) ∧
  (edit_accepted answers → answers !! 1%nat = Some None → told e = "The zone could not be reached. Nothing was committed.").
Proof.
  intros H. cbn [runVtzCommand] in H. unfold send_zone in H. destruct answers as [|[res|] answers]; cbn in H; [done| |].
  2: { injection H as <- <-. split; [|by intros (? & ? & ? & ? & _)]. split; [done|]. by intros [(? & ? & ? & ? & _) _]. }
  destruct (res_ok res) eqn:Eo; cbn in H.
  2: { assert (failure_committed (failureOf e) = false) as Hf.
       { unfold failureFor in H. repeat case_match; cbn in H; simplify_eq; done. }
       rewrite Hf. split; [|intros (? & ? & ? & ? & ? & _); simplify_eq; congruence].
       split; [done|]. intros [(? & ? & ? & ? & ? & _) _]. simplify_eq; congruence. }
  unfold json in H. destruct (res_json res) as [b|] eqn:Ej; cbn in H.
  2: { injection H as <- <-. split; [|intros (? & ? & ? & ? & ? & ?); simplify_eq; congruence].
       split; [done|]. intros [(? & ? & ? & ? & ? & ?) _]. simplify_eq; congruence. }
  assert (edit_accepted (Some res :: answers)) as Hacc by (by exists res, b, answers).
  destruct answers as [|[res2|] answers]; cbn in H; [done| |].
  2: { injection H as <- <-. split; [|done]. split; [done|]. intros [_ (? & ? & ? & ? & _)]. simplify_eq; congruence. }
  split; [|done]. cbn. destruct (res_ok res2) eqn:Eo2; cbn in H.
  - unfold json in H. destruct (res_json res2); cbn in H; simplify_eq. split; [done|]. intros [_ (? & ? & ? & ? & ? & _)]. simplify_eq; congruence.
  - destruct (failureFor res2) as [| | | | | |f c] eqn:Ef; cbn in H; simplify_eq; cbn; (split; [try done|try done]); try (intros [_ (? & ? & ? & ? & ? & ?)]; simplify_eq; congruence).
    intros _. split; [done|]. by exists res2, f, c.
Qed.

#[local] Instance editor_numbers : NumberToString := λ _, "7".
#[local] Instance editor_toNumber : ToNumberOther := λ _, f64_NaN.
Definition sample_editor_deps : ServerDeps := mkServerDeps true true (mkConfig None None None None (mkRbac [] [] None)) [].
Definition sample_author : OperatorSession := mkSession "S" "auth0|1" None Admin "pid" "acme" tenant_admin 3600005.
Definition sample_edited : EditedZone := mkEdited "demo.sales" "demo.sales" standard full published true (f64_ofZ 8) 0.
Definition sample_moved : EditorState := mkEditor "sales" "demo.emea" (form (openEditor (Some sample_edited))).

Lemma save_failure_told_witness :
  told FetchFailed = "The zone could not be reached. Nothing was committed.".
Proof.
  apply (save_failure_told "demo.sales" VNull "demo.emea.sales" [Some (mkFetched 200 (Some VNull)); None]
    [mkFetch "PUT" "/api/vtz/demo.sales" (Some VNull);
     mkFetch "POST" "/api/vtz/demo.sales/rescope" (Some (VObj [("newName", VStr "demo.emea.sales")]))] FetchFailed); [vm_compute; reflexivity| |reflexivity].
  exists (mkFetched 200 (Some VNull)), VNull, [None]. done.
Defined.

Lemma moving_save_edits_destination_witness :
  ∃ spec, asks (λ _, Ok "") sample_editor_deps sample_author VNull (mkFetch "PUT" "/api/vtz/demo.sales" (Some (specFromForm sample_moved)))
            (c_vtzCommand (vtz_edit spec)) ∧ spec_name spec = "demo.emea.sales" ∧ "demo.emea.sales" ≠ ez_name sample_edited.
Proof.
  apply (moving_save_edits_destination (λ _, Ok "") sample_editor_deps sample_author VNull eq_refl sample_edited sample_moved false);
    [vm_compute; reflexivity|split; [reflexivity|by apply (bool_decide_unpack _)]|by apply (bool_decide_unpack _)|vm_compute; reflexivity|].
  cbn [submitted]. assert (moveTo (Some sample_edited) sample_moved = Some "demo.emea.sales") as -> by (vm_compute; reflexivity). reflexivity.
Defined.

Lemma editor_commits_form_witness :
  asks (λ _, Ok "") sample_editor_deps sample_author VNull
    (mkFetch "PUT" "/api/vtz/demo.sales" (Some (specFromForm (openEditor (Some sample_edited)))))
    (c_vtzCommand (vtz_edit (spec_of (openEditor (Some sample_edited))))) ∧
  moveTo (Some sample_edited) (openEditor (Some sample_edited)) = None.
Proof.
  destruct (editor_commits_form (λ _, Ok "") sample_editor_deps sample_author VNull eq_refl (Some sample_edited)
    (openEditor (Some sample_edited)) false (mkFetch "PUT" "/api/vtz/demo.sales" (Some (specFromForm (openEditor (Some sample_edited))))))
    as [H1 H2]; [vm_compute; reflexivity|reflexivity|split; [reflexivity|by apply (bool_decide_unpack _)]|by apply (bool_decide_unpack _)|].
  split; [exact H1|]. apply H2; vm_compute; reflexivity.
Defined.
