(* ===== verification/PolicyEditor.v ===== *)
(** * The policy form ([PolicyForm.tsx])

    What the form holds, the form a stored policy opens as, when it may be saved, and the
    draft a save authors: the cross product of the chosen subjects and targets.  The catalog
    is the list of objects the form loaded. *)
From S2P Require Import Prelude Bytes Float64 Cbor JsValue WireProofs JsString Num64 LineExchange Cache Rbac Sessions Cookie Oidc.
From S2P Require Import AuthRouter OperatorEngine Vtz VtzProofs PoliciesProofs Forge Distribute ReverseDns Routes JsOps Overview Users Objects EntityDetail Soc Settings.
From S2P Require Import Decimal ModelAccess Http Uri Console Server ConsoleProofs ConsoleCommands.
From S2P Require Import Policies.
From stdpp Require Import list.
Open Scope Z_scope.

(** A field declared a string. *)
Definition text (v : value) : string := match v with VStr s => s | _ => "" end.

(** ** Fields *)

(** [\d{1,5}] *)
Definition port_digits (s : string) : bool :=
  all_chars is_digit s && (1 <=? String.length s)%nat && (String.length s <=? 5)%nat.
(** [Number(s)] of such a text *)
Definition port_number (s : string) : Z := (digit_run 10 0 0 s).1.2.

Definition POLICY_PORT_MIN : Z := 1.
Definition POLICY_PORT_MAX : Z := 65535.
Definition POLICY_NAME_MAX_BYTES : Z := 128.
Definition POLICY_DESCRIPTION_MAX_BYTES : Z := 1024.

Definition port_entry (entry : string) : bool :=
  match cut_at hyphen entry with
  | Some (a, b) => port_digits a && port_digits b && (POLICY_PORT_MIN <=? port_number a) && (port_number b <=? POLICY_PORT_MAX) &&
                   (port_number a <? port_number b)
  | None => port_digits entry && (POLICY_PORT_MIN <=? port_number entry) && (port_number entry <=? POLICY_PORT_MAX)
  end.

Definition portsValid (input : string) : bool :=
  let trimmed := trim input in
  if bool_decide (trimmed = "") then true else forallb (λ raw, port_entry (trim raw)) (split_on comma trimmed).

Definition splitCsv (input : string) : list string := filter (λ s, s ≠ "") (map trim (split_on comma input)).

Definition digit_of (c : Ascii.ascii) : option Z := if is_digit c then Some (byte_of_ascii c - 48) else None.

(** [/^(\d{2}):(\d{2})$/], as minutes since midnight *)
Definition minutes_in (time : string) : option Z :=
  match time with
  | String a (String b (String colon (String c (String d "")))) =>
      if negb (Ascii.eqb colon (ascii_of_byte 58)) then None else a ← digit_of a; b ← digit_of b; c ← digit_of c; d ← digit_of d; Some ((10 * a + b) * 60 + (10 * c + d))
  | _ => None
  end.
Definition minutesOf (time : string) : value := match minutes_in time with Some m => VNum (f64_ofZ m) | None => VNull end.

(** [String(n).padStart(2, '0')] *)
Definition padded (n : Z) : string := let s := pretty n in if (String.length s <? 2)%nat then "0" +:+ s else s.

(** Whole minutes, as the store holds them. *)
Definition timeOf (minutes : value) : string :=
  match minutes with
  | VNum x => padded (f64_toZ x / 60) +:+ ":" +:+ padded (f64_toZ x mod 60)
  | _ => ""
  end.

(** ** The form *)

Record PolicyFormState := mkPolicyForm {
  pf_name : string; pf_vtz : string; pf_subjects : list string; pf_targets : list string; pf_protocols : list string;
  pf_ports : string; pf_action : string; pf_logging : string; pf_scheduleDays : list string; pf_start : string; pf_end : string;
  pf_geo : string; pf_tags : string; pf_appliedTo : string; pf_description : string; pf_classification : string }.

(** [(editing?.restrictions.geo ?? []).join(', ')] *)
Definition csv_of (v : value) : string := match v with VArr items => JsString.join ", " (map text items) | _ => "" end.

Definition openPolicy (editing : option PolicyRow) : PolicyFormState :=
  match editing with
  | None => mkPolicyForm "" "" [] [] [] "" "permit" "full" [] "" "" "" "" "" "" "internal"
  | Some row =>
      let d := row_draft row in let r := restrictions d in
      mkPolicyForm (text (name d)) (text (vtz d))
        (dedupe [] (map (λ r, text (selectorValue (source r))) (rules d)))
        (dedupe [] (map (λ r, text (selectorValue (destination r))) (rules d)))
        (protocols (network d)) (text (ports (network d)))
        (match rules d with r :: _ => action r | [] => "permit" end) (logging d) (scheduleDays r)
        (timeOf (scheduleStartMinute r)) (timeOf (scheduleEndMinute r)) (csv_of (geo r)) (csv_of (tags r))
        (JsString.join ", " (map (λ m, text (endpointCn m)) (appliedTo d))) (text (description d)) (maxClassification d)
  end.

(** [byValue.get(v)]: the last card with the selector value *)
Definition byValue (catalog : list ObjectCard) (v : string) : option ObjectCard :=
  List.find (λ c, is_str v (oc_selectorValue c)) (rev catalog).

Definition toEndpoint (card : ObjectCard) : RuleEndpoint := mkEndpoint (oc_kind card) (oc_selectorKind card) (oc_selectorValue card).

Definition policy_valid (s : PolicyFormState) : bool :=
  negb (bool_decide (trim (pf_name s) = "")) && negb (bool_decide (pf_vtz s = "")) && negb (bool_decide (pf_subjects s = [])) &&
  negb (bool_decide (pf_targets s = [])) && portsValid (pf_ports s) &&
  (utf8ByteLength (trim (pf_name s)) <=? POLICY_NAME_MAX_BYTES) && (utf8ByteLength (pf_description s) <=? POLICY_DESCRIPTION_MAX_BYTES).

(** Each subject to each target, with the one action. *)
Definition cross (sources dests : list ObjectCard) (act : string) : list PolicyRule :=
  flat_map (λ s, map (λ t, mkRule (toEndpoint s) (toEndpoint t) act) dests) sources.

Definition buildDraft (catalog : list ObjectCard) (s : PolicyFormState) : PolicyDraft :=
  mkDraft (VStr (pf_vtz s)) (VStr (trim (pf_name s))) (VStr (trim (pf_description s)))
    (cross (omap (byValue catalog) (pf_subjects s)) (omap (byValue catalog) (pf_targets s)) (pf_action s))
    (mkNetwork (pf_protocols s) (VStr (trim (pf_ports s))))
    (mkRestrictions (pf_scheduleDays s) (minutesOf (pf_start s)) (minutesOf (pf_end s)) VNull VNull
       (VArr (map VStr (splitCsv (pf_geo s)))) (VArr (map VStr (splitCsv (pf_tags s)))))
    (pf_logging s) (map (λ cn, mkMember (VStr cn) VNull) (splitCsv (pf_appliedTo s))) (pf_classification s).

(** The body of a draft. *)
Definition endpoint_body (e : RuleEndpoint) : value :=
  VObj [("kind", VStr (kind e)); ("selectorKind", VStr (selectorKind e)); ("selectorValue", selectorValue e)].
Definition rule_body (r : PolicyRule) : value :=
  VObj [("source", endpoint_body (source r)); ("destination", endpoint_body (destination r)); ("action", VStr (action r))].
Definition draft_body (d : PolicyDraft) : props :=
  [("vtz", vtz d); ("name", name d); ("description", description d); ("rules", VArr (map rule_body (rules d)));
   ("network", VObj [("protocols", VArr (map VStr (protocols (network d)))); ("ports", ports (network d))]);
   ("restrictions", let r := restrictions d in
     VObj [("scheduleDays", VArr (map VStr (scheduleDays r))); ("scheduleStartMinute", scheduleStartMinute r);
           ("scheduleEndMinute", scheduleEndMinute r); ("activeFrom", activeFrom r); ("activeUntil", activeUntil r);
           ("geo", geo r); ("tags", tags r)]);
   ("logging", VStr (logging d));
   ("appliedTo", VArr (map (λ m, VObj [("endpointCn", endpointCn m); ("agent", agent m)]) (appliedTo d)));
   ("maxClassification", VStr (maxClassification d))].

(** A save: nothing unless the form is valid. *)
Definition commitPolicy (editing : option PolicyRow) (catalog : list ObjectCard) (s : PolicyFormState) (publish : bool) : option (flow value) :=
  if policy_valid s
  then Some (save_policy_call (match editing with None => true | Some _ => false end)
               (option_map (λ row, text (row_id row)) editing) (pf_vtz s) (VObj (draft_body (buildDraft catalog s))) publish)
  else None.

(** The line under a failed save. *)
Definition commandFailure (error : console_error) : string :=
  match error with
  | StatusError "PolicyCommandError" status =>
      if status =? 409 then "A policy with that name already exists in the zone, or the version conflicts."
      else if status =? 400 then "The policy is incomplete or a field does not fit the engine contract."
      else if status =? 403 then "The engine refused the command (not authorized)."
      else if status =? 401 then "Your session has expired. Sign in again; nothing was committed."
      else if (status =? 502) || (status =? 503) then "The command could not reach the engine."
      else "The engine refused the command."
  | _ => "The command could not reach the engine."
  end.

(** ** Drafts the server accepts *)

Lemma tags_accepted known l : Forall (λ t, t ∈ known) l → toTagsInput known (VArr (map VStr l)) = Ok (Some l).
Proof.
  intros HF. unfold toTagsInput. cbn [or_else is_nullish]. apply project_all_Some.
  induction HF as [|t l Ht _ IH]; constructor; [|done]. by rewrite toTag_known.
Qed.

Lemma strings_accepted l : toStringArrayInput (VArr (map VStr l)) = Some (VArr (map VStr l)).
Proof. cbn. assert (forallb is_string (map VStr l) = true) as ->; [|done]. by induction l. Qed.

(** An endpoint of the catalog. *)
Definition endpoint_text (e : RuleEndpoint) : Prop := endpoint_ok e ∧ ∃ s, selectorValue e = VStr s.

Lemma endpoint_accepted e : endpoint_text e → toEndpointInput (endpoint_body e) = Ok (Some e).
Proof.
  intros [[Hk Hs] [v Hv]]. destruct e as [k sk sv]. cbn [kind selectorKind selectorValue] in *. subst sv.
  unfold toEndpointInput, endpoint_body, not_object. cbn [typeof_object is_null negb orb get obj_get kind selectorKind selectorValue]. decide_tests.
  cbn [default from_option mbind result_bind]. unfold id. by rewrite !toTag_known.
Qed.

Lemma rule_accepted r : endpoint_text (source r) → endpoint_text (destination r) → action r ∈ POLICY_ACTIONS →
  toRuleInput (rule_body r) = Ok (Some r).
Proof.
  intros Hs Hd Ha. unfold toRuleInput, rule_body, not_object. cbn [typeof_object is_null negb orb get obj_get]. decide_tests.
  cbn [default from_option mbind result_bind]. unfold id. rewrite !endpoint_accepted by done. cbn [mbind result_bind].
  rewrite toTag_known by done. by destruct r.
Qed.

Lemma members_accepted l : toAppliedToInput (VArr (map (λ m, VObj [("endpointCn", endpointCn m); ("agent", agent m)])
    (map (λ cn, mkMember (VStr cn) VNull) l))) = Ok (Some (map (λ cn, mkMember (VStr cn) VNull) l)).
Proof.
  unfold toAppliedToInput. cbn [or_else is_nullish]. apply project_all_Some. induction l as [|cn l IH]; constructor; [|exact IH].
  reflexivity.
Qed.

(** A form filled in through the page: choices come from the lists shown, the objects from the catalog, times from the
    time inputs. *)
Record form_ok (catalog : list ObjectCard) (s : PolicyFormState) : Prop := {
  ok_valid : policy_valid s = true;
  ok_zone : trim (pf_vtz s) = pf_vtz s;
  ok_subjects : NoDup (pf_subjects s) ∧ Forall (λ v, is_Some (byValue catalog v)) (pf_subjects s);
  ok_targets : NoDup (pf_targets s) ∧ Forall (λ v, is_Some (byValue catalog v)) (pf_targets s);
  ok_cards : Forall (λ c, endpoint_ok (toEndpoint c)) catalog;
  ok_protocols : Forall (λ p, p ∈ POLICY_PROTOCOLS) (pf_protocols s);
  ok_days : Forall (λ d, d ∈ SCHEDULE_DAYS) (pf_scheduleDays s);
  ok_choices : pf_action s ∈ POLICY_ACTIONS ∧ pf_logging s ∈ POLICY_LOGGING ∧ pf_classification s ∈ POLICY_CLASSIFICATIONS;
  ok_times : Forall (λ t, ∀ m, minutes_in t = Some m → 0 ≤ m < 1440) [pf_start s; pf_end s] }.

Lemma byValue_Some catalog v c : byValue catalog v = Some c → c ∈ catalog ∧ oc_selectorValue c = VStr v.
Proof.
  intros [Hin Hs]%List.find_some. apply is_str_iff in Hs. split; [|done]. by apply list_elem_of_In, in_rev.
Qed.

Lemma cross_elem sources dests act r : r ∈ cross sources dests act ↔
  ∃ s t, s ∈ sources ∧ t ∈ dests ∧ r = mkRule (toEndpoint s) (toEndpoint t) act.
Proof.
  unfold cross. rewrite list_elem_of_In, in_flat_map. setoid_rewrite in_map_iff. setoid_rewrite <- list_elem_of_In. naive_solver.
Qed.

Lemma omap_all {A B} (f : A → option B) l : Forall (λ x, is_Some (f x)) l → Forall2 (λ x y, f x = Some y) l (omap f l).
Proof. induction 1 as [|x l [y Hy] _ IH]; cbn; [constructor|]. rewrite Hy. by constructor. Qed.

Lemma form_cards catalog s (v : list string) : form_ok catalog s → ∀ c, c ∈ omap (byValue catalog) v → endpoint_text (toEndpoint c).
Proof.
  intros Hf c (x & _ & Hx)%list_elem_of_omap. apply byValue_Some in Hx as [Hin Hv]. split; [|by exists x].
  destruct Hf as [_ _ _ _ Hc _ _ _ _]. by rewrite Forall_forall in Hc; apply Hc.
Qed.

Lemma minutes_accepted t : (∀ m, minutes_in t = Some m → 0 ≤ m < 1440) → toEpochInput (minutesOf t) = Some (minutesOf t).
Proof.
  intros Hm. unfold minutesOf. destruct (minutes_in t) as [m|]; [|done]. specialize (Hm m eq_refl). cbn.
  by destruct (f64_ofZ_parts m ltac:(unfold MAX_SAFE; lia)) as (_ & -> & _).
Qed.

Lemma form_texts s : policy_valid s = true → trim (pf_name s) ≠ "" ∧ pf_vtz s ≠ "" ∧ pf_subjects s ≠ [] ∧ pf_targets s ≠ [].
Proof.
  unfold policy_valid. rewrite !andb_true_iff, !negb_true_iff, !bool_decide_eq_false. naive_solver.
Qed.

(** The rules of a form are all accepted, and there are some. *)
Lemma form_rules catalog s : form_ok catalog s → let rs := rules (buildDraft catalog s) in
  project_all toRuleInput (map rule_body rs) = Ok (Some rs) ∧ rs ≠ [].
Proof.
  intros Hf. destruct (form_texts s (ok_valid _ _ Hf)) as (_ & _ & Hs & Ht). cbn zeta. split.
  - apply project_all_Some. assert (Forall (λ r, toRuleInput (rule_body r) = Ok (Some r)) (rules (buildDraft catalog s))) as HF.
    { apply Forall_forall. intros r (a & b & Ha & Hb & ->)%cross_elem.
      apply rule_accepted; [by eapply form_cards|by eapply form_cards|apply (ok_choices _ _ Hf)]. }
    induction HF; by constructor.
  - destruct Hf as [_ _ [_ HS] [_ HT] _ _ _ _ _]. apply omap_all in HS. apply omap_all in HT. cbn [rules buildDraft].
    destruct HS as [|? x ? xs _ _]; [done|]. destruct HT as [|? y ? ys _ _]; [done|]. done.
Qed.

Lemma network_accepted ps po : Forall (λ p, p ∈ POLICY_PROTOCOLS) ps →
  toNetworkInput (VObj [("protocols", VArr (map VStr ps)); ("ports", VStr po)]) = Ok (Some (mkNetwork ps (VStr po))).
Proof.
  intros HF. unfold toNetworkInput. cbn [is_nullish typeof_object negb get obj_get]. decide_tests. cbn [default from_option mbind result_bind].
  unfold id. by rewrite tags_accepted.
Qed.

Lemma restrictions_accepted ds sm em ge ta : Forall (λ d, d ∈ SCHEDULE_DAYS) ds → toEpochInput sm = Some sm → toEpochInput em = Some em →
  toRestrictionsInput (VObj [("scheduleDays", VArr (map VStr ds)); ("scheduleStartMinute", sm); ("scheduleEndMinute", em);
    ("activeFrom", VNull); ("activeUntil", VNull); ("geo", VArr (map VStr ge)); ("tags", VArr (map VStr ta))]) =
  Ok (Some (mkRestrictions ds sm em VNull VNull (VArr (map VStr ge)) (VArr (map VStr ta)))).
Proof.
  intros HF Hs He. unfold toRestrictionsInput. cbn [is_nullish typeof_object negb get obj_get]. decide_tests.
  cbn [default from_option mbind result_bind]. unfold id. rewrite tags_accepted by done. cbn [mbind result_bind].
  by rewrite Hs, He, !strings_accepted.
Qed.

(** The server takes the draft of a form as it is. *)
Lemma form_accepts catalog s : form_ok catalog s →
  toPolicyDraftInput (VObj (draft_body (buildDraft catalog s))) = Ok (Some (buildDraft catalog s)).
Proof.
  intros Hf. destruct (form_texts s (ok_valid _ _ Hf)) as (Hn & Hz & _ & _). destruct (form_rules catalog s Hf) as [Hr Hne].
  destruct Hf as [_ Htz _ _ _ Hpr Hda (_ & Hlg & Hcl) Hti]. rewrite !Forall_cons in Hti. destruct Hti as (Hst & Hen & _).
  unfold toPolicyDraftInput, not_object. cbn [draft_body typeof_object is_null negb orb get obj_get]. decide_tests.
  cbn [default from_option mbind result_bind]. unfold id.
  destruct (rules (buildDraft catalog s)) as [|r rs] eqn:Er; [done|]. cbn [map]. rewrite <- (map_cons rule_body r rs), Hr.
  unfold buildDraft in Er |- *. cbn [name vtz description logging maxClassification network restrictions appliedTo protocols ports
    scheduleDays scheduleStartMinute scheduleEndMinute activeFrom activeUntil geo tags rules] in *.
  rewrite trim_idem, Htz, !bool_decide_eq_false_2, !toTag_known by done. cbn [orb mbind result_bind].
  rewrite network_accepted by done. cbn [mbind result_bind].
  rewrite restrictions_accepted by (done || by apply minutes_accepted). cbn [mbind result_bind].
  rewrite members_accepted. cbn [mbind result_bind]. by rewrite Er.
Qed.

(** ** Reopening *)

Lemma dedupe_skip seen a b : Forall (λ x, x ∈ seen) a → dedupe seen (a ++ b) = dedupe seen b.
Proof. induction 1 as [|x a Hx _ IH]; [done|]. cbn. by rewrite decide_True. Qed.

Lemma dedupe_fresh seen a b : NoDup a → (∀ x, x ∈ a → x ∉ seen) → dedupe seen (a ++ b) = a ++ dedupe (rev a ++ seen) b.
Proof.
  intros Hd. revert seen. induction Hd as [|x a Hx _ IH]; intros seen Hs; [done|]. cbn. rewrite decide_False by (apply Hs; left).
  rewrite IH; [by rewrite <- app_assoc|]. intros y Hy [->|H]%elem_of_cons; [done|]. apply (Hs y); [by right|done].
Qed.

(** Distinct values of the rows and of the columns of a table. *)
Lemma dedupe_rows {A} (f : A → string) (n : nat) xs seen : (0 < n)%nat → NoDup (map f xs) → (∀ x, x ∈ map f xs → x ∉ seen) →
  dedupe seen (flat_map (λ x, repeat (f x) n) xs) = map f xs.
Proof.
  intros Hn. revert seen. induction xs as [|x xs IH]; intros seen Hd Hs; [done|]. cbn [map flat_map] in *. apply NoDup_cons in Hd as [Hx Hd].
  destruct n as [|n]; [lia|]. cbn [repeat app dedupe]. rewrite decide_False by (apply Hs; left). f_equal.
  rewrite dedupe_skip by (apply Forall_forall; intros y Hy%list_elem_of_In%repeat_spec; subst; left). apply IH; [done|].
  intros y Hy [->|H]%elem_of_cons; [done|]. apply (Hs y); [by right|done].
Qed.

Lemma dedupe_columns {A} (xs : list A) (vs : list string) : xs ≠ [] → NoDup vs → dedupe [] (flat_map (λ _, vs) xs) = vs.
Proof.
  destruct xs as [|x xs]; [done|]. intros _ Hd. cbn [flat_map]. rewrite dedupe_fresh; [|done|set_solver].
  rewrite <- (app_nil_r (flat_map _ xs)), dedupe_skip; [cbn; by rewrite app_nil_r|].
  apply Forall_forall. intros y Hy%list_elem_of_In%in_flat_map. destruct Hy as (_ & _ & Hy). rewrite app_nil_r. apply list_elem_of_In. by apply -> in_rev.
Qed.

(** A list in a text field. *)
Lemma trim_space s : trim (" " +:+ s) = trim s.
Proof. unfold trim. change (String.length (" " +:+ s)) with (S (String.length s)). cbn [trim_front]. by change (strip_any WHITESPACE (" " +:+ s)) with (Some s). Qed.

Lemma split_space s : split_on comma (" " +:+ s) = match split_on comma s with w :: ws => (" " +:+ w) :: ws | [] => [" "] end.
Proof. done. Qed.

Lemma split_list l : l ≠ [] → Forall (λ x, no_char comma x = true) l →
  map trim (split_on comma (JsString.join ", " l)) = map trim l.
Proof.
  intros Hne HF. induction HF as [|x l Hx HF IH]; [done|]. destruct l as [|y l].
  - cbn [JsString.join]. change (JsString.join ", " [x]) with x. by rewrite split_none.
  - change (JsString.join ", " (x :: y :: l)) with (x +:+ String comma (" " +:+ JsString.join ", " (y :: l))).
    rewrite split_app, split_none, split_space by done. specialize (IH ltac:(done)).
    destruct (split_on comma (JsString.join ", " (y :: l))) as [|w ws]; [done|]. cbn [app map] in *. rewrite trim_space. by f_equal.
Qed.

Lemma no_comma_trim s : no_char comma s = true → no_char comma (trim s) = true.
Proof.
  assert (∀ ps n t, no_char comma t = true → no_char comma (trim_front ps n t) = true) as Hf.
  { intros ps n t Ht. destruct (trim_front_suffix ps n t) as [u E]. rewrite E, no_char_app in Ht. by apply andb_prop in Ht as [_ ?]. }
  intros Hs. unfold trim. rewrite no_char_rev, andb_true_r. apply Hf. rewrite no_char_rev, andb_true_r. by apply Hf.
Qed.

(** What is split off a field is joined and split again unchanged. *)
Lemma splitCsv_join s : splitCsv (JsString.join ", " (splitCsv s)) = splitCsv s.
Proof.
  assert (Forall (λ x, no_char comma x = true ∧ trim x = x ∧ x ≠ "") (splitCsv s)) as HF.
  { unfold splitCsv. apply Forall_forall. intros x [Hne Hx]%list_elem_of_filter. apply list_elem_of_In, in_map_iff in Hx as (y & <- & Hy).
    split_and!; [|by rewrite trim_idem|done]. apply no_comma_trim. pose proof (split_no_char comma s) as H. rewrite Forall_forall in H.
    by apply H, list_elem_of_In. }
  destruct (splitCsv s) as [|x l] eqn:E; [done|]. rewrite <- E in *. clear E x l. unfold splitCsv at 1.
  destruct (decide (splitCsv s = [])) as [->|Hne]; [done|].
  rewrite split_list by (done || by apply (Forall_impl _ _ _ HF); naive_solver).
  induction HF as [|x l (_ & Hx & Hx') _ IH]; [done|]. cbn [map]. rewrite Hx, filter_cons_True by done. f_equal.
  destruct l; [done|]. by apply IH.
Qed.

(** A time of day. *)
Lemma timeOf_minutes m : 0 ≤ m < 1440 → minutes_in (timeOf (VNum (f64_ofZ m))) = Some m.
Proof.
  intros Hm. cbn [timeOf]. destruct (f64_ofZ_spec m ltac:(unfold MAX_SAFE; lia)) as (_ & -> & _).
  assert (forallb (λ m, bool_decide (minutes_in (padded (m / 60) +:+ ":" +:+ padded (m mod 60)) = Some m)) (seqZ 0 1440) = true) as H
    by (vm_compute; reflexivity).
  rewrite forallb_forall in H. specialize (H m). rewrite <- list_elem_of_In, elem_of_seqZ in H. specialize (H ltac:(lia)).
  by apply bool_decide_eq_true in H.
Qed.

Lemma minutes_reopen t : (∀ m, minutes_in t = Some m → 0 ≤ m < 1440) → minutesOf (timeOf (minutesOf t)) = minutesOf t.
Proof.
  intros Hm. unfold minutesOf at 2 3. destruct (minutes_in t) as [m|] eqn:E; [|done]. unfold minutesOf. by rewrite timeOf_minutes by auto.
Qed.

Definition card_value (c : ObjectCard) : string := text (oc_selectorValue c).

Lemma cards_values catalog vs : Forall (λ v, is_Some (byValue catalog v)) vs → map card_value (omap (byValue catalog) vs) = vs.
Proof.
  intros HF%omap_all. induction HF as [|v c vs cs Hc _ IH]; [done|]. cbn [map]. rewrite IH.
  destruct (byValue_Some _ _ _ Hc) as [_ E]. unfold card_value. by rewrite E.
Qed.

Lemma cross_sources S T act : map (λ r, text (selectorValue (source r))) (cross S T act) = flat_map (λ s, repeat (card_value s) (length T)) S.
Proof.
  unfold cross. induction S as [|s S IH]; [done|]. cbn [flat_map]. rewrite map_app, IH. f_equal. rewrite map_map. cbn [source selectorValue toEndpoint].
  change (text (oc_selectorValue s)) with (card_value s). clear IH. induction T as [|t T IHT]; [done|]. cbn [map length repeat]. by rewrite IHT.
Qed.

Lemma cross_destinations S T act : map (λ r, text (selectorValue (destination r))) (cross S T act) = flat_map (λ _, map card_value T) S.
Proof. unfold cross. induction S as [|s S IH]; [done|]. cbn [flat_map]. rewrite map_app, IH. f_equal. by rewrite map_map. Qed.

Lemma texts_of l : map text (map VStr l) = l.
Proof. rewrite map_map. by apply map_id. Qed.

(** The endpoints a form reopens with are the ones it was saved with. *)
Lemma reopened_endpoints catalog s i v l : form_ok catalog s →
  pf_subjects (openPolicy (Some (mkRow i v l (buildDraft catalog s)))) = pf_subjects s ∧
  pf_targets (openPolicy (Some (mkRow i v l (buildDraft catalog s)))) = pf_targets s ∧
  pf_action (openPolicy (Some (mkRow i v l (buildDraft catalog s)))) = pf_action s.
Proof.
  intros Hf. destruct (form_texts s (ok_valid _ _ Hf)) as (_ & _ & HS & HT). destruct (form_rules catalog s Hf) as [_ Hne].
  destruct Hf as [_ _ [HdS HS'] [HdT HT'] _ _ _ _ _]. pose proof (cards_values _ _ HS') as ES. pose proof (cards_values _ _ HT') as ET.
  cbn [openPolicy row_draft buildDraft rules pf_subjects pf_targets pf_action].
  set (S := omap (byValue catalog) (pf_subjects s)) in *. set (T := omap (byValue catalog) (pf_targets s)) in *. split_and!.
  - rewrite cross_sources, dedupe_rows; [done| |by rewrite ES|set_solver].
    destruct T; [by rewrite <- ET in HT|cbn; lia].
  - rewrite cross_destinations, dedupe_columns; [done| |by rewrite ET]. intros E. by rewrite <- ES, E in HS.
  - assert (Forall (λ r, action r = pf_action s) (cross S T (pf_action s))) as HF.
    { apply Forall_forall. by intros r (? & ? & _ & _ & ->)%cross_elem. }
    cbn [rules buildDraft] in Hne. fold S T in Hne. by destruct HF.
Qed.

(** ** What a draft must say *)

(** The minutes of a text of two digits, a colon and two digits; no other text has any. *)
Definition time_says (t : string) (v : value) : Prop :=
  match v with
  | VNum x => ∃ h m, 0 ≤ h < 100 ∧ 0 ≤ m < 100 ∧ t = padded h +:+ ":" +:+ padded m ∧ x = f64_ofZ (60 * h + m)
  | VNull => ∀ h m, 0 ≤ h < 100 → 0 ≤ m < 100 → t ≠ padded h +:+ ":" +:+ padded m
  | _ => False
  end.

(** The entries of a comma-separated field: its parts trimmed, in order, less the blank ones. *)
Definition list_says (field : string) (v : value) : Prop :=
  v = VArr (map VStr (filter (λ w, w ≠ "") (map trim (split_on comma field)))).

(** The rules of a table of subjects and targets, row by row: one for each pair and no other. *)
Definition rules_say (catalog : list ObjectCard) (s : PolicyFormState) (rs : list PolicyRule) : Prop :=
  length rs = (length (pf_subjects s) * length (pf_targets s))%nat ∧
  ∀ i j u v, pf_subjects s !! i = Some u → pf_targets s !! j = Some v →
    ∃ cu cv, byValue catalog u = Some cu ∧ byValue catalog v = Some cv ∧
      rs !! (i * length (pf_targets s) + j)%nat = Some (mkRule (toEndpoint cu) (toEndpoint cv) (pf_action s)).

(** The form a saved policy opens as: texts trimmed, times and lists written out anew. *)
Definition tidy_time (t : string) : string :=
  match minutes_in t with Some m => padded (m / 60) +:+ ":" +:+ padded (m mod 60) | None => "" end.
Definition tidy_list (field : string) : string := JsString.join ", " (filter (λ w, w ≠ "") (map trim (split_on comma field))).
Definition tidied (s : PolicyFormState) : PolicyFormState :=
  mkPolicyForm (trim (pf_name s)) (pf_vtz s) (pf_subjects s) (pf_targets s) (pf_protocols s) (trim (pf_ports s)) (pf_action s)
    (pf_logging s) (pf_scheduleDays s) (tidy_time (pf_start s)) (tidy_time (pf_end s)) (tidy_list (pf_geo s)) (tidy_list (pf_tags s))
    (tidy_list (pf_appliedTo s)) (trim (pf_description s)) (pf_classification s).

Record form_says (catalog : list ObjectCard) (s : PolicyFormState) (d : PolicyDraft) : Prop := {
  says_zone : vtz d = VStr (pf_vtz s);
  says_texts : name d = VStr (trim (pf_name s)) ∧ description d = VStr (trim (pf_description s));
  says_rules : rules_say catalog s (rules d);
  says_network : network d = mkNetwork (pf_protocols s) (VStr (trim (pf_ports s)));
  says_days : scheduleDays (restrictions d) = pf_scheduleDays s;
  says_start : time_says (pf_start s) (scheduleStartMinute (restrictions d));
  says_end : time_says (pf_end s) (scheduleEndMinute (restrictions d));
  says_window : activeFrom (restrictions d) = VNull ∧ activeUntil (restrictions d) = VNull;
  says_geo : list_says (pf_geo s) (geo (restrictions d));
  says_tags : list_says (pf_tags s) (tags (restrictions d));
  says_members : list_says (pf_appliedTo s) (VArr (map endpointCn (appliedTo d))) ∧ Forall (λ m, agent m = VNull) (appliedTo d);
  says_choices : logging d = pf_logging s ∧ maxClassification d = pf_classification s }.

Lemma digit_of_Some c x : digit_of c = Some x → 0 ≤ x < 10 ∧ c = ascii_of_byte (48 + x).
Proof. revert c x. each_char; vm_compute; intros x [= <-]; done. Qed.

Lemma padded_digits x y : 0 ≤ x < 10 → 0 ≤ y < 10 →
  padded (10 * x + y) = String (ascii_of_byte (48 + x)) (String (ascii_of_byte (48 + y)) "").
Proof.
  intros Hx Hy.
  assert (forallb (λ n, bool_decide (padded n = String (ascii_of_byte (48 + n / 10)) (String (ascii_of_byte (48 + n mod 10)) ""))) (seqZ 0 100) = true)
    as H by (vm_compute; reflexivity).
  rewrite forallb_forall in H. specialize (H (10 * x + y)). rewrite <- list_elem_of_In, elem_of_seqZ in H. specialize (H ltac:(lia)).
  apply bool_decide_eq_true in H. assert ((10 * x + y) / 10 = x ∧ (10 * x + y) mod 10 = y) as [E1 E2] by (Z.div_mod_to_equations; lia).
  by rewrite H, E1, E2.
Qed.

Lemma minutes_padded h m : 0 ≤ h < 100 → 0 ≤ m < 100 → minutes_in (padded h +:+ ":" +:+ padded m) = Some (60 * h + m).
Proof.
  intros Hh Hm. assert (∀ n, 0 ≤ n < 100 → ∃ x y, 0 ≤ x < 10 ∧ 0 ≤ y < 10 ∧ n = 10 * x + y) as Hd.
  { intros n Hn. exists (n / 10), (n mod 10). Z.div_mod_to_equations. lia. }
  destruct (Hd h Hh) as (a & b & Ha & Hb & ->), (Hd m Hm) as (c & d & Hc & Hd' & ->). rewrite !padded_digits by done.
  assert (∀ x, 0 ≤ x < 10 → digit_of (ascii_of_byte (48 + x)) = Some x) as Hx.
  { intros x Hx. assert (x = 0 ∨ x = 1 ∨ x = 2 ∨ x = 3 ∨ x = 4 ∨ x = 5 ∨ x = 6 ∨ x = 7 ∨ x = 8 ∨ x = 9) as Hin by lia.
    destruct_or! Hin; subst; done. }
  unfold minutes_in.
  change (_ +:+ _) with (String (ascii_of_byte (48 + a)) (String (ascii_of_byte (48 + b)) (String (ascii_of_byte 58)
    (String (ascii_of_byte (48 + c)) (String (ascii_of_byte (48 + d)) ""))))).
  cbv beta iota. rewrite Ascii.eqb_refl. cbn [negb]. rewrite !Hx by done. cbn [mbind option_bind]. f_equal. lia.
Qed.

Lemma minutes_in_Some t n : minutes_in t = Some n → ∃ h m, 0 ≤ h < 100 ∧ 0 ≤ m < 100 ∧ t = padded h +:+ ":" +:+ padded m ∧ n = 60 * h + m.
Proof.
  destruct t as [|a [|b [|co [|c [|d [|? ?]]]]]]; try done. cbn [minutes_in]. destruct (Ascii.eqb_spec co (ascii_of_byte 58)) as [->|]; [|done]. cbn [negb].
  destruct (digit_of a) as [x|] eqn:Ea; [|done]. destruct (digit_of b) as [y|] eqn:Eb; [|done].
  destruct (digit_of c) as [z|] eqn:Ec; [|done]. destruct (digit_of d) as [w|] eqn:Ed; [|done]. cbn. intros [= <-].
  apply digit_of_Some in Ea as [? ->], Eb as [? ->], Ec as [? ->], Ed as [? ->]. exists (10 * x + y), (10 * z + w).
  rewrite !padded_digits by done. split_and!; [lia..|done|lia].
Qed.

Lemma minutesOf_says t : time_says t (minutesOf t).
Proof.
  unfold minutesOf. destruct (minutes_in t) as [n|] eqn:E; cbn.
  - destruct (minutes_in_Some t n E) as (h & m & ? & ? & ? & ->). by exists h, m.
  - intros h m Hh Hm ->. by rewrite minutes_padded in E.
Qed.

(** A table of fixed width, cell by cell. *)
Lemma table_lookup {A B} (f : A → list B) n xs i j x : Forall (λ x, length (f x) = n) xs → xs !! i = Some x → (j < n)%nat →
  flat_map f xs !! (i * n + j)%nat = f x !! j.
Proof.
  intros HF. revert i. induction HF as [|y xs Hy _ IH]; intros [|i] Hx Hj; try done; cbn [flat_map].
  - injection Hx as ->. by rewrite lookup_app_l by lia.
  - rewrite lookup_app_r by (rewrite Hy; lia). rewrite Hy. replace (S i * n + j - n)%nat with (i * n + j)%nat by lia. by apply IH.
Qed.

Lemma cross_say catalog s : Forall (λ v, is_Some (byValue catalog v)) (pf_subjects s) → Forall (λ v, is_Some (byValue catalog v)) (pf_targets s) →
  rules_say catalog s (rules (buildDraft catalog s)).
Proof.
  intros HS%omap_all HT%omap_all. cbn [buildDraft rules]. unfold cross.
  set (S := omap (byValue catalog) (pf_subjects s)) in *. set (T := omap (byValue catalog) (pf_targets s)) in *.
  split.
  - rewrite (Forall2_length _ _ _ HS), (Forall2_length _ _ _ HT). clearbody S T. clear. induction S as [|x S IH]; [done|]. cbn [flat_map length]. rewrite length_app, length_map, IH. lia.
  - intros i j u v Hu Hv. destruct (Forall2_lookup_l _ _ _ _ _ HS Hu) as (cu & Hcu & Ecu). destruct (Forall2_lookup_l _ _ _ _ _ HT Hv) as (cv & Hcv & Ecv).
    exists cu, cv. do 2 (split; [done|]). apply Forall2_length in HT. rewrite HT.
    rewrite (table_lookup _ (length T) S i j cu); [|apply Forall_forall; intros; apply length_map|done|by eapply lookup_lt_Some].
    etransitivity; [apply (list_lookup_fmap (λ t, mkRule (toEndpoint cu) (toEndpoint t) (pf_action s)) T j)|]. by rewrite Hcv.
Qed.

Lemma buildDraft_says catalog s : form_ok catalog s → form_says catalog s (buildDraft catalog s).
Proof.
  intros Hf. constructor; try done; try apply minutesOf_says.
  - apply cross_say; [apply (ok_subjects _ _ Hf)|apply (ok_targets _ _ Hf)].
  - cbn [buildDraft appliedTo]. rewrite map_map. split; [done|].
    apply Forall_forall. intros m Hm%list_elem_of_In%in_map_iff. by destruct Hm as (? & <- & _).
Qed.

Lemma time_tidied t : (∀ m, minutes_in t = Some m → 0 ≤ m < 1440) → timeOf (minutesOf t) = tidy_time t.
Proof.
  intros Hm. unfold minutesOf, tidy_time. destruct (minutes_in t) as [m|]; [|done]. specialize (Hm m eq_refl). cbn [timeOf].
  by destruct (f64_ofZ_spec m ltac:(unfold MAX_SAFE; lia)) as (_ & -> & _).
Qed.

Lemma reopened_form catalog s i v l : form_ok catalog s → openPolicy (Some (mkRow i v l (buildDraft catalog s))) = tidied s.
Proof.
  intros Hf. destruct (reopened_endpoints catalog s i v l Hf) as (ES & ET & EA).
  destruct Hf as [_ _ _ _ _ _ _ _ Hti]. rewrite !Forall_cons in Hti. destruct Hti as (Hst & Hen & _).
  unfold openPolicy in *. cbn [pf_subjects pf_targets pf_action] in *. rewrite ES, ET, EA.
  unfold tidied. cbn [row_draft buildDraft name vtz description network protocols ports restrictions scheduleDays scheduleStartMinute
    scheduleEndMinute geo tags logging appliedTo maxClassification text csv_of].
  rewrite !time_tidied, !texts_of by done. rewrite map_map. cbn [endpointCn text]. by rewrite map_id.
Qed.

Section editor.
Context {NS : NumberToString} {TN : ToNumberOther}.
Context (JSON_stringify : view → result string) (deps : ServerDeps) (session : OperatorSession) (openApiDocument : value).
Notation asks := (asks JSON_stringify deps session openApiDocument).
Hypothesis Hengine : operatorEngine deps = true.

(** C7: What the policy form commits, end to end.  A valid form whose subjects and targets are distinct objects of the
    catalog, whose choices are among those offered and whose times are times of day asks the engine, through the whole
    server, to create the policy, or to edit the one it opened, with a draft that says what the form says: exactly one
    rule for each chosen subject and each chosen target, in the order of the form, under the one action; the times of
    day as minutes; the non-blank entries of the lists in order.  The policy so authored opens as the form it was saved
    from with its texts trimmed and its times and lists tidied, and a save of that form authors the same draft. *)
Theorem policy_form_commits catalog s publish r :
  form_ok catalog s → form_says catalog s (buildDraft catalog s) ∧
  (∀ c, commitPolicy None catalog s publish = Some c → request_of c = Some r → asks r (c_createPolicy (buildDraft catalog s))) ∧
  (∀ row c id, row_id row = VStr id → trim id = id → id ≠ "" → commitPolicy (Some row) catalog s publish = Some c →
     request_of c = Some r → asks r (c_editPolicy id (buildDraft catalog s))) ∧
  (∀ i v l, openPolicy (Some (mkRow i v l (buildDraft catalog s))) = tidied s) ∧
  buildDraft catalog (tidied s) = buildDraft catalog s.
Proof using Hengine.
  intros Hf. pose proof (form_accepts catalog s Hf) as Ha. unfold commitPolicy. rewrite (ok_valid _ _ Hf).
  split; [by apply buildDraft_says|]. split_and!.
  - intros c [= <-] Hr. by eapply does_create_policy.
  - intros row c id Hid Ht Hne [= <-] Hr. rewrite Hid in Hr. cbn [option_map text] in Hr.
    apply (does_edit_policy _ _ _ _ Hengine r id (pf_vtz s) (draft_body (buildDraft catalog s)) publish); [by split| |reflexivity|exact Ha|exact Hr].
    by apply (bool_decide_unpack _).
  - intros i v l. by apply reopened_form.
  - destruct Hf as [_ _ _ _ _ _ _ _ Hti]. rewrite !Forall_cons in Hti. destruct Hti as (Hst & Hen & _).
    unfold buildDraft, tidied. cbn [pf_name pf_vtz pf_subjects pf_targets pf_protocols pf_ports pf_action pf_logging pf_scheduleDays pf_start pf_end
      pf_geo pf_tags pf_appliedTo pf_description pf_classification].
    rewrite <- !time_tidied, !trim_idem, !minutes_reopen by done. change tidy_list with (λ f, JsString.join ", " (splitCsv f)). cbv beta.
    by rewrite !splitCsv_join.
Qed.

End editor.

(** C15: Saving a policy that was not authored as a cross product widens it.  Whatever rules the stored policy has, a
    save of the untouched form authors, for any two of its rules whose endpoints the catalog still has, a rule from the
    source of the one to the destination of the other under the action of the first rule; and it drops the active
    window and the agents of the endpoints the policy applies to. *)
Theorem policy_resave_widens catalog row r1 r2 c1 c2 :
  let d := row_draft row in let d' := buildDraft catalog (openPolicy (Some row)) in
  r1 ∈ rules d → r2 ∈ rules d → byValue catalog (text (selectorValue (source r1))) = Some c1 →
  byValue catalog (text (selectorValue (destination r2))) = Some c2 →
  (∃ r0, head (rules d) = Some r0 ∧ mkRule (toEndpoint c1) (toEndpoint c2) (action r0) ∈ rules d') ∧
  activeFrom (restrictions d') = VNull ∧ activeUntil (restrictions d') = VNull ∧ Forall (λ m, agent m = VNull) (appliedTo d').
Proof.
  intros d d' H1 H2 Hc1 Hc2. subst d d'. split_and!; [|done|done|].
  - destruct (rules (row_draft row)) as [|r0 rs] eqn:E; [by apply elem_of_nil in H1|]. exists r0. split; [done|].
    unfold buildDraft. cbn [rules openPolicy pf_subjects pf_targets pf_action]. rewrite E. apply cross_elem. exists c1, c2.
    assert (∀ xs seen x, x ∈ xs → x ∉ seen → x ∈ dedupe seen xs) as Hin.
    { clear. induction xs as [|y xs IH]; intros seen x Hx Hs; [by inversion Hx|]. cbn. destruct (decide (y ∈ seen)) as [Hy|Hy].
      - apply elem_of_cons in Hx as [->|Hx]; [done|auto].
      - destruct (decide (x = y)) as [->|Hne]; [left|]. right. apply elem_of_cons in Hx as [->|Hx]; [done|]. apply IH; [done|].
        intros [->|H]%elem_of_cons; done. }
    split_and!; [| |done]; apply list_elem_of_omap; eexists; (split; [|eassumption]); (apply Hin; [|set_solver]);
      apply list_elem_of_In, in_map_iff; eexists; (split; [reflexivity|by apply list_elem_of_In]).
  - unfold buildDraft. cbn [appliedTo]. apply Forall_forall. intros m Hm%list_elem_of_In%in_map_iff. by destruct Hm as (? & <- & _).
Qed.

#[local] Instance policy_numbers : NumberToString := λ _, "7".
#[local] Instance policy_toNumber : ToNumberOther := λ _, f64_NaN.
Definition sample_card (v : string) : ObjectCard := mkObjectCard (VStr v) "user" "exact" (VStr v) VNull VNull VNull "active".
Definition sample_catalog : list ObjectCard := [sample_card "alice"; sample_card "bob"; sample_card "db"; sample_card "web"].
Definition sample_policy : PolicyFormState :=
  mkPolicyForm " p1 " "demo" ["alice"; "bob"] ["db"] ["tcp"] "80, 443-444" "permit" "full" ["mon"] "08:30" "" "US, ,DE" "" "cn1" "" "internal".
Definition sample_policy_deps : ServerDeps := mkServerDeps true true (mkConfig None None None None (mkRbac [] [] None)) [].
Definition sample_policy_author : OperatorSession := mkSession "S" "auth0|1" None Admin "pid" "acme" tenant_admin 3600005.

Lemma sample_policy_ok : form_ok sample_catalog sample_policy.
Proof.
  constructor; [vm_compute; reflexivity|vm_compute; reflexivity|split; [by apply (bool_decide_unpack _)|]..| | | | |].
  - repeat (apply Forall_cons_2; [by eexists|]). constructor.
  - repeat (apply Forall_cons_2; [by eexists|]). constructor.
  - repeat (apply Forall_cons_2; [split; by apply (bool_decide_unpack _)|]). constructor.
  - repeat (apply Forall_cons_2; [by apply (bool_decide_unpack _)|]). constructor.
  - repeat (apply Forall_cons_2; [by apply (bool_decide_unpack _)|]). constructor.
  - split_and!; by apply (bool_decide_unpack _).
  - apply Forall_cons_2; [intros m Hm; vm_compute in Hm; injection Hm as <-; lia|]. apply Forall_cons_2; [done|]. constructor.
Qed.

Lemma policy_form_commits_witness :
  asks (λ _, Ok "") sample_policy_deps sample_policy_author VNull
    (post_request "/api/policies" (VObj (draft_body (buildDraft sample_catalog sample_policy))))
    (c_createPolicy (buildDraft sample_catalog sample_policy)).
Proof.
  eapply (policy_form_commits (λ _, Ok "") sample_policy_deps sample_policy_author VNull eq_refl sample_catalog sample_policy false);
    [apply sample_policy_ok|vm_compute; reflexivity|vm_compute; reflexivity].
Defined.

(** A policy that lets alice read the database and denies the web to bob opens as one that permits both to both. *)
Definition sample_two_rules : PolicyRow :=
  let e v := toEndpoint (sample_card v) in
  mkRow (VStr "p") (VStr "v1") "published"
    (mkDraft (VStr "demo") (VStr "p1") (VStr "") [mkRule (e "alice") (e "db") "permit"; mkRule (e "bob") (e "web") "deny"]
       (mkNetwork [] (VStr "")) (mkRestrictions [] VNull VNull VNull VNull (VArr []) (VArr [])) "full" [] "internal").

Lemma policy_resave_widens_witness :
  let d' := buildDraft sample_catalog (openPolicy (Some sample_two_rules)) in
  mkRule (toEndpoint (sample_card "bob")) (toEndpoint (sample_card "db")) "permit" ∈ rules d' ∧
  mkRule (toEndpoint (sample_card "bob")) (toEndpoint (sample_card "db")) "permit" ∉ rules (row_draft sample_two_rules).
Proof.
  split.
  - destruct (policy_resave_widens sample_catalog sample_two_rules
      (mkRule (toEndpoint (sample_card "bob")) (toEndpoint (sample_card "web")) "deny")
      (mkRule (toEndpoint (sample_card "alice")) (toEndpoint (sample_card "db")) "permit") (sample_card "bob") (sample_card "db"))
      as [(r0 & Hr & H) _]; [right; left|left|vm_compute; reflexivity|vm_compute; reflexivity|].
    injection Hr as <-. exact H.
  - cbn. intros [H|[H|H%not_elem_of_nil]%elem_of_cons]%elem_of_cons; [discriminate H|discriminate H|exact H].
Defined.
