(* ===== verification/ServerRun.v ===== *)
(** * The server at work

    What each awaited call resolves to, given the engine, the sidecar and the files; the run
    of a program up to its next await; and the server as a transition system in which any
    number of requests are in flight.  The trace records what happened, newest first. *)
From S2P Require Import Prelude Bytes Float64 Cbor JsValue JsString Num64 LineExchange Cache Rbac Sessions Cookie Oidc.
From S2P Require Import AuthRouter OperatorEngine Vtz Policies Forge Distribute Sidecar Routes JsOps Overview Users Objects EntityDetail Soc.
From S2P Require Import Settings ModelAccess Http Server.
From stdpp Require Import list.
Open Scope Z_scope.

(** ** Calls *)

(** The request counters: [soc.ts] shares its own with [settings.ts] and [model-access.ts]. *)
Record counters := mkCounters { n_policies : Z; n_users : Z; n_objects : Z; n_idam : Z; n_soc : Z }.

(** The surroundings at the time of a call. *)
Record environment := mkEnv {
  env_client : string → value → result value;
  env_signer : value → list sock_event;
  env_secret : string → string → list sock_event;
  env_session : Z → list sock_event;
  env_ping : result value;
  env_readFile : string → result bytes;
  env_timeoutMs : Z;
  env_now : Z }.

(** The module state the resolvers keep. *)
Record memory := mkMemory { mem_counters : counters; mem_dns : option dns_service }.

Definition as_view {A} (f : A → view) (r : result A) : result view := a ← r; Ok (f a).
(** [null] for [None] *)
Definition or_null {A} (f : A → view) (x : option A) : view := match x with Some a => f a | None => V VNull end.

Section calls.
Context {NS : NumberToString} {TN : ToNumberOther} {AO : ArithOther} {LC : LocaleCompare} {CO : CompareOther}.
Context (JSON_parse : string → result value) (env : environment).

Definition call_local (c : local_call) : result view :=
  match c with
  | l_secret provider secret => as_view (λ _, V VUndefined) (setConnectorSecret JSON_parse (env_timeoutMs env) (env_secret env provider secret))
  | l_sessionGroup port =>
      as_view (or_null (λ g, V (VStr g))) (lookupSessionGroup JSON_parse (env_timeoutMs env) (env_session env port))
  | l_ping => as_view V (env_ping env)
  | l_readFile p => as_view (λ bs, V (VBytes bs)) (env_readFile env p)
  end.

Definition call_engine (m : memory) (p : OperatorPrincipal) (c : call) : result view * memory :=
  let client := env_client env in
  let now := f64_ofZ (env_now env) in
  let '(mkMemory ct dns) := m in
  let '(mkCounters np nu no ni ns) := ct in
  let stay r := (r, m) in
  let policies {A} (f : A → view) (r : result A * Z) := (as_view f r.1, mkMemory (mkCounters r.2 nu no ni ns) dns) in
  let users {A} (f : A → view) (r : result A * Z) := (as_view f r.1, mkMemory (mkCounters np r.2 no ni ns) dns) in
  let objects {A} (f : A → view) (r : result A * Z) := (as_view f r.1, mkMemory (mkCounters np nu r.2 ni ns) dns) in
  let idam {A} (f : A → view) (r : result A * Z) := (as_view f r.1, mkMemory (mkCounters np nu no r.2 ns) dns) in
  let soc {A} (f : A → view) (r : result A * Z) := (as_view f r.1, mkMemory (mkCounters np nu no ni r.2) dns) in
  let named {A} (f : A → view) (r : result A * option dns_service) := (as_view f r.1, mkMemory ct r.2) in
  match c with
  | c_entityDetail ref => stay (as_view V_entity (resolveEntityDetail client p ref))
  | c_isolate ref request => stay (as_view V (resolveIsolate client p ref request now))
  | c_logExport id filter => stay (as_view V (resolveLogExport client p id filter now))
  | c_logQuery filter => stay (as_view V (resolveLogQuery client p filter))
  | c_logExplain id => stay (as_view V (resolveLogExplain client p id))
  | c_overviewSankey query => named V_sankey (resolveOverviewSankey client p query dns (env_now env))
  | c_entityConnections id kind => stay (as_view V (resolveEntityConnections client p id kind))
  | c_classMembers container => named V_members (resolveClassMembers client p container dns (env_now env))
  | c_vtzTree limit => stay (as_view V_tree (resolveVtzTree client p limit))
  | c_vtzDetail id => stay (as_view V_zone (resolveVtzDetail client p id))
  | c_bundleConvergence id => stay (as_view V_convergence (resolveBundleConvergence client p id))
  | c_distribute zone members =>
      stay (as_view V_distributed
        (resolveDistribute client JSON_parse (env_timeoutMs env) (env_signer env) p zone members (env_now env)).2)
  | c_vtzCommand (vtz_create spec) => stay (as_view V_vtzMutation (resolveVtzCreate client p spec))
  | c_vtzCommand (vtz_edit spec) => stay (as_view V_vtzMutation (resolveVtzEdit client p spec))
  | c_vtzCommand (vtz_rescope id name) => stay (as_view V_vtzMutation (resolveVtzRescope client p id name))
  | c_vtzCommand (vtz_delete id) => stay (as_view V_vtzMutation (resolveVtzDelete client p id))
  | c_usersList => users V_principals (resolveUsersList client nu p)
  | c_groupsList => users V (resolveGroupsList client nu p)
  | c_createPrincipal d => users V (resolveCreatePrincipal client nu p d)
  | c_editPrincipal d => users V (resolveEditPrincipal client nu p d)
  | c_setPrincipalStatus u s => users V (resolveSetPrincipalStatus client nu p u s)
  | c_setGroupMembers n l => users V (resolveSetGroupMembers client nu p n l)
  | c_createGroup n d => users V (resolveCreateGroup client nu p n d)
  | c_editGroup n d => users V (resolveEditGroup client nu p n d)
  | c_objectCatalog => objects V_objects (resolveObjectCatalog client no p)
  | c_objectDetail n => objects V_object (resolveObjectDetail client no p n)
  | c_createObject d => objects V (resolveCreateObject client no p d)
  | c_editObject d => objects V (resolveEditObject client no p d)
  | c_deleteObject n => objects V (resolveDeleteObject client no p n)
  | c_policyZones => policies V_policyZones (resolvePolicyZones client np p)
  | c_policyDetail z i => policies V_policy (resolvePolicyDetail client np p z i)
  | c_createPolicy d => policies V_policyMutation (resolveCreatePolicy client np p d)
  | c_editPolicy i d => policies V_policyMutation (resolveEditPolicy client np p i d)
  | c_publishPolicy z i v => policies V_policyMutation (resolvePublishPolicy client np p z i v)
  | c_deletePolicy z i => policies V (resolveDeletePolicy client np p z i)
  | c_idamConnectors => idam V (resolveIdamConnectors client ni p)
  | c_idamSync pr => idam V (resolveIdamSync client ni p pr)
  | c_idamConnect d ref => idam V (resolveIdamConnect client ni p d ref)
  | c_idamConfigure d => idam V (resolveIdamConfigure client ni p d)
  | c_socKpis => soc V (resolveSocKpis client p ns)
  | c_incidentQueue => soc V_queue (resolveIncidentQueue client p ns)
  | c_incidentDetail i => soc (or_null V_incident) (resolveIncidentDetail client p ns i)
  | c_narrative i => soc V (resolveNarrative client p ns i)
  | c_incidentTelemetry i => soc (or_null V) (resolveIncidentTelemetry client p ns i)
  | c_auditTrail i => soc (or_null (λ l, V (VArr l))) (resolveAuditTrail client p ns i)
  | c_incidentNotes i => soc V (resolveIncidentNotes client p ns i)
  | c_businessImpact i => soc (or_null V) (resolveBusinessImpact client p ns i)
  | c_incidentReport i => soc (or_null V_report) (resolveIncidentReport client p ns i)
  | c_weekly w => soc (or_null V) (resolveWeekly client p ns w)
  | c_cognitionRun i => soc V (resolveCognitionRun client p ns i)
  | c_caseAct i d => soc V (resolveCaseAct client p ns i d)
  | c_disposition i d => soc V (resolveDisposition client p ns i d)
  | c_approvePlan i rev => soc V_effect (resolveApprovePlan client p ns i rev)
  | c_modifyPlan i l => soc V_effect (resolveModifyPlan client p ns i l)
  | c_settings s => soc (or_null V_settings) (resolveSettings client p ns s)
  | c_settingsCommit q => soc V (resolveSettingsCommit client p ns q)
  | c_settingsReports l => soc V (resolveSettingsReports client p ns l)
  | c_settingsPropose q => soc V (resolveSettingsPropose client p ns q)
  | c_settingsApprovals => soc V (resolveSettingsApprovals client p ns)
  | c_settingsApprove n => soc V (resolveSettingsApprove client p ns n)
  | c_settingsHistory n => soc V (resolveSettingsHistory client p ns n)
  | c_settingsRollback n => soc V (resolveSettingsRollback client p ns n)
  | c_socSettings => soc (or_null V_socSettings) (resolveSocSettings client p ns)
  | c_socSettingsCommit x => soc V (resolveSocSettingsCommit client p ns x)
  | c_modelAccess d => soc (or_null V_access) (resolveModelAccess client p ns d now)
  | c_agentGrant ch => soc (or_null V_grant) (applyAgentGrant client p ns ch)
  end.
End calls.

(** ** Runs and steps *)

Inductive event :=
  | ev_request (req : http_request)
  | ev_call (req : http_request) (s : option OperatorSession) (p : OperatorPrincipal) (c : call)
  | ev_answer (p : OperatorPrincipal) (c : call) (outcome : result view)
  | ev_local (req : http_request) (s : option OperatorSession) (c : local_call)
  | ev_hit (req : http_request) (s : option OperatorSession) (key : string) (v : view)
  | ev_reply (req : http_request) (s : option OperatorSession) (resp : response).

(** A request in flight: its program at an await, the session it was found to have, and whether the headers of its
    response are sent. *)
Record task := mkTask { t_req : http_request; t_session : option OperatorSession; t_sent : bool; t_prog : prog }.

Record server := mkServer {
  login : system; srv_cache : @Cache.cache view; srv_memory : memory; waiting : list task; trace : list event }.

(** What a run reads and writes. *)
Record run_state := mkRun {
  rs_auth : auth_state; rs_cache : @Cache.cache view; rs_session : option OperatorSession; rs_sent : bool; rs_trace : list event }.

Section system.
Context {NS : NumberToString} {TN : ToNumberOther} {AO : ArithOther} {LC : LocaleCompare} {CO : CompareOther}.
Context (deps : ServerDeps) (auth_deps : AuthRouterDeps) (cacheTtlMs cacheMaxEntries : Z)
  (JSON_parse : string → result value) (JSON_parse_body : bytes → result value) (JSON_stringify : view → result string)
  (openApiDocument : value) `{OidcProvider}.

Definition log (e : event) (st : run_state) : run_state :=
  mkRun (rs_auth st) (rs_cache st) (rs_session st) (rs_sent st) (e :: rs_trace st).

(** [res.writeHead] and [res.end] *)
Definition respond (req : http_request) (r : response) (st : run_state) : run_state :=
  mkRun (rs_auth st) (rs_cache st) (rs_session st) true (ev_reply req (rs_session st) r :: rs_trace st).

Definition with_cache (c : @Cache.cache view) (st : run_state) : run_state :=
  mkRun (rs_auth st) c (rs_session st) (rs_sent st) (rs_trace st).

(** A program up to its end, [None], or its next await.  A second response throws; what escapes every handler is answered
    500 unless the headers are sent. *)
Fixpoint run (req : http_request) (now : Z) (st : run_state) (p : prog) : run_state * option prog :=
  match p with
  | Send r k => if rs_sent st then (st, None) else run req now (respond req r st) k
  | Done => (st, None)
  | Raise _ => (if rs_sent st then st else respond req (mkResponse 500 (error_view "internal")) st, None)
  | GetSession k =>
      let '(s, a) := if authRouter deps then resolveSession auth_deps (rs_auth st) (http_cookie req) now
                     else (None, rs_auth st) in
      run req now (mkRun a (rs_cache st) s (rs_sent st) (rs_trace st)) (k s)
  | CacheGet key version k =>
      let '(hit, c) := cache_get (rs_cache st) key version now in
      let st := with_cache c st in
      run req now (match hit with Some v => log (ev_hit req (rs_session st) key v) st | None => st end) (k hit)
  | CacheSet key version v k =>
      run req now (with_cache (cache_set cacheTtlMs cacheMaxEntries (rs_cache st) key v version now) st) k
  | CacheDrop prefix k => run req now (with_cache (cache_deletePrefix (rs_cache st) prefix) st) k
  | Await pr c _ => (log (ev_call req (rs_session st) pr c) st, Some p)
  | AwaitLocal c _ => (log (ev_local req (rs_session st) c) st, Some p)
  | ReadBody _ _ => (st, Some p)
  end.

(** The state after a run of [req] that started in [s] with the tasks [ts]. *)
Definition after_run (s : server) (m : memory) (ts : list task) (req : http_request)
    (r : run_state * option prog) : server :=
  mkServer (mkSys (rs_auth r.1) (inflight (login s)) (responses (login s))) (rs_cache r.1) m
    (match r.2 with None => ts | Some p => mkTask req (rs_session r.1) (rs_sent r.1) p :: ts end) (rs_trace r.1).

(** What the surroundings answer an await with. *)
Definition answer (env : environment) (b : body_stream) (m : memory) (p : prog) : option (prog * memory * list event) :=
  match p with
  | ReadBody limit k => Some (k (readJsonBody JSON_parse limit b), m, [])
  | Await pr c k => let '(outcome, m) := call_engine JSON_parse env m pr c in Some (k outcome, m, [ev_answer pr c outcome])
  | AwaitLocal c k => Some (k (call_local JSON_parse env c), m, [])
  | _ => None
  end.

Definition start (s : server) (req : http_request) (now : Z) : server :=
  after_run s (srv_memory s) (waiting s) req
    (run req now (mkRun (store (login s)) (srv_cache s) None false (ev_request req :: trace s)) (route JSON_stringify deps req openApiDocument)).

Definition resume (s : server) (l1 : list task) (t : task) (l2 : list task) (now : Z) (p : prog) (m : memory)
    (evs : list event) : server :=
  after_run s m (l1 ++ l2) (t_req t)
    (run (t_req t) now (mkRun (store (login s)) (srv_cache s) (t_session t) (t_sent t) (evs ++ trace s)) p).

(** The request as the auth router sees it. *)
Definition auth_request (req : http_request) (chunks : list bytes) : request :=
  mkReq (http_url req) (http_method req) (http_cookie req) chunks.

(** A step: the auth router, if the server has one, takes one of its own; a request arrives that it does not claim, any
    request where there is no router; or a request in flight is answered.  Times, bodies and surroundings are
    arbitrary. *)
Inductive server_step (s : server) : server → Prop :=
  | srv_auth a : authRouter deps = true → sys_step auth_deps JSON_parse_body (login s) a →
      server_step s (mkServer a (srv_cache s) (srv_memory s) (waiting s) (trace s))
  | srv_request req now chunks :
      (authRouter deps = true → handle auth_deps JSON_parse_body (store (login s)) (auth_request req chunks) now = None) →
      server_step s (start s req now)
  | srv_resume l1 t l2 now env b p m evs :
      waiting s = l1 ++ t :: l2 → answer env b (srv_memory s) (t_prog t) = Some (p, m, evs) →
      server_step s (resume s l1 t l2 now p m evs).

Definition server_init (m : memory) : server := mkServer system_init [] m [] [].

Inductive serves : server → Prop :=
  | serves_init m : serves (server_init m)
  | serves_step s s' : serves s → server_step s s' → serves s'.
End system.
