(* ===== verification/ServerProofs.v ===== *)
(** * What the server guarantees

    A predicate on programs that every handler satisfies -- who may be answered with what,
    what reaches the engine and in whose name, what goes in and out of the cache -- and the
    invariants of the running server it gives. *)
From S2P Require Import Prelude Bytes Float64 Cbor JsValue JsString Num64 LineExchange Cache Rbac Sessions Cookie Oidc.
From S2P Require Import AuthRouter OperatorEngine Vtz Policies Forge Distribute Sidecar Routes JsOps Overview Users Objects EntityDetail Soc.
From S2P Require Import Settings ModelAccess Http Server ServerRun.
From stdpp Require Import list.
Open Scope Z_scope.

(** ** Responses *)

(** The names an error is told by. *)
Definition ERROR_NAMES : list string :=
  ["unauthorized"; "engine_unavailable"; "engine_error"; "unavailable"; "malformed_request"; "bad_request"; "not_found";
   "method_not_allowed"; "forbidden"; "refused"; "unknown_zone"; "signing_refused"; "signer_unavailable";
   "secret_plane_unprovisioned"; "secret_plane_unavailable"; "internal"].

(** What may be said to anyone: an error by one of these names, a file of the console, and the three
    operational documents. *)
Definition public (openApiDocument : value) (b : view) : Prop :=
  (∃ e, e ∈ ERROR_NAMES ∧ b = error_view e) ∨ (∃ ct bs, b = V_file ct bs) ∨ b = V (VObj [("status", VStr "ok")]) ∨
  (∃ x, b = V (VObj [("ready", VBool x)])) ∨ b = V openApiDocument.

(** [{ error: 'refused', [key]: v }] *)
Definition refusal_view (key : string) (v : value) : view := V (VObj [("error", VStr "refused"); (key, v)]).

(** The word for a refused change to the zones, and its status. *)
Definition reason_word (kind : VtzRefusalKind) : string := match kind with conflict => "conflict" | denied => "denied" end.
Definition reason_status (kind : VtzRefusalKind) : Z := match kind with conflict => 409 | denied => 403 end.

(** What a response may say to a request whose calls the engine answered as [O] has it, where [X] holds of the exceptions
    that come from elsewhere.  A failure is an error's name, and beside it at most: the gate that was closed, the class or
    the kind of a refusal the engine gave, the words of a refusal the engine recorded, or the grant it found instead. *)
Inductive clean (O : call → result view → Prop) (X : exn → Prop) : response → Prop :=
  | clean_success v : clean O X (mkResponse 200 v)
  | clean_error n e : e ∈ ERROR_NAMES → clean O X (mkResponse n (error_view e))
  | clean_not_ready : clean O X (mkResponse 503 (V (VObj [("ready", VBool false)])))
  | clean_gate cls : cls ∈ ["Tier"; "Role"] → clean O X (mkResponse 403 (refusal_view "class" (VStr cls)))
  | clean_class n w cls : (∃ c, O c (Throw (EngineRefusedError w))) ∨ X (EngineRefusedError w) → get w "class" = Ok cls →
      clean O X (mkResponse n (refusal_view "class" cls))
  | clean_object n cls : (∃ c, O c (Throw (ObjectCommandError cls))) ∨ X (ObjectCommandError cls) →
      clean O X (mkResponse n (refusal_view "class" cls))
  | clean_reason kind : (∃ c, O c (Throw (VtzMutationRefusedError kind))) ∨ X (VtzMutationRefusedError kind) →
      clean O X (mkResponse (reason_status kind) (refusal_view "reason" (VStr (reason_word kind))))
  | clean_explanation c outcome x : O c (Ok (V outcome)) → get outcome "kind" = Ok (VStr "refused") →
      get outcome "explanation" = Ok x → clean O X (mkResponse 409 (refusal_view "explanation" x))
  | clean_conflict c g : O c (Ok (V_grant (conflicting g))) → clean O X (mkResponse 409 (V_grant (conflicting g))).

Lemma clean_mono (O O' : call → result view → Prop) (X X' : exn → Prop) r :
  (∀ c o, O c o → O' c o) → (∀ e, X e → X' e) → clean O X r → clean O' X' r.
Proof.
  intros HO HX. assert (∀ e, (∃ c, O c (Throw e)) ∨ X e → (∃ c, O' c (Throw e)) ∨ X' e) as HT by naive_solver.
  destruct 1; [apply clean_success|by apply clean_error|apply clean_not_ready|by apply clean_gate|eapply clean_class|eapply clean_object
    |apply clean_reason|eapply clean_explanation|eapply clean_conflict]; eauto.
Qed.

(** The exceptions whose content a handler tells. *)
Definition plain (e : exn) : Prop :=
  match e with EngineRefusedError _ | ObjectCommandError _ | VtzMutationRefusedError _ => False | _ => True end.

(** An exception a handler may catch: where its content is told, the engine answered with it, or it comes from [X]. *)
Definition caught (O : call → result view → Prop) (X : exn → Prop) (e : exn) : Prop := plain e ∨ (∃ c, O c (Throw e)) ∨ X e.

(** What [JSON.stringify] throws. *)
Definition stringify_throws (JSON_stringify : view → result string) (e : exn) : Prop := ∃ v, JSON_stringify v = Throw e.

Lemma caught_told O X e : caught O X e → ¬ plain e → (∃ c, O c (Throw e)) ∨ X e.
Proof. intros [H|H] Hn; [done|exact H]. Qed.

(** ** Cache keys *)

Section keys.
Context {NS : NumberToString}.

(** The key and version the projection of a call is kept under, for the calls that have one. *)
Definition cache_key (p : OperatorPrincipal) (c : call) : option (string * string) :=
  let t := p_tenant p in
  let soc suffix := Some (socCachePrefix t +:+ suffix, SOC_CACHE_VERSION) in
  match c with
  | c_overviewSankey q => Some (overview_key "sankey" t q, OVERVIEW_CACHE_VERSION)
  | c_entityConnections id kind => Some (connections_key t kind id, OVERVIEW_CACHE_VERSION)
  | c_classMembers container => Some (members_key t container, OVERVIEW_CACHE_VERSION)
  | c_vtzTree limit => Some (vtz_tree_key t limit, VTZ_CACHE_VERSION)
  | c_vtzDetail id => Some (vtz_detail_key t id, VTZ_CACHE_VERSION)
  | c_policyZones => Some (policiesCachePrefix t +:+ "byZone", POLICIES_CACHE_VERSION)
  | c_policyDetail z i => Some (policies_detail_key t z i, POLICIES_CACHE_VERSION)
  | c_socKpis => soc "kpis"
  | c_incidentQueue => soc "incidents"
  | c_incidentDetail i => soc ("detail" +:+ ":" +:+ i)
  | c_narrative i => soc ("narrative" +:+ ":" +:+ i)
  | c_incidentTelemetry i => soc ("telemetry" +:+ ":" +:+ i)
  | c_auditTrail i => soc ("audit" +:+ ":" +:+ i)
  | c_incidentNotes i => soc ("notes" +:+ ":" +:+ i)
  | c_businessImpact i => soc ("impact" +:+ ":" +:+ i)
  | c_incidentReport i => soc ("report" +:+ ":" +:+ i)
  | c_weekly w => soc ("weekly:" +:+ js_String (VNum w))
  | _ => None
  end.

(** The calls that change something. *)
Definition write_call (c : call) : bool :=
  match c with
  | c_isolate _ _ | c_logExport _ _ | c_distribute _ _ | c_vtzCommand _ | c_createPrincipal _ | c_editPrincipal _
  | c_setPrincipalStatus _ _ | c_setGroupMembers _ _ | c_createGroup _ _ | c_editGroup _ _ | c_createObject _ | c_editObject _
  | c_deleteObject _ | c_createPolicy _ | c_editPolicy _ _ | c_publishPolicy _ _ _ | c_deletePolicy _ _ | c_idamSync _
  | c_idamConnect _ _ | c_idamConfigure _ | c_cognitionRun _ | c_caseAct _ _ | c_disposition _ _ | c_approvePlan _ _
  | c_modifyPlan _ _ | c_settingsCommit _ | c_settingsPropose _ | c_settingsApprove _ | c_settingsRollback _
  | c_socSettingsCommit _ | c_agentGrant _ => true
  | _ => false
  end.

(** [lo <= x <= hi], as numbers *)
Definition between (lo hi x : Z) : Prop := f64_le (f64_ofZ lo) x = true ∧ f64_le x (f64_ofZ hi) = true.
(** [0 < x <= hi], as numbers *)
Definition limit_within (hi x : Z) : Prop := f64_lt 0 x = true ∧ f64_le x (f64_ofZ hi) = true.

(** The bounds on what a call asks for. *)
Definition call_within (c : call) : Prop :=
  match c with
  | c_logQuery f | c_logExport _ f => limit_within MAX_LOG_LIMIT (f_limit f)
  | c_overviewSankey q => limit_within MAX_OVERVIEW_LIMIT (q_limit q)
  | c_vtzTree limit => limit_within MAX_VTZ_TREE_LIMIT limit
  | c_weekly weeks => between 1 12 weeks
  | c_modelAccess days => f64_isInteger days = true ∧ between 1 MAX_SPEND_DAYS days
  | c_settingsHistory limit => between 0 SETTINGS_HISTORY_MAX limit
  | c_settingsApprove id | c_settingsRollback id => safe_positive id = true
  | c_settingsCommit r | c_settingsPropose r => Z.of_nat (length (commit_edits r)) ≤ MAX_SETTING_EDITS
  | _ => True
  end.

(** The projections a change makes stale: those under this prefix. *)
Definition stale_prefix (tenant : string) (c : call) : option string :=
  match c with
  | c_vtzCommand _ => Some (vtzCachePrefix tenant)
  | c_createPolicy _ | c_editPolicy _ _ | c_publishPolicy _ _ _ | c_deletePolicy _ _ => Some (policiesCachePrefix tenant)
  | c_cognitionRun _ | c_caseAct _ _ | c_disposition _ _ | c_approvePlan _ _ | c_modifyPlan _ _ => Some (socCachePrefix tenant)
  | _ => None
  end.

Lemma keyed_is_read p c key : cache_key p c = Some key → write_call c = false ∧ ∀ t, stale_prefix t c = None.
Proof using. by destruct c. Qed.

(** ** Guarded programs *)

Context (req : http_request) (openApiDocument : value) (JSON_stringify : view → result string).
Notation X := (stringify_throws JSON_stringify).

Definition principal_of (s : OperatorSession) : OperatorPrincipal := principalFromSession s (activeTenantOverride req).

(** The answers of [A] to the operator of [s]. *)
Definition own (s : option OperatorSession) (A : OperatorPrincipal → call → result view → Prop) (c : call) (o : result view) : Prop :=
  ∃ session, s = Some session ∧ A (principal_of session) c o.

(** A program that answers at once. *)
Definition settled (p : prog) : Prop := match p with Reply _ | Raise _ => True | _ => False end.

(** A program that drops what is under [prefix] and answers. *)
Definition drops (prefix : string) (p : prog) : Prop := ∃ k, p = CacheDrop prefix k ∧ settled k.

(** A program run for a request whose session, so far, is [s] and whose answered calls
    satisfy [A]: it answers a request without session with public matter only, asks the
    engine only as the session's principal and within bounds, changes nothing for a GET, drops the projections
    a change made stale, keeps in the cache only what the engine answered it, under that
    call's key, reads only the keys of its principal, drops only projections of its tenant, pings the engine for the
    readiness probe only, fails with no more than the engine told it, awaits at most [n] times, and sends one response,
    last, unless it throws. *)
Fixpoint guarded (n : nat) (s : option OperatorSession) (A : OperatorPrincipal → call → result view → Prop) (p : prog) : Prop :=
  match p with
  | Send r k => (s = None → public openApiDocument (body r)) ∧ clean (own s A) X r ∧ k = Done
  | Done => False
  | Raise _ => True
  | GetSession k => ∀ s', guarded n s' A (k s')
  | CacheGet key version k =>
      (∃ session c, s = Some session ∧ cache_key (principal_of session) c = Some (key, version)) ∧ ∀ hit, guarded n s A (k hit)
  | CacheSet key version v k =>
      (∃ pr c, A pr c (Ok v) ∧ cache_key pr c = Some (key, version)) ∧ guarded n s A k
  | CacheDrop prefix k =>
      (∃ session, s = Some session ∧
         let t := p_tenant (principal_of session) in prefix ∈ [vtzCachePrefix t; socCachePrefix t; policiesCachePrefix t]) ∧
      guarded n s A k
  | ReadBody _ k => match n with O => False | S n => ∀ outcome, guarded n s A (k outcome) end
  | Await pr c k =>
      match n with
      | O => False
      | S n =>
          (∃ session, s = Some session ∧ pr = principal_of session) ∧ (write_call c = true → request_method req ≠ "GET") ∧
          call_within c ∧ (∀ prefix v, stale_prefix (p_tenant pr) c = Some prefix → drops prefix (k (Ok v))) ∧
          ∀ outcome, guarded n s (λ pr' c' o, A pr' c' o ∨ (pr' = pr ∧ c' = c ∧ o = outcome)) (k outcome)
      end
  | AwaitLocal c k =>
      match n with
      | O => False
      | S n =>
          match c with
          | l_secret _ _ => s ≠ None ∧ request_method req ≠ "GET"
          | l_sessionGroup _ => s ≠ None
          | l_ping => request_path req = "/readyz"
          | l_readFile _ => True
          end ∧ ∀ outcome, guarded n s A (k outcome)
      end
  end.

Lemma own_mono s (A B : OperatorPrincipal → call → result view → Prop) c o :
  (∀ pr c o, A pr c o → B pr c o) → own s A c o → own s B c o.
Proof using. intros HAB (session & Hs & Ha). exists session. auto. Qed.

Lemma guarded_mono n s (A B : OperatorPrincipal → call → result view → Prop) p :
  (∀ pr c o, A pr c o → B pr c o) → guarded n s A p → guarded n s B p.
Proof using.
  revert n s A B. induction p as [r k IH| | |k IH|key ver k IH|key ver v k IH|pre k IH|lim k IH|pr c k IH|c k IH];
    intros n s A B HAB; cbn [guarded]; try done.
  - intros (Hp & Hc & Hk). split_and!; [done| |done]. eapply clean_mono; [|done|exact Hc]. intros c o. by apply own_mono.
  - intros Hk s'. by eapply IH.
  - intros [Hc Hk]. split; [done|]. intros hit. by eapply IH.
  - intros [(pr & c & Ha & Hc) Hk]. split; [exists pr, c; by auto|]. by eapply IH.
  - intros [Hc Hk]. split; [done|]. by eapply IH.
  - destruct n; [done|]. intros Hk outcome. by eapply IH.
  - destruct n; [done|]. intros (Hp & Hw & Hb & Hd & Hk). do 4 (split; [done|]). intros outcome. eapply IH; [|apply Hk].
    cbn. intros pr' c' v [Ha|Hn]; [left; by apply HAB|by right].
  - destruct n; [done|]. intros [Hc Hk]. split; [done|]. intros outcome. by eapply IH.
Qed.

(** A [catch] that may be entered with any exception the engine's answers or [X] explain. *)
Definition catches (session : OperatorSession) (catch : exn → prog) : Prop :=
  ∀ m e A, caught (own (Some session) A) X e → guarded m (Some session) A (catch e).

Section combinators.
Context (deps : ServerDeps).
Implicit Types A : OperatorPrincipal → call → result view → Prop.

Lemma g_fail m s A n e : bool_decide (e ∈ ERROR_NAMES) = true → guarded m s A (fail n e).
Proof using. intros He%bool_decide_eq_true. split_and!; [intros _; left; by exists e|by apply clean_error|done]. Qed.

Lemma g_session m A (session : OperatorSession) n b :
  clean (own (Some session) A) X (mkResponse n b) → guarded m (Some session) A (Reply (mkResponse n b)).
Proof using. by split. Qed.

Lemma g_send m session A n v catch :
  clean (own (Some session) A) X (mkResponse n v) → catches session catch →
  guarded m (Some session) A (send JSON_stringify n v catch).
Proof using.
  intros Hc He. unfold send. destruct (JSON_stringify v) as [|e] eqn:E; [by apply g_session|]. apply He. right. right. by exists v.
Qed.

Lemma g_send_out m session A n v :
  clean (own (Some session) A) X (mkResponse n v) → guarded m (Some session) A (send_out JSON_stringify n v).
Proof using. intros. by apply g_send. Qed.

Lemma g_attempt m {Y} s A (o : result Y) catch k :
  (∀ a, o = Ok a → guarded m s A (k a)) → (∀ e, o = Throw e → guarded m s A (catch e)) → guarded m s A (attempt o catch k).
Proof using. intros Hk He. destruct o; [by apply Hk|by apply He]. Qed.

Lemma settled_send n v catch : (∀ e, settled (catch e)) → settled (send JSON_stringify n v catch).
Proof using. intros He. unfold send. by destruct (JSON_stringify v). Qed.

Lemma settled_refused_with code w : settled (refused_with JSON_stringify code w).
Proof using. unfold refused_with. destruct (get w "class"); [|done]. by apply settled_send. Qed.

Lemma settled_catch_read u e : settled (catch_read JSON_stringify u e).
Proof using. unfold catch_read. destruct (u e); [done|]. destruct e; try done. apply settled_refused_with. Qed.

Lemma settled_catch_command u e : settled (catch_command JSON_stringify u e).
Proof using. unfold catch_command. destruct (u e); [done|]. destruct e; try done. apply settled_refused_with. Qed.

(** An await for a call that leaves no projection stale, or whose continuation drops what it made stale. *)
Lemma g_awaiting m session A c catch k :
  (write_call c = true → request_method req ≠ "GET") → call_within c →
  (∀ prefix v, stale_prefix (p_tenant (principal_of session)) c = Some prefix → drops prefix (k v)) →
  catches session catch →
  (∀ v B, B (principal_of session) c (Ok v) → guarded m (Some session) B (k v)) →
  guarded (S m) (Some session) A (awaiting (principal_of session) c catch k).
Proof using.
  intros Hw Hb Hd He Hk. split; [by exists session|]. do 3 (split; [done|]). intros [v|e]; cbn.
  - apply Hk. by right.
  - apply He. right. left. exists c, session. split; [done|by right].
Qed.

Lemma g_gated m A k : (∀ session B, guarded m (Some session) B (k (principal_of session))) → guarded m None A (gated deps req k).
Proof using.
  intros Hk [session|]; [|by apply g_fail]. unfold with_engine. destruct (operatorEngine deps); [apply Hk|by apply g_fail].
Qed.

(** The class of a refusal the engine gave. *)
Lemma g_refused_with m session A code w :
  caught (own (Some session) A) X (EngineRefusedError w) → guarded m (Some session) A (refused_with JSON_stringify code w).
Proof using.
  intros Hc. apply g_attempt; [|done]. intros cls Hcls. apply g_send_out.
  apply (clean_class _ _ _ w); [|done]. apply (caught_told _ _ _ Hc). by intros [].
Qed.

Lemma g_refused_as m session A cls : bool_decide (cls ∈ ["Tier"; "Role"]) = true → guarded m (Some session) A (refused_as cls).
Proof using. intros Hc%bool_decide_eq_true. apply g_session. by apply clean_gate. Qed.

Lemma catches_read session u : catches session (catch_read JSON_stringify u).
Proof using.
  intros m e A Hc. unfold catch_read. destruct (u e); [by apply g_fail|]. destruct e; try by apply g_fail. by apply g_refused_with.
Qed.

Lemma catches_command session u : catches session (catch_command JSON_stringify u).
Proof using.
  intros m e A Hc. unfold catch_command. destruct (u e); [by apply g_fail|]. destruct e; try by apply g_fail. by apply g_refused_with.
Qed.

Lemma catches_raise session : catches session Raise.
Proof using. done. Qed.

Lemma g_with_body m s A limit k : (∀ b, guarded m s A (k b)) → guarded (S m) s A (with_body limit k).
Proof using. intros Hk [b|e]; [apply Hk|by apply g_fail]. Qed.

Lemma g_with_request m {Y} s A (parse : value → result (option Y)) bad k :
  guarded m s A bad → (∀ b a, parse b = Ok (Some a) → guarded m s A (k a)) → guarded (S m) s A (with_request parse bad k).
Proof using.
  intros Hb Hk outcome. cbn. destruct outcome as [b|e]; [|done]. cbn.
  destruct (parse b) as [[a|]|] eqn:E; [by eapply Hk|done..].
Qed.

Lemma g_plain_read m session A c catch :
  (write_call c = true → request_method req ≠ "GET") → call_within c → (∀ t, stale_prefix t c = None) →
  catches session catch → guarded (S m) (Some session) A (plain_read JSON_stringify (principal_of session) c catch).
Proof using.
  intros Hw Hb Hd He. apply g_awaiting; [done|done|intros ? ?; by rewrite Hd|done|]. intros v B _. apply g_send; [apply clean_success|done].
Qed.

Lemma g_tiered_read m session A c catch :
  (write_call c = true → request_method req ≠ "GET") → call_within c → (∀ t, stale_prefix t c = None) →
  catches session catch → guarded (S m) (Some session) A (tiered_read JSON_stringify (principal_of session) c catch).
Proof using.
  intros Hw Hb Hd He. apply g_awaiting; [done|done|intros ? ?; by rewrite Hd|done|]. intros v B _.
  destruct (null_view v); [by apply g_refused_as|]. apply g_send; [apply clean_success|done].
Qed.

(** A cached read, whatever it does with [null]. *)
Lemma g_cached m session A key version c catch (keep : view → bool) :
  cache_key (principal_of session) c = Some (key, version) → call_within c → catches session catch →
  guarded (S m) (Some session) A (CacheGet key version (λ hit,
    match hit with
    | Some v => send_out JSON_stringify 200 v
    | None => awaiting (principal_of session) c catch (λ v,
                if keep v then not_found else CacheSet key version v (send JSON_stringify 200 v catch))
    end)).
Proof using.
  intros Hkey Hb He. split; [by exists session, c|]. intros [v|]; [apply g_send_out, clean_success|].
  destruct (keyed_is_read _ _ _ Hkey) as [Hw Hs].
  apply g_awaiting; [by rewrite Hw|done|intros ? ?; by rewrite Hs|done|]. intros v B HB. destruct (keep v); [by apply g_fail|]. split.
  - by exists (principal_of session), c.
  - apply g_send; [apply clean_success|done].
Qed.

Lemma g_cached_read m session A key version c catch :
  cache_key (principal_of session) c = Some (key, version) → call_within c → catches session catch →
  guarded (S m) (Some session) A (cached_read JSON_stringify key version (principal_of session) c catch).
Proof using. apply (g_cached m session A key version c catch (λ _, false)). Qed.

Lemma g_cached_or_404 m session A key version c catch :
  cache_key (principal_of session) c = Some (key, version) → call_within c → catches session catch →
  guarded (S m) (Some session) A (cached_or_404 JSON_stringify key version (principal_of session) c catch).
Proof using. apply (g_cached m session A key version c catch null_view). Qed.

Lemma g_run_command m session A catch parsed after :
  request_method req ≠ "GET" →
  (∀ c, parsed = Ok (Some c) → call_within c) →
  (∀ c prefix v, parsed = Ok (Some c) → stale_prefix (p_tenant (principal_of session)) c = Some prefix →
     drops prefix (after (send JSON_stringify 200 v catch))) →
  (∀ e, parsed = Throw e → plain e) →
  catches session catch →
  (∀ B p, guarded m (Some session) B p → guarded m (Some session) B (after p)) →
  guarded (S m) (Some session) A (run_command JSON_stringify (principal_of session) catch parsed after).
Proof using.
  intros Hw Hb Hd Hp He Ha. destruct parsed as [[c|]|e]; [|by apply g_fail|apply He; left; by apply Hp].
  apply g_awaiting; [done|by apply Hb|intros prefix v Hpre; by apply (Hd c)|done|].
  intros v B _. apply Ha, g_send; [apply clean_success|done].
Qed.

Lemma g_drop m session A prefix p :
  prefix ∈ [vtzCachePrefix (p_tenant (principal_of session)); socCachePrefix (p_tenant (principal_of session));
            policiesCachePrefix (p_tenant (principal_of session))] →
  guarded m (Some session) A p → guarded m (Some session) A (CacheDrop prefix p).
Proof using. intros Hp Hk. split; [by exists session|done]. Qed.
End combinators.
End keys.

(** ** What the parsers bound *)

Lemma f64_not_lt a b : f64_isNaN a = false → f64_isNaN b = false → f64_lt a b = false → f64_le b a = true.
Proof. intros Ha Hb. unfold f64_lt, f64_le. rewrite Ha, Hb. cbn. intros H%Z.ltb_ge. by apply Z.leb_le. Qed.

Lemma f64_lt_le a b : f64_lt a b = true → f64_le a b = true.
Proof. unfold f64_lt, f64_le. intros [H1 H2%Z.ltb_lt]%andb_prop. rewrite H1. cbn. apply Z.leb_le. lia. Qed.

Lemma finite_not_NaN x : f64_isFinite x = true → f64_isNaN x = false.
Proof. unfold f64_isFinite, f64_isNaN. by destruct (f64_expo x =? 2047). Qed.

Lemma integer_not_NaN x : f64_isInteger x = true → f64_isNaN x = false.
Proof. unfold f64_isInteger, f64_isNaN. by destruct (f64_expo x =? 2047). Qed.

Lemma min_within hi x : f64_lt 0 (f64_ofZ hi) = true → f64_lt 0 x = true → limit_within hi (Math_min x (f64_ofZ hi)).
Proof.
  unfold limit_within, Math_min, f64_lt, f64_le. intros Hh Hx.
  apply andb_prop in Hh as [[Hz Hh]%andb_prop Hh']. apply andb_prop in Hx as [[_ Hx]%andb_prop Hx'].
  apply negb_true_iff in Hz, Hh, Hx. rewrite Hh, Hx. cbn [orb].
  destruct (f64_key (f64_ofZ hi) <? f64_key x) eqn:E.
  - rewrite ?Hz, ?Hh. cbn. split; [done|]. apply Z.leb_le. lia.
  - rewrite ?Hz, ?Hh, ?Hx. cbn. split; [done|]. apply Z.leb_le. apply Z.ltb_ge in E. lia.
Qed.

Lemma bounded_limit_within requested max default :
  f64_lt 0 (f64_ofZ max) = true → limit_within max (f64_ofZ default) → limit_within max (bounded_limit requested max default).
Proof.
  intros Hm Hd. unfold bounded_limit. destruct requested as [x|]; [|done]. destruct (f64_lt 0 x) eqn:E; [by apply min_within|done].
Qed.

Lemma log_limit requested : limit_within MAX_LOG_LIMIT (bounded_limit requested MAX_LOG_LIMIT DEFAULT_LOG_LIMIT).
Proof. by apply bounded_limit_within. Qed.
Lemma filter_limit req : limit_within MAX_LOG_LIMIT (f_limit (parseLogFilter req)).
Proof. apply log_limit. Qed.
Lemma overview_limit req : limit_within MAX_OVERVIEW_LIMIT (q_limit (parseOverviewQuery req)).
Proof. by apply bounded_limit_within. Qed.

Lemma export_limit {TN : ToNumberOther} b a : parseLogExportRequest b = Ok (Some a) → limit_within MAX_LOG_LIMIT (f_limit a.2).
Proof.
  unfold parseLogExportRequest. destruct (not_object b); [done|]. intros H. bind_step H c. bind_step H f.
  destruct (nonblank c); [|done]. destruct (not_object f); [done|]. do 10 apply bind_Ok in H as (? & _ & H). injection H as <-. apply log_limit.
Qed.

Lemma vtz_limit req : limit_within MAX_VTZ_TREE_LIMIT (parseVtzLimit req).
Proof.
  unfold parseVtzLimit. assert (limit_within MAX_VTZ_TREE_LIMIT (f64_ofZ DEFAULT_VTZ_TREE_LIMIT)) as Hd by done.
  destruct (param _ _) as [raw|]; [|done]. destruct raw as [|c raw]; [done|].
  destruct (negb _ || _) eqn:E; [done|]. apply orb_false_iff in E as [Hf%negb_false_iff%finite_not_NaN Hl].
  apply min_within; [done|]. unfold f64_le, f64_lt in *. rewrite Hf in *. cbn in *. apply Z.leb_gt in Hl. by apply Z.ltb_lt.
Qed.

Lemma project_all_length {A} (f : value → result (option A)) items l : project_all f items = Ok (Some l) → length l = length items.
Proof. intros H%project_all_Some. symmetry. by eapply Forall2_length. Qed.

Lemma commit_bounded raw r : toSettingsCommitRequest raw = Ok (Some r) → Z.of_nat (length (commit_edits r)) ≤ MAX_SETTING_EDITS.
Proof.
  unfold toSettingsCommitRequest. destruct (not_object raw); [done|]. intros H. bind_step H e.
  destruct (bounded_array _ _) as [items|] eqn:Eb; [|done]. unfold then_some in H. bind_step H edits.
  destruct edits as [edits|]; [|done]. bind_step H sections. destruct sections as [sections|]; [|done].
  assert (r = mkCommit edits sections) as -> by (destruct edits, sections; congruence). cbn.
  apply project_all_length in Eedits. rewrite Eedits. unfold bounded_array in Eb.
  destruct (or_else e _); try discriminate Eb. destruct (_ <=? _) eqn:El; [|discriminate Eb].
  injection Eb as <-. by apply Z.leb_le.
Qed.

Lemma positive_id raw x : toPositiveId raw = Some x → safe_positive x = true.
Proof. unfold toPositiveId. repeat case_match; congruence. Qed.

Lemma history_limit raw x : toHistoryLimit raw = Some x → between 0 SETTINGS_HISTORY_MAX x.
Proof.
  unfold toHistoryLimit. destruct raw as [s|]; [|by intros [= <-]]. destruct s as [|c s]; [by intros [= <-]|].
  destruct (toPositiveId _) as [n|] eqn:E; [|done]. destruct (f64_le n _) eqn:Hl; [|done]. intros [= <-]. split; [|done].
  apply positive_id in E. unfold safe_positive in E. apply andb_prop in E as [_ E]. by apply f64_lt_le.
Qed.

Lemma outside_false lo hi x :
  f64_isNaN x = false → f64_isNaN (f64_ofZ lo) = false → f64_isNaN (f64_ofZ hi) = false →
  f64_lt x (f64_ofZ lo) = false → f64_lt (f64_ofZ hi) x = false → between lo hi x.
Proof. intros. split; by apply f64_not_lt. Qed.

Lemma weeks_within w :
  negb (f64_isFinite w) || f64_lt w (f64_ofZ 1) || f64_lt (f64_ofZ 12) w = false → between 1 12 w.
Proof.
  intros [[Hf%negb_false_iff%finite_not_NaN H1]%orb_false_iff H2]%orb_false_iff. by apply outside_false.
Qed.

Lemma days_within d :
  negb (f64_isInteger d) || f64_lt d (f64_ofZ 1) || f64_lt (f64_ofZ MAX_SPEND_DAYS) d = false →
  f64_isInteger d = true ∧ between 1 MAX_SPEND_DAYS d.
Proof.
  intros [[Hi%negb_false_iff H1]%orb_false_iff H2]%orb_false_iff. split; [done|]. apply outside_false; try done.
  by apply integer_not_NaN.
Qed.

Lemma rollback_id b x :
  (if not_object b then Ok None else to ← get b "to"; Ok (toPositiveId to)) = Ok (Some x) → safe_positive x = true.
Proof. destruct (not_object b); [done|]. intros H. bind_step H to. injection H as H. by eapply positive_id. Qed.

(** ** What the parsers throw *)

(** A computation that throws no refusal. *)
Definition plainly {A} (r : result A) : Prop := ∀ e, r = Throw e → plain e.

Lemma plainly_Ok {A} (a : A) : plainly (Ok a).
Proof. done. Qed.
Lemma plainly_bind {A B} (r : result A) (f : A → result B) : plainly r → (∀ a, r = Ok a → plainly (f a)) → plainly (r ≫= f).
Proof. destruct r as [a|e]; intros Hr Hf; [by apply Hf|]. intros e' [= <-]. by apply Hr. Qed.
Lemma plainly_get v k : plainly (get v k).
Proof. intros e. destruct v; cbn; by intros [= <-]. Qed.
Lemma plainly_project_all {A} (f : value → result (option A)) items : (∀ v, plainly (f v)) → plainly (project_all f items).
Proof.
  intros Hf. induction items as [|x items IH]; cbn [project_all]; [apply plainly_Ok|].
  apply plainly_bind; [apply Hf|]. intros [a|] _; [|apply plainly_Ok]. apply plainly_bind; [exact IH|]. intros; apply plainly_Ok.
Qed.

Lemma decode_plainly s : plainly (decodeURIComponent s).
Proof. by intros e ->%decodeURIComponent_total. Qed.

(** Goes through a parser. *)
Ltac plainly :=
  repeat first [ apply plainly_Ok | apply plainly_get | apply plainly_project_all; intros ? | apply plainly_bind; [|intros ? _]
               | match goal with |- plainly (match ?x with _ => _ end) => destruct x end ].

Create HintDb server.
#[export] Hint Resolve clean_success catches_read catches_command catches_raise : server.
#[export] Hint Extern 2 (guarded _ _ _ _ _ _ (fail _ _)) => apply g_fail; reflexivity : server.
#[export] Hint Extern 2 (guarded _ _ _ _ _ _ (refused_as _)) => apply g_refused_as; reflexivity : server.
#[export] Hint Resolve settled_send settled_refused_with settled_catch_read settled_catch_command : server.
#[export] Hint Resolve filter_limit overview_limit export_limit vtz_limit commit_bounded positive_id history_limit weeks_within days_within
  rollback_id : server.

(** ** Every handler is guarded *)

(** Refutes a GET from the tests on the method that were passed. *)
Ltac not_get :=
  let Hg := fresh in intros Hg; rewrite ?Hg in *; clear Hg;
  repeat match goal with
         | H : context [bool_decide ("GET" = ?m)] |- _ =>
             let b := eval vm_compute in (bool_decide ("GET" = m)) in change (bool_decide ("GET" = m)) with b in H
         end;
  repeat match goal with H : context [bool_decide ?P] |- _ => destruct (bool_decide P) end; cbn in *; congruence.

Ltac guard_step :=
  lazymatch goal with
  | H : write_call _ = true |- request_method _ ≠ "GET" => first [discriminate H|clear H; not_get]
  | |- request_method _ ≠ "GET" => not_get
  | H : stale_prefix _ _ = Some _ |- drops _ _ =>
      first [discriminate H|injection H as <-; eexists; split; [reflexivity|auto with server]]
  | |- stale_prefix _ _ = None => reflexivity
  | |- call_within _ => first [exact I|cbn [call_within]; solve [eauto with server]]
  | |- clean _ _ _ => auto with server
  | |- catches _ _ _ _ _ => auto with server
  | |- guarded _ _ _ _ _ _ ?p =>
      lazymatch p with
      | fail _ _ => apply g_fail; reflexivity
      | malformed => apply g_fail; reflexivity
      | bad_request => apply g_fail; reflexivity
      | not_found => apply g_fail; reflexivity
      | method_not_allowed => apply g_fail; reflexivity
      | engine_error => apply g_fail; reflexivity
      | Raise _ => exact I
      | refused_as _ => apply g_refused_as; reflexivity
      | refused_with _ _ _ => apply g_refused_with
      | catch_read _ _ _ => apply catches_read
      | catch_command _ _ _ => apply catches_command
      | gated _ _ _ => apply g_gated; intros
      | with_body _ _ => apply g_with_body; intros
      | with_request _ _ _ => apply g_with_request; intros
      | attempt _ _ _ => apply g_attempt; intros
      | awaiting _ _ _ _ => apply g_awaiting; intros
      | send _ _ _ _ => apply g_send; intros
      | send_out _ _ _ => apply g_send_out
      | plain_read _ _ _ _ => apply g_plain_read; intros
      | tiered_read _ _ _ _ => apply g_tiered_read; intros
      | cached_read _ _ _ _ _ _ => apply g_cached_read; intros; [reflexivity|..]
      | cached_or_404 _ _ _ _ _ _ => apply g_cached_or_404; intros; [reflexivity|..]
      | run_command _ _ _ _ _ => apply g_run_command; intros
      | CacheDrop _ _ => apply g_drop; [set_solver|]
      | ReadBody _ _ => cbn [guarded]; intros
      | Reply _ => apply g_session
      | match ?x with _ => _ end => destruct x eqn:?
      end
  end.

Section handlers.
Context {NS : NumberToString} {TN : ToNumberOther} (JSON_stringify : view → result string) (deps : ServerDeps)
  (req : http_request) (openApiDocument : value).

(** What a handler does once it has claimed the request. *)
Definition claims (h : option prog) : Prop := ∀ p A, h = Some p → guarded req openApiDocument JSON_stringify 2 None A p.

Ltac handler := intros ? ?; cbv zeta; repeat (case_match; try discriminate); intros [= <-]; repeat guard_step.

Lemma handleEntityDetail_claims : claims (handleEntityDetail JSON_stringify deps req).
Proof using. unfold handleEntityDetail. handler. Qed.
Lemma handleEntityIsolate_claims : claims (handleEntityIsolate JSON_stringify deps req).
Proof using. unfold handleEntityIsolate. handler. Qed.
Lemma handleLogExport_claims : claims (handleLogExport JSON_stringify deps req).
Proof using. unfold handleLogExport. handler. Qed.

Lemma catches_explain session : catches req openApiDocument JSON_stringify session catch_explain.
Proof using. intros m e A _. destruct e; by apply g_fail. Qed.
Lemma handleLogs_claims : claims (handleLogs JSON_stringify deps req).
Proof using.
  unfold handleLogs. handler; try apply catches_explain. left. by eapply decode_plainly.
Qed.

Lemma catches_members session : catches req openApiDocument JSON_stringify session (catch_members JSON_stringify).
Proof using. intros m e A He. destruct e; try by apply catches_read. by apply g_fail. Qed.
Lemma handleOverview_claims : claims (handleOverview JSON_stringify deps req).
Proof using.
  unfold handleOverview, serveOverviewRead, serveEntityConnections, serveClassMembers. handler. apply catches_members.
Qed.

Lemma handleVtz_claims : claims (handleVtz JSON_stringify deps req).
Proof using. unfold handleVtz. handler. Qed.

Lemma catches_vtz_command session : catches req openApiDocument JSON_stringify session (catch_vtz_command JSON_stringify).
Proof using.
  intros m e A He. destruct e; try by apply catches_read. apply g_session. apply clean_reason. apply (caught_told _ _ _ He). by intros [].
Qed.
Lemma settled_catch_vtz_command e : settled (catch_vtz_command JSON_stringify e).
Proof using. destruct e; try apply settled_catch_read. exact I. Qed.
Lemma g_run_vtz_command m session A command :
  request_method req ≠ "GET" →
  guarded req openApiDocument JSON_stringify (S m) (Some session) A (run_vtz_command JSON_stringify (principal_of req session) command).
Proof using.
  intros Hm. unfold run_vtz_command. apply g_awaiting; [done|exact I| |apply catches_vtz_command|].
  - intros prefix v [= <-]. eexists. split; [done|]. apply settled_send, settled_catch_vtz_command.
  - intros. repeat guard_step. apply catches_vtz_command.
Qed.
Lemma handleVtzCommand_claims : claims (handleVtzCommand JSON_stringify deps req).
Proof using. unfold handleVtzCommand. handler; apply g_run_vtz_command; not_get. Qed.

Lemma catches_distribute session : catches req openApiDocument JSON_stringify session (catch_distribute JSON_stringify).
Proof using. intros m e A He. destruct e; try by apply g_fail. by apply g_refused_with. Qed.
Lemma handleVtzDistribute_claims : claims (handleVtzDistribute JSON_stringify deps req).
Proof using. unfold handleVtzDistribute. handler; apply catches_distribute. left. by eapply decode_plainly. Qed.

(** The calls a parsed command can be. *)
Ltac command_of H :=
  repeat lazymatch type of H with
         | Ok None = _ => discriminate H
         | Ok (Some (match ?b with _ => _ end)) = _ => destruct b
         | Ok (Some _) = _ => injection H as <-
         | Ok (option_map (match ?b with _ => _ end) _) = _ => destruct b
         | Ok (option_map _ ?d) = _ => destruct d; cbn [option_map] in H
         | Ok (match ?b with _ => _ end) = _ => destruct b
         | (match ?b with _ => _ end) = _ => destruct b
         | _ => apply bind_Ok in H as (? & _ & H)
         end.

Lemma users_command_plain name description b c :
  users_command req name description b = Ok (Some c) → (∀ t, stale_prefix t c = None) ∧ call_within c.
Proof using.
  unfold users_command. cbv zeta. intros Hc. command_of Hc; done.
Qed.
Lemma users_command_plainly name description b : plainly (users_command req name description b).
Proof using. unfold users_command, parsePrincipalDraft, field_text, optional_text. cbv zeta. plainly. Qed.
Lemma handleUsersCommand_claims : claims (handleUsersCommand JSON_stringify deps req).
Proof using. unfold handleUsersCommand. handler; [by eapply users_command_plain| |by eapply users_command_plainly|done].
  match goal with H : users_command _ _ _ _ = _, H' : stale_prefix _ _ = _ |- _ =>
    by rewrite (proj1 (users_command_plain _ _ _ _ H)) in H' end.
Qed.
Lemma handleUsers_claims : claims (handleUsers JSON_stringify deps req).
Proof using. unfold handleUsers. handler. Qed.

Lemma catches_objects session : catches req openApiDocument JSON_stringify session (catch_objects_command JSON_stringify).
Proof using.
  intros m e A He. destruct e; try by apply catches_command. apply g_send_out, clean_object. apply (caught_told _ _ _ He). by intros [].
Qed.
Lemma objects_command_plainly b : plainly (objects_command req b).
Proof using. unfold objects_command, parseObjectDraft, field_text, optional_text. cbv zeta. plainly. Qed.
Lemma objects_command_plain b c : objects_command req b = Ok (Some c) → (∀ t, stale_prefix t c = None) ∧ call_within c.
Proof using. unfold objects_command. cbv zeta. intros Hc. command_of Hc; done. Qed.
Lemma handleObjectsCommand_claims : claims (handleObjectsCommand JSON_stringify deps req).
Proof using. unfold handleObjectsCommand. handler; [by eapply objects_command_plain| |by eapply objects_command_plainly|apply catches_objects|done].
  match goal with H : objects_command _ _ = _, H' : stale_prefix _ _ = _ |- _ =>
    by rewrite (proj1 (objects_command_plain _ _ H)) in H' end.
Qed.
Lemma handleObjects_claims : claims (handleObjects JSON_stringify deps req).
Proof using. unfold handleObjects. handler. Qed.

Lemma g_act_reply m session A c u v : A (principal_of req session) c (Ok v) →
  guarded req openApiDocument JSON_stringify m (Some session) A (act_reply JSON_stringify (catch_command JSON_stringify u) v).
Proof using.
  intros Ha. unfold act_reply. destruct v as [outcome| | | | | | | | | | | | | | | | | | | | | | | |]; try (repeat guard_step).
  2,3: left; by eapply plainly_get.
  match goal with H : is_str "refused" _ = true |- _ => apply is_str_iff in H; subst end.
  eapply (clean_explanation _ _ c outcome); [|done..]. by exists session.
Qed.
Lemma settled_act_reply catch v : (∀ e, settled (catch e)) → settled (act_reply JSON_stringify catch v).
Proof using.
  intros He. unfold act_reply, attempt. repeat case_match; try apply He; try apply settled_send; try done.
Qed.
Lemma g_soc_await m session A c (k : view → prog) :
  request_method req ≠ "GET" → call_within c → (∀ t, stale_prefix t c = Some (socCachePrefix t)) → (∀ v, settled (k v)) →
  (∀ v B, B (principal_of req session) c (Ok v) → guarded req openApiDocument JSON_stringify m (Some session) B (k v)) →
  guarded req openApiDocument JSON_stringify (S m) (Some session) A
    (awaiting (principal_of req session) c (catch_command JSON_stringify is_soc_unavailable) (λ v,
       CacheDrop (socCachePrefix (p_tenant (principal_of req session))) (k v))).
Proof using.
  intros Hm Hb Hs Hk Hg. apply g_awaiting; [done|done| |apply catches_command|].
  - intros prefix v E. rewrite Hs in E. injection E as <-. by eexists.
  - intros v B HB. apply g_drop; [set_solver|by apply Hg].
Qed.

(** The act or the verdict a body states. *)
Lemma soc_act_stale incident b (act : bool) c :
  (if act then d ← toCaseActDraft b; Ok (option_map (c_caseAct incident) d)
   else d ← toDispositionDraft b; Ok (option_map (c_disposition incident) d)) = Ok (Some c) →
  (∀ t, stale_prefix t c = Some (socCachePrefix t)) ∧ call_within c.
Proof using. intros Hc. command_of Hc; done. Qed.

Lemma soc_act_plainly incident b (act : bool) :
  plainly (if act then d ← toCaseActDraft b; Ok (option_map (c_caseAct incident) d)
           else d ← toDispositionDraft b; Ok (option_map (c_disposition incident) d)).
Proof using. unfold toCaseActDraft, toDispositionDraft, requiredText. plainly. Qed.
Lemma steps_plainly incident b :
  plainly (s ← get b "steps"; s ← toResponseStepDrafts s; Ok (option_map (c_modifyPlan incident) s)).
Proof using. unfold toResponseStepDrafts, toStepDraft. plainly. Qed.

Lemma g_soc_command m session A incident b :
  request_method req ≠ "GET" →
  guarded req openApiDocument JSON_stringify (S m) (Some session) A (soc_command JSON_stringify req (principal_of req session) incident b).
Proof using.
  intros Hm. unfold soc_command. cbv zeta. destruct (bool_decide (_ = "/api/soc/generate")); [|destruct (_ || _); [|destruct (bool_decide (_ = "/api/soc/plan/approve"))]].
  - apply g_soc_await; [done..|auto with server|]. intros. repeat guard_step.
  - destruct (if bool_decide _ then _ else _) as [[c|]|e] eqn:E; [|by apply g_fail|apply catches_command; left; by eapply soc_act_plainly].
    apply soc_act_stale in E as [Es Eb]. apply g_soc_await; [done..| |].
    + intros v. apply settled_act_reply. auto with server.
    + intros v B HB. by eapply g_act_reply.
  - apply g_attempt; [intros r _|intros e He; apply catches_command; left; by eapply plainly_get]. destruct (shown_revision r); [|by apply g_fail].
    apply g_soc_await; [done..|auto with server|]. intros. repeat guard_step.
  - apply g_run_command; [done| | |apply steps_plainly|apply catches_command|intros; apply g_drop; [set_solver|done]].
    { intros c Hc. by command_of Hc. }
    intros c prefix v Hc Hs. command_of Hc. injection Hs as <-. eexists. split; [reflexivity|auto with server].
Qed.
Lemma handleSocCommand_claims : claims (handleSocCommand JSON_stringify deps req).
Proof using. unfold handleSocCommand. handler. apply g_soc_command. not_get. Qed.

(** The table of the per-incident reads lists each call under its own key. *)
Lemma soc_reads_keyed path kind c nullable session incident :
  map_get SOC_INCIDENT_READS path = Some (kind, c, nullable) →
  cache_key (principal_of req session) (c incident) =
  Some (socCachePrefix (p_tenant (principal_of req session)) +:+ (kind +:+ ":" +:+ incident), SOC_CACHE_VERSION).
Proof using.
  unfold SOC_INCIDENT_READS. cbn [map_get]. repeat (case_bool_decide; [intros [= <- <- <-]; reflexivity|]). done.
Qed.
Lemma soc_reads_within path kind c nullable incident :
  map_get SOC_INCIDENT_READS path = Some (kind, c, nullable) → call_within (c incident).
Proof using.
  unfold SOC_INCIDENT_READS. cbn [map_get]. repeat (case_bool_decide; [intros [= <- <- <-]; exact I|]). done.
Qed.
Lemma handleSoc_claims : claims (handleSoc JSON_stringify deps req).
Proof using.
  unfold handleSoc. intros p A. cbv zeta. destruct (map_get SOC_INCIDENT_READS _) as [[[kind c] nullable]|] eqn:E.
  - intros [= <-]. repeat guard_step. destruct nullable.
    + apply g_cached_or_404; [by eapply soc_reads_keyed|by eapply soc_reads_within|]. apply catches_read.
    + apply g_cached_read; [by eapply soc_reads_keyed|by eapply soc_reads_within|]. apply catches_read.
  - repeat (case_bool_decide; [intros [= <-]|]); [..|done]; repeat guard_step.
Qed.

Lemma handlePolicies_claims : claims (handlePolicies JSON_stringify deps req).
Proof using. unfold handlePolicies. handler. Qed.
Lemma policies_command_stale b c :
  policies_command req b = Ok (Some c) → (∀ t, stale_prefix t c = Some (policiesCachePrefix t)) ∧ call_within c.
Proof using. unfold policies_command. cbv zeta. intros Hc. command_of Hc; done. Qed.
Lemma policies_command_plainly b : plainly (policies_command req b).
Proof using.
  unfold policies_command, toPolicyDraftInput, toNetworkInput, toRestrictionsInput, toAppliedToInput, toMemberInput, toRuleInput, toEndpointInput, toTagsInput, field_text.
  cbv zeta. plainly.
Qed.
Lemma handlePoliciesCommand_claims : claims (handlePoliciesCommand JSON_stringify deps req).
Proof using. unfold handlePoliciesCommand. handler; [by eapply policies_command_stale| |by eapply policies_command_plainly|done].
  match goal with H : policies_command _ _ = _, H' : stale_prefix _ _ = _ |- _ =>
    rewrite (proj1 (policies_command_stale _ _ H)) in H'; injection H' as <- end.
  eexists. split; [done|]. auto with server.
Qed.

Lemma g_idam_post A parse :
  request_method req ≠ "GET" → (∀ b c, parse b = Ok (Some c) → (∀ t, stale_prefix t c = None) ∧ call_within c) →
  guarded req openApiDocument JSON_stringify 2 None A (idam_post JSON_stringify deps req parse).
Proof using.
  intros Hm Hs. apply g_gated. intros session B. apply g_with_body. intros b.
  destruct (parse b) as [[c|]|e] eqn:E; [|by apply g_fail|done].
  apply Hs in E as [Es Eb]. apply g_plain_read; [done..|apply catches_command].
Qed.
Ltac idam :=
  intros ? ?; case_match; [done|]; intros [= <-]; apply g_idam_post; [not_get|];
  let Hc := fresh in intros ? ? Hc; command_of Hc; done.
Lemma handleIdamConfigure_claims : claims (handleIdamConfigure JSON_stringify deps req).
Proof using. unfold handleIdamConfigure. idam. Qed.
Lemma handleIdamConnect_claims : claims (handleIdamConnect JSON_stringify deps req).
Proof using. unfold handleIdamConnect. idam. Qed.
Lemma handleIdamCommand_claims : claims (handleIdamCommand JSON_stringify deps req).
Proof using. unfold handleIdamCommand. idam. Qed.
Lemma handleIdam_claims : claims (handleIdam JSON_stringify deps req).
Proof using. unfold handleIdam. handler. Qed.

(** Programs behind the session gate alone. *)
Lemma g_with_session m A k :
  (∀ session B, guarded req openApiDocument JSON_stringify m (Some session) B (k session)) →
  guarded req openApiDocument JSON_stringify m None A (with_session k).
Proof using. intros Hk [session|]; [apply Hk|by apply g_fail]. Qed.
Lemma g_local m session A c k :
  match c with l_secret _ _ => request_method req ≠ "GET" | l_ping => False | _ => True end →
  (∀ outcome, guarded req openApiDocument JSON_stringify m (Some session) A (k outcome)) →
  guarded req openApiDocument JSON_stringify (S m) (Some session) A (AwaitLocal c k).
Proof using. intros Hs Hk. split; [by destruct c|done]. Qed.

Lemma handleIdamSecret_claims : claims (handleIdamSecret deps req).
Proof using.
  unfold handleIdamSecret. intros p A. case_match; [done|]. intros [= <-]. apply g_with_session. intros session B.
  repeat guard_step. apply g_local; [not_get|]. intros [v|e]; [by repeat guard_step|]. destruct e; by apply g_fail.
Qed.

Lemma handleGovernedSettings_claims : claims (handleGovernedSettings JSON_stringify deps req).
Proof using. unfold handleGovernedSettings, commitGovernedSettings. handler. Qed.

Lemma g_with_global_admin m A k :
  (∀ session B, guarded req openApiDocument JSON_stringify m (Some session) B (k session)) →
  guarded req openApiDocument JSON_stringify m None A (with_global_admin k).
Proof using. intros Hk. apply g_with_session. intros session B. case_bool_decide; [apply Hk|by apply g_refused_as]. Qed.

Lemma handleModelAccess_claims : claims (handleModelAccess JSON_stringify deps req).
Proof using.
  unfold handleModelAccess. intros p A. cbv zeta. case_match; [done|]. intros [= <-]. apply g_with_global_admin.
  intros session B. unfold with_engine. repeat guard_step.
  destruct (match v with V_grant (conflicting _) => true | _ => false end) eqn:E.
  - destruct v as [| | | | | | | | | | | | | | | | | | | | | |g| |]; try done. destruct g; [done|].
    eapply clean_conflict. by exists session.
  - destruct v as [| | | | | | | | | | | | | | | | | | | | | |g| |]; try apply clean_success. destruct g; [apply clean_success|done].
Qed.

Lemma handleConsoleRbac_claims : claims (handleConsoleRbac JSON_stringify deps req).
Proof using.
  unfold handleConsoleRbac. intros p A. case_match; [done|]. intros [= <-]. apply g_with_global_admin. intros. repeat guard_step.
Qed.
Lemma handleSettingsReports_claims : claims (handleSettingsReports JSON_stringify deps req).
Proof using. unfold handleSettingsReports. handler. Qed.
Lemma handleSecuritySession_claims : claims (handleSecuritySession deps req).
Proof using.
  unfold handleSecuritySession. intros p A. case_match; [done|]. intros [= <-]. apply g_with_session. intros session B.
  repeat guard_step. apply g_local; [done|]. intros. repeat guard_step.
Qed.
Lemma commit_plainly b : plainly (toSettingsCommitRequest b).
Proof using.
  unfold toSettingsCommitRequest, toEditInput, toSectionPatch, then_some, section_field, stringList, entries, text_entry, egress_entry, format_entry, lug_input.
  plainly.
Qed.
Lemma rollback_plainly b : plainly (if not_object b then Ok None else to ← get b "to"; Ok (toPositiveId to)).
Proof using. plainly. Qed.
Lemma patch_plainly b : plainly (toSocSettingsPatch b).
Proof using. unfold toSocSettingsPatch, patch_tiers_input, patch_siem_input, then_some. plainly. Qed.
Lemma handleSettingsGovernance_claims : claims (handleSettingsGovernance JSON_stringify deps req).
Proof using. unfold handleSettingsGovernance. handler; left; first [by eapply commit_plainly|by eapply rollback_plainly]. Qed.
Lemma handleSocSettings_claims : claims (handleSocSettings JSON_stringify deps req).
Proof using. unfold handleSocSettings. handler. left. by eapply patch_plainly. Qed.

(** ** The route *)

Lemma first_claim_claims hs : Forall claims hs → claims (first_claim hs).
Proof using. induction 1 as [|[h|] hs Hh Hs IH]; [done|exact Hh|exact IH]. Qed.

Lemma commands_claim : claims (first_claim (COMMAND_HANDLERS JSON_stringify deps req)).
Proof using.
  apply first_claim_claims. unfold COMMAND_HANDLERS. repeat constructor;
    [apply handleEntityIsolate_claims|apply handleLogExport_claims|apply handleVtzDistribute_claims|apply handleVtzCommand_claims
    |apply handleUsersCommand_claims|apply handleObjectsCommand_claims|apply handlePoliciesCommand_claims
    |apply handleIdamCommand_claims|apply handleIdamConnect_claims|apply handleIdamSecret_claims
    |apply handleGovernedSettings_claims|apply handleConsoleRbac_claims|apply handleSettingsReports_claims
    |apply handleModelAccess_claims|apply handleSecuritySession_claims|apply handleSettingsGovernance_claims
    |apply handleSocSettings_claims|apply handleIdamConfigure_claims|apply handleSocCommand_claims].
Qed.

Lemma reads_claim : claims (first_claim (READ_HANDLERS JSON_stringify deps req)).
Proof using.
  apply first_claim_claims. unfold READ_HANDLERS. repeat constructor;
    [apply handleEntityDetail_claims|apply handleLogs_claims|apply handleOverview_claims|apply handleUsers_claims
    |apply handleObjects_claims|apply handleSoc_claims|apply handlePolicies_claims|apply handleIdam_claims|apply handleVtz_claims].
Qed.

Lemma g_tryServeFile m A p missing :
  guarded req openApiDocument JSON_stringify m None A missing →
  guarded req openApiDocument JSON_stringify (S m) None A (tryServeFile p missing).
Proof using.
  intros Hm. split; [done|]. intros [v|e]; [|by destruct (isMissing e)].
  destruct v as [[]| | | | | | | | | | | | | | | | | | | | | | | |]; try exact Hm.
  split_and!; [|apply clean_success|done]. intros _. right. left. by eexists _, _.
Qed.

Lemma g_serveSpa A root p : guarded req openApiDocument JSON_stringify 2 None A (serveSpa root p not_found).
Proof using.
  unfold serveSpa. destruct (safePath root p); [|by apply g_fail]. apply g_tryServeFile.
  case_bool_decide; [apply g_tryServeFile|]; by apply g_fail.
Qed.

Lemma g_operational A : guarded req openApiDocument JSON_stringify 2 None A (operational JSON_stringify deps req openApiDocument).
Proof using.
  unfold operational. case_bool_decide; [|case_bool_decide as Hready; [|case_bool_decide]].
  - split_and!; [|apply clean_success|done]. intros _. do 2 right. by left.
  - split; [done|]. intros [v|e]; (split_and!; [intros _; do 3 right; left; by eexists| |done]); [apply clean_success|apply clean_not_ready].
  - unfold send_out, send. destruct (JSON_stringify _); [|done]. split_and!; [|apply clean_success|done]. intros _. by do 4 right.
  - destruct (first_claim (READ_HANDLERS _ _ _)) eqn:E'; [by apply reads_claim|].
    destruct (spaDir (config deps)); [apply g_serveSpa|by apply g_fail].
Qed.

Lemma g_route A : guarded req openApiDocument JSON_stringify 2 None A (route JSON_stringify deps req openApiDocument).
Proof using.
  assert (guarded req openApiDocument JSON_stringify 2 None A (dispatch JSON_stringify deps req openApiDocument)) as Hd.
  { unfold dispatch. destruct (first_claim (COMMAND_HANDLERS _ _ _)) eqn:E; [by apply commands_claim|].
    case_bool_decide; [apply g_operational|by apply g_fail]. }
  unfold route. destruct (startsWith _ _); [|done]. destruct (apiRouteVerdict _ _); [done|by apply g_fail..].
Qed.
End handlers.

(** ** Invariants of the running server *)

Section running.
Context {NS : NumberToString} {TN : ToNumberOther} {AO : ArithOther} {LC : LocaleCompare} {CO : CompareOther}.
Context (deps : ServerDeps) (auth_deps : AuthRouterDeps) (cacheTtlMs cacheMaxEntries : Z)
  (JSON_parse : string → result value) (JSON_parse_body : bytes → result value) (JSON_stringify : view → result string)
  (openApiDocument : value) {provider : OidcProvider}.
Notation run := (run deps auth_deps cacheTtlMs cacheMaxEntries).
Notation server_step := (server_step deps auth_deps cacheTtlMs cacheMaxEntries JSON_parse JSON_parse_body JSON_stringify openApiDocument).
Notation serves := (serves deps auth_deps cacheTtlMs cacheMaxEntries JSON_parse JSON_parse_body JSON_stringify openApiDocument).
Implicit Types tr : list event.

(** The engine answered the call so. *)
Definition answered tr (pr : OperatorPrincipal) (c : call) (o : result view) : Prop := ev_answer pr c o ∈ tr.

(** [pr] acts for a session of a verified login. *)
Definition operator (req : http_request) (s : option OperatorSession) (pr : OperatorPrincipal) : Prop :=
  ∃ session, s = Some session ∧ verified session ∧ pr = principal_of req session.

(** A session of a verified login. *)
Definition signed_in (s : option OperatorSession) : Prop := ∃ session, s = Some session ∧ verified session.

Definition event_ok tr (e : event) : Prop :=
  match e with
  | ev_request _ => True
  | ev_call req s pr c => operator req s pr ∧ (write_call c = true → request_method req ≠ "GET") ∧ call_within c
  | ev_answer pr c _ => ∃ req s, operator req s pr
  | ev_local req s c =>
      match c with
      | l_secret _ _ => signed_in s ∧ request_method req ≠ "GET"
      | l_sessionGroup _ => signed_in s
      | l_ping => request_path req = "/readyz"
      | l_readFile _ => True
      end
  | ev_hit req s key v =>
      ∃ own c pr c' version, operator req s own ∧ cache_key own c = Some (key, version) ∧
        answered tr pr c' (Ok v) ∧ cache_key pr c' = Some (key, version)
  | ev_reply req s resp =>
      (s = None → public openApiDocument (body resp)) ∧
      clean (own req s (answered tr)) (stringify_throws JSON_stringify) resp
  end.

Definition cache_ok (c : @Cache.cache view) tr : Prop :=
  ∀ key e, map_get c key = Some e →
    ∃ pr c', answered tr pr c' (Ok (entry_value e)) ∧ cache_key pr c' = Some (key, entry_version e).

Definition task_ok tr (t : task) : Prop :=
  (∀ session, t_session t = Some session → verified session) ∧ t_sent t = false ∧
  ∃ n, (n ≤ 2)%nat ∧ guarded (t_req t) openApiDocument JSON_stringify n (t_session t) (answered tr) (t_prog t).

Lemma trace_grows (new tr : list event) : tr ⊆ new ++ tr.
Proof using. intros e He. apply elem_of_app. by right. Qed.

Lemma answered_mono tr tr' pr c o : tr ⊆ tr' → answered tr pr c o → answered tr' pr c o.
Proof using. intros Hs Ha. by apply Hs. Qed.
Lemma event_ok_mono tr tr' e : tr ⊆ tr' → event_ok tr e → event_ok tr' e.
Proof using.
  intros Hs. destruct e; cbn; try done.
  - intros (own & c & pr & c' & ver & ? & ? & ? & ?). exists own, c, pr, c', ver. split_and!; try done. by eapply answered_mono.
  - intros [Hp Hc]. split; [done|]. eapply clean_mono; [|done|exact Hc]. intros c o. apply own_mono. intros. by eapply answered_mono.
Qed.
Lemma cache_ok_mono c tr tr' : tr ⊆ tr' → cache_ok c tr → cache_ok c tr'.
Proof using. intros Hs Hc key e (pr & c' & Ha & Hk)%Hc. exists pr, c'. split; [by eapply answered_mono|done]. Qed.
Lemma task_ok_mono tr tr' t : tr ⊆ tr' → task_ok tr t → task_ok tr' t.
Proof using. 
  intros Hs (Hv & Hu & n & Hn & Hg). do 2 (split; [done|]). exists n. split; [done|]. eapply guarded_mono, Hg. intros. by eapply answered_mono.
Qed.

Lemma cache_ok_get c tr key version now :
  cache_ok c tr → cache_ok (cache_get c key version now).2 tr ∧
  ∀ v, (cache_get c key version now).1 = Some v → ∃ e, map_get c key = Some e ∧ entry_value e = v ∧ entry_version e = version.
Proof using.
  intros Hc. unfold cache_get. destruct (map_get c key) as [e|] eqn:E; [|done].
  destruct (negb _ || _) eqn:Hb; cbn.
  - split; [|done]. intros k e' [E' _]%map_get_delete_Some. by apply Hc.
  - split; [done|]. intros v [= <-]. exists e. split_and!; try done. apply orb_false_iff in Hb as [Hb _].
    apply negb_false_iff, bool_decide_eq_true in Hb. done.
Qed.

Lemma cache_ok_set c tr key v version now pr c' :
  cache_ok c tr → answered tr pr c' (Ok v) → cache_key pr c' = Some (key, version) →
  cache_ok (cache_set cacheTtlMs cacheMaxEntries c key v version now) tr.
Proof using.
  intros Hc Ha Hk k e. rewrite cache_set_evict. destruct (decide (key = k)) as [<-|Hne].
  - rewrite map_get_set. intros [= <-]. by exists pr, c'.
  - rewrite map_get_set_ne by done. intros E%evict_get. apply map_get_delete_Some in E as [E _]. by apply Hc.
Qed.

Lemma cache_ok_drop c tr prefix : cache_ok c tr → cache_ok (cache_deletePrefix c prefix) tr.
Proof using. intros Hc k e. rewrite deletePrefix_get. destruct (startsWith k prefix); [done|]. apply Hc. Qed.

(** The store answers with sessions of verified logins. *)
Lemma resolve_verified st cookies now session :
  state_ok st → (resolveSession auth_deps st cookies now).1 = Some session → verified session.
Proof using.
  intros [Hs _]. unfold resolveSession. destruct (readCookie _ _) as [sid|]; [|done].
  destruct (session_get (sessions st) sid now) as [s m] eqn:E. cbn. intros ->.
  apply (Hs sid). eapply (session_get_Some _ _ now). by rewrite E.
Qed.

Record run_inv (st : run_state) : Prop := {
  ri_auth : state_ok (rs_auth st);
  ri_cache : cache_ok (rs_cache st) (rs_trace st);
  ri_events : Forall (event_ok (rs_trace st)) (rs_trace st);
  ri_session : ∀ session, rs_session st = Some session → verified session }.

Lemma run_inv_event a c s u tr e : run_inv (mkRun a c s u tr) → event_ok (e :: tr) e → ∀ u', run_inv (mkRun a c s u' (e :: tr)).
Proof using.
  intros [Ha Hc He Hs] Hok u'. cbn in *. pose proof (trace_grows [e] tr). constructor; cbn; try done.
  - by eapply cache_ok_mono.
  - constructor; [done|]. eapply Forall_impl; [exact He|]. intros x. by apply event_ok_mono.
Qed.

Lemma run_inv_log st e : run_inv st → event_ok (e :: rs_trace st) e → run_inv (log e st).
Proof using. intros Hinv Hok. destruct st. by eapply run_inv_event. Qed.

Lemma run_inv_respond req r st :
  run_inv st → (rs_session st = None → public openApiDocument (body r)) →
  clean (own req (rs_session st) (answered (rs_trace st))) (stringify_throws JSON_stringify) r → run_inv (respond req r st).
Proof using.
  intros Hinv Hp Hc. destruct st as [a c s u tr]. apply (run_inv_event a c s u); [done|]. split; [done|].
  eapply clean_mono; [|done|exact Hc]. intros c' o. apply own_mono. intros. eapply answered_mono; [|done]. apply (trace_grows [_]).
Qed.

Lemma run_inv_cache c st : run_inv st → cache_ok c (rs_trace st) → run_inv (with_cache c st).
Proof using. intros [Ha Hc He Hs] Hc'. by constructor. Qed.

Lemma run_ok n req now st p :
  run_inv st → rs_sent st = false → guarded req openApiDocument JSON_stringify n (rs_session st) (answered (rs_trace st)) p →
  let r := run req now st p in
  run_inv r.1 ∧ rs_trace st ⊆ rs_trace r.1 ∧
  match r.2 with
  | None => True
  | Some p' => rs_sent r.1 = false ∧ guarded req openApiDocument JSON_stringify n (rs_session r.1) (answered (rs_trace r.1)) p'
  end.
Proof using.
  revert st. induction p as [resp k IH| |e|k IH|key ver k IH|key ver v k IH|pre k IH|lim k IH|pr c k IH|c k IH];
    intros st Hinv Hu Hg; cbn [ServerRun.run] in *.
  - rewrite Hu. destruct Hg as (Hp & Hc & ->). cbn [ServerRun.run]. split_and!; [by apply run_inv_respond|apply (trace_grows [_])|done].
  - done.
  - rewrite Hu. split_and!; [|apply (trace_grows [_])|done]. apply run_inv_respond; [done| |apply clean_error; by apply (bool_decide_unpack _)].
    intros _. left. exists "internal". split; [by apply (bool_decide_unpack _)|done].
  - destruct (if authRouter deps then _ else _) as [s a] eqn:E. destruct Hinv as [Ha Hc He Hs].
    apply (IH s (mkRun a (rs_cache st) s (rs_sent st) (rs_trace st))); [|done|apply Hg].
    assert (state_ok a ∧ ∀ session, s = Some session → verified session) as [Ha' Hs'].
    { destruct (authRouter deps); [|by injection E as <- <-].
      pose proof (resolve_ok auth_deps (rs_auth st) (http_cookie req) now Ha) as H1.
      pose proof (λ session, resolve_verified (rs_auth st) (http_cookie req) now session Ha) as H2.
      rewrite E in H1, H2. by split. }
    by constructor.
  - destruct Hg as [(session & c & Hse & Hkey) Hk].
    destruct (cache_ok_get (rs_cache st) (rs_trace st) key ver now (ri_cache _ Hinv)) as [Hc' Hhit].
    destruct (cache_get (rs_cache st) key ver now) as [hit c'] eqn:E. cbn in Hc', Hhit. destruct hit as [v|].
    + set (st' := log _ _). assert (rs_trace st ⊆ rs_trace st') by apply (trace_grows [_]).
      destruct (IH (Some v) st') as (H1 & H2 & H3).
      * apply run_inv_log; [by apply run_inv_cache|]. cbn. destruct (Hhit v eq_refl) as (e & Ee & <- & <-).
        destruct (ri_cache _ Hinv key e Ee) as (pr & c'' & Han & Hk''). exists (principal_of req session), c, pr, c'', (entry_version e).
        split_and!; try done; [exists session; split_and!; [done|by apply Hinv|done]|]. eapply answered_mono; [|exact Han]. apply (trace_grows [_]).
      * done.
      * eapply guarded_mono; [|apply (Hk (Some v))]. intros. by eapply answered_mono.
      * split_and!; [done|by etrans|done].
    + apply (IH None (with_cache c' st)); [by apply run_inv_cache|done|apply Hk].
  - destruct Hg as [(pr & c & Han & Hkey) Hk]. apply (IH (with_cache _ st)); [|done|done].
    apply run_inv_cache; [done|]. eapply cache_ok_set; [apply Hinv|done|done].
  - destruct Hg as [_ Hk]. apply (IH (with_cache _ st)); [|done|done]. apply run_inv_cache; [done|]. apply cache_ok_drop, Hinv.
  - by split_and!.
  - split_and!; [|apply (trace_grows [_])|split; [done|]].
    + destruct n; [done|]. apply run_inv_log; [done|]. destruct Hg as ((session & Hse & ->) & Hw & Hb & _). split; [|done]. exists session. split_and!; [done|by apply Hinv|done].
    + eapply guarded_mono; [|exact Hg]. intros. eapply answered_mono; [|done]. apply (trace_grows [_]).
  - assert (rs_session st ≠ None → signed_in (rs_session st)) as Hsig.
    { intros Hn. destruct (rs_session st) as [session|] eqn:Es; [|done]. exists session. split; [done|by apply Hinv]. }
    split_and!; [|apply (trace_grows [_])|split; [done|]].
    + destruct n; [done|]. apply run_inv_log; [done|]. destruct Hg as [Hg _]. cbn. destruct c; try done; [|by apply Hsig].
      destruct Hg as [H1 H2]. by split; [apply Hsig|].
    + eapply guarded_mono; [|exact Hg]. intros. eapply answered_mono; [|done]. apply (trace_grows [_]).
Qed.

Record server_inv (s : server) : Prop := {
  si_login : sys_inv (login s);
  si_cache : cache_ok (srv_cache s) (trace s);
  si_events : Forall (event_ok (trace s)) (trace s);
  si_tasks : Forall (task_ok (trace s)) (waiting s) }.

Lemma after_run_inv n s m ts req now st p :
  (n ≤ 2)%nat →
  sys_inv (login s) → run_inv st → rs_sent st = false → Forall (task_ok (rs_trace st)) ts →
  guarded req openApiDocument JSON_stringify n (rs_session st) (answered (rs_trace st)) p →
  server_inv (after_run s m ts req (run req now st p)).
Proof using.
  intros Hn Hl Hinv Hu Ht Hg. destruct (run_ok n req now st p Hinv Hu Hg) as ([Ha Hc He Hs] & Hsub & Ho).
  destruct (run req now st p) as [st' o]. cbn in *. constructor; cbn; try done.
  - destruct Ha as [Ha Hp]. destruct Hl as [_ _ Hi]. by constructor.
  - assert (Forall (task_ok (rs_trace st')) ts) by (eapply Forall_impl; [exact Ht|]; intros t; by apply task_ok_mono).
    destruct o as [p'|]; [|done]. constructor; [|done]. destruct Ho as [Hu' Hg']. do 2 (split; [done|]). by exists n.
Qed.

(** An answer keeps the invariant, and the program it goes on with is guarded with one await less. *)
Lemma answer_inv s t env b p m evs :
  server_inv s → task_ok (trace s) t → answer JSON_parse env b (srv_memory s) (t_prog t) = Some (p, m, evs) →
  run_inv (mkRun (store (login s)) (srv_cache s) (t_session t) (t_sent t) (evs ++ trace s)) ∧
  ∃ n, (n ≤ 2)%nat ∧ guarded (t_req t) openApiDocument JSON_stringify n (t_session t) (answered (evs ++ trace s)) p.
Proof using.
  intros [Hl Hc He _] (Hv & Hu & n & Hn & Hg) Ha. assert (state_ok (store (login s))) as Hst by (destruct Hl; by split).
  assert (run_inv (mkRun (store (login s)) (srv_cache s) (t_session t) (t_sent t) (trace s))) as Hinv by by constructor.
  unfold answer in Ha. destruct (t_prog t) as [| | | | | | |lim k|pr c k|c k]; try discriminate Ha; (destruct n as [|n]; [done|]).
  - injection Ha as <- _ <-. split; [done|]. exists n. split; [lia|apply Hg].
  - destruct (call_engine JSON_parse env (srv_memory s) pr c) as [outcome m']. injection Ha as <- _ <-.
    destruct Hg as ((session & Hse & ->) & _ & _ & Hk). split.
    + apply (run_inv_event _ _ _ (t_sent t)); [done|]. exists (t_req t), (t_session t), session. split_and!; [done|by apply Hv|done].
    + exists n. split; [lia|]. eapply guarded_mono; [|apply Hk]. cbn. intros pr' c' o [Hold|(-> & -> & ->)]; [|apply list_elem_of_here].
      eapply answered_mono; [|exact Hold]. apply (trace_grows [_]).
  - injection Ha as <- _ <-. split; [done|]. exists n. split; [lia|apply Hg].
Qed.

Lemma server_step_inv s s' : server_inv s → server_step s s' → server_inv s'.
Proof using.
  intros Hs Hstep. pose proof Hs as [Hl Hc He Ht]. assert (state_ok (store (login s))) as Hst by (destruct Hl; by split).
  destruct Hstep as [a _ Ha|req now chunks Hh|l1 t l2 now env b p m evs Hw Ha].
  - constructor; cbn; try done. by eapply step_inv.
  - apply (after_run_inv 2); [done|done| |done| |apply g_route].
    + apply (run_inv_event _ _ _ false); [by constructor|done].
    + cbn. eapply Forall_impl; [exact Ht|]. intros t'. apply task_ok_mono. apply (trace_grows [_]).
  - rewrite Hw in Ht. apply Forall_app in Ht as [Ht1 [Htok Ht2]%Forall_cons].
    destruct (answer_inv s t env b p m evs Hs Htok Ha) as [Hinv (n & Hn & Hg)].
    apply (after_run_inv n); [done|done|done|apply Htok| |done]. cbn.
    assert (Forall (task_ok (trace s)) (l1 ++ l2)) as Ht by by apply Forall_app.
    eapply Forall_impl; [exact Ht|]. intros t'. apply task_ok_mono, trace_grows.
Qed.

Lemma serves_inv s : serves s → server_inv s.
Proof using.
  induction 1 as [m|s s' _ IH Hstep]; [|by eapply server_step_inv].
  constructor; cbn; [|done|constructor|constructor]. constructor; [done|done|constructor].
Qed.
End running.
