(* ===== verification/ServerClaims.v ===== *)
(** * The server's guarantees

    The theorems on the running server of [ServerRun]: who reaches the engine, what a
    response discloses, whose projections the cache answers with, what a change leaves in the
    cache, and that every request is answered. *)
From S2P Require Import Prelude Bytes Float64 Cbor JsValue JsString Num64 LineExchange Cache Rbac Sessions Cookie Oidc.
From S2P Require Import AuthRouter OperatorEngine Vtz Policies Forge Distribute Sidecar Routes JsOps Overview Users Objects EntityDetail Soc.
From S2P Require Import Settings ModelAccess Http Server ServerRun ServerProofs.
From stdpp Require Import list.
Open Scope Z_scope.

(** ** Cache keys *)


Section keys.
Context {NS : NumberToString}.

(** The projection a call reads: its area, and what it is of within a tenant. *)
Definition projection (c : call) : option (string * string) :=
  match c with
  | c_overviewSankey q =>
      Some ("overview:sankey", opt_number (q_since q) +:+ ":" +:+ opt_number (q_until q) +:+ ":" +:+ js_String (VNum (q_limit q)))
  | c_entityConnections id kind => Some ("overview:connections", kind +:+ ":" +:+ id)
  | c_classMembers container => Some ("overview:members", container)
  | c_vtzTree limit => Some ("vtz", "tree:" +:+ js_String (VNum limit))
  | c_vtzDetail id => Some ("vtz", "detail:" +:+ id)
  | c_policyZones => Some ("policies", "byZone")
  | c_policyDetail z i => Some ("policies", "detail:" +:+ z +:+ ":" +:+ i)
  | c_socKpis => Some ("soc", "kpis")
  | c_incidentQueue => Some ("soc", "incidents")
  | c_incidentDetail i => Some ("soc", "detail:" +:+ i)
  | c_narrative i => Some ("soc", "narrative:" +:+ i)
  | c_incidentTelemetry i => Some ("soc", "telemetry:" +:+ i)
  | c_auditTrail i => Some ("soc", "audit:" +:+ i)
  | c_incidentNotes i => Some ("soc", "notes:" +:+ i)
  | c_businessImpact i => Some ("soc", "impact:" +:+ i)
  | c_incidentReport i => Some ("soc", "report:" +:+ i)
  | c_weekly w => Some ("soc", "weekly:" +:+ js_String (VNum w))
  | _ => None
  end.

(** The area, the tenant and the rest of a key, where the tenant holds no colon. *)
Definition key_parts (key : string) : option (string * string * string) :=
  '(a, k) ← cut_at colon key;
  if bool_decide (a = "overview") then
    '(b, k) ← cut_at colon k; '(t, rest) ← cut_at colon k; Some (a +:+ ":" +:+ b, t, rest)
  else '(t, rest) ← cut_at colon k; Some (a, t, rest).

Lemma key_parts_overview b t rest :
  no_char colon b = true → no_char colon t = true →
  key_parts ("overview" +:+ String colon (b +:+ String colon (t +:+ String colon rest))) = Some ("overview:" +:+ b, t, rest).
Proof using.
  intros Hb Ht. unfold key_parts. rewrite cut_at_first by done. cbn [mbind option_bind].
  rewrite bool_decide_true, cut_at_first by done. cbn [mbind option_bind]. by rewrite cut_at_first.
Qed.
Lemma key_parts_plain a t rest :
  no_char colon a = true → a ≠ "overview" → no_char colon t = true →
  key_parts (a +:+ String colon (t +:+ String colon rest)) = Some (a, t, rest).
Proof using.
  intros Ha Hn Ht. unfold key_parts. rewrite cut_at_first by done. cbn [mbind option_bind].
  rewrite bool_decide_false by done. by rewrite cut_at_first.
Qed.

Lemma key_parts_exact p c key version :
  cache_key p c = Some (key, version) → no_char colon (p_tenant p) = true →
  ∃ area rest, projection c = Some (area, rest) ∧ key_parts key = Some (area, p_tenant p, rest).
Proof using.
  intros Hk Ht. destruct c; try discriminate Hk; injection Hk as <- _; eexists _, _; (split; [reflexivity|]);
    unfold overview_key, connections_key, members_key, vtz_tree_key, vtz_detail_key, policies_detail_key,
      vtzCachePrefix, policiesCachePrefix, socCachePrefix; rewrite ?str_app_assoc.
  1: by apply (key_parts_overview "sankey").
  1: by apply (key_parts_overview "connections").
  1: by apply (key_parts_overview "members").
  all: first [by apply (key_parts_plain "vtz")|by apply (key_parts_plain "policies")|by apply (key_parts_plain "soc")].
Qed.

(** The reads whose key names all they are of. *)
Definition one_name (c : call) : bool :=
  match c with
  | c_classMembers _ | c_vtzDetail _ | c_policyZones | c_socKpis | c_incidentQueue | c_incidentDetail _ | c_narrative _
  | c_incidentTelemetry _ | c_auditTrail _ | c_incidentNotes _ | c_businessImpact _ | c_incidentReport _ => true
  | _ => false
  end.

(** The area whose projections a change makes stale. *)
Definition stale_area (c : call) : option string :=
  match c with
  | c_vtzCommand _ => Some "vtz"
  | c_createPolicy _ | c_editPolicy _ _ | c_publishPolicy _ _ _ | c_deletePolicy _ _ => Some "policies"
  | c_cognitionRun _ | c_caseAct _ _ | c_disposition _ _ | c_approvePlan _ _ | c_modifyPlan _ _ => Some "soc"
  | _ => None
  end.

Lemma startsWith_app p r : startsWith (p +:+ r) p = true.
Proof using. unfold startsWith. by rewrite (proj2 (strip_prefix_Some p (p +:+ r) r) eq_refl). Qed.

Lemma stale_area_prefix t c area : stale_area c = Some area → stale_prefix t c = Some (area +:+ ":" +:+ t +:+ ":").
Proof using. destruct c; intros [= <-]; done. Qed.

(** The keys of a tenant's projections in an area are under the area's prefix. *)
Lemma key_under_prefix p c key version area :
  cache_key p c = Some (key, version) → fst <$> projection c = Some area → area ∈ ["vtz"; "policies"; "soc"] →
  startsWith key (area +:+ ":" +:+ p_tenant p +:+ ":") = true.
Proof using.
  intros Hk Ha Hin. destruct c; try discriminate Hk; injection Hk as <- _; injection Ha as <-; try (exfalso; set_solver).
  all: apply startsWith_app.
Qed.

Lemma projection_one_name c c' : one_name c = true → projection c' = projection c → projection c ≠ None → c' = c.
Proof using.
  intros H1 H2 H3. destruct c; try discriminate H1; destruct c'; try discriminate H2;
    cbn in H2; rewrite ?str_app_cons, ?str_nil_app in H2; congruence.
Qed.
End keys.

(** ** Guarantees *)

#[global] Instance http_request_eq_dec : EqDecision http_request.
Proof. solve_decision. Defined.

(** How often a request arrived, how often it was answered, and how many of it are in flight.  Requests with the same
    content count together. *)
Definition arrival_of (req : http_request) (e : event) : nat :=
  match e with ev_request r => if bool_decide (r = req) then 1 else 0 | _ => 0 end.
Definition reply_to (req : http_request) (e : event) : nat :=
  match e with ev_reply r _ _ => if bool_decide (r = req) then 1 else 0 | _ => 0 end.
Definition arrivals (req : http_request) (tr : list event) : nat := sum_list_with (arrival_of req) tr.
Definition replies (req : http_request) (tr : list event) : nat := sum_list_with (reply_to req) tr.
Definition in_flight (req : http_request) (ts : list task) : nat :=
  sum_list_with (λ t, if bool_decide (t_req t = req) then 1 else 0)%nat ts.

Arguments arrivals : simpl never.
Arguments replies : simpl never.
Arguments in_flight : simpl never.

(** A program that awaits at most [n] times, whatever it is answered, and sends one response, last, unless it throws. *)
Fixpoint bounded (n : nat) (p : prog) : Prop :=
  match p with
  | Send _ k => k = Done
  | Done => False
  | Raise _ => True
  | GetSession k => ∀ s, bounded n (k s)
  | CacheGet _ _ k => ∀ hit, bounded n (k hit)
  | CacheSet _ _ _ k | CacheDrop _ k => bounded n k
  | ReadBody _ k => match n with O => False | S n => ∀ r, bounded n (k r) end
  | Await _ _ k | AwaitLocal _ k => match n with O => False | S n => ∀ r, bounded n (k r) end
  end.

Section claims.
Context {NS : NumberToString} {TN : ToNumberOther} {AO : ArithOther} {LC : LocaleCompare} {CO : CompareOther}.
Context (deps : ServerDeps) (auth_deps : AuthRouterDeps) (cacheTtlMs cacheMaxEntries : Z)
  (JSON_parse : string → result value) (JSON_parse_body : bytes → result value) (JSON_stringify : view → result string)
  (openApiDocument : value) {provider : OidcProvider}.
Notation run := (run deps auth_deps cacheTtlMs cacheMaxEntries).
Notation resume := (resume deps auth_deps cacheTtlMs cacheMaxEntries).
Notation answer := (answer JSON_parse).
Notation server_step := (server_step deps auth_deps cacheTtlMs cacheMaxEntries JSON_parse JSON_parse_body JSON_stringify openApiDocument).
Notation serves := (serves deps auth_deps cacheTtlMs cacheMaxEntries JSON_parse JSON_parse_body JSON_stringify openApiDocument).

Lemma serves_event s e : serves s → e ∈ trace s → event_ok JSON_stringify openApiDocument (trace s) e.
Proof using. intros [_ _ He _]%serves_inv Hin. rewrite Forall_forall in He. by apply He. Qed.

(** C1: whatever reaches the engine is asked for an authenticated operator.  However
    logins, requests and answers interleave, every call the server sends to the engine is made
    for a session of a login the provider verified, in a tenant it allows, in the name of that
    session's principal; an operator who is not a global admin acts in the session's own tenant
    whatever the client sends, and asserts no settings tier; and no call that changes anything is
    made for a GET.  (The readiness ping of /readyz asks for nothing and names no operator; it is a
    local effect of the trace, not one of these calls.) *)
Theorem engine_calls_authenticated s req sess p c :
  serves s → ev_call req sess p c ∈ trace s →
  ∃ session, sess = Some session ∧ verified session ∧ tenant_allowed (tenant session) ∧
    p = principalFromSession session (activeTenantOverride req) ∧
    (role session ≠ global_admin → p_tenant p = tenant session ∧ settingsTier p = None) ∧
    (write_call c = true → request_method req ≠ "GET").
Proof using.
  intros Hs [(session & -> & Hv & ->) [Hw _]]%(serves_event s); [|done]. exists session. split_and!; try done.
  - destruct Hv as (token & i & _ & Hi & _ & _ & _ & _ & -> & _). by eapply verify_tenant.
  - apply tenant_scoped_pinned.
Qed.

(** nothing unbounded is asked of the engine.  Whatever the client sends, every
    call made stays within the server's limits: at most 500 log rows, 10000 sessions of the
    overview, 500 zones, 12 weeks, 31 days of spend, 100 entries of history and 64 edits, each
    page limit above zero, and each proposal or revision named by a safe positive integer. *)
Theorem engine_calls_bounded s req sess p c : serves s → ev_call req sess p c ∈ trace s → call_within c.
Proof using. intros Hs [_ [_ Hb]]%(serves_event s); done. Qed.

(** C30: responses disclose nothing they should not.  A request without a session is
    answered with public matter only: an error by one of sixteen fixed names, a file of the console, or one of the
    operational documents.  And every failure, with or without a session, is one of those names, with beside it at most
    the closed gate ([Tier] or [Role]), the class of a refusal the engine gave this operator, the kind of a refused zone
    change, the explanation the engine recorded with a refused act, or the grant it found in place: never the text of an
    exception, which no engine answer is.  The assumption on [JSON.stringify] is that it throws none of the engine's
    refusals. *)
Theorem responses_disclose_nothing s req sess resp :
  (∀ v e, JSON_stringify v = Throw e → plain e) → serves s → ev_reply req sess resp ∈ trace s →
  (sess = None → public openApiDocument (body resp)) ∧
  clean (λ c o, ∃ session, sess = Some session ∧ ev_answer (principalFromSession session (activeTenantOverride req)) c o ∈ trace s)
    (λ _, False) resp.
Proof using.
  intros Hj Hs Hin. destruct (serves_event s _ Hs Hin) as [Hp Hc]. split; [done|].
  destruct Hc as [v|n e He| |cls Hc|n w cls Ht Hg|n cls Ht|kind Ht|c o x Ho Hk Hx|c g Ho]; [apply clean_success|by apply clean_error|apply clean_not_ready
    |by apply clean_gate|eapply clean_class; [|done]|eapply clean_object|apply clean_reason|by eapply clean_explanation|by eapply clean_conflict];
    (destruct Ht as [Ht|[v Hv]]; [by left|by apply Hj in Hv]).
Qed.

(** C22: the cache answers an operator only with what the engine answered for the
    operator's own tenant.  A projection served from the cache was answered by the engine, for
    a verified operator, under the same key and version; where tenant names hold no colon that
    operator acted in the same tenant and read the same projection, by the very same call where
    the key names all the call is of. *)
Theorem cached_answers_same_tenant s req sess key v :
  serves s → ev_hit req sess key v ∈ trace s →
  ∃ own c p c', operator req sess own ∧ (∃ req' sess', operator req' sess' p) ∧ ev_answer p c' (Ok v) ∈ trace s ∧
    fst <$> cache_key own c = Some key ∧ cache_key p c' = cache_key own c ∧
    (no_char colon (p_tenant own) = true → no_char colon (p_tenant p) = true →
       p_tenant p = p_tenant own ∧ projection c' = projection c ∧ (one_name c = true → c' = c)).
Proof using.
  intros Hs (own & c & p & c' & version & Hop & Hc & Han & Hc')%(serves_event s); [|done]. exists own, c, p, c'.
  split_and!; try done; [by apply (serves_event s _ Hs) in Han|by rewrite Hc|by rewrite Hc|].
  intros Ho Hp. destruct (key_parts_exact _ _ _ _ Hc Ho) as (area & rest & E1 & E2).
  destruct (key_parts_exact _ _ _ _ Hc' Hp) as (area' & rest' & E1' & E2'). assert (projection c' = projection c) as E by congruence.
  split_and!; [congruence|done|]. intros H1. apply projection_one_name; congruence.
Qed.

(** ** What a change leaves in the cache *)

Lemma run_settled req now st p : rs_sent st = false → settled p → ∃ resp, run req now st p = (respond req resp st, None).
Proof using. intros Hu. destruct p as [r []| | | | | | | | |]; try done; intros _; cbn; rewrite Hu; by eexists. Qed.

(** C13: no projection outlives the change that made it stale.  When the engine
    accepts a change to the zones, the policies or an incident, the very step that answers the
    request has dropped every projection of that area the cache held for the tenant -- before
    the response, and nothing else. *)
Theorem changes_drop_projections s l1 t l2 now env p c k v m area :
  serves s → waiting s = l1 ++ t :: l2 → t_prog t = Await p c k → stale_area c = Some area →
  call_engine JSON_parse env (srv_memory s) p c = (Ok v, m) →
  let s' := resume s l1 t l2 now (k (Ok v)) m [ev_answer p c (Ok v)] in
  (∃ resp, trace s' = ev_reply (t_req t) (t_session t) resp :: ev_answer p c (Ok v) :: trace s) ∧
  (∀ p' c' key version, cache_key p' c' = Some (key, version) → p_tenant p' = p_tenant p →
     fst <$> projection c' = Some area → map_get (srv_cache s') key = None) ∧
  (∀ key, startsWith key (area +:+ ":" +:+ p_tenant p +:+ ":") = false → map_get (srv_cache s') key = map_get (srv_cache s) key).
Proof using.
  intros Hs Hw Hp Ha Hc. apply serves_inv in Hs as [_ _ _ Ht]. rewrite Hw in Ht.
  apply Forall_app in Ht as [_ [(_ & Hu & n & _ & Hg) _]%Forall_cons]. rewrite Hp in Hg. destruct n as [|n]; [done|].
  destruct Hg as (_ & _ & _ & Hd & _). destruct (Hd _ v (stale_area_prefix _ _ _ Ha)) as (k' & Ek & Hk). rewrite Ek.
  unfold ServerRun.resume. rewrite Hu. cbn [ServerRun.run].
  destruct (run_settled (t_req t) now (mkRun (store (login s)) (cache_deletePrefix (srv_cache s)
    (area +:+ ":" +:+ p_tenant p +:+ ":")) (t_session t) false ([ev_answer p c (Ok v)] ++ trace s)) k' eq_refl Hk) as [resp Er].
  unfold with_cache. cbn [rs_auth rs_cache rs_session rs_sent rs_trace]. rewrite Er. cbn. split_and!; [by eexists| |].
  - intros p' c' key version Hkey Ht Hproj. rewrite deletePrefix_get, <- Ht.
    rewrite (key_under_prefix _ _ _ _ _ Hkey Hproj); [done|]. destruct c; try discriminate Ha; injection Ha as <-; set_solver.
  - intros key Hkey. by rewrite deletePrefix_get, Hkey.
Qed.

(** ** Every request is answered *)

(** [n] answers in a row, to whichever requests, with any surroundings, bodies and times. *)
Inductive answers : nat → server → server → Prop :=
  | answers_done s : answers 0 s s
  | answers_more n s s' l1 t l2 now env b p m evs :
      waiting s = l1 ++ t :: l2 → answer env b (srv_memory s) (t_prog t) = Some (p, m, evs) →
      answers n (resume s l1 t l2 now p m evs) s' → answers (S n) s s'.

Lemma guarded_bounded req n s A p : guarded req openApiDocument JSON_stringify n s A p → bounded n p.
Proof using.
  revert n s A. induction p as [r k IH| | |k IH|key ver k IH|key ver v k IH|pre k IH|lim k IH|pr c k IH|c k IH];
    intros n s A; cbn [guarded bounded]; try done.
  - by intros (_ & _ & ->).
  - intros Hk s'. by eapply IH.
  - intros [_ Hk] hit. by eapply IH.
  - intros [_ Hk]. by eapply IH.
  - intros [_ Hk]. by eapply IH.
  - destruct n; [done|]. intros Hk r. by eapply IH.
  - destruct n; [done|]. intros (_ & _ & _ & _ & Hk) r. by eapply IH.
  - destruct n; [done|]. intros [_ Hk] r. by eapply IH.
Qed.

(** One, for the request in question. *)
Definition one_of (req r : http_request) : nat := if bool_decide (r = req) then 1 else 0.

(** A run ends in one reply, or at an await with the answers it had left and without one. *)
Lemma run_bounded n req now st p :
  bounded n p → rs_sent st = false →
  let r := run req now st p in
  (∀ q, arrivals q (rs_trace r.1) = arrivals q (rs_trace st)) ∧
  match r.2 with
  | None => ∀ q, replies q (rs_trace r.1) = (one_of q req + replies q (rs_trace st))%nat
  | Some p' => bounded n p' ∧ rs_sent r.1 = false ∧ (∀ env b m, answer env b m p' ≠ None) ∧
      ∀ q, replies q (rs_trace r.1) = replies q (rs_trace st)
  end.
Proof using.
  revert st. induction p as [resp k IH| |e|k IH|key ver k IH|key ver v k IH|pre k IH|lim k IH|pr c k IH|c k IH];
    intros st; cbn [bounded ServerRun.run]; intros Hb Hu; try done.
  - subst k. rewrite Hu. by split.
  - rewrite Hu. by split.
  - destruct (if authRouter deps then _ else _) as [s a]. by apply (IH s (mkRun _ _ _ _ _)).
  - destruct (cache_get (rs_cache st) key ver now) as [hit c'].
    destruct hit as [v|]; [|by apply (IH None (with_cache c' st))].
    by apply (IH (Some v) (log (ev_hit req (rs_session (with_cache c' st)) key v) (with_cache c' st))).
  - by apply (IH (with_cache _ st)).
  - by apply (IH (with_cache _ st)).
  - split; [done|]. split_and!; [done|done| |done]. intros env b m. cbn. by destruct (call_engine JSON_parse env m pr c).
Qed.

(** The awaits the requests in flight may still come to. *)
Definition owed (s : server) (ns : list nat) : Prop :=
  Forall2 (λ n t, bounded n (t_prog t) ∧ t_sent t = false ∧ ∀ env b m, answer env b m (t_prog t) ≠ None) ns (waiting s).

(** Every request that arrived is answered once or in flight. *)
Definition balanced (s : server) : Prop :=
  ∀ req, (replies req (trace s) + in_flight req (waiting s) = arrivals req (trace s))%nat.

Lemma answer_bounded n env b m p p' m' evs :
  bounded n p → answer env b m p = Some (p', m', evs) →
  ∃ n', n = S n' ∧ bounded n' p' ∧ ∀ q, replies q evs = 0%nat ∧ arrivals q evs = 0%nat.
Proof using.
  intros Hb Ha. destruct p; try discriminate Ha; (destruct n as [|n]; [done|]); exists n; cbn in Ha.
  - injection Ha as <- _ <-. by split_and!.
  - destruct (call_engine JSON_parse env m p c). injection Ha as <- _ <-. by split_and!.
  - injection Ha as <- _ <-. by split_and!.
Qed.

Lemma in_flight_split req l1 t l2 :
  in_flight req (l1 ++ t :: l2) = (one_of req (t_req t) + in_flight req (l1 ++ l2))%nat.
Proof using. unfold in_flight, one_of. rewrite !sum_list_with_app. cbn. lia. Qed.

Lemma resume_owed s ns l1 t l2 now env b p m evs :
  owed s ns → balanced s → waiting s = l1 ++ t :: l2 → answer env b (srv_memory s) (t_prog t) = Some (p, m, evs) →
  let s' := resume s l1 t l2 now p m evs in
  (∃ ns', owed s' ns' ∧ (S (sum_list ns') ≤ sum_list ns)%nat) ∧ balanced s' ∧ ∀ q, arrivals q (trace s') = arrivals q (trace s).
Proof using.
  unfold owed, balanced. intros Ho Hbal Hw Ha. rewrite Hw in *. apply Forall2_app_inv_r in Ho as (ns1 & ns' & H1 & H' & ->).
  apply Forall2_cons_inv_r in H' as (n & ns2 & (Hb & Hu & _) & H2 & ->).
  destruct (answer_bounded _ _ _ _ _ _ _ _ Hb Ha) as (n' & -> & Hb' & Hr).
  pose proof (run_bounded n' (t_req t) now (mkRun (store (login s)) (srv_cache s) (t_session t) (t_sent t) (evs ++ trace s)) p Hb' Hu) as Hrun.
  cbn in Hrun. unfold ServerRun.resume, after_run. cbn [waiting trace].
  destruct (run (t_req t) now _ p) as [st' o]. cbn in *. destruct Hrun as [Harr Hrun].
  assert (∀ q, arrivals q (rs_trace st') = arrivals q (trace s)) as Harr'.
  { intros q. rewrite Harr. unfold arrivals. rewrite sum_list_with_app. destruct (Hr q) as [_ E]. unfold arrivals in E. lia. }
  assert (∀ q, replies q (evs ++ trace s) = replies q (trace s)) as Hrep.
  { intros q. unfold replies. rewrite sum_list_with_app. destruct (Hr q) as [E _]. unfold replies in E. lia. }
  destruct o as [p'|].
  - destruct Hrun as (Hp' & Hu' & Hal & Hsame). split_and!; [|intros q|done].
    + exists (n' :: ns1 ++ ns2). split; [constructor; [done|by apply Forall2_app]|]. cbn. rewrite !sum_list_with_app. cbn. lia.
    + specialize (Hbal q). rewrite Hsame, Hrep, Harr'. rewrite in_flight_split in Hbal. exact Hbal.
  - split_and!; [|intros q|done].
    + exists (ns1 ++ ns2). split; [by apply Forall2_app|]. rewrite !sum_list_with_app. cbn. lia.
    + specialize (Hbal q). rewrite Hrun, Hrep, Harr'. rewrite in_flight_split in Hbal. lia.
Qed.

(** Every request in flight is at an await. *)
Lemma run_awaits req now st p p' : (run req now st p).2 = Some p' → ∀ env b m, answer env b m p' ≠ None.
Proof using.
  revert st. induction p as [resp k IH| |e|k IH|key ver k IH|key ver v k IH|pre k IH|lim k IH|pr c k IH|c k IH];
    intros st; cbn [ServerRun.run]; try discriminate; try (intros [= <-] env b m; done); try (by apply IH).
  - destruct (rs_sent st); [done|apply IH].
  - destruct (if authRouter deps then _ else _) as [s a]. apply IH.
  - destruct (cache_get (rs_cache st) key ver now) as [hit c']. apply IH.
  - intros [= <-] env b m. cbn. by destruct (call_engine JSON_parse env m pr c).
Qed.

Lemma serves_awaits s : serves s → Forall (λ t, ∀ env b m, answer env b m (t_prog t) ≠ None) (waiting s).
Proof using.
  induction 1 as [m|s s' _ IH [a _ Ha|req now chunks Hh|l1 t l2 now env b p m evs Hw Ha]]; [constructor|done|..].
  - unfold start, after_run. cbn [waiting]. destruct (run req now _ _) as [st o] eqn:E. destruct o as [p|]; [|done].
    constructor; [|done]. eapply (run_awaits req now). by rewrite E.
  - rewrite Hw in IH. apply Forall_app in IH as [H1 [_ H2]%Forall_cons]. unfold ServerRun.resume, after_run. cbn [waiting].
    destruct (run (t_req t) now _ p) as [st o] eqn:E. destruct o as [p'|]; [|by apply Forall_app].
    constructor; [|by apply Forall_app]. eapply (run_awaits (t_req t) now). by rewrite E.
Qed.

Lemma serves_owed s : serves s → ∃ ns, owed s ns ∧ (sum_list ns ≤ 2 * length (waiting s))%nat.
Proof using.
  intros Hs. pose proof (serves_awaits s Hs) as Ha. apply serves_inv in Hs as [_ _ _ Ht]. unfold owed.
  induction (waiting s) as [|t ts IH]; [by exists []|]. apply Forall_cons in Ha as [Ha Has].
  apply Forall_cons in Ht as [(_ & Hu & n & Hn & Hg) Hts]. destruct (IH Hts Has) as (ns & Ho & Hsum).
  exists (n :: ns). split; [|change (n + sum_list ns ≤ 2 * S (length ts))%nat; lia]. constructor; [|done]. split; [by eapply guarded_bounded|done].
Qed.

Lemma serves_balanced s : serves s → balanced s.
Proof using.
  induction 1 as [m|s s' Hs IH [a _ Ha|req now chunks Hh|l1 t l2 now env b p m evs Hw Ha]]; [done|exact IH|..].
  - intros q. specialize (IH q). unfold start, after_run. cbn [waiting trace].
    pose proof (run_bounded 2 req now (mkRun (store (login s)) (srv_cache s) None false (ev_request req :: trace s))
      (route JSON_stringify deps req openApiDocument)) as Hrun.
    destruct Hrun as [Harr Hrun]; [eapply guarded_bounded, (g_route JSON_stringify deps req openApiDocument (λ _ _ _, False))|done|].
    cbn in Harr, Hrun. destruct (run req now _ _) as [st o]. cbn in *. rewrite Harr.
    change (arrivals q (ev_request req :: trace s)) with (one_of q req + arrivals q (trace s))%nat. destruct o as [p|].
    + destruct Hrun as (_ & _ & _ & ->). change (in_flight q (_ :: waiting s)) with (one_of q req + in_flight q (waiting s))%nat.
      change (replies q (ev_request req :: trace s)) with (replies q (trace s)). lia.
    + rewrite Hrun. change (replies q (ev_request req :: trace s)) with (replies q (trace s)). lia.
  - destruct (serves_owed s Hs) as (ns & Ho & _). by eapply resume_owed.
Qed.

Lemma answers_owed n s s' ns :
  answers n s s' → owed s ns → balanced s →
  (∃ ns', owed s' ns' ∧ (n + sum_list ns' ≤ sum_list ns)%nat) ∧ balanced s' ∧ ∀ q, arrivals q (trace s') = arrivals q (trace s).
Proof using.
  intros Han. revert ns. induction Han as [s|n s s' l1 t l2 now env b p m evs Hw Ha _ IH]; intros ns Ho Hb; [by split; [exists ns|]|].
  destruct (resume_owed s ns l1 t l2 now env b p m evs Ho Hb Hw Ha) as ((ns1 & Ho1 & Hs1) & Hb1 & Hr1).
  destruct (IH ns1 Ho1 Hb1) as ((ns2 & Ho2 & Hs2) & Hb2 & Hr2). split_and!; [exists ns2; split; [done|lia]|done|]. intros q. by rewrite Hr2.
Qed.

Lemma answers_last n s s' l1 t l2 now env b p m evs :
  answers n s s' → waiting s' = l1 ++ t :: l2 → answer env b (srv_memory s') (t_prog t) = Some (p, m, evs) →
  answers (S n) s (resume s' l1 t l2 now p m evs).
Proof using.
  induction 1; intros; [eapply answers_more; [done..|constructor]|]. eapply answers_more; [done..|auto].
Qed.

(** C16: every request the auth router does not claim is answered, exactly once.  In any state the
    server can reach, each request that has arrived has been answered once or is in flight, none is lost and none answered
    twice.  The requests in flight come to at most two awaits each -- the body, one resolver with all its exchanges with the
    engine, one exchange with a sidecar, the readiness ping, a file -- in whatever order these are answered and whatever the
    answers are; as long as a request is in flight any answer to it is taken.  So when every await is answered, every
    request is. *)
Theorem every_request_answered s n s' :
  serves s → answers n s s' →
  (∀ req, replies req (trace s') + in_flight req (waiting s') = arrivals req (trace s'))%nat ∧
  (∀ req, arrivals req (trace s') = arrivals req (trace s)) ∧
  (n ≤ 2 * length (waiting s))%nat ∧
  ∀ l1 t l2 now env b, waiting s' = l1 ++ t :: l2 →
    ∃ p m evs, answer env b (srv_memory s') (t_prog t) = Some (p, m, evs) ∧ answers (S n) s (resume s' l1 t l2 now p m evs).
Proof using.
  intros Hs Han. destruct (serves_owed s Hs) as (ns & Ho & Hsum).
  destruct (answers_owed n s s' ns Han Ho (serves_balanced s Hs)) as ((ns' & Ho' & Hn) & Hb & Hr). split_and!; [exact Hb|done|lia|].
  intros l1 t l2 now env b Hw. unfold owed in Ho'. rewrite Hw in Ho'.
  apply Forall2_app_inv_r in Ho' as (ns1 & ns2 & _ & H2 & _). apply Forall2_cons_inv_r in H2 as (n' & ns3 & (_ & _ & Ha) & _ & _).
  destruct (answer env b (srv_memory s') (t_prog t)) as [[[p m] evs]|] eqn:E; [|by destruct (Ha env b (srv_memory s'))].
  exists p, m, evs. split; [done|]. by eapply answers_last.
Qed.
End claims.

(** ** Static files *)

(** A segment of a normalised path. *)
Definition segment (s : string) : Prop := s ≠ "" ∧ s ≠ "." ∧ s ≠ ".." ∧ no_char slash s = true.

Lemma split_on_no_char sep s : Forall (λ l, no_char sep l = true) (split_on sep s).
Proof.
  induction s as [|c s IH]; cbn [split_on]; [by repeat constructor|].
  destruct (Ascii.eqb c sep) eqn:E; [by constructor|]. destruct (split_on sep s) as [|w ws].
  - repeat constructor. cbn. by rewrite E.
  - apply Forall_cons in IH as [Hw Hws]. constructor; [|done]. cbn. by rewrite E.
Qed.

Lemma resolve_segments_normal acc segs :
  Forall segment acc → Forall (λ l, no_char slash l = true) segs → Forall segment (resolve_segments acc segs).
Proof.
  revert acc. induction segs as [|s segs IH]; intros acc Ha Hs; cbn [resolve_segments].
  { by apply List.Forall_rev. }
  apply Forall_cons in Hs as [Hs Hss]. destruct (bool_decide (s = "") || bool_decide (s = ".")) eqn:E; [by apply IH|].
  apply orb_false_iff in E as [E1%bool_decide_eq_false E2%bool_decide_eq_false]. case_bool_decide as E3.
  - apply IH; [|done]. destruct acc; [done|]. by apply Forall_cons in Ha as [_ Ha].
  - apply IH; [|done]. constructor; [|done]. by repeat split.
Qed.

Lemma resolve_under_normal root rel : Forall segment root → Forall segment (resolve_under root rel).
Proof.
  intros Hr. apply resolve_segments_normal, split_on_no_char. by apply List.Forall_rev.
Qed.

Lemma split_join_app sep ls tail :
  ls ≠ [] → Forall (λ l, no_char sep l = true) ls →
  split_on sep (JsString.join (String sep "") ls +:+ String sep tail) = ls ++ split_on sep tail.
Proof. intros. by rewrite split_app, split_join. Qed.

Lemma slash_inj a b : "/" +:+ a = "/" +:+ b → a = b.
Proof. rewrite !str_app_cons, !str_nil_app. by intros [=]. Qed.

(** A normalised path whose text goes on from another's is below it. *)
Lemma path_of_below root target :
  Forall segment root → Forall segment target →
  path_of target = path_of root ∨ startsWith (path_of target) (path_of root +:+ "/") = true →
  ∃ rest, target = root ++ rest.
Proof.
  intros Hr Ht H. assert (∀ l, Forall segment l → Forall (λ l, no_char slash l = true) l) as Hseg.
  { intros l Hl. eapply Forall_impl; [exact Hl|]. by intros s (_ & _ & _ & ?). }
  destruct root as [|r root]; [by exists target|].
  assert (split_on slash (JsString.join "/" target) = target ∨ target = []) as Hs.
  { destruct target; [by right|]. left. apply (split_join slash); [done|by apply Hseg]. }
  unfold path_of in H. destruct H as [H|H].
  - apply slash_inj, (f_equal (split_on slash)) in H.
    assert (split_on slash (JsString.join "/" (r :: root)) = r :: root) as E by (apply (split_join slash); [done|by apply Hseg]).
    rewrite E in H. destruct Hs as [Hs| ->].
    + exists []. rewrite app_nil_r. congruence.
    + cbn in H. injection H as <- _. by apply Forall_cons in Hr as [[? _] _].
  - unfold startsWith in H. destruct (JsString.strip_prefix _ _) as [tail|] eqn:E; [|done].
    apply strip_prefix_Some in E. rewrite !str_app_assoc in E. apply slash_inj, (f_equal (split_on slash)) in E.
    assert (split_on slash (JsString.join "/" (r :: root) +:+ "/" +:+ tail) = (r :: root) ++ split_on slash tail) as E'
      by (apply (split_join_app slash); [done|by apply Hseg]).
    rewrite E' in E. destruct Hs as [Hs| ->].
    + exists (split_on slash tail). congruence.
    + cbn in E. injection E as <- _. by apply Forall_cons in Hr as [[? _] _].
Qed.

(** Every file a program may read satisfies [P], whatever it is answered. *)
Fixpoint reads_only (P : string → Prop) (p : prog) : Prop :=
  match p with
  | Send _ k => reads_only P k
  | Done | Raise _ => True
  | GetSession k => ∀ s, reads_only P (k s)
  | CacheGet _ _ k => ∀ hit, reads_only P (k hit)
  | CacheSet _ _ _ k | CacheDrop _ k => reads_only P k
  | ReadBody _ k => ∀ r, reads_only P (k r)
  | Await _ _ k => ∀ r, reads_only P (k r)
  | AwaitLocal c k => match c with l_readFile f => P f | _ => True end ∧ ∀ r, reads_only P (k r)
  end.

Lemma reads_tryServeFile (P : string → Prop) f missing : P f → reads_only P missing → reads_only P (tryServeFile f missing).
Proof. intros Hf Hm. split; [done|]. intros r. repeat case_match; done. Qed.

(** C37: only files of the console's directory are served.  Whatever the path of the
    request, with any dots, doubled slashes or absolute look, the only files read for it are below
    the configured directory: the directory's path followed by proper segments, none of them
    empty, [.] or [..]; anything else is refused. *)
Theorem static_files_contained deps dir urlPath otherwise :
  Forall segment (cwd deps) → (∀ P, reads_only P otherwise) →
  let root := spa_root deps dir in
  Forall segment root ∧
  reads_only (λ f, ∃ rest, f = path_of (root ++ rest) ∧ Forall segment rest) (serveSpa root urlPath otherwise).
Proof.
  intros Hcwd Ho root. assert (Forall segment root) as Hr.
  { apply resolve_under_normal. by destruct (startsWith dir "/"). }
  split; [done|]. assert (∀ rel, Forall segment (resolve_under root rel)) as Hn by (intros; by apply resolve_under_normal).
  unfold serveSpa, safePath. destruct (_ || _) eqn:E; [|done]. apply reads_tryServeFile; [|destruct (bool_decide (extname urlPath = "")); [|apply Ho]].
  - apply orb_true_iff in E. rewrite bool_decide_eq_true in E.
    destruct (path_of_below _ _ Hr (Hn _) E) as [rest Hrest]. exists rest. split; [by rewrite <- Hrest|].
    specialize (Hn ("." +:+ urlPath)). rewrite Hrest in Hn. by apply Forall_app in Hn as [_ Hn].
  - apply reads_tryServeFile; [|apply Ho]. exists ["index.html"]. split; [|by repeat constructor].
    unfold resolve_under. cbn. by rewrite rev_involutive.
Qed.

Lemma static_files_contained_witness :
  let root := spa_root (mkServerDeps true true (mkConfig None None None None (mkRbac [] [] None)) ["srv"]) "dist" in
  Forall segment root ∧
  reads_only (λ f, ∃ rest, f = path_of (root ++ rest) ∧ Forall segment rest) (serveSpa root "/../secret" not_found).
Proof.
  apply (static_files_contained (mkServerDeps true true (mkConfig None None None None (mkRbac [] [] None)) ["srv"]) "dist"
           "/../secret" not_found).
  - by repeat constructor.
  - done.
Defined.
