(* ===== verification/ServerSamples.v ===== *)
(** * Scenarios of the running server

    An interpreter of moves -- a request arrives, a request in flight is answered -- whose
    plays are runs of the server, one scenario played with it from a completed login, and the
    behaviours the scenario shows. *)
From S2P Require Import Prelude Bytes Float64 Cbor JsValue JsString Num64 LineExchange Cache Rbac Sessions Cookie Oidc.
From S2P Require Import AuthRouter OperatorEngine Vtz Policies Forge Distribute Sidecar Routes JsOps Overview Users Objects EntityDetail Soc.
From S2P Require Import Settings ModelAccess Http Server ServerRun ServerProofs ServerClaims.
From stdpp Require Import list.
Open Scope Z_scope.

Inductive move :=
  | arrive (req : http_request) (now : Z)
  | answer_to (i : nat) (now : Z) (env : environment) (b : body_stream).

Section play.
Context {NS : NumberToString} {TN : ToNumberOther} {AO : ArithOther} {LC : LocaleCompare} {CO : CompareOther}.
Context (deps : ServerDeps) (auth_deps : AuthRouterDeps) (cacheTtlMs cacheMaxEntries : Z)
  (JSON_parse : string → result value) (JSON_parse_body : bytes → result value) (JSON_stringify : view → result string)
  (openApiDocument : value) {provider : OidcProvider}.
Notation serves := (serves deps auth_deps cacheTtlMs cacheMaxEntries JSON_parse JSON_parse_body JSON_stringify openApiDocument).

Definition do_move (s : server) (mv : move) : option server :=
  match mv with
  | arrive req now =>
      if authRouter deps && bool_decide (is_Some (handle auth_deps JSON_parse_body (store (login s)) (auth_request req []) now)) then None
      else Some (start deps auth_deps cacheTtlMs cacheMaxEntries JSON_stringify openApiDocument s req now)
  | answer_to i now env b =>
      t ← waiting s !! i; '(p, m, evs) ← answer JSON_parse env b (srv_memory s) (t_prog t);
      Some (resume deps auth_deps cacheTtlMs cacheMaxEntries s (take i (waiting s)) t (drop (S i) (waiting s)) now p m evs)
  end.

Fixpoint play (mvs : list move) (s : server) : option server :=
  match mvs with [] => Some s | mv :: mvs => s ← do_move s mv; play mvs s end.

Lemma play_serves mvs s s' : serves s → play mvs s = Some s' → serves s'.
Proof using.
  revert s. induction mvs as [|mv mvs IH]; intros s Hs; cbn; [by intros [= <-]|].
  destruct (do_move s mv) as [s1|] eqn:E; [|done]. cbn. apply IH. apply (serves_step _ _ _ _ _ _ _ _ s); [done|].
  destruct mv as [req now|i now env b]; cbn in E.
  - destruct (_ && _) eqn:Eh; [done|]. injection E as <-. apply (srv_request _ _ _ _ _ _ _ _ _ _ _ []). intros Hr.
    rewrite Hr in Eh. apply bool_decide_eq_false in Eh. by apply eq_None_not_Some.
  - destruct (waiting s !! i) as [t|] eqn:Et; [|done]. cbn in E.
    destruct (answer _ _ _ _ _) as [[[p m] evs]|] eqn:Ea; [|done]. injection E as <-.
    eapply srv_resume; [|done]. by rewrite take_drop_middle.
Qed.

Lemma play_app l1 l2 s : play (l1 ++ l2) s = s' ← play l1 s; play l2 s'.
Proof using.
  revert s. induction l1 as [|mv l1 IH]; intros s; cbn; [done|]. destruct (do_move s mv) as [s1|]; cbn; [apply IH|done].
Qed.

Definition is_answer (mv : move) : bool := match mv with answer_to _ _ _ _ => true | _ => false end.

Lemma play_answers mvs s s' :
  forallb is_answer mvs = true → play mvs s = Some s' →
  answers deps auth_deps cacheTtlMs cacheMaxEntries JSON_parse (length mvs) s s'.
Proof using.
  revert s. induction mvs as [|[req now|i now env b] mvs IH]; intros s Hm; cbn; [intros [= <-]; constructor|done|].
  destruct (waiting s !! i) as [t|] eqn:Et; [|done]. cbn.
  destruct (answer _ _ _ _ _) as [[[p m] evs]|] eqn:Ea; [|done]. cbn. intros Hp.
  eapply answers_more; [by rewrite take_drop_middle|exact Ea|]. by apply IH.
Qed.

(** The server with the logins of a run of the auth router. *)
Lemma serves_login a m : authRouter deps = true → reachable auth_deps JSON_parse_body a → serves (mkServer a [] m [] []).
Proof using.
  intros Hr. induction 1 as [|a a' _ IH Hstep]; [constructor|].
  apply (serves_step _ _ _ _ _ _ _ _ _ _ IH). by apply (srv_auth _ _ _ _ _ _ _ _ (mkServer a [] m [] [])).
Qed.
End play.

(** ** A scenario *)

#[local] Instance sample_numbers : NumberToString := λ _, "7".
#[local] Instance sample_toNumber : ToNumberOther := λ _, f64_NaN.
#[local] Instance sample_arith : ArithOther := λ _ _ _, Throw (TypeError "mix").
#[local] Instance sample_locale : LocaleCompare := λ _ _, 0.
#[local] Instance sample_compare : CompareOther := λ _ _, false.
#[local] Existing Instance AuthRouter.sample_provider.

Definition sample_server_deps : ServerDeps := mkServerDeps true true (mkConfig None None None None (mkRbac [] [] None)) [].
Definition sample_json (_ : string) : result value := Ok (VObj [("incident", VStr "i-1")]).
Definition sample_stringify (_ : view) : result string := Ok "".

(** The engine before and after the change: one note, then two. *)
Definition sample_note (text : string) : value :=
  VObj [("principal", VStr "p"); ("at_seconds", vint 1); ("note_ref", VStr "n"); ("text", VStr text)].
Definition sample_engine (notes : list value) (verb : string) (_ : value) : result value :=
  if bool_decide (verb = "socNotes") then Ok (VObj [("refused", VBool false); ("notes", VArr notes)])
  else Ok (VObj [("state", VStr "started"); ("detail", VNull)]).
Definition sample_env (notes : list value) : environment :=
  mkEnv (sample_engine notes) (λ _, []) (λ _ _, []) (λ _, []) (Ok VNull) (λ _, Throw (SystemError "ENOENT")) 1000 20.
Definition before_change : environment := sample_env [sample_note "old"].
Definition after_change : environment := sample_env [sample_note "old"; sample_note "new"].

Definition sample_http (verb url : string) : http_request :=
  mkHttp (Some verb) (Some url) (Some "fc_session=S") (Some "victim") (Some 4000).
Definition read_notes : http_request := sample_http "GET" "/api/soc/notes?id=i-1".
Definition generate : http_request := sample_http "POST" "/api/soc/generate".
Definition no_body : body_stream := mkBody [] false.
Definition json_body : body_stream := mkBody [[123]] false.

Definition sample_start : server := mkServer sample_final [] (mkMemory (mkCounters 0 0 0 0 0) None) [] [].
Notation sample_play := (play sample_server_deps sample_deps 5000 8 sample_json sample_parse sample_stringify VNull).
Notation sample_serves := (serves sample_server_deps sample_deps 5000 8 sample_json sample_parse sample_stringify VNull).

Lemma sample_start_serves : sample_serves sample_start.
Proof. apply serves_login; [reflexivity|]. exact sample_reachable. Qed.

(** A read of the notes is in flight when a change to the incident arrives, is accepted and
    is answered; the read is answered with what the engine held before; a later read follows. *)
Definition scenario : list move :=
  [arrive read_notes 10; arrive generate 11; answer_to 0 12 after_change json_body; answer_to 0 13 after_change no_body;
   answer_to 0 14 before_change no_body; arrive read_notes 15].

Definition after (n : nat) : server := default sample_start (sample_play (take n scenario) sample_start).

Lemma after_serves n : sample_serves (after n).
Proof.
  unfold after. destruct (sample_play (take n scenario) sample_start) as [s|] eqn:E; cbn; [|exact sample_start_serves].
  eapply play_serves; [exact sample_start_serves|exact E].
Qed.

Lemma after_play n m :
  is_Some (sample_play (take (n + m) scenario) sample_start) →
  sample_play (take m (drop n scenario)) (after n) = Some (after (n + m)).
Proof.
  unfold after. intros [s E]. rewrite E. cbn.
  rewrite <- (take_drop n (take (n + m) scenario)), take_take, skipn_firstn_comm, play_app in E.
  replace (Nat.min n (n + m)) with n in E by lia. replace (n + m - n)%nat with m in E by lia.
  destruct (sample_play (take n scenario) sample_start) as [s1|]; [exact E|discriminate E].
Qed.

Example scenario_events :
  (λ e, match e with
        | ev_request _ => "request" | ev_call _ _ _ _ => "call" | ev_answer _ _ _ => "answer" | ev_local _ _ _ => "local"
        | ev_hit _ _ _ _ => "hit" | ev_reply _ _ _ => "reply" end) <$> rev (trace (after 6)) =
  ["request"; "call"; "request"; "call"; "answer"; "reply"; "answer"; "reply"; "request"; "hit"; "reply"].
Proof. vm_compute. reflexivity. Qed.

Definition sample_operator : OperatorPrincipal := principalFromSession sample_final_session (Some "victim").
Definition old_notes : view :=
  V (VArr [VObj [("principal", VStr "p"); ("atSeconds", vint 1); ("noteRef", VStr "n"); ("text", VStr "old")]]).
Definition run_started : view := V (VObj [("state", VStr "started"); ("detail", VNull)]).

Example scenario_trace :
  trace (after 6) =
  [ev_reply read_notes (Some sample_final_session) (mkResponse 200 old_notes);
   ev_hit read_notes (Some sample_final_session) "soc:acme:notes:i-1" old_notes;
   ev_request read_notes;
   ev_reply read_notes (Some sample_final_session) (mkResponse 200 old_notes);
   ev_answer sample_operator (c_incidentNotes "i-1") (Ok old_notes);
   ev_reply generate (Some sample_final_session) (mkResponse 200 run_started);
   ev_answer sample_operator (c_cognitionRun "i-1") (Ok run_started);
   ev_call generate (Some sample_final_session) sample_operator (c_cognitionRun "i-1");
   ev_request generate;
   ev_call read_notes (Some sample_final_session) sample_operator (c_incidentNotes "i-1");
   ev_request read_notes].
Proof. vm_compute. reflexivity. Qed.

(** ** Witnesses *)

Lemma engine_calls_authenticated_witness :
  ∃ session, Some sample_final_session = Some session ∧ verified session ∧ tenant_allowed (tenant session) ∧
    sample_operator = principalFromSession session (activeTenantOverride generate) ∧
    (role session ≠ global_admin → p_tenant sample_operator = tenant session ∧ settingsTier sample_operator = None) ∧
    (write_call (c_cognitionRun "i-1") = true → request_method generate ≠ "GET").
Proof.
  apply (engine_calls_authenticated sample_server_deps sample_deps 5000 8 sample_json sample_parse sample_stringify VNull (after 6)).
  - apply after_serves.
  - rewrite scenario_trace. do 7 right. left.
Defined.

(** A page far over the limit is asked for. *)
Definition log_query : http_request := sample_http "GET" "/api/logs?limit=9999".
Definition queried : server := default sample_start (sample_play [arrive log_query 10] sample_start).
Example log_limit_applied : f_limit (parseLogFilter log_query) = f64_ofZ 500.
Proof. vm_compute. reflexivity. Qed.
Lemma queried_serves : sample_serves queried.
Proof. apply (play_serves _ _ _ _ _ _ _ _ [arrive log_query 10] sample_start); [exact sample_start_serves|reflexivity]. Qed.

Lemma engine_calls_bounded_witness : call_within (c_logQuery (parseLogFilter log_query)).
Proof.
  apply (engine_calls_bounded sample_server_deps sample_deps 5000 8 sample_json sample_parse sample_stringify VNull queried
           log_query (Some sample_final_session) sample_operator).
  - apply queried_serves.
  - left.
Defined.

(** The engine refuses the notes. *)
Definition sample_refusal : value := VObj [("class", VStr "Authorization"); ("detail", VStr "no such case")].
Definition refusing : environment :=
  mkEnv (λ _ _, Throw (EngineRefusedError sample_refusal)) (λ _, []) (λ _ _, []) (λ _, []) (Ok VNull) (λ _, Throw (SystemError "ENOENT")) 1000 20.
Definition refused_run : server :=
  default sample_start (sample_play [arrive read_notes 10; answer_to 0 11 refusing no_body] sample_start).
Definition refused_response : response := mkResponse 403 (refusal_view "class" (VStr "Authorization")).
Lemma refused_serves : sample_serves refused_run.
Proof.
  apply (play_serves _ _ _ _ _ _ _ _ [arrive read_notes 10; answer_to 0 11 refusing no_body] sample_start); [exact sample_start_serves|reflexivity].
Qed.

Lemma responses_disclose_nothing_witness :
  ev_reply read_notes (Some sample_final_session) refused_response ∈ trace refused_run ∧
  (Some sample_final_session = None → public VNull (body refused_response)) ∧
  clean (λ c o, ∃ session, Some sample_final_session = Some session ∧
      ev_answer (principalFromSession session (activeTenantOverride read_notes)) c o ∈ trace refused_run)
    (λ _, False) refused_response.
Proof.
  assert (ev_reply read_notes (Some sample_final_session) refused_response ∈ trace refused_run) as Hin by left.
  split; [exact Hin|].
  apply (responses_disclose_nothing sample_server_deps sample_deps 5000 8 sample_json sample_parse sample_stringify VNull
           refused_run read_notes (Some sample_final_session) refused_response).
  - discriminate.
  - apply refused_serves.
  - exact Hin.
Defined.

Lemma cached_answers_same_tenant_witness :
  ∃ own c p c', operator read_notes (Some sample_final_session) own ∧ (∃ req' sess', operator req' sess' p) ∧
    ev_answer p c' (Ok old_notes) ∈ trace (after 6) ∧
    fst <$> cache_key own c = Some "soc:acme:notes:i-1" ∧ cache_key p c' = cache_key own c ∧
    (no_char colon (p_tenant own) = true → no_char colon (p_tenant p) = true →
       p_tenant p = p_tenant own ∧ projection c' = projection c ∧ (one_name c = true → c' = c)).
Proof.
  apply (cached_answers_same_tenant sample_server_deps sample_deps 5000 8 sample_json sample_parse sample_stringify VNull).
  - apply after_serves.
  - rewrite scenario_trace. right. left.
Defined.

(** The change in flight: its body was read, the engine has not answered. *)
Definition no_task : task := mkTask generate None false (Raise (Error "none")).
Definition change_task : task := default no_task (waiting (after 3) !! 0%nat).
Definition continuation (p : prog) : result view → prog := match p with Await _ _ k => k | _ => λ _, p end.
Definition changed : server :=
  resume sample_server_deps sample_deps 5000 8 (after 3) [] change_task (drop 1 (waiting (after 3))) 13
    (continuation (t_prog change_task) (Ok run_started)) (mkMemory (mkCounters 0 0 0 0 1) None)
    [ev_answer sample_operator (c_cognitionRun "i-1") (Ok run_started)].

Lemma changes_drop_projections_witness :
  (∃ resp, trace changed = ev_reply generate (Some sample_final_session) resp ::
     ev_answer sample_operator (c_cognitionRun "i-1") (Ok run_started) :: trace (after 3)) ∧
  (∀ p' c' key version, cache_key p' c' = Some (key, version) → p_tenant p' = p_tenant sample_operator →
     fst <$> projection c' = Some "soc" → map_get (srv_cache changed) key = None) ∧
  (∀ key, startsWith key ("soc" +:+ ":" +:+ p_tenant sample_operator +:+ ":") = false →
     map_get (srv_cache changed) key = map_get (srv_cache (after 3)) key).
Proof.
  apply (changes_drop_projections sample_server_deps sample_deps 5000 8 sample_json sample_parse sample_stringify VNull
           (after 3) [] change_task (drop 1 (waiting (after 3))) 13 after_change sample_operator (c_cognitionRun "i-1")
           (continuation (t_prog change_task)) run_started (mkMemory (mkCounters 0 0 0 0 1) None) "soc").
  - apply after_serves.
  - reflexivity.
  - reflexivity.
  - reflexivity.
  - vm_compute. reflexivity.
Defined.

Lemma every_request_answered_witness :
  (∀ req, replies req (trace (after 5)) + in_flight req (waiting (after 5)) = arrivals req (trace (after 5)))%nat ∧
  (∀ req, arrivals req (trace (after 5)) = arrivals req (trace (after 2))) ∧
  (3 ≤ 2 * length (waiting (after 2)))%nat ∧
  ∀ l1 t l2 now env b, waiting (after 5) = l1 ++ t :: l2 →
    ∃ p m evs, answer sample_json env b (srv_memory (after 5)) (t_prog t) = Some (p, m, evs) ∧
      answers sample_server_deps sample_deps 5000 8 sample_json 4 (after 2)
        (resume sample_server_deps sample_deps 5000 8 (after 5) l1 t l2 now p m evs).
Proof.
  apply (every_request_answered sample_server_deps sample_deps 5000 8 sample_json sample_parse sample_stringify VNull
           (after 2) 3 (after 5)).
  - apply after_serves.
  - apply (play_answers _ _ _ _ _ sample_parse sample_stringify VNull (take 3 (drop 2 scenario))); [reflexivity|].
    apply after_play. by vm_compute; eexists.
Defined.

(** ** Two behaviours of the cache *)

(** a read in flight across a change puts what it read back into the cache.
    A read sent to the engine before a change was accepted and answered after it is kept,
    although the change dropped the tenant's projections; for the rest of the entry's life
    every read is served what held before the change, the operator's own act included. *)
Theorem read_across_change_recached :
  ∃ s tr0 tr1 tr2 tr3 resp, sample_serves s ∧ write_call (c_cognitionRun "i-1") = true ∧
    trace s = tr0 ++ ev_hit read_notes (Some sample_final_session) "soc:acme:notes:i-1" old_notes :: tr1 ++
              ev_reply generate (Some sample_final_session) resp :: tr2 ++
              ev_call read_notes (Some sample_final_session) sample_operator (c_incidentNotes "i-1") :: tr3 ∧
    ev_answer sample_operator (c_cognitionRun "i-1") (Ok run_started) ∈ tr2 ∧
    ev_answer sample_operator (c_incidentNotes "i-1") (Ok old_notes) ∈ tr1.
Proof.
  eexists (after 6), [_], [_; _; _], [_; _; _], [_], _. split; [apply after_serves|]. split; [done|].
  split; [exact scenario_trace|]. split; [left|right; right; left].
Qed.

(** Tenants with a colon in their names can share a key, as can two reads of connections:
    a key names the tenant and what is read only up to where the colons fall. *)
Example keys_collide :
  let p t := mkPrincipal "s" Admin "p" t None in
  cache_key (p "acme") (c_vtzDetail "detail:z") = cache_key (p "acme:detail") (c_vtzDetail "z") ∧
  startsWith "vtz:acme:eu:tree:0" (vtzCachePrefix "acme") = true ∧
  cache_key (p "acme:eu") (c_vtzTree 0) = Some ("vtz:acme:eu:tree:0", VTZ_CACHE_VERSION) ∧
  cache_key (p "acme") (c_entityConnections "b:c" "a") = cache_key (p "acme") (c_entityConnections "c" "a:b").
Proof. by vm_compute. Qed.
