(* ===== verification/Backfill.v ===== *)
(** * The background log pager ([useLogsBackfill]) against the server

    The pager walks the log a page at a time until a page comes back short.  Each of its requests
    runs through the whole server under a session that lasts: the route, the gates, the query
    parser, the resolver, the projection of the rows and the response.  The engine is a parameter;
    what is assumed of it is what the contract says of a log query: the rows from the offset, at
    most the limit and at most the engine's own ceiling. *)
From S2P Require Import Prelude Bytes Float64 Cbor JsValue JsString Num64 LineExchange Cache Rbac Sessions Cookie Oidc.
From S2P Require Import AuthRouter OperatorEngine Vtz VtzProofs Policies Forge Distribute Routes JsOps Overview Users Objects EntityDetail Soc Settings.
From S2P Require Import Decimal ModelAccess Http Uri Console Server ServerRun ServerSamples ConsoleProofs.
From stdpp Require Import list.
Open Scope Z_scope.

(** A call whose requests are all answered. *)
Fixpoint served {A} (serve : fetch_request → option fetch_response) (c : flow A) : A + console_error :=
  match c with
  | Return a => inl a
  | Reject e => inr e
  | Fetch r k => served serve (k (serve r))
  end.

(** A page of the log: the rows from the offset, at most the limit and at most the ceiling. *)
Definition log_page {A} (log : list A) (ceiling limit offset : Z) : list A :=
  take (Z.to_nat (Z.min limit ceiling)) (drop (Z.to_nat offset) log).

(** The fields of a log query that narrow it. *)
Definition LOG_FILTERS : list string := ["since"; "until"; "technique"; "tactic"; "rule_id"; "confidence"; "action"; "search"].

(** What a log query that narrows nothing is answered with ([contracts/src/logs.ts]: [limit], "bounded further by the engine
    ceiling", and [offset], "rows to skip before the page; absent = the first page"). *)
Definition pages_log (client : string → value → result value) (store : list value) (ceiling : Z) : Prop :=
  ∀ frame limit offset, 0 < limit ≤ MAX_LOG_LIMIT → 0 ≤ offset ≤ MAX_SAFE →
    get frame "limit" = Ok (VNum (f64_ofZ limit)) →
    get frame "offset" = Ok (if 0 <? offset then VNum (f64_ofZ offset) else VUndefined) →
    Forall (λ k, get frame k = Ok VNull) LOG_FILTERS →
    ∃ reply, client "logQuery" frame = Ok reply ∧ get reply "decisions" = Ok (VArr (log_page store ceiling limit offset)).

Lemma served_bind {A B} serve (f : A → flow B) (c : flow A) :
  served serve (flow_bind f c) = match served serve c with inl a => served serve (f a) | inr e => inr e end.
Proof. induction c as [a|e|r k IH]; cbn; [done..|]. apply IH. Qed.

Lemma served_read serve what url v : serve (get_request url) = Some (mkFetched 200 (Some v)) → served serve (read_url what url) = inl v.
Proof. intros H. unfold read_url, fetch_. cbn [mbind flow_MBind flow_bind served]. by rewrite H. Qed.

Lemma log_page_fmap {A B} (f : A → B) log ceiling limit offset : log_page (map f log) ceiling limit offset = map f (log_page log ceiling limit offset).
Proof. unfold log_page. by rewrite skipn_map, firstn_map. Qed.

Lemma log_page_Forall2 {A B} (P : A → B → Prop) l k ceiling limit offset :
  Forall2 P l k → Forall2 P (log_page l ceiling limit offset) (log_page k ceiling limit offset).
Proof. intros H. by apply Forall2_take, Forall2_drop. Qed.

Lemma mapM_rows {A B} (f : A → result B) l k : Forall2 (λ a b, f a = Ok b) l k → mapM f l = Ok k.
Proof. induction 1 as [|a b l k Ha _ IH]; [done|]. cbn. by rewrite Ha, IH. Qed.

Section backfill.
Context {NS : NumberToString} {TN : ToNumberOther} {AO : ArithOther} {LC : LocaleCompare} {CO : CompareOther}.
Context (deps : ServerDeps) (auth_deps : AuthRouterDeps) (cacheTtlMs cacheMaxEntries : Z)
  (JSON_parse : string → result value) (JSON_stringify : view → result string) (openApiDocument : value).
(** The browser's cookie, the server as each request finds it, the time then, and the surroundings. *)
Context (cookie : option string) (found : fetch_request → server) (clock : fetch_request → Z) (env : environment).
(** [res.json()] of a response's text. *)
Context (res_json : string → option value).

(** The request as the server receives it. *)
Definition received (r : fetch_request) : http_request := mkHttp (Some (f_method r)) (Some (f_url r)) cookie None None.

(** The response just sent. *)
Definition just_sent (s : server) : option Server.response :=
  match trace s with ev_reply _ _ resp :: _ => Some resp | _ => None end.

(** The server's response to a request that makes at most one call: it starts, and the call it waits for is answered. *)
Definition responds (r : fetch_request) : option Server.response :=
  let s := start deps auth_deps cacheTtlMs cacheMaxEntries JSON_stringify openApiDocument (found r) (received r) (clock r) in
  match just_sent s, waiting s with
  | None, t :: ts =>
      '(p, m, evs) ← answer JSON_parse env (mkBody [] false) (srv_memory s) (t_prog t);
      just_sent (resume deps auth_deps cacheTtlMs cacheMaxEntries s [] t ts (clock r) p m evs)
  | sent, _ => sent
  end.

(** What the browser gets for it, as text. *)
Definition serve (r : fetch_request) : option fetch_response :=
  resp ← responds r;
  match JSON_stringify (body resp) with
  | Ok text => Some (mkFetched (status resp) (res_json text))
  | Throw _ => None
  end.

(** The request for the [k]th page. *)
Definition page_request (p k : Z) : fetch_request :=
  get_request ("/api/logs?" +:+ logsQueryString (no_filter (f64_ofZ p) (Some (f64_ofZ (k * p))))).

(** The filter the server reads off it. *)
Definition page_filter (p k : Z) : LogQueryFilter := no_filter (f64_ofZ p) (if 0 <? k then Some (f64_ofZ (k * p)) else None).

Lemma page_read p k : 0 < p ≤ MAX_LOG_LIMIT → 0 ≤ k → k * p ≤ MAX_SAFE → parseLogFilter (received (page_request p k)) = page_filter p k.
Proof using.
  intros Hp Hk Hs.
  assert (logs_params (no_filter (f64_ofZ p) (Some (f64_ofZ (k * p)))) = logs_params (page_filter p k)) as Eq.
  { unfold page_filter, logs_params. cbn [f_since f_until f_technique f_tactic f_ruleId f_confidence f_action f_search f_limit f_offset no_filter mbind option_bind].
    destruct (Z.ltb_spec 0 k); [done|]. by assert (k = 0) as -> by lia. }
  assert (filter_ok MAX_LOG_LIMIT (page_filter p k)) as Hok.
  { constructor; cbn; [repeat (apply Forall_cons_2; [done|]); constructor|repeat (apply Forall_cons_2; [done|]); constructor|by exists p|].
    destruct (Z.ltb_spec 0 k); intros x [= <-]. exists (k * p). split; [nia|done]. }
  apply log_filter_read; [done|]. unfold params, request_url, received, page_request. cbn [http_url default f_url get_request].
  change ("/api/logs?" +:+ ?q) with ("/api/logs" +:+ "?" +:+ q). unfold logsQueryString. rewrite Eq.
  apply params_read; [|done..|by apply logs_params_text].
  unfold logs_params. intros E. apply (f_equal length) in E. rewrite !length_app in E. cbn in E. lia.
Qed.

Context (session : OperatorSession).
Hypothesis Hengine : operatorEngine deps = true.
Hypothesis Hrouter : authRouter deps = true.
(** The cookie names a session that lasts. *)
Hypothesis Hsession : ∀ r, (resolveSession auth_deps (store (login (found r))) cookie (clock r)).1 = Some session.

(** The request goes through the route to the resolver, and what that answers is the response. *)
Lemma page_responds p k v text : 0 < p ≤ MAX_LOG_LIMIT → 0 ≤ k → k * p ≤ MAX_SAFE →
  resolveLogQuery (env_client env) (principalFromSession session None) (page_filter p k) = Ok v → JSON_stringify (V v) = Ok text →
  responds (page_request p k) = Some (mkResponse 200 (V v)).
Proof using Hengine Hrouter Hsession.
  intros Hp Hk Hs Hv Ht. pose proof (page_read p k Hp Hk Hs) as Hf. unfold responds, start.
  set (r := page_request p k) in *. set (s := found r). specialize (Hsession r).
  assert (request_path (received r) = "/api/logs") as Hpath by (by apply (url_path_query "/api/logs")).
  unfold Server.route. rewrite Hpath. change (startsWith "/api/logs" "/api/") with true. cbv iota.
  assert (apiRouteVerdict (request_method (received r)) "/api/logs" = declared) as -> by (vm_compute; reflexivity).
  rewrite logs_chain by (by rewrite Hpath). unfold surface_chain, handleLogExport, handleLogs. rewrite Hpath.
  change (request_method (received r)) with "GET". decide_tests. cbn [orb andb negb first_claim].
  unfold gated, with_session, with_engine, awaiting. rewrite Hengine, Hf. change (explain_match _) with (@None string).
  cbn [run rs_auth http_cookie received]. rewrite Hrouter.
  fold s in Hsession. destruct (resolveSession _ _ _ _) as [o a]. cbn [fst] in Hsession. subst o. cbn.
  destruct (srv_memory s) as [[np nu no ni ns] dns]. change (activeTenantOverride _) with (@None string). unfold call_engine. rewrite Hv. cbn.
  unfold send. by rewrite Ht.
Qed.

Context (store rows : list value) (ceiling : Z) (shown : value → value).
Hypothesis Hpages : pages_log (env_client env) store ceiling.
(** The projection of each decision. *)
Hypothesis Hrows : Forall2 (λ d row, toLogRow d = Ok row) store rows.
(** A page of rows, written as JSON and read again: each row as it comes out of that. *)
Hypothesis Hjson : ∀ l, l ⊆ rows →
  ∃ text, JSON_stringify (V (VObj [("rows", VArr l)])) = Ok text ∧ res_json text = Some (VObj [("rows", VArr (map shown l))]).

Lemma page_resolves p k : 0 < p ≤ MAX_LOG_LIMIT → 0 ≤ k → k * p ≤ MAX_SAFE →
  resolveLogQuery (env_client env) (principalFromSession session None) (page_filter p k) =
  Ok (VObj [("rows", VArr (log_page rows ceiling p (k * p)))]).
Proof using Hpages Hrows.
  intros Hp Hk Hs. unfold resolveLogQuery, awaited, logQuery, brokered.
  destruct (Hpages (with_operator (filterToWire (page_filter p k)) (plainDelegation (principalFromSession session None))) p (k * p)) as (reply & Hc & Hd).
  - done.
  - nia.
  - done.
  - unfold page_filter. destruct (Z.ltb_spec 0 k) as [H|H].
    + rewrite (proj2 (Z.ltb_lt 0 (k * p))) by nia. unfold filterToWire. cbn [f_offset no_filter]. rewrite f64_lt_pos by nia. done.
    + by assert (k = 0) as -> by lia.
  - unfold page_filter. destruct (0 <? k); unfold filterToWire; cbn [f_offset no_filter]; [destruct (f64_lt _ _)|]; by repeat constructor.
  - rewrite Hc. change (get (filterToWire _) "request_id") with (Ok (vint 0)). cbn [mbind result_bind snd]. rewrite Hd. cbn [mbind result_bind js_map].
    by rewrite (mapM_rows toLogRow _ _ (log_page_Forall2 _ _ _ ceiling p (k * p) Hrows)).
Qed.

Lemma served_page p k : 0 < p ≤ MAX_LOG_LIMIT → 0 ≤ k → k * p ≤ MAX_SAFE →
  served serve (fetchLogs (no_filter (f64_ofZ p) (Some (f64_ofZ (k * p))))) = inl (VObj [("rows", VArr (map shown (log_page rows ceiling p (k * p))))]).
Proof using Hengine Hrouter Hsession Hpages Hrows Hjson.
  intros Hp Hk Hs. destruct (Hjson (log_page rows ceiling p (k * p))) as (text & Ht & Hr).
  { intros x Hx. unfold log_page in Hx. apply elem_of_take in Hx as (i & Hi & _). rewrite lookup_drop in Hi. by eapply list_elem_of_lookup_2. }
  apply served_read. unfold serve. fold (page_request p k). erewrite page_responds by (done || by apply page_resolves || exact Ht).
  cbn [mbind option_bind body status]. by rewrite Ht, Hr.
Qed.

(** One turn of the walk. *)
Lemma served_turn p k n seen : 0 < p ≤ MAX_LOG_LIMIT → 0 ≤ k → k * p ≤ MAX_SAFE →
  let new := map shown (log_page rows ceiling p (k * p)) in
  served serve (backfill_loop (S n) p k seen) =
  if Z.of_nat (length new) <? p then inl (seen ++ new, true) else served serve (backfill_loop n p (k + 1) (seen ++ new)).
Proof using Hengine Hrouter Hsession Hpages Hrows Hjson.
  intros Hp Hk Hs. cbn [backfill_loop]. unfold mbind, flow_MBind. rewrite served_bind, served_page by done. cbn [served].
  rewrite served_bind. change (served serve (page_rows_of _)) with (@inl (list value) console_error (map shown (log_page rows ceiling p (k * p)))).
  cbv iota. by destruct (_ <? _).
Qed.

(** The walk where a page is as long as asked for. *)
Lemma served_walk p n k seen : 0 < p ≤ MAX_LOG_LIMIT → p ≤ ceiling → 0 ≤ k → (k + Z.of_nat n) * p ≤ MAX_SAFE →
  seen = take (Z.to_nat (k * p)) (map shown rows) → length seen = Z.to_nat (k * p) →
  served serve (backfill_loop n p k seen) =
  inl (take (Z.to_nat ((k + Z.of_nat n) * p)) (map shown rows), bool_decide (Z.of_nat (length rows) < (k + Z.of_nat n) * p)).
Proof using Hengine Hrouter Hsession Hpages Hrows Hjson.
  intros Hp Hc. revert k seen. induction n as [|n IH]; intros k seen Hk Hs -> Hl; rewrite length_take, length_map in Hl.
  - cbn [backfill_loop served]. rewrite Z.add_0_r in *. by rewrite bool_decide_eq_false_2 by lia.
  - rewrite served_turn by (done || nia). cbv zeta. rewrite <- log_page_fmap. unfold log_page. rewrite (Z.min_l p ceiling) by lia.
    rewrite length_take, length_drop, length_map, take_take_drop.
    replace (Z.to_nat (k * p) + Z.to_nat p)%nat with (Z.to_nat ((k + 1) * p)) by lia.
    replace (k + Z.of_nat (S n)) with (k + 1 + Z.of_nat n) in * by lia.
    destruct (Z.ltb_spec (Z.of_nat (Z.to_nat p `min` (length rows - Z.to_nat (k * p)))) p) as [H|H].
    + rewrite !take_ge by (rewrite length_map; nia). by rewrite bool_decide_eq_true_2 by nia.
    + apply IH; [lia|done|done|]. rewrite length_take, length_map. nia.
Qed.

(** C20: The background pager against the whole server, where the browser's session lasts and the log does not change
    during the walk: the cache is the first fifty pages of the log, newest first, each row as the projection and JSON leave
    it, and it is marked complete exactly when the log is shorter than that.  So a cache marked complete is the whole log,
    and a log of exactly fifty pages, though all of it is cached, is marked incomplete.  That is where the engine's ceiling
    is not below the page size; below it, the pager takes the first page for a short one, stops there and marks the cache
    complete, whatever else the log holds. *)
Theorem backfill_exact p : 0 < p ≤ MAX_LOG_LIMIT → 0 < ceiling →
  served serve (logs_backfill p) =
  if p <=? ceiling then inl (take (50 * Z.to_nat p) (map shown rows), bool_decide (length rows < 50 * Z.to_nat p)%nat)
  else inl (take (Z.to_nat ceiling) (map shown rows), true).
Proof using Hengine Hrouter Hsession Hpages Hrows Hjson.
  intros Hp Hc. unfold logs_backfill, BACKFILL_MAX_PAGES. unfold MAX_LOG_LIMIT in *. destruct (Z.leb_spec p ceiling) as [H|H].
  - rewrite served_walk by (done || (unfold MAX_LOG_LIMIT, MAX_SAFE; lia)). rewrite Z.add_0_l. change (Z.of_nat 50) with 50.
    f_equal. f_equal; [f_equal; lia|]. apply bool_decide_ext. lia.
  - rewrite served_turn by (done || (unfold MAX_LOG_LIMIT, MAX_SAFE; lia)). cbv zeta. rewrite <- log_page_fmap. unfold log_page.
    rewrite Z.min_r by lia. change (Z.to_nat (0 * p)) with 0%nat. rewrite drop_0, length_take, length_map.
    by rewrite (proj2 (Z.ltb_lt _ p)) by lia.
Qed.
End backfill.

(** ** A walk *)

#[local] Instance walk_numbers : NumberToString := λ _, "7".
#[local] Instance walk_toNumber : ToNumberOther := λ _, f64_NaN.
#[local] Instance walk_arith : ArithOther := λ _ _ _, Throw (TypeError "mix").
#[local] Instance walk_locale : LocaleCompare := λ _ _, 0.
#[local] Instance walk_compare : CompareOther := λ _ _, false.

Definition walk_decision : value :=
  VObj [("decision_id", VStr "d"); ("created_at", vint 2); ("recommended_action", VStr "allow"); ("rule_id", VStr "r");
        ("finding", VStr "f"); ("technique", VStr "t"); ("tactics", VArr []); ("confidence", VStr "high"); ("evidence", VArr [])].
Definition walk_row : value := match toLogRow walk_decision with Ok row => row | Throw _ => VNull end.
Definition walk_store : list value := replicate 5 walk_decision.
Definition walk_rows : list value := replicate 5 walk_row.
Definition walk_number (v : value) : nat := match v with VNum x => Z.to_nat (f64_toZ x) | _ => 0%nat end.
(** An engine with a ceiling of three rows a page. *)
Definition walk_client (_ : string) (frame : value) : result value :=
  limit ← get frame "limit"; offset ← get frame "offset";
  Ok (VObj [("decisions", VArr (take (walk_number limit `min` 3) (drop (walk_number offset) walk_store)))]).
Definition walk_env : environment :=
  mkEnv walk_client (λ _, []) (λ _ _, []) (λ _, []) (Ok VNull) (λ _, Throw (SystemError "ENOENT")) 1000 20.
(** Texts that keep the number of rows. *)
Definition walk_stringify (v : view) : result string :=
  Ok match v with V (VObj [(_, VArr l)]) => String.concat "" (replicate (length l) "r") | _ => "" end.
Definition walk_res_json (text : string) : option value := Some (VObj [("rows", VArr (replicate (String.length text) walk_row))]).

Lemma walk_pages : pages_log walk_client walk_store 3.
Proof.
  intros frame limit offset Hl Ho El Eo _. unfold walk_client. rewrite El, Eo. eexists. split; [reflexivity|].
  refine (f_equal (λ l, Ok (VArr l)) _).
  unfold log_page, MAX_LOG_LIMIT, MAX_SAFE in *. f_equal; unfold walk_number.
  - destruct (f64_ofZ_spec limit ltac:(unfold MAX_SAFE; lia)) as (_ & -> & _). lia.
  - f_equal. destruct (Z.ltb_spec 0 offset); cbn; [|lia].
    by destruct (f64_ofZ_spec offset ltac:(unfold MAX_SAFE; lia)) as (_ & -> & _).
Qed.

Lemma walk_text l : l ⊆ walk_rows →
  ∃ text, walk_stringify (V (VObj [("rows", VArr l)])) = Ok text ∧ walk_res_json text = Some (VObj [("rows", VArr (map id l))]).
Proof.
  intros H. eexists. split; [reflexivity|]. unfold walk_res_json. do 3 f_equal. f_equal. f_equal. rewrite map_id.
  replace (String.length _) with (length l) by (induction (length l) as [|[|n] IH]; [done..|cbn in *; by rewrite IH]).
  apply replicate_as_elem_of. split; [done|]. intros x Hx. by apply H, elem_of_replicate_inv in Hx.
Qed.

Notation walk_serve := (serve sample_server_deps sample_deps 5000 8 sample_json walk_stringify VNull (Some "fc_session=S")
  (λ _, sample_start) (λ _, 10) walk_env walk_res_json).

(** A log of five rows walked two at a time, and four at a time against the ceiling. *)
Lemma backfill_exact_witness :
  served walk_serve (logs_backfill 2) = inl (walk_rows, true) ∧
  served walk_serve (logs_backfill 4) = inl (take 3 walk_rows, true).
Proof.
  split.
  - apply (backfill_exact sample_server_deps sample_deps 5000 8 sample_json walk_stringify VNull (Some "fc_session=S")
             (λ _, sample_start) (λ _, 10) walk_env walk_res_json sample_final_session eq_refl eq_refl (λ _, eq_refl)
             walk_store walk_rows 3 id walk_pages ltac:(repeat constructor) walk_text 2); [|lia]. by vm_compute.
  - apply (backfill_exact sample_server_deps sample_deps 5000 8 sample_json walk_stringify VNull (Some "fc_session=S")
             (λ _, sample_start) (λ _, 10) walk_env walk_res_json sample_final_session eq_refl eq_refl (λ _, eq_refl)
             walk_store walk_rows 3 id walk_pages ltac:(repeat constructor) walk_text 4); [|lia]. by vm_compute.
Defined.
