(* ===== verification/CaseControls.v ===== *)
(** * The case controls of an incident ([SocCaseControls.tsx])

    The verdict form: the one field each verdict takes, the window of a risk acceptance, the
    draft the form submits, and the words for what was recorded.  Instants are whole seconds
    and days whole days since 1970.  Which instant [Date.parse] gives a day its month does not
    have is up to the engine that runs the console ([DateRollover]). *)
From S2P Require Import Prelude Bytes Float64 Cbor JsValue WireProofs JsString Num64 LineExchange Cache Rbac Sessions Cookie Oidc.
From S2P Require Import AuthRouter OperatorEngine Vtz VtzProofs Forge Distribute Routes JsOps Overview Users Objects EntityDetail Settings.
From S2P Require Import Decimal Http Uri Console Server ConsoleProofs ConsoleCommands PolicyEditor Policies ModelAccess Soc.
From stdpp Require Import list.
Open Scope Z_scope.

(** ** Calendar dates *)

Definition leap (y : Z) : bool := (y mod 4 =? 0) && negb (y mod 100 =? 0) || (y mod 400 =? 0).
Definition days_in_month (y m : Z) : Z :=
  if m =? 2 then (if leap y then 29 else 28) else if (m =? 4) || (m =? 6) || (m =? 9) || (m =? 11) then 30 else 31.
Definition valid_date (y m d : Z) : bool := (1 <=? m) && (m <=? 12) && (1 <=? d) && (d <=? days_in_month y m).

(** The inverse of [civil_of_day]. *)
Definition day_of_civil (y m d : Z) : Z :=
  let y := if m <=? 2 then y - 1 else y in
  let doy := (153 * (if 2 <? m then m - 3 else m + 9) + 2) / 5 + d - 1 in
  let yoe := y mod 400 in
  y / 400 * 146097 + (yoe * 365 + yoe / 4 - yoe / 100 + doy) - 719468.

(** [toISOString().slice(0, 10)] for the years 0 to 9999 *)
Definition iso_date (day : Z) : string :=
  let '(y, m, d) := civil_of_day day in ModelAccess.padded 4 y +:+ "-" +:+ ModelAccess.padded 2 m +:+ "-" +:+ ModelAccess.padded 2 d.

(** [/^\d{4}-\d{2}-\d{2}$/], with the three numbers *)
Definition parse_iso (s : string) : option (Z * Z * Z) :=
  match s with
  | String a (String b (String c (String d (String h (String e (String f (String i (String g (String j "")))))))))  =>
      if negb (is_hyphen h && is_hyphen i) then None
      else a ← digit_of a; b ← digit_of b; c ← digit_of c; d ← digit_of d; e ← digit_of e; f ← digit_of f; g ← digit_of g; j ← digit_of j;
           Some (1000 * a + 100 * b + 10 * c + d, 10 * e + f, 10 * g + j)
  | _ => None
  end.

Definition DAY_SECONDS : Z := 24 * 3600.

(** What [Date.parse] makes of a day that its month does not have, such as the thirtieth of
    February, is the engine's choice: V8 counts on into the next month ([rolls_over] is true),
    other engines answer NaN. *)
Class DateRollover := rolls_over : bool.

(** [Date.parse] of [YYYY-MM-DDT00:00:00Z], in seconds; [None] for NaN. *)
Definition parse_midnight `{DateRollover} (y m d : Z) : option Z :=
  if (1 <=? m) && (m <=? 12) && (1 <=? d) && (d <=? (if rolls_over then 31 else days_in_month y m))
  then Some (day_of_civil y m d * DAY_SECONDS) else None.

Definition expiryDateToSeconds `{DateRollover} (expiryDate : string) : option Z :=
  '(y, m, d) ← parse_iso expiryDate; parse_midnight y m d.

Definition RISK_ACCEPTANCE_MAX_DAYS : Z := 365.

Definition latestExpiryDate (nowSeconds : Z) : string := iso_date ((nowSeconds + RISK_ACCEPTANCE_MAX_DAYS * DAY_SECONDS) / DAY_SECONDS).

(** ** The form *)

Record DispositionFormState := mkVerdict { vf_disposition : string; vf_text : string; vf_action : string; vf_expiryDate : string }.

Definition verdict_init : DispositionFormState := mkVerdict "undetermined" "" "reimage" "".
(** Choosing a verdict drops what was entered for another. *)
Definition choose_verdict (disposition : string) : DispositionFormState := mkVerdict disposition "" "reimage" "".

(** A draft of one text field beside the verdict. *)
Definition with_text (disposition key text : string) : option value :=
  if bool_decide (text = "") then None else Some (VObj [("disposition", VStr disposition); (key, VStr text)]).

Definition buildDispositionDraft `{DateRollover} (f : DispositionFormState) (nowSeconds : Z) : option value :=
  let text := trim (vf_text f) in
  let disposition := vf_disposition f in
  if bool_decide (disposition = "false_positive") then with_text disposition "justification" text
  else if bool_decide (disposition = "benign_authorized") then with_text disposition "authorizedBy" text
  else if bool_decide (disposition = "true_positive_remediated") then
    Some (VObj [("disposition", VStr disposition); ("actionTaken", VStr (vf_action f))])
  else if bool_decide (disposition = "true_positive_blocked") then with_text disposition "blockingControl" text
  else if bool_decide (disposition = "true_positive_risk_accepted") then
    match expiryDateToSeconds (vf_expiryDate f) with
    | None => None
    | Some expirySeconds =>
        if bool_decide (text = "") || (expirySeconds <=? nowSeconds) || (RISK_ACCEPTANCE_MAX_DAYS * DAY_SECONDS <? expirySeconds - nowSeconds)
        then None
        else Some (VObj [("disposition", VStr disposition); ("acceptingParty", VStr text); ("expirySeconds", VNum (f64_ofZ expirySeconds))])
    end
  else if bool_decide (disposition = "duplicate") then with_text disposition "predecessor" text
  else Some (VObj [("disposition", VStr disposition)]).

Definition dispositionLabel (disposition : string) : string :=
  match disposition with
  | "false_positive" => "False positive"
  | "benign_authorized" => "Benign, authorized"
  | "true_positive_remediated" => "True positive, remediated"
  | "true_positive_blocked" => "True positive, blocked"
  | "true_positive_risk_accepted" => "True positive, risk accepted"
  | "duplicate" => "Duplicate"
  | _ => "Undetermined"
  end.

Definition dispositionFieldLabel (disposition : string) : option string :=
  match disposition with
  | "false_positive" => Some "Justification"
  | "benign_authorized" => Some "Authorized by"
  | "true_positive_remediated" => Some "Action taken"
  | "true_positive_blocked" => Some "Blocking control"
  | "true_positive_risk_accepted" => Some "Accepting party"
  | "duplicate" => Some "Predecessor incident id"
  | _ => None
  end.

Definition dispositionOutcome (disposition : string) (closedNow : bool) : string :=
  let verdict := dispositionLabel disposition in
  if closedNow then "Verdict recorded: " +:+ verdict +:+ ". The incident is closed."
  else "Verdict recorded: " +:+ verdict +:+ ", as a correction. The incident was already closed, so this did not close it.".

(** [noteRef] is [None] for null. *)
Definition caseActOutcome (act : string) (noteRef : option string) (closedNow : bool) : string :=
  match act with
  | "assigned" => "Assigned and recorded in the trail."
  | "acked" => "Acknowledged and recorded in the trail."
  | "noted" => match noteRef with None => "The note was recorded." | Some ref => "The note was recorded as " +:+ ref +:+ "." end
  | _ => if closedNow then "Closed without a verdict. The incident left both channels; no calibration signal was recorded."
         else "The engine recorded the close but reports the incident was not closed by it."
  end.

(** The assign button: the draft of the id typed, when it is one. *)
Definition assign_draft (assignee : string) : option value :=
  if isPrincipalId assignee then Some (VObj [("act", VStr "assigned"); ("assignee", VStr (toLowerCase (trim assignee)))]) else None.

(** ** The calendar *)

(** Comparisons of numerals. *)
Ltac numerals := repeat match goal with
  | |- context [Z.leb ?a ?b] => let v := eval vm_compute in (Z.leb a b) in change (Z.leb a b) with v
  | |- context [Z.ltb ?a ?b] => let v := eval vm_compute in (Z.ltb a b) in change (Z.ltb a b) with v
  | |- context [Z.eqb ?a ?b] => let v := eval vm_compute in (Z.eqb a b) in lazymatch v with true => idtac | false => idtac end; change (Z.eqb a b) with v
  end; cbn [orb]; cbv iota.

Lemma valid_date_spec y m d : valid_date y m d = true ↔ 1 ≤ m ≤ 12 ∧ 1 ≤ d ≤ days_in_month y m.
Proof. unfold valid_date. rewrite !andb_true_iff, !Z.leb_le. lia. Qed.

Lemma parse_midnight_spec `{DateRollover} y m d e :
  parse_midnight y m d = Some e ↔
  1 ≤ m ≤ 12 ∧ 1 ≤ d ≤ (if rolls_over then 31 else days_in_month y m) ∧ e = day_of_civil y m d * DAY_SECONDS.
Proof.
  unfold parse_midnight. destruct (_ && _ && _ && _) eqn:E; rewrite ?andb_true_iff, ?andb_false_iff, ?Z.leb_le, ?Z.leb_gt in E.
  - split; [intros [= <-]|intros (_ & _ & ->)]; naive_solver lia.
  - split; [done|]. lia.
Qed.

Lemma month_length y m : 28 ≤ days_in_month y m ≤ 31.
Proof. unfold days_in_month. repeat case_match; lia. Qed.

(** The year of the era and the day of the year, counted from the first of March. *)
Lemma era_split doe : 0 ≤ doe < 146097 → let yoe := (doe - doe / 1460 + doe / 36524 - doe / 146096) / 365 in
  0 ≤ yoe < 400 ∧ 0 ≤ doe - (365 * yoe + yoe / 4 - yoe / 100) ≤ 365 ∧
  (doe - (365 * yoe + yoe / 4 - yoe / 100) = 365 → leap (yoe + 1) = true).
Proof.
  intros H yoe. subst yoe. split; [|split]; [Z.div_mod_to_equations; lia..|]. unfold leap.
  rewrite orb_true_iff, andb_true_iff, negb_true_iff, !Z.eqb_eq, Z.eqb_neq. Z.div_mod_to_equations. lia.
Qed.

Lemma leap_era y era : leap (y + era * 400) = leap y.
Proof.
  unfold leap. assert ((y + era * 400) mod 4 = y mod 4 ∧ (y + era * 400) mod 100 = y mod 100 ∧ (y + era * 400) mod 400 = y mod 400) as (-> & -> & ->);
    [|done]. Z.div_mod_to_equations. lia.
Qed.

Lemma day_of_civil_of_day day : let '(y, m, d) := civil_of_day day in day_of_civil y m d = day ∧ valid_date y m d = true.
Proof.
  unfold civil_of_day. set (doe := (day + 719468) mod 146097). set (era := (day + 719468) / 146097).
  assert (0 ≤ doe < 146097 ∧ day = era * 146097 + doe - 719468) as [Hdoe Hday] by (subst doe era; Z.div_mod_to_equations; lia).
  destruct (era_split doe Hdoe) as (Hy & Hd & Hleap). set (yoe := (doe - doe / 1460 + doe / 36524 - doe / 146096) / 365) in *.
  set (doy := doe - (365 * yoe + yoe / 4 - yoe / 100)) in *. set (mp := (5 * doy + 2) / 153).
  assert (0 ≤ mp ≤ 11 ∧ 153 * mp ≤ 5 * doy + 2 < 153 * mp + 153) as [Hmp Hdd] by (subst mp; clearbody doy; Z.div_mod_to_equations; lia).
  clearbody mp.
  assert (doe = 365 * yoe + yoe / 4 - yoe / 100 + doy) as Hdoe' by lia. clearbody doy yoe doe era.
  unfold day_of_civil.
  assert (∀ x, 0 ≤ x < 400 → (x + era * 400) mod 400 = x ∧ (x + era * 400) / 400 = era) as Hmod by (intros x Hx; Z.div_mod_to_equations; lia).
  destruct (Hmod yoe Hy) as [E1 E2]. destruct (Z.ltb_spec mp 10) as [Hm|Hm].
  - rewrite (proj2 (Z.leb_gt (mp + 3) 2)) by lia. rewrite (proj2 (Z.ltb_lt 2 (mp + 3))) by lia.
    rewrite Z.add_0_r, E1, E2. replace (mp + 3 - 3) with mp by lia. split; [lia|]. apply valid_date_spec.
    assert (mp = 0 ∨ mp = 1 ∨ mp = 2 ∨ mp = 3 ∨ mp = 4 ∨ mp = 5 ∨ mp = 6 ∨ mp = 7 ∨ mp = 8 ∨ mp = 9) as Hc by lia.
    destruct_or! Hc; subst mp; unfold days_in_month; numerals; Z.div_mod_to_equations; lia.
  - rewrite (proj2 (Z.leb_le (mp - 9) 2)) by lia. rewrite (proj2 (Z.ltb_ge 2 (mp - 9))) by lia.
    replace (yoe + era * 400 + 1 - 1) with (yoe + era * 400) by lia. rewrite E1, E2. replace (mp - 9 + 9) with mp by lia. split; [lia|].
    apply valid_date_spec. assert (mp = 10 ∨ mp = 11) as [->| ->] by lia; unfold days_in_month; numerals.
    + Z.div_mod_to_equations; lia.
    + replace (yoe + era * 400 + 1) with (yoe + 1 + era * 400) by lia. rewrite leap_era. destruct (decide (doy = 365)) as [E|E]; [rewrite Hleap by done; Z.div_mod_to_equations; lia|].
      destruct (leap (yoe + 1)); Z.div_mod_to_equations; lia.
Qed.

(** Days are counted one by one: the first of January 1970 is day 0, and the day after a date is one more. *)
Definition next_date (y m d : Z) : Z * Z * Z :=
  if d <? days_in_month y m then (y, m, d + 1) else if m <? 12 then (y, m + 1, 1) else (y + 1, 1, 1).

Lemma new_year y : day_of_civil (y + 1) 1 1 = day_of_civil y 12 31 + 1.
Proof. unfold day_of_civil. numerals. Z.div_mod_to_equations. lia. Qed.

Lemma march_first y : day_of_civil y 3 1 = day_of_civil y 2 (days_in_month y 2) + 1.
Proof.
  unfold day_of_civil. numerals. change (days_in_month y 2) with (if leap y then 29 else 28). unfold leap.
  destruct (Z.eqb_spec (y mod 4) 0), (Z.eqb_spec (y mod 100) 0), (Z.eqb_spec (y mod 400) 0); cbn [andb orb negb]; Z.div_mod_to_equations; lia.
Qed.

Lemma month_first y m : 1 ≤ m < 12 → day_of_civil y (m + 1) 1 = day_of_civil y m (days_in_month y m) + 1.
Proof.
  intros Hm. destruct (decide (m = 2)) as [->|Hne]; [apply march_first|].
  assert (m = 1 ∨ m = 3 ∨ m = 4 ∨ m = 5 ∨ m = 6 ∨ m = 7 ∨ m = 8 ∨ m = 9 ∨ m = 10 ∨ m = 11) as Hc by lia.
  destruct_or! Hc; subst m; unfold day_of_civil, days_in_month; numerals; Z.div_mod_to_equations; lia.
Qed.

(** A day past the end of its month is the day as far into the next. *)
Lemma day_rolls y m d : 1 ≤ m < 12 → day_of_civil y m d = day_of_civil y (m + 1) (d - days_in_month y m).
Proof. intros Hm. pose proof (month_first y m Hm) as E. unfold day_of_civil in *. lia. Qed.

Lemma days_counted : day_of_civil 1970 1 1 = 0 ∧
  ∀ y m d, valid_date y m d = true → let '(y', m', d') := next_date y m d in
    valid_date y' m' d' = true ∧ day_of_civil y' m' d' = day_of_civil y m d + 1.
Proof.
  split; [done|]. intros y m d H%valid_date_spec. unfold next_date. destruct (Z.ltb_spec d (days_in_month y m)) as [Hd|Hd].
  - split; [apply valid_date_spec; lia|]. unfold day_of_civil. lia.
  - assert (d = days_in_month y m) as -> by lia. destruct (Z.ltb_spec m 12) as [Hm|Hm].
    + pose proof (month_length y (m + 1)). split; [apply valid_date_spec; lia|apply month_first; lia].
    + assert (m = 12) as -> by lia. split; [done|]. apply new_year.
Qed.

(** A written date is the date of the day it names. *)
Lemma digit_of_char x : (x < 10)%N → digit_of (pretty_N_char x) = Some (Z.of_N x).
Proof.
  intros Hx. assert (x = 0 ∨ x = 1 ∨ x = 2 ∨ x = 3 ∨ x = 4 ∨ x = 5 ∨ x = 6 ∨ x = 7 ∨ x = 8 ∨ x = 9)%N as H by lia. by destruct_or! H; subst.
Qed.

Lemma padded_two n : 1 ≤ n ≤ 31 → ∃ a b x y, ModelAccess.padded 2 n = String a (String b "") ∧ digit_of a = Some x ∧ digit_of b = Some y ∧ 10 * x + y = n.
Proof.
  intros Hn. assert (forallb (λ n, match ModelAccess.padded 2 n with
    | String a (String b "") => match digit_of a, digit_of b with Some x, Some y => 10 * x + y =? n | _, _ => false end | _ => false end) (seqZ 1 31) = true) as H
    by (vm_compute; reflexivity).
  rewrite forallb_forall in H. specialize (H n). rewrite <- list_elem_of_In, elem_of_seqZ in H. specialize (H ltac:(lia)).
  destruct (ModelAccess.padded 2 n) as [|a [|b [|? ?]]]; try done. destruct (digit_of a) as [x|] eqn:Ea; [|done].
  destruct (digit_of b) as [y|] eqn:Eb; [|done]. apply Z.eqb_eq in H. by exists a, b, x, y.
Qed.

Lemma padded_year n : 1000 ≤ n ≤ 9999 → ∃ a b c d x y z w, ModelAccess.padded 4 n = String a (String b (String c (String d ""))) ∧
  digit_of a = Some x ∧ digit_of b = Some y ∧ digit_of c = Some z ∧ digit_of d = Some w ∧ 1000 * x + 100 * y + 10 * z + w = n.
Proof.
  intros Hn. destruct n as [|p|p]; [lia| |lia]. unfold ModelAccess.padded. change (pretty (Zpos p)) with (pretty_N_go (Npos p) "").
  assert (1000 ≤ Npos p ≤ 9999)%N as Hp by lia. change (Zpos p) with (Z.of_N (Npos p)). clear Hn. generalize dependent (Npos p). intros n Hn.
  assert (∀ m, (m = 10 * (m / 10) + m mod 10)%N ∧ (m mod 10 < 10)%N) as Hdm
    by (intros m; split; [by apply N.div_mod|by apply N.mod_lt]).
  destruct (Hdm n) as [E0 L0]. rewrite (pretty_N_go_step n) by lia. generalize dependent (n / 10)%N. intros n1 E0.
  destruct (Hdm n1) as [E1 L1]. rewrite (pretty_N_go_step n1) by lia. generalize dependent (n1 / 10)%N. intros n2 E1.
  destruct (Hdm n2) as [E2 L2]. rewrite (pretty_N_go_step n2) by lia. generalize dependent (n2 / 10)%N. intros n3 E2.
  destruct (Hdm n3) as [E3 L3]. rewrite (pretty_N_go_step n3) by lia.
  assert (n3 < 10)%N as Hn3 by (clear -Hn E0 E1 E2; revert E0 E1 E2; generalize (n mod 10)%N (n1 mod 10)%N (n2 mod 10)%N; lia).
  assert (n3 / 10 = 0)%N as E4 by (by apply N.div_small). rewrite E4 in E3.
  rewrite E4, pretty_N_go_0. cbn [String.length Nat.sub zeros]. rewrite str_nil_app. do 4 eexists.
  exists (Z.of_N (n3 mod 10)), (Z.of_N (n2 mod 10)), (Z.of_N (n1 mod 10)), (Z.of_N (n mod 10)).
  split; [reflexivity|]. rewrite !digit_of_char by done. split_and!; [done..|lia].
Qed.

Lemma iso_parse day : 1000 ≤ (civil_of_day day).1.1 ≤ 9999 → parse_iso (iso_date day) = Some (civil_of_day day).
Proof.
  pose proof (day_of_civil_of_day day) as H. unfold iso_date. destruct (civil_of_day day) as [[y m] d]. destruct H as (_ & [Hm Hd]%valid_date_spec). pose proof (month_length y m).
  cbn [fst]. intros Hy. destruct (padded_year y Hy) as (a & b & c & e & ? & ? & ? & ? & -> & Ha & Hb & Hc & He & <-).
  destruct (padded_two m ltac:(lia)) as (f & g & ? & ? & -> & Hf & Hg & <-). destruct (padded_two d ltac:(lia)) as (h & i & ? & ? & -> & Hh & Hi & <-).
  unfold parse_iso. change (_ +:+ _) with (String a (String b (String c (String e (String (ascii_of_byte 45) (String f (String g
    (String (ascii_of_byte 45) (String h (String i "")))))))))). cbv beta iota.
  change (is_hyphen (ascii_of_byte 45)) with true. cbn [negb andb]. by rewrite Ha, Hb, Hc, He, Hf, Hg, Hh, Hi.
Qed.

(** ** What the form submits *)

(** The verdicts that take one text. *)
Definition TEXT_VERDICTS : list (string * (string → DispositionDraft)) :=
  [("false_positive", false_positive); ("benign_authorized", benign_authorized); ("true_positive_blocked", true_positive_blocked);
   ("duplicate", duplicate)].

(** The verdict a form states at an instant. *)
Inductive verdict_says `{DateRollover} (f : DispositionFormState) (now : Z) : DispositionDraft → Prop :=
  | says_text mk : (vf_disposition f, mk) ∈ TEXT_VERDICTS → trim (vf_text f) ≠ "" → verdict_says f now (mk (trim (vf_text f)))
  | says_remediated : vf_disposition f = "true_positive_remediated" → verdict_says f now (true_positive_remediated (vf_action f))
  | says_accepted y m d : vf_disposition f = "true_positive_risk_accepted" → trim (vf_text f) ≠ "" →
      parse_iso (vf_expiryDate f) = Some (y, m, d) → 1 ≤ m ≤ 12 → 1 ≤ d ≤ (if rolls_over then 31 else days_in_month y m) →
      now < day_of_civil y m d * DAY_SECONDS ≤ now + RISK_ACCEPTANCE_MAX_DAYS * DAY_SECONDS →
      verdict_says f now (true_positive_risk_accepted (trim (vf_text f)) (f64_ofZ (day_of_civil y m d * DAY_SECONDS)))
  | says_undetermined : vf_disposition f = "undetermined" → verdict_says f now undetermined.

(** A body the server takes: its own fields, and none of them the incident. *)
Definition accepted (b : option value) (d : DispositionDraft) : Prop :=
  ∃ ps, b = Some (VObj ps) ∧ object ps ∧ obj_get ps "incident" = None ∧ toDispositionDraft (VObj ps) = Ok (Some d).

Ltac take_body := eexists; split; [reflexivity|]; split; [by apply (bool_decide_unpack _)|]; split; [reflexivity|].

(** Reads the fields of a body of literal keys. *)
Ltac read_body :=
  unfold toDispositionDraft, requiredText, not_object; cbn [typeof_object is_null negb orb get obj_get]; decide_tests;
  cbn [default from_option mbind result_bind]; unfold id;
  repeat match goal with |- context [narrowTag ?l (VStr ?s)] =>
    let v := eval vm_compute in (narrowTag l (VStr s)) in lazymatch v with Some _ => idtac end; change (narrowTag l (VStr s)) with v end;
  cbv beta iota zeta; decide_tests; cbn [default from_option mbind result_bind option_map].

Lemma text_accepted `{DateRollover} f now mk : (vf_disposition f, mk) ∈ TEXT_VERDICTS → trim (vf_text f) ≠ "" →
  accepted (buildDispositionDraft f now) (mk (trim (vf_text f))).
Proof.
  intros Ht Hs. unfold buildDispositionDraft, with_text. rewrite (bool_decide_eq_false_2 (trim (vf_text f) = "")) by done.
  destruct f as [disp s act date]. cbn [vf_disposition vf_text] in *. apply list_elem_of_In in Ht. cbn in Ht.
  destruct_or! Ht; try done; injection Ht as <- <-; decide_tests; take_body; read_body; rewrite trim_idem, bool_decide_eq_false_2 by done; reflexivity.
Qed.

Lemma expiry_positive n : 0 < n ≤ MAX_SAFE → positive_integer (VNum (f64_ofZ n)) = Some (f64_ofZ n).
Proof.
  intros Hn. unfold positive_integer. destruct (f64_ofZ_spec n ltac:(lia)) as (-> & _). by rewrite f64_lt_pos.
Qed.

Lemma says_accepted_body `{DateRollover} f now d : verdict_says f now d → vf_action f ∈ REMEDIATION_ACTIONS → 0 ≤ now < 10 ^ 12 →
  accepted (buildDispositionDraft f now) d.
Proof.
  intros Hs Hact Hnow. destruct Hs as [mk Ht Hne|Hd|y m d Hd Hne Hp Hm Hv [Hlo Hhi]|Hd]; [by apply text_accepted|..];
    unfold buildDispositionDraft; rewrite Hd; decide_tests.
  - apply list_elem_of_In in Hact. cbn in Hact. destruct_or! Hact; try done; rewrite <- Hact; take_body; reflexivity.
  - unfold expiryDateToSeconds. rewrite Hp. cbn [mbind option_bind]. rewrite (proj2 (parse_midnight_spec y m d _)) by (split; [exact Hm|]; split; [exact Hv|reflexivity]). set (e := day_of_civil y m d * DAY_SECONDS) in *.
    rewrite (bool_decide_eq_false_2 (trim (vf_text f) = "")) by done. rewrite (proj2 (Z.leb_gt e now)), (proj2 (Z.ltb_ge _ (e - now))) by lia.
    cbn [orb]. assert (0 < e ≤ MAX_SAFE) as He by (unfold RISK_ACCEPTANCE_MAX_DAYS, DAY_SECONDS, MAX_SAFE in *; lia). clearbody e.
    take_body. read_body. by rewrite trim_idem, bool_decide_eq_false_2, expiry_positive.
  - take_body. reflexivity.
Qed.

(** A form that builds a draft states a verdict. *)
Lemma built_says `{DateRollover} f now b : vf_disposition f ∈ DISPOSITIONS → buildDispositionDraft f now = Some b → ∃ d, verdict_says f now d.
Proof.
  intros Hd. unfold buildDispositionDraft.
  assert (∀ key mk, (vf_disposition f, mk) ∈ TEXT_VERDICTS → with_text (vf_disposition f) key (trim (vf_text f)) = Some b → ∃ d, verdict_says f now d) as Htext.
  { intros key mk Hin. unfold with_text. case_bool_decide; [done|]. intros _. eexists. by apply (says_text f now mk). }
  assert (∀ i x, TEXT_VERDICTS !! i = Some x → x ∈ TEXT_VERDICTS) as Hel by (intros i x; apply list_elem_of_lookup_2).
  case_bool_decide as E1; [eapply Htext; rewrite E1; by apply (Hel 0%nat)|]. case_bool_decide as E2; [eapply Htext; rewrite E2; by apply (Hel 1%nat)|].
  case_bool_decide as E3; [intros _; eexists; by apply says_remediated|]. case_bool_decide as E4; [eapply Htext; rewrite E4; by apply (Hel 2%nat)|].
  case_bool_decide as E5.
  { unfold expiryDateToSeconds. destruct (parse_iso _) as [[[y m] d]|] eqn:Ep; [|done]. cbn [mbind option_bind].
    destruct (parse_midnight y m d) as [e|] eqn:Ev; [|done]. apply parse_midnight_spec in Ev as (Hm & Hdd & ->). destruct (_ || _ || _) eqn:Eb; [done|]. intros _.
    rewrite !orb_false_iff, bool_decide_eq_false, Z.leb_gt, Z.ltb_ge in Eb. eexists. apply (says_accepted f now y m d); naive_solver lia. }
  case_bool_decide as E6; [eapply Htext; rewrite E6; by apply (Hel 3%nat)|]. intros _. exists undetermined. apply says_undetermined.
  apply list_elem_of_In in Hd. cbn in Hd. destruct_or! Hd; by rewrite <- Hd in *.
Qed.

(** The calendar dates an acceptance takes. *)
Lemma offered_dates `{DateRollover} f now day :
  vf_disposition f = "true_positive_risk_accepted" → trim (vf_text f) ≠ "" → vf_expiryDate f = iso_date day →
  1000 ≤ (civil_of_day day).1.1 ≤ 9999 →
  (buildDispositionDraft f now ≠ None ↔ now < day * DAY_SECONDS ∧ day ≤ (now + RISK_ACCEPTANCE_MAX_DAYS * DAY_SECONDS) / DAY_SECONDS).
Proof.
  intros Hv Ht Hdate Hy. unfold buildDispositionDraft. rewrite Hv. decide_tests. unfold expiryDateToSeconds. rewrite Hdate, iso_parse by done.
  pose proof (day_of_civil_of_day day) as Hc. destruct (civil_of_day day) as [[y m] d]. destruct Hc as [Hc Hvd%valid_date_spec]. cbn [mbind option_bind].
  rewrite (proj2 (parse_midnight_spec y m d (day_of_civil y m d * DAY_SECONDS))); [|pose proof (month_length y m); split; [lia|]; split; [case_match; lia|reflexivity]].
  rewrite Hc, (bool_decide_eq_false_2 (trim (vf_text f) = "")) by done. cbn [orb].
  assert (day ≤ (now + RISK_ACCEPTANCE_MAX_DAYS * DAY_SECONDS) / DAY_SECONDS ↔ day * DAY_SECONDS - now ≤ RISK_ACCEPTANCE_MAX_DAYS * DAY_SECONDS) as ->
    by (unfold RISK_ACCEPTANCE_MAX_DAYS, DAY_SECONDS; Z.div_mod_to_equations; lia).
  destruct (Z.leb_spec (day * DAY_SECONDS) now), (Z.ltb_spec (RISK_ACCEPTANCE_MAX_DAYS * DAY_SECONDS) (day * DAY_SECONDS - now)); cbn [orb];
    split; (done || lia || intros; lia).
Qed.

(** The other days from 1 to 31. *)
Lemma rolled_dates `{DateRollover} f now y m d rolled :
  vf_disposition f = "true_positive_risk_accepted" → parse_iso (vf_expiryDate f) = Some (y, m, d) →
  1 ≤ m ≤ 12 → days_in_month y m < d ≤ 31 → parse_iso rolled = Some (y, m + 1, d - days_in_month y m) →
  buildDispositionDraft f now =
    if rolls_over then buildDispositionDraft (mkVerdict (vf_disposition f) (vf_text f) (vf_action f) rolled) now else None.
Proof.
  intros Hv Hp Hm Hd Hr. pose proof (month_length y m). pose proof (month_length y (m + 1)).
  assert (m < 12) as Hm' by (destruct (decide (m = 12)) as [->|]; [change (days_in_month y 12) with 31 in *; lia|lia]).
  unfold buildDispositionDraft, expiryDateToSeconds. cbn [vf_disposition vf_text vf_action vf_expiryDate]. rewrite Hv. decide_tests.
  rewrite Hp, Hr. cbn [mbind option_bind]. destruct rolls_over eqn:Er.
  - rewrite (proj2 (parse_midnight_spec y m d (day_of_civil y m d * DAY_SECONDS))) by (rewrite Er; split; [lia|]; split; [lia|reflexivity]).
    rewrite (proj2 (parse_midnight_spec y (m + 1) (d - days_in_month y m) (day_of_civil y (m + 1) (d - days_in_month y m) * DAY_SECONDS))) by (rewrite Er; split; [lia|]; split; [lia|reflexivity]).
    by rewrite day_rolls by lia.
  - destruct (parse_midnight y m d) as [e|] eqn:E; [|done]. apply parse_midnight_spec in E. rewrite Er in E. lia.
Qed.

(** ** Assigning *)

Lemma lower_char_class p : p = hex_any_case ∨ p = is_hyphen → ∀ c, p (toLower_char c) = p c ∧ (p c = true → token_char (toLower_char c) = true).
Proof. intros [->| ->]; each_char; vm_compute; done. Qed.

Lemma matches_lower ps s : Forall (λ p, p = hex_any_case ∨ p = is_hyphen) ps → matches_exactly ps s = true →
  matches_exactly ps (toLowerCase s) = true ∧ token (toLowerCase s) = true.
Proof.
  intros HF. revert s. induction HF as [|p ps Hp _ IH]; intros [|c s]; cbn; try done. intros [Hc Hs]%andb_prop.
  destruct (lower_char_class p Hp c) as [-> Ht]. destruct (IH s Hs) as [-> ->]. by rewrite Hc, Ht.
Qed.

Lemma lower_idem s : toLowerCase (toLowerCase s) = toLowerCase s.
Proof.
  induction s as [|c s IH]; [done|]. cbn. rewrite IH. f_equal. revert c. each_char; vm_compute; done.
Qed.

(** The server takes the id the button sends, as the button sends it. *)
Lemma assign_accepted assignee b : assign_draft assignee = Some b → toCaseActDraft b = Ok (Some (assigned (toLowerCase (trim assignee)))).
Proof.
  unfold assign_draft. destruct (isPrincipalId assignee) eqn:E; [|done]. intros [= <-]. unfold isPrincipalId in E.
  destruct (matches_lower PRINCIPAL_ID (trim assignee)) as [Hm Ht]; [|done|].
  { unfold PRINCIPAL_ID. rewrite !Forall_app. split_and!; (apply Forall_replicate; by auto) || (by repeat constructor; auto). }
  unfold toCaseActDraft, not_object. cbn [typeof_object is_null negb orb get obj_get]. decide_tests. cbn [default from_option mbind result_bind].
  unfold id. change (narrowTag CASE_ACTS (VStr "assigned")) with (Some "assigned"). cbn [mbind result_bind]. unfold isPrincipalId.
  rewrite (trim_token _ Ht), Hm. cbn [is_undefined andb]. by rewrite lower_idem.
Qed.

Section controls.
Context {NS : NumberToString} {TN : ToNumberOther} {DR : DateRollover}.
Context (JSON_stringify : view → result string) (deps : ServerDeps) (session : OperatorSession) (openApiDocument : value).
Notation asks := (asks JSON_stringify deps session openApiDocument).
Hypothesis Hengine : operatorEngine deps = true.

(** C35: The verdict form records the verdict it shows, end to end.  It submits exactly when it states one -- the text its
    verdict needs is not blank, and a risk acceptance lapses on a date after now and at most 365 days away --,
    and what it submits asks the engine, through the whole server, to record that verdict with that one field, a lapse
    date being the seconds of its midnight.  The calendar dates that can be entered for an acceptance are those up to the
    last one the page offers.  A day that its month does not have is taken for the day as far into the next month by an
    engine whose [Date.parse] rolls over, and is not submitted elsewhere. *)
Theorem verdict_form_commits incident f now :
  field incident → vf_disposition f ∈ DISPOSITIONS → vf_action f ∈ REMEDIATION_ACTIONS → 0 ≤ now < 10 ^ 12 →
  (buildDispositionDraft f now ≠ None ↔ ∃ d, verdict_says f now d) ∧
  (∀ d, verdict_says f now d → ∃ b r, buildDispositionDraft f now = Some b ∧
     request_of (disposition_call incident b) = Some r ∧ asks r (c_disposition incident d)) ∧
  (∀ day, vf_disposition f = "true_positive_risk_accepted" → trim (vf_text f) ≠ "" → vf_expiryDate f = iso_date day →
     1000 ≤ (civil_of_day day).1.1 ≤ 9999 →
     (buildDispositionDraft f now ≠ None ↔ now < day * DAY_SECONDS ∧ day ≤ (now + RISK_ACCEPTANCE_MAX_DAYS * DAY_SECONDS) / DAY_SECONDS)) ∧
  (∀ y m d rolled, vf_disposition f = "true_positive_risk_accepted" → parse_iso (vf_expiryDate f) = Some (y, m, d) →
     1 ≤ m ≤ 12 → days_in_month y m < d ≤ 31 → parse_iso rolled = Some (y, m + 1, d - days_in_month y m) →
     buildDispositionDraft f now =
       if rolls_over then buildDispositionDraft (mkVerdict (vf_disposition f) (vf_text f) (vf_action f) rolled) now else None).
Proof using Hengine.
  intros Hi Hd Hact Hnow. split_and!.
  - split; [destruct (buildDispositionDraft f now) as [b|] eqn:E; [intros _; by eapply built_says|done]|].
    intros [d Hs]. destruct (says_accepted_body f now d Hs Hact Hnow) as (ps & -> & _). done.
  - intros d Hs. destruct (says_accepted_body f now d Hs Hact Hnow) as (ps & -> & Ho & Hn & Hb). eexists _, _. split; [done|]. split; [reflexivity|].
    by eapply does_verdict.
  - intros day Hv Ht Hdate Hy. by apply offered_dates.
  - intros y m d rolled Hv Hp Hm Hdd Hr. by eapply rolled_dates.
Qed.
End controls.

#[local] Instance case_numbers : NumberToString := λ _, "7".
#[local] Instance case_rollover : DateRollover := true.
#[local] Instance case_toNumber : ToNumberOther := λ _, f64_NaN.
Definition sample_case_deps : ServerDeps := mkServerDeps true true (mkConfig None None None None (mkRbac [] [] None)) [].
Definition sample_analyst : OperatorSession := mkSession "S" "auth0|1" None Admin "pid" "acme" tenant_admin 3600005.
(** On 14 November 2023, a risk accepted until 29 February 2024. *)
Definition sample_now : Z := 1700000000.
Definition sample_verdict : DispositionFormState := mkVerdict "true_positive_risk_accepted" " ciso " "reimage" "2024-02-29".

Lemma verdict_form_commits_witness :
  latestExpiryDate sample_now = "2024-11-13" ∧
  ∃ b r, buildDispositionDraft sample_verdict sample_now = Some b ∧ request_of (disposition_call "i-1" b) = Some r ∧
    asks (λ _, Ok "") sample_case_deps sample_analyst VNull r (c_disposition "i-1" (true_positive_risk_accepted "ciso" (f64_ofZ 1709164800))).
Proof.
  split; [vm_compute; reflexivity|].
  apply (verdict_form_commits (λ _, Ok "") sample_case_deps sample_analyst VNull eq_refl "i-1" sample_verdict sample_now);
    [split; [reflexivity|discriminate]|by apply (bool_decide_unpack _)|by apply (bool_decide_unpack _)|unfold sample_now; lia|].
  apply (says_accepted sample_verdict sample_now 2024 2 29); [reflexivity|discriminate|reflexivity|lia|cbn; lia|vm_compute; split; [reflexivity|discriminate]].
Defined.
