(* ===== verification/Lineage.v ===== *)
(** * The lineage graph of an incident ([SocLineageGraph.tsx])

    Which nodes a level of disclosure shows, the causal depth of each, and where it is
    placed.  The walk that computes the depths is shown to compute the longest path to each
    node of an acyclic graph within the bound the source gives it. *)
From S2P Require Import Prelude.
From stdpp Require Import list gmap sorting.
Open Scope nat_scope.

Record LineageNode := mkNode { node_id : string; node_lane : string; node_kind : string }.
Record LineageEdge := mkEdge { edge_from : string; edge_to : string; edge_state : string }.

Inductive DisclosureLevel := level_material | level_evidence | level_full.

(** ** What is shown *)

Definition ids (nodes : list LineageNode) : list string := map node_id nodes.

Definition visibleNodeIds (nodes : list LineageNode) (edges : list LineageEdge) (level : DisclosureLevel) : gset string :=
  match level with
  | level_full => list_to_set (ids nodes)
  | level_material => list_to_set (ids (filter (λ n, node_kind n = "subject" ∨ node_lane n = "decision") nodes))
  | level_evidence =>
      let linked : gset string := foldl (λ s e, {[edge_to e]} ∪ ({[edge_from e]} ∪ s)) ∅ edges in
      list_to_set (ids (filter (λ n, node_id n ∈ linked) nodes))
  end.

Definition shownNodes (visible : gset string) (nodes : list LineageNode) : list LineageNode :=
  filter (λ n, node_id n ∈ visible) nodes.

Definition shownEdges (visible : gset string) (edges : list LineageEdge) : list LineageEdge :=
  filter (λ e, edge_from e ∈ visible ∧ edge_to e ∈ visible) edges.

(** ** Depths *)

(** [outgoing]: the targets of each node, in the order of the edges *)
Definition outgoing_of (edges : list LineageEdge) : gmap string (list string) :=
  foldl (λ m e, <[edge_from e := default [] (m !! edge_from e) ++ [edge_to e]]> m) ∅ edges.

(** The body of the inner loop, for a node at [depth]. *)
Definition relax (depth : nat) (st : gmap string nat * list string) (next : string) : gmap string nat * list string :=
  let '(out, queue) := st in
  match out !! next with
  | Some known => if known <? depth + 1 then (<[next := depth + 1]> out, queue ++ [next]) else (out, queue)
  | None => (<[next := depth + 1]> out, queue ++ [next])
  end.

Fixpoint walk (guard : nat) (outgoing : gmap string (list string)) (out : gmap string nat) (queue : list string) : gmap string nat :=
  match guard, queue with
  | S guard, id :: queue =>
      let depth := default 0 (out !! id) in
      let '(out, queue) := foldl (relax depth) (out, queue) (default [] (outgoing !! id)) in
      walk guard outgoing out queue
  | _, _ => out
  end.

Definition roots (nodes : list LineageNode) (edges : list LineageEdge) : list string :=
  filter (λ x, x ∉ map edge_to edges) (ids nodes).

(** The walk starts at the nodes without an incoming edge. *)
Definition start_depths (queue : list string) : gmap string nat := foldl (λ m x, <[x := 0]> m) ∅ queue.

Definition depths (nodes : list LineageNode) (edges : list LineageEdge) : gmap string nat :=
  let queue := roots nodes edges in
  let out := walk (length nodes * length nodes + 1) (outgoing_of edges) (start_depths queue) queue in
  foldl (λ m x, match m !! x with None => <[x := 0]> m | Some _ => m end) out (ids nodes).

(** ** Places *)

Definition LANES : list string := ["attack_path"; "evidence"; "decision"].
Definition CELL_W : nat := 220.
Definition CELL_H : nat := 104.
Definition GAP_X : nat := 48.
Definition GAP_Y : nat := 40.
Definition PAD : nat := 16.
Definition LANE_W : nat := 132.
Definition cellX (column : nat) : nat := LANE_W + PAD + column * (CELL_W + GAP_X).
Definition cellY (row : nat) : nat := PAD + row * (CELL_H + GAP_Y).

(** [Math.max(0, LANES.findIndex(...))] *)
Definition lane_row (lane : string) : nat :=
  match list_find (λ l, l = lane) LANES with Some (i, _) => i | None => 0 end.

Definition place (depth : gmap string nat) (st : gmap string nat * gmap string (nat * nat)) (node : LineageNode)
    : gmap string nat * gmap string (nat * nat) :=
  let '(occupied, out) := st in
  let row := lane_row (node_lane node) in
  let column := default 0 (depth !! node_id node) in
  let key := pretty row +:+ ":" +:+ pretty column in
  let taken := default 0 (occupied !! key) in
  (<[key := taken + 1]> occupied, <[node_id node := (cellX (column + taken), cellY row)]> out).

Definition placed (nodes : list LineageNode) (edges : list LineageEdge) : gmap string (nat * nat) :=
  (foldl (place (depths nodes edges)) (∅, ∅) nodes).2.

(** What the component draws at a level. *)
Definition drawn (nodes : list LineageNode) (edges : list LineageEdge) (level : DisclosureLevel) : gmap string (nat * nat) :=
  let visible := visibleNodeIds nodes edges level in
  placed (shownNodes visible nodes) (shownEdges visible edges).

(** ** The edges of a node *)

Lemma outgoing_lookup edges x : default [] (outgoing_of edges !! x) = map edge_to (filter (λ e, edge_from e = x) edges).
Proof.
  unfold outgoing_of. induction edges as [|e edges IH] using rev_ind; [done|]. rewrite foldl_snoc, filter_app, map_app, <- IH. cbn.
  set (m := foldl _ _ _). destruct (decide (edge_from e = x)) as [<-|Hne].
  - by rewrite lookup_insert_eq.
  - rewrite lookup_insert_ne by done. by rewrite app_nil_r.
Qed.

Lemma outgoing_elem edges x y : y ∈ default [] (outgoing_of edges !! x) ↔ ∃ e, e ∈ edges ∧ edge_from e = x ∧ edge_to e = y.
Proof.
  rewrite outgoing_lookup, list_elem_of_fmap. setoid_rewrite list_elem_of_filter. naive_solver.
Qed.

(** ** Paths *)

Section graph.
Context (nodes : list LineageNode) (edges : list LineageEdge).
Notation ids := (ids nodes).

(** [reach n x]: a path of [n] edges ends in [x]. *)
Inductive reach : nat → string → Prop :=
  | reach_here x : x ∈ ids → reach 0 x
  | reach_next n e : reach n (edge_from e) → e ∈ edges → reach (S n) (edge_to e).

Hypothesis Hends : ∀ e, e ∈ edges → edge_from e ∈ ids ∧ edge_to e ∈ ids.
Context (rank : string → nat).
Hypothesis Hacyclic : ∀ e, e ∈ edges → rank (edge_from e) < rank (edge_to e).

Lemma reach_ids n x : reach n x → x ∈ ids.
Proof using Hends. destruct 1 as [x Hx|n e _ He]; [done|]. by apply Hends. Qed.

(** A path visits as many nodes as it has edges, and one more. *)
Lemma reach_short n x : reach n x → n < length nodes.
Proof using Hends Hacyclic.
  intros Hr. assert (∃ l, length l = S n ∧ NoDup l ∧ l ⊆ ids ∧ ∀ y, y ∈ l → rank y ≤ rank x) as (l & Hl & Hd & Hs & _).
  { induction Hr as [x Hx|n e Hr (l & Hl & Hd & Hs & Hk) He].
    - exists [x]. split_and!; [done|apply NoDup_singleton|set_solver|]. by intros y ->%list_elem_of_singleton.
    - pose proof (Hacyclic e He) as Hlt. exists (edge_to e :: l). split_and!.
      + cbn. by rewrite Hl.
      + constructor; [|done]. intros Hin%Hk. lia.
      + intros y [->|Hy]%elem_of_cons; [by apply Hends|by apply Hs].
      + intros y [->|Hy%Hk]%elem_of_cons; [done|lia]. }
  pose proof (submseteq_length _ _ (NoDup_submseteq _ _ Hd Hs)) as H. rewrite Hl in H. unfold Lineage.ids in H. rewrite length_map in H. lia.
Qed.

(** ** The walk *)

(** How often a node has been put in the queue, at most. *)
Definition count (out : gmap string nat) (x : string) : nat := match out !! x with None => 0 | Some d => S d end.
Definition total (out : gmap string nat) : nat := sum_list (map (count out) ids).

(** A step from [out] to [out'] that raised the depths in [new]. *)
Record raised (depth : nat) (ts : list string) (out out' : gmap string nat) (new : list string) : Prop := {
  ra_targets : new ⊆ ts;
  ra_mono : ∀ x, count out x ≤ count out' x;
  ra_new : ∀ x, out' !! x ≠ out !! x → x ∈ new;
  ra_value : ∀ x, x ∈ new → out' !! x = Some (depth + 1);
  ra_total : length new + total out ≤ total out' }.

Lemma total_raise (f g : string → nat) (l : list string) : (∀ x, f x ≤ g x) → sum_list (map f l) ≤ sum_list (map g l).
Proof using. intros H. induction l as [|x l IH]; [done|]. cbn. specialize (H x). lia. Qed.

Lemma total_raise_one (f g : string → nat) (l : list string) x : (∀ y, f y ≤ g y) → f x < g x → x ∈ l →
  S (sum_list (map f l)) ≤ sum_list (map g l).
Proof using.
  intros H Hx. induction l as [|y l IH]; [by intros ?%not_elem_of_nil|]. pose proof (total_raise f g l H) as Hl. cbn.
  intros [<-|Hin]%elem_of_cons; [lia|]. specialize (IH Hin). specialize (H y). lia.
Qed.

Lemma relax_all depth ts out queue : (∀ t, t ∈ ts → t ∈ ids) →
  ∃ out' new, foldl (relax depth) (out, queue) ts = (out', queue ++ new) ∧ raised depth ts out out' new ∧
    ∀ t, t ∈ ts → depth + 1 < count out' t.
Proof using.
  clear Hends Hacyclic rank. revert out queue. induction ts as [|t ts IH]; intros out queue Hts.
  { exists out, []. rewrite app_nil_r. split; [done|]. split; [|by intros t ?%not_elem_of_nil]. constructor; [done|done|done|by intros x ?%not_elem_of_nil|done]. }
  cbn [foldl]. destruct (decide (depth + 1 < count out t)) as [Hge|Hlt].
  - assert (relax depth (out, queue) t = (out, queue)) as ->.
    { unfold relax, count in *. destruct (out !! t) as [k|]; [|lia]. destruct (Nat.ltb_spec k (depth + 1)); [lia|done]. }
    destruct (IH out queue) as (out' & new & -> & Hr & Ht); [set_solver|]. exists out', new. split_and!; [done| |].
    + destruct Hr as [Hsub Hm Hn Hv Htot]. constructor; [set_solver|done..].
    + intros y [->|Hy]%elem_of_cons; [|auto]. pose proof (ra_mono _ _ _ _ _ Hr t). lia.
  - assert (relax depth (out, queue) t = (<[t := depth + 1]> out, queue ++ [t])) as ->.
    { unfold relax, count in *. destruct (out !! t) as [k|]; [|done]. destruct (Nat.ltb_spec k (depth + 1)); [done|lia]. }
    destruct (IH (<[t := depth + 1]> out) (queue ++ [t])) as (out' & new & -> & [Hsub Hm Hn Hv Ht] & Hts'); [set_solver|].
    assert (∀ x, count out x ≤ count (<[t := depth + 1]> out) x) as Hm1.
    { intros x. unfold count in *. destruct (decide (x = t)) as [->|]; [rewrite lookup_insert_eq; lia|by rewrite lookup_insert_ne]. }
    assert (out' !! t = Some (depth + 1)) as Ht'.
    { destruct (decide (out' !! t = <[t := depth + 1]> out !! t)) as [->|Hne]; [by rewrite lookup_insert_eq|by apply Hv, Hn]. }
    exists out', (t :: new). rewrite <- app_assoc. split_and!; [done| |].
    + constructor; [set_solver|..].
      * intros x. specialize (Hm x). specialize (Hm1 x). lia.
      * intros x Hx. destruct (decide (x = t)) as [->|]; [left|]. right. apply Hn. by rewrite lookup_insert_ne.
      * intros x [->|Hx]%elem_of_cons; auto.
      * assert (S (total out) ≤ total (<[t := depth + 1]> out)) as Hs; [|cbn; lia].
        apply (total_raise_one _ _ _ t); [done| |apply Hts; left]. unfold count in *. rewrite lookup_insert_eq. lia.
    + intros y [->|Hy]%elem_of_cons; [|auto]. unfold count. rewrite Ht'. lia.
Qed.

(** The state of the walk with [used] nodes taken from the queue. *)
Record walk_inv (used : nat) (out : gmap string nat) (queue : list string) : Prop := {
  wi_path : ∀ x d, out !! x = Some d → reach d x;
  wi_roots : ∀ x, x ∈ roots nodes edges → is_Some (out !! x);
  wi_queue : ∀ x, x ∈ queue → is_Some (out !! x);
  wi_edges : ∀ e d, e ∈ edges → out !! edge_from e = Some d → edge_from e ∈ queue ∨ d + 1 < count out (edge_to e);
  wi_used : used + length queue ≤ total out }.

Lemma walk_step used out id queue : walk_inv used out (id :: queue) →
  ∃ out' new, foldl (relax (default 0 (out !! id))) (out, queue) (default [] (outgoing_of edges !! id)) = (out', queue ++ new) ∧
    walk_inv (S used) out' (queue ++ new).
Proof using Hends.
  clear Hacyclic rank. intros [Hp Hr Hq He Hu]. destruct (Hq id) as [d Hd]; [left|]. assert (default 0 (out !! id) = d) as -> by (by rewrite Hd).
  destruct (relax_all d (default [] (outgoing_of edges !! id)) out queue) as (out' & new & -> & [Hsub Hm Hn Hv Ht] & Hts).
  { intros t (e & Hin & _ & <-)%outgoing_elem. by apply Hends. }
  assert (∀ x, is_Some (out !! x) → is_Some (out' !! x)) as Hsome.
  { intros x [k Hk]. specialize (Hm x). unfold count in Hm. rewrite Hk in Hm. destruct (out' !! x); [by eexists|lia]. }
  exists out', new. split; [done|]. constructor.
  - intros x k Hk. destruct (decide (out' !! x = out !! x)) as [E|Hne]; [apply Hp; congruence|].
    pose proof (Hv x (Hn x Hne)) as Hx. rewrite Hk in Hx. injection Hx as ->.
    apply Hn, Hsub, outgoing_elem in Hne as (e & Hin & Hfrom & <-). rewrite Nat.add_1_r. apply reach_next; [|done]. rewrite Hfrom. by apply Hp.
  - auto.
  - intros x [Hx|Hx]%elem_of_app; [apply Hsome, Hq; by right|]. rewrite Hv by done. by eexists.
  - intros e k Hin Hk. destruct (decide (out' !! edge_from e = out !! edge_from e)) as [E|Hne]; [|left; apply elem_of_app; right; by apply Hn].
    destruct (decide (edge_from e = id)) as [Ei|Hi].
    + right. rewrite E, Ei, Hd in Hk. injection Hk as <-. apply Hts. apply outgoing_elem. eauto.
    + rewrite E in Hk. destruct (He e k Hin Hk) as [[Hx|Hx]%elem_of_cons|Hlt]; [done|left; apply elem_of_app; by left|]. right.
      specialize (Hm (edge_to e)). lia.
  - rewrite length_app. cbn in Hu. lia.
Qed.

Lemma total_bound used out queue : walk_inv used out queue → total out ≤ length nodes * length nodes.
Proof using Hends Hacyclic.
  intros [Hp _ _ _ _]. assert (∀ x, count out x ≤ length nodes) as Hc.
  { intros x. unfold count. destruct (out !! x) as [d|] eqn:E; [|lia]. apply Hp, reach_short in E. lia. }
  unfold total. transitivity (sum_list (map (λ _, length nodes) ids)); [by apply total_raise|].
  unfold Lineage.ids. rewrite map_map. assert (∀ (l : list LineageNode) k, sum_list (map (λ _, k) l) = length l * k) as -> by (intros l k; induction l; cbn; lia). done.
Qed.

(** The walk empties the queue within its bound. *)
Lemma walk_ends guard used out queue : walk_inv used out queue → used + guard = length nodes * length nodes + 1 →
  ∃ used', walk_inv used' (walk guard (outgoing_of edges) out queue) [].
Proof using Hends Hacyclic.
  revert used out queue. induction guard as [|guard IH]; intros used out queue Hi Hg.
  - pose proof (total_bound _ _ _ Hi). destruct Hi as [_ _ _ _ Hu]. lia.
  - destruct queue as [|id queue]; [by exists used|]. cbn [walk].
    destruct (walk_step used out id queue Hi) as (out' & new & -> & Hi'). apply (IH (S used)); [done|lia].
Qed.

Lemma roots_zero x : start_depths (roots nodes edges) !! x = (if decide (x ∈ roots nodes edges) then Some 0 else None).
Proof using.
  clear Hends Hacyclic rank. unfold start_depths. revert x. induction (roots nodes edges) as [|y l IH] using rev_ind; intros x.
  - rewrite decide_False by apply not_elem_of_nil. apply lookup_empty.
  - rewrite foldl_snoc. destruct (decide (x = y)) as [->|Hne].
    + rewrite lookup_insert_eq, decide_True; [done|]. apply elem_of_app. right. left.
    + rewrite lookup_insert_ne, IH by done. apply decide_ext. set_solver.
Qed.

Lemma walk_start : walk_inv 0 (start_depths (roots nodes edges)) (roots nodes edges).
Proof using.
  clear Hends Hacyclic rank. pose proof roots_zero as H0. set (out := start_depths _) in *.
  assert (∀ x, x ∈ roots nodes edges → x ∈ ids) as Hsub by (intros x [_ Hx]%list_elem_of_filter; done). constructor.
  - intros x d. rewrite H0. case_decide; [|done]. intros [= <-]. constructor. auto.
  - intros x Hx. rewrite H0, decide_True by done. by eexists.
  - intros x Hx. rewrite H0, decide_True by done. by eexists.
  - intros e d _. rewrite H0. case_decide; [auto|done].
  - unfold total. assert (∀ l, length (filter (λ x, x ∉ map edge_to edges) l) ≤ sum_list (map (λ x, if decide (x ∉ map edge_to edges) then 1 else 0) l)) as Hl.
    { intros l. induction l as [|x l IH]; [done|]. rewrite filter_cons. cbn. case_decide; cbn; lia. }
    etransitivity; [apply Hl|].
    assert (∀ l', l' ⊆ ids → sum_list (map (λ x, if decide (x ∉ map edge_to edges) then 1 else 0) l') ≤ sum_list (map (count out) l')) as H; [|by apply H].
    intros l'. induction l' as [|x l' IH]; [done|]. intros Hs. cbn. specialize (IH ltac:(set_solver)). unfold count at 1. rewrite H0.
    case_decide as Hx; [|lia]. rewrite decide_True; [lia|]. apply list_elem_of_filter. set_solver.
Qed.

(** Every node gets its longest path. *)
Lemma depths_longest x : x ∈ ids → ∃ d, depths nodes edges !! x = Some d ∧ reach d x ∧ ∀ n, reach n x → n ≤ d.
Proof using Hends Hacyclic.
  intros Hx. unfold depths.
  destruct (walk_ends (length nodes * length nodes + 1) 0 _ _ walk_start eq_refl) as (used & [Hp Hr _ He _]).
  set (out := walk _ _ _ _) in *.
  assert (∀ y, y ∈ ids → is_Some (out !! y)) as Hall.
  { intros y. remember (rank y) as k eqn:Ek. revert y Ek. induction (lt_wf k) as [k _ IH]. intros y -> Hy.
    destruct (decide (y ∈ map edge_to edges)) as [Hin|Hin]; [|by apply Hr, list_elem_of_filter].
    apply list_elem_of_fmap in Hin as (e & -> & Hin).
    destruct (IH _ (Hacyclic e Hin) (edge_from e) eq_refl) as [d Hd]; [by apply Hends|].
    destruct (He e d Hin Hd) as [?%not_elem_of_nil|Hlt]; [done|]. unfold count in Hlt. destruct (out !! edge_to e); [by eexists|lia]. }
  assert (∀ n y, reach n y → ∃ d, out !! y = Some d ∧ n ≤ d) as Hlow.
  { induction 1 as [y Hy|n e _ (d & Hd & Hle) Hin]; [destruct (Hall y Hy) as [d Hd]; exists d; split; [done|lia]|].
    destruct (He e d Hin Hd) as [?%not_elem_of_nil|Hlt]; [done|]. unfold count in Hlt. destruct (out !! edge_to e) as [d'|]; [|lia].
    exists d'. split; [done|lia]. }
  assert (foldl (λ m x, match m !! x with None => <[x := 0]> m | Some _ => m end) out ids = out) as ->.
  { revert Hall. clear. generalize ids. intros l. induction l as [|y l IH]; intros Hall; [done|]. cbn. destruct (Hall y) as [d Hd]; [left|].
    rewrite Hd. apply IH. intros z Hz. apply Hall. by right. }
  destruct (Hall x Hx) as [d Hd]. exists d. split_and!; [done|by apply Hp|]. intros n (d' & Hd' & Hle)%Hlow. by simplify_eq.
Qed.
End graph.

(** ** Places *)

Lemma lane_row_small lane : lane_row lane < 3.
Proof.
  unfold lane_row. destruct (list_find _ _) as [[i y]|] eqn:E; [|lia]. apply list_find_Some in E as (E & _). by apply lookup_lt_Some in E.
Qed.

(** The keys of two cells differ. *)
Lemma cell_key_inj (r c r' c' : nat) : r < 3 → r' < 3 → pretty r +:+ ":" +:+ pretty c = pretty r' +:+ ":" +:+ pretty c' → r = r' ∧ c = c'.
Proof.
  intros Hr Hr' E.
  assert (r = r') as -> by (destruct r as [|[|[|r]]], r' as [|[|[|r']]]; try lia; done).
  split; [done|]. apply (inj pretty). destruct r' as [|[|[|r']]]; try lia; cbn in E; by injection E.
Qed.

Section places.
Context (depth : gmap string nat).
Definition cell (n : LineageNode) : nat * nat := (lane_row (node_lane n), default 0 (depth !! node_id n)).
Definition cell_key (c : nat * nat) : string := pretty c.1 +:+ ":" +:+ pretty c.2.

(** The nodes of a list in a cell. *)
Definition in_cell (c : nat * nat) (l : list LineageNode) : nat := length (filter (λ m, cell m = c) l).

Lemma place_occupied l c : c.1 < 3 → default 0 ((foldl (place depth) (∅, ∅) l).1 !! cell_key c) = in_cell c l.
Proof.
  intros Hc. unfold in_cell. induction l as [|n l IH] using rev_ind; [done|]. rewrite foldl_snoc, filter_app, length_app, <- IH.
  destruct (foldl _ _ l) as [occupied out]. cbn [place fst]. change (pretty (lane_row (node_lane n)) +:+ _) with (cell_key (cell n)).
  rewrite filter_cons, filter_nil. case_decide as E.
  - subst c. rewrite lookup_insert_eq. done.
  - rewrite lookup_insert_ne; [cbn; lia|]. intros K. destruct E. destruct c as [r c].
    apply cell_key_inj in K as [E1 E2]; [|apply lane_row_small|done]. unfold cell. by f_equal.
Qed.

Lemma place_keeps l st x : x ∉ map node_id l → (foldl (place depth) st l).2 !! x = st.2 !! x.
Proof.
  revert st. induction l as [|n l IH]; intros [occupied out]; [done|]. cbn [map foldl]. intros [Hx Hl]%not_elem_of_cons.
  rewrite IH by done. cbn. by rewrite lookup_insert_ne.
Qed.

(** A node is placed in its lane, at its depth, past the nodes before it in that cell. *)
Lemma place_exact pre n post : NoDup (ids (pre ++ n :: post)) →
  (foldl (place depth) (∅, ∅) (pre ++ n :: post)).2 !! node_id n =
  Some (cellX ((cell n).2 + in_cell (cell n) pre), cellY (cell n).1).
Proof.
  unfold ids. rewrite map_app, foldl_app. cbn [map foldl]. intros (_ & _ & Hd)%NoDup_app. apply NoDup_cons in Hd as [Hn _].
  rewrite place_keeps by done. pose proof (place_occupied pre (cell n) (lane_row_small _)) as Ho.
  destruct (foldl _ _ pre) as [occupied out]. cbn [place fst snd] in *. rewrite lookup_insert_eq.
  change (pretty (lane_row (node_lane n)) +:+ _) with (cell_key (cell n)). by rewrite Ho.
Qed.
End places.

(** ** What is drawn *)

Lemma visible_nodes nodes edges level x : x ∈ visibleNodeIds nodes edges level → x ∈ ids nodes.
Proof.
  unfold visibleNodeIds, ids. destruct level; rewrite elem_of_list_to_set, list_elem_of_fmap; [..|by rewrite <- list_elem_of_fmap];
    intros (n & -> & [_ Hn]%list_elem_of_filter); apply list_elem_of_fmap; eauto.
Qed.

Lemma shown_ends nodes edges level e : let visible := visibleNodeIds nodes edges level in
  e ∈ shownEdges visible edges → edge_from e ∈ ids (shownNodes visible nodes) ∧ edge_to e ∈ ids (shownNodes visible nodes).
Proof.
  cbn zeta. intros [[Hf Ht] _]%list_elem_of_filter.
  assert (∀ x, x ∈ visibleNodeIds nodes edges level → x ∈ ids (shownNodes (visibleNodeIds nodes edges level) nodes)) as H; [|auto].
  intros x Hx. pose proof (visible_nodes _ _ _ _ Hx) as Hn. apply list_elem_of_fmap in Hn as (n & -> & Hn). apply list_elem_of_fmap.
  exists n. split; [done|]. by apply list_elem_of_filter.
Qed.

(** C32: The lineage graph is laid out as it says.  At every level of disclosure, for a graph whose edges form no cycle
    (some rank rises along each), every node shown is drawn in its own lane, at the column that is the length of the
    longest chain of shown edges into it -- the walk ends within its bound and misses no longer chain -- moved right by
    the number of nodes before it in the same lane at the same depth. *)
Theorem lineage_layout_exact nodes edges level rank pre n post :
  let visible := visibleNodeIds nodes edges level in
  let ns := shownNodes visible nodes in let es := shownEdges visible edges in
  NoDup (ids nodes) → (∀ e, e ∈ edges → rank (edge_from e) < rank (edge_to e)) → ns = pre ++ n :: post →
  ∃ d, reach ns es d (node_id n) ∧ (∀ k, reach ns es k (node_id n) → k ≤ d) ∧
    drawn nodes edges level !! node_id n =
      Some (cellX (d + in_cell (depths ns es) (lane_row (node_lane n), d) pre), cellY (lane_row (node_lane n))).
Proof.
  intros visible ns es Hd Ha Hn.
  assert (node_id n ∈ ids ns) as Hin by (rewrite Hn; apply list_elem_of_fmap; exists n; split; [done|]; apply elem_of_app; right; left).
  assert (∀ e, e ∈ es → rank (edge_from e) < rank (edge_to e)) as Hac by (intros e [_ He]%list_elem_of_filter; by apply Ha).
  destruct (depths_longest ns es (shown_ends nodes edges level) rank Hac (node_id n) Hin) as (d & Hdep & Hr & Hmax).
  exists d. split_and!; [done|done|]. unfold drawn, placed. fold visible ns es.
  assert (NoDup (ids ns)) as Hns.
  { unfold ids, ns, shownNodes in *. clear -Hd. generalize dependent visible. intros visible. induction nodes as [|m l IH]; [constructor|].
    cbn [map] in Hd. apply NoDup_cons in Hd as [Hm Hl]. rewrite filter_cons. case_decide; [|auto]. cbn [map]. constructor; [|auto]. intros (m' & E & [_ Hin]%list_elem_of_filter)%list_elem_of_fmap.
    apply Hm. rewrite E. by apply list_elem_of_fmap_2. }
  rewrite Hn in Hns. pose proof (place_exact (depths ns es) pre n post Hns) as Hp. rewrite Hn at 2. rewrite Hp. unfold cell. by rewrite Hdep.
Qed.

(** A subject touching a leg, beside a node the record does not connect. *)
Definition sample_nodes : list LineageNode :=
  [mkNode "s" "attack_path" "subject"; mkNode "o" "attack_path" "process"; mkNode "l" "attack_path" "network"; mkNode "d" "decision" "decision"].
Definition sample_lineage : list LineageEdge := [mkEdge "s" "l" "observed"; mkEdge "l" "d" "inferred"].
Definition sample_rank (x : string) : nat := if decide (x = "s") then 0 else if decide (x = "l") then 1 else 2.

Lemma lineage_layout_exact_witness :
  let visible := visibleNodeIds sample_nodes sample_lineage level_full in
  let ns := shownNodes visible sample_nodes in let es := shownEdges visible sample_lineage in
  drawn sample_nodes sample_lineage level_full !! "d" = Some (cellX 2, cellY 2) ∧
  ∃ d, reach ns es d "d" ∧ ∀ k, reach ns es k "d" → k ≤ d.
Proof.
  split; [vm_compute; reflexivity|].
  destruct (lineage_layout_exact sample_nodes sample_lineage level_full sample_rank
    [mkNode "s" "attack_path" "subject"; mkNode "o" "attack_path" "process"; mkNode "l" "attack_path" "network"]
    (mkNode "d" "decision" "decision") []) as (d & Hr & Hmax & _).
  - apply (bool_decide_unpack _). vm_compute. exact I.
  - intros e [->|[->|H%not_elem_of_nil]%elem_of_cons]%elem_of_cons; [vm_compute; lia..|destruct H].
  - vm_compute. reflexivity.
  - exists d. split; [exact Hr|exact Hmax].
Defined.

(** Moving a node right can put it on another: the unconnected node, second of the lane at depth 0, is drawn in the
    place of the leg, which is at depth 1. *)
Example nudged_nodes_overlap :
  drawn sample_nodes sample_lineage level_full !! "o" = drawn sample_nodes sample_lineage level_full !! "l" ∧
  drawn sample_nodes sample_lineage level_full !! "o" = Some (cellX 1, cellY 0).
Proof. by vm_compute. Qed.

(** Showing the evidence can hide what the material path shows: a subject without an edge. *)
Example evidence_hides_subject :
  let nodes := [mkNode "s" "attack_path" "subject"; mkNode "a" "evidence" "leg"; mkNode "d" "decision" "decision"] in
  let edges := [mkEdge "a" "d" "observed"] in
  "s" ∈ visibleNodeIds nodes edges level_material ∧ "s" ∉ visibleNodeIds nodes edges level_evidence.
Proof. cbv zeta. apply (bool_decide_unpack _). vm_compute. exact I. Qed.
