(* ===== verification/Config.v ===== *)
(** * The configuration of the gateway ([config.ts])

    Loading the configuration from the environment.  The schema library is not part of the
    repository: what [ConfigSchema.safeParse] and [RbacConfigSchema.safeParse] make of their
    input is a parameter -- the paths of the issues, or the parsed data.  A configuration
    error is its message. *)
From S2P Require Import Prelude Bytes JsString Rbac Oidc.
From stdpp Require Import list.
Open Scope Z_scope.

(** What the schema parses the settings to: absent settings have their defaults or are [None]. *)
Record RawConfig := mkRaw {
  raw_engineHost : string; raw_enginePort : Z; raw_httpHost : string; raw_httpPort : Z; raw_logLevel : string;
  raw_cacheTtlMs : Z; raw_cacheMaxEntries : Z; raw_requestTimeoutMs : Z; raw_signerPort : option Z; raw_secretPort : option Z;
  raw_sessionPort : option Z; raw_engineHeartbeatMs : Z; raw_spaDir : option string; raw_sessionTtlMs : Z;
  raw_sessionCookieName : string; raw_sessionCookieSecure : bool; raw_sessionMax : Z; raw_loginMax : Z;
  raw_oidcIssuer : option string; raw_oidcClientId : option string; raw_oidcRoleClaim : option string; raw_oidcScope : string;
  raw_oidcJwksUri : option string; raw_oidcDeviceCodeEndpoint : option string; raw_oidcTokenEndpoint : option string }.

Record SessionSettings := mkSessionSettings {
  ttlMs : Z; cookieName : string; cookieSecure : bool; settings_maxSessions : Z; maxPendingLogins : Z }.

Record BffConfig := mkBff {
  cfg_engineHost : string; cfg_enginePort : Z; cfg_httpHost : string; cfg_httpPort : Z; cfg_logLevel : string;
  cfg_cacheTtlMs : Z; cfg_cacheMaxEntries : Z; cfg_requestTimeoutMs : Z; cfg_signerPort : option Z; cfg_secretPort : option Z;
  cfg_sessionPort : option Z; heartbeatIntervalMs : Z; cfg_spaDir : option string; cfg_session : SessionSettings;
  cfg_oidc : option OidcConfig; cfg_rbac : RbacConfig }.

(** [process.env] *)
Definition env := string → option string.

Definition trimTrailingSlash (url : string) : string :=
  if endsWith url "/" then String.substring 0 (String.length url - 1) url else url.

(** [parsed.error.issues.map((issue) => issue.path.join('.') || '(root)').join(', ')] *)
Definition issue_fields (issues : list (list string)) : string :=
  JsString.join ", " (map (λ path, let p := JsString.join "." path in if bool_decide (p = "") then "(root)" else p) issues).

Definition resolveOidc (raw : RawConfig) : string + option OidcConfig :=
  match raw_oidcIssuer raw with
  | None => inr None
  | Some iss =>
      let missing := (match raw_oidcClientId raw with None => ["FC_OIDC_CLIENT_ID"] | Some _ => [] end) ++
                     (match raw_oidcRoleClaim raw with None => ["FC_OIDC_ROLE_CLAIM"] | Some _ => [] end) in
      match raw_oidcClientId raw, raw_oidcRoleClaim raw with
      | Some client, Some claim =>
          let base := trimTrailingSlash iss in
          inr (Some (mkOidc iss client (default (base +:+ "/.well-known/jwks.json") (raw_oidcJwksUri raw))
            (default (base +:+ "/oauth/device/code") (raw_oidcDeviceCodeEndpoint raw))
            (default (base +:+ "/oauth/token") (raw_oidcTokenEndpoint raw)) (raw_oidcScope raw) claim))
      | _, _ => inl ("FC_OIDC_ISSUER is set but auth is incomplete: set " +:+ JsString.join ", " missing)
      end
  end.

Definition isLoopbackHost (host : string) : bool :=
  bool_decide (host = "localhost") || bool_decide (host = "::1") || bool_decide (host = "127.0.0.1") || startsWith host "127.".

Section load.
Context (ConfigSchema_safeParse : list (string * option string) → list (list string) + RawConfig)
  (RbacConfigSchema_safeParse : value → list (list string) + RbacConfig) (JSON_parse : string → result value).

Definition resolveRbac (e : env) : string + RbacConfig :=
  match e "FC_RBAC_CONFIG" with
  | None => inr (mkRbac [] [] None)
  | Some raw =>
      if bool_decide (trim raw = "") then inr (mkRbac [] [] None)
      else match JSON_parse raw with
           | Throw _ => inl "FC_RBAC_CONFIG is not valid JSON"
           | Ok json =>
               match RbacConfigSchema_safeParse json with
               | inl issues => inl ("invalid FC_RBAC_CONFIG: check " +:+ issue_fields issues)
               | inr data => inr data
               end
           end
  end.

(** The settings, by the field each is parsed as. *)
Definition SETTINGS : list (string * string) :=
  [("engineHost", "FC_ENGINE_HOST"); ("enginePort", "FC_ENGINE_PORT"); ("httpHost", "FC_HTTP_HOST"); ("httpPort", "FC_HTTP_PORT");
   ("logLevel", "FC_LOG_LEVEL"); ("cacheTtlMs", "FC_CACHE_TTL_MS"); ("cacheMaxEntries", "FC_CACHE_MAX_ENTRIES");
   ("requestTimeoutMs", "FC_REQUEST_TIMEOUT_MS"); ("signerPort", "FC_SIGNER_PORT"); ("secretPort", "FC_IDAM_SECRET_PORT");
   ("sessionPort", "FC_SIDECAR_SESSION_PORT"); ("engineHeartbeatMs", "FC_ENGINE_HEARTBEAT_MS"); ("spaDir", "FC_SPA_DIST");
   ("sessionTtlMs", "FC_SESSION_TTL_MS"); ("sessionCookieName", "FC_SESSION_COOKIE"); ("sessionCookieSecure", "FC_SESSION_COOKIE_SECURE");
   ("sessionMax", "FC_SESSION_MAX"); ("loginMax", "FC_LOGIN_MAX"); ("oidcIssuer", "FC_OIDC_ISSUER"); ("oidcClientId", "FC_OIDC_CLIENT_ID");
   ("oidcRoleClaim", "FC_OIDC_ROLE_CLAIM"); ("oidcScope", "FC_OIDC_SCOPE"); ("oidcJwksUri", "FC_OIDC_JWKS_URI");
   ("oidcDeviceCodeEndpoint", "FC_OIDC_DEVICE_ENDPOINT"); ("oidcTokenEndpoint", "FC_OIDC_TOKEN_ENDPOINT")].

Definition loadConfig (e : env) : string + BffConfig :=
  match ConfigSchema_safeParse (map (λ s, (s.1, e s.2)) SETTINGS) with
  | inl issues => inl ("invalid BFF configuration: check " +:+ issue_fields issues)
  | inr raw =>
      if negb (isLoopbackHost (raw_engineHost raw))
      then inl ("FC_ENGINE_HOST must be loopback (the crypto sidecar egress), not a routable host: " +:+ raw_engineHost raw)
      else if negb (isLoopbackHost (raw_httpHost raw))
      then inl ("FC_HTTP_HOST must be loopback (the sidecar admin plane fronts the BFF), not a routable host: " +:+ raw_httpHost raw)
      else match resolveOidc raw with
           | inl m => inl m
           | inr oidc =>
               match resolveRbac e with
               | inl m => inl m
               | inr rbac =>
                   inr (mkBff (raw_engineHost raw) (raw_enginePort raw) (raw_httpHost raw) (raw_httpPort raw) (raw_logLevel raw)
                     (raw_cacheTtlMs raw) (raw_cacheMaxEntries raw) (raw_requestTimeoutMs raw) (raw_signerPort raw) (raw_secretPort raw)
                     (raw_sessionPort raw) (raw_engineHeartbeatMs raw) (raw_spaDir raw)
                     (mkSessionSettings (raw_sessionTtlMs raw) (raw_sessionCookieName raw) (raw_sessionCookieSecure raw)
                        (raw_sessionMax raw) (raw_loginMax raw))
                     oidc rbac)
               end
           end
  end.

(** ** What a loaded configuration guarantees *)

Lemma loopback_exact host : isLoopbackHost host = true ↔
  host = "localhost" ∨ host = "::1" ∨ ∃ rest, host = "127." +:+ rest.
Proof.
  unfold isLoopbackHost. rewrite !orb_true_iff, !bool_decide_eq_true. split.
  - intros [[[->| ->]| ->]|H]; [by left|by right; left|right; right; by exists "0.0.1"|].
    right; right. unfold startsWith in H. destruct (JsString.strip_prefix "127." host) as [rest|] eqn:E; [|done].
    exists rest. by apply strip_prefix_Some in E.
  - intros [->|[->|[rest ->]]]; [by auto..|]. right. unfold startsWith. by rewrite (proj2 (strip_prefix_Some "127." _ rest) eq_refl).
Qed.

(** A configuration that loads has plaintext legs on loopback names only, a complete login set-up or none, and the
    grants it was given or none at all. *)
Lemma loadConfig_sound e c : loadConfig e = inr c →
  ∃ raw, ConfigSchema_safeParse (map (λ s, (s.1, e s.2)) SETTINGS) = inr raw ∧
    cfg_engineHost c = raw_engineHost raw ∧ cfg_httpHost c = raw_httpHost raw ∧
    isLoopbackHost (cfg_engineHost c) = true ∧ isLoopbackHost (cfg_httpHost c) = true ∧
    (cfg_oidc c = None ↔ raw_oidcIssuer raw = None) ∧
    (∀ o, cfg_oidc c = Some o → raw_oidcIssuer raw = Some (issuer o) ∧ raw_oidcClientId raw = Some (clientId o) ∧
       raw_oidcRoleClaim raw = Some (roleClaim o)) ∧
    resolveRbac e = inr (cfg_rbac c).
Proof.
  unfold loadConfig. destruct (ConfigSchema_safeParse _) as [|raw]; [done|].
  destruct (isLoopbackHost (raw_engineHost raw)) eqn:E1; [|done]. destruct (isLoopbackHost (raw_httpHost raw)) eqn:E2; [|done]. cbn [negb].
  destruct (resolveOidc raw) as [|oidc] eqn:Eo; [done|]. destruct (resolveRbac e) as [|r] eqn:Er; [done|]. intros [= <-].
  exists raw. cbn. split_and!; try done; unfold resolveOidc in Eo; destruct (raw_oidcIssuer raw) as [iss|];
    try (destruct (raw_oidcClientId raw), (raw_oidcRoleClaim raw)); simplify_eq; try done; intros o [= <-]; done.
Qed.

Lemma blank_rbac e : (∀ raw, e "FC_RBAC_CONFIG" = Some raw → trim raw = "") → resolveRbac e = inr (mkRbac [] [] None).
Proof.
  intros H. unfold resolveRbac. destruct (e "FC_RBAC_CONFIG") as [raw|]; [|done]. by rewrite bool_decide_eq_true_2 by auto.
Qed.
End load.

(** The guard reads the name, not the address: a host name that only begins like a loopback address passes it. *)
Example loopback_names_accepted : isLoopbackHost "127.example.com" = true ∧ isLoopbackHost "10.0.0.1" = false ∧ isLoopbackHost "0.0.0.0" = false.
Proof. done. Qed.

Example slash_trimmed_once : trimTrailingSlash "https://idp/" = "https://idp" ∧ trimTrailingSlash "https://idp//" = "https://idp/" ∧
  trimTrailingSlash "https://idp" = "https://idp".
Proof. done. Qed.
