(* ===== verification/Boot.v ===== *)
(** * Starting the gateway ([index.ts])

    [main] up to listening: what the server is built over, given the environment.  The
    theorems run the server of a deployment. *)
From S2P Require Import Prelude Bytes Float64 Cbor JsValue JsString Num64 LineExchange Cache Rbac Sessions Cookie Oidc.
From S2P Require Import AuthRouter OperatorEngine Vtz Policies Forge Distribute Sidecar Routes JsOps Overview Users Objects EntityDetail Soc.
From S2P Require Import Settings ModelAccess Http Server ServerRun ServerProofs Config.
From stdpp Require Import list.
Open Scope Z_scope.

(** The settings the server reads. *)
Definition server_config (c : Config.BffConfig) : Server.BffConfig :=
  mkConfig (cfg_signerPort c) (cfg_secretPort c) (cfg_sessionPort c) (cfg_spaDir c) (cfg_rbac c).

(** What [main] builds: the server's dependencies, the auth router and its provider when login is configured, the
    bounds of the cache, and where the server listens. *)
Record deployment := mkDeployment {
  dp_server : ServerDeps; dp_auth : option (AuthRouterDeps * OidcConfig * RbacConfig); dp_cacheTtlMs : Z; dp_cacheMaxEntries : Z;
  dp_engine : string * Z; dp_listen : string * Z }.

Definition auth_router (c : Config.BffConfig) : option (AuthRouterDeps * OidcConfig * RbacConfig) :=
  o ← cfg_oidc c;
  let s := cfg_session c in
  Some (mkDeps (settings_maxSessions s) (maxPendingLogins s) (ttlMs s) (mkCookieOptions (cookieName s) (cookieSecure s)), o, cfg_rbac c).

Section boot.
Context (ConfigSchema_safeParse : list (string * option string) → list (list string) + RawConfig)
  (RbacConfigSchema_safeParse : value → list (list string) + RbacConfig) (JSON_parse_env : string → result value).
Notation loadConfig := (loadConfig ConfigSchema_safeParse RbacConfigSchema_safeParse JSON_parse_env).

Definition main (e : env) (cwd : list string) : string + deployment :=
  match loadConfig e with
  | inl message => inl ("BFF failed to start: " +:+ message)
  | inr c =>
      let auth := auth_router c in
      inr (mkDeployment (mkServerDeps (bool_decide (is_Some auth)) true (server_config c) cwd) auth
             (cfg_cacheTtlMs c) (cfg_cacheMaxEntries c) (cfg_engineHost c, cfg_enginePort c) (cfg_httpHost c, cfg_httpPort c))
  end.
End boot.

(** ** A server nobody can log in to *)

(** An event without a session, and not an answer of the engine. *)
Definition anonymous (e : event) : Prop :=
  match e with
  | ev_request _ => True
  | ev_call _ s _ _ | ev_local _ s _ | ev_hit _ s _ _ | ev_reply _ s _ => s = None
  | ev_answer _ _ _ => False
  end.

(** An answer of the auth router that names no operator and sets no session cookie. *)
Definition names_nobody (auth_deps : AuthRouterDeps) (r : AuthRouter.response) : Prop :=
  (∃ ps, resp_body r = VObj ps ∧ obj_get ps "operator" = None) ∧
  (set_cookie r = None ∨ set_cookie r = Some (clearSessionCookie (cookie auth_deps))).

Section nobody.
Context {NS : NumberToString} {TN : ToNumberOther} {AO : ArithOther} {LC : LocaleCompare} {CO : CompareOther}.
Context (deps : ServerDeps) (auth_deps : AuthRouterDeps) (cacheTtlMs cacheMaxEntries : Z)
  (JSON_parse : string → result value) (JSON_parse_body : bytes → result value) (JSON_stringify : view → result string)
  (openApiDocument : value) {provider : OidcProvider}.
Notation run := (run deps auth_deps cacheTtlMs cacheMaxEntries).
Notation serves := (serves deps auth_deps cacheTtlMs cacheMaxEntries JSON_parse JSON_parse_body JSON_stringify openApiDocument).

(** The stores in which no cookie names a session. *)
Context (nobody : auth_state → Prop).
Hypothesis nobody_resolves : ∀ a cookies now, nobody a →
  let r := if authRouter deps then resolveSession auth_deps a cookies now else (None, a) in r.1 = None ∧ nobody r.2.
Hypothesis nobody_logs_in : ∀ s, serves s → nobody (store (login s)).

Lemma run_anonymous req now st p :
  nobody (rs_auth st) → rs_session st = None → Forall anonymous (rs_trace st) →
  let r := run req now st p in rs_session r.1 = None ∧ Forall anonymous (rs_trace r.1).
Proof using nobody_resolves.
  revert st. induction p as [resp k IH| |e|k IH|key ver k IH|key ver v k IH|pre k IH|lim k IH|pr c k IH|c k IH]; intros st Ha Hs Ht; cbn [ServerRun.run].
  - destruct (rs_sent st); [done|]. apply IH; [done..|]. by constructor.
  - done.
  - destruct (rs_sent st); [done|]. split; [done|]. by constructor.
  - pose proof (nobody_resolves (rs_auth st) (http_cookie req) now Ha) as [H1 H2]. destruct (if authRouter deps then _ else _) as [s a].
    cbn in H1, H2. subst s. by apply (IH None (mkRun a (rs_cache st) None (rs_sent st) (rs_trace st))).
  - destruct (cache_get (rs_cache st) key ver now) as [[v|] c]; apply IH; try done. by constructor.
  - by apply IH.
  - by apply IH.
  - done.
  - split; [done|]. by constructor.
  - split; [done|]. by constructor.
Qed.

Lemma serves_anonymous s : serves s → Forall anonymous (trace s) ∧ Forall (λ t, t_session t = None) (waiting s).
Proof using nobody_resolves nobody_logs_in.
  induction 1 as [m|s s' Hr [Ht Hw] Hstep]; [by split; constructor|]. pose proof (nobody_logs_in s Hr) as Hn.
  destruct Hstep as [a _ Ha|req now chunks Hh|l1 t l2 now env b p m evs Hws Ha]; [by split|..]; unfold start, resume, after_run; cbn.
  - destruct (run_anonymous req now (mkRun (store (login s)) (srv_cache s) None false (ev_request req :: trace s))
      (route JSON_stringify deps req openApiDocument)) as [H1 H2]; [done..|by constructor|].
    destruct (run _ _ _ _) as [st o]. cbn in *. split; [done|]. destruct o; [|done]. by constructor.
  - rewrite Hws in Hw. apply Forall_app in Hw as [Hw1 [Hwt Hw2]%Forall_cons].
    assert (Forall anonymous (evs ++ trace s)) as Htr.
    { apply Forall_app. split; [|done]. destruct (serves_inv _ _ _ _ _ _ _ _ s Hr) as [_ _ _ Hok]. rewrite Hws in Hok.
      apply Forall_app in Hok as [_ [(_ & _ & n & _ & Hg) _]%Forall_cons]. unfold answer in Ha.
      destruct (t_prog t) as [| | | | | | |lim k|pr c k|c k]; simplify_eq; try constructor.
      destruct n as [|n]; [done|]. destruct Hg as [(? & Hse & _) _]. congruence. }
    rewrite Hwt. destruct (run_anonymous (t_req t) now (mkRun (store (login s)) (srv_cache s) None (t_sent t) (evs ++ trace s)) p) as [H1 H2]; [done..|].
    destruct (run _ _ _ _) as [st o]. cbn in *. split; [done|]. destruct o; [|by apply Forall_app]. constructor; [done|by apply Forall_app].
Qed.

(** Such a server asks the engine nothing but whether it is there, for the readiness probe, serves nothing from its cache, and
    answers with public matter only; beside that it takes requests in and reads files of the console. *)
Definition closed_off (tr : list event) : Prop :=
  ∀ e, e ∈ tr →
    (∃ req, e = ev_request req) ∨ (∃ req resp, e = ev_reply req None resp ∧ public openApiDocument (body resp)) ∨
    (∃ req, e = ev_local req None l_ping ∧ request_path req = "/readyz") ∨ (∃ req f, e = ev_local req None (l_readFile f)).

Lemma serves_closed_off s : serves s → closed_off (trace s).
Proof using nobody_resolves nobody_logs_in.
  intros Hr e He. destruct (serves_anonymous s Hr) as [Han _]. destruct (serves_inv _ _ _ _ _ _ _ _ s Hr) as [_ _ Hev _].
  rewrite Forall_forall in Han, Hev. specialize (Han e He). specialize (Hev e He).
  destruct e as [req|req se pr c|pr c o|req se c|req se key v|req se resp]; cbn in Han, Hev; try subst se; [by eauto| |done|..].
  - destruct Hev as [(? & ? & _) _]. done.
  - destruct c; [by destruct Hev as [(? & ? & _) _]|by destruct Hev as (? & ? & _)|right; right; left; by exists req|do 3 right; by eexists _, _].
  - destruct Hev as (? & ? & ? & ? & ? & (? & ? & _) & _). done.
  - right. left. exists req, resp. split; [done|]. by apply Hev.
Qed.

(** Without an auth router there is no answer of one. *)
Lemma serves_unrouted s : serves s → authRouter deps = false → responses (login s) = [].
Proof using.
  clear nobody_logs_in nobody_resolves nobody. intros Hr Hd.
  induction Hr as [m|s s' _ IH [a Ha _|req now chunks Hh|l1 t l2 now env b p m evs Hw Ha]]; [done|congruence|done..].
Qed.

(** The auth router of a provider that verifies nobody. *)
Lemma auth_names_nobody s a :
  (∀ x, ¬ verified x) → (∀ token i, ¬ may_verify token (Ok (Some i))) → sys_inv s → Forall (names_nobody auth_deps) (responses s) →
  sys_step auth_deps JSON_parse_body s a → Forall (names_nobody auth_deps) (responses a).
Proof using.
  clear nobody_logs_in nobody_resolves nobody. intros Hnv Hnm Hinv Hold Hstep.
  assert (∀ x b c, set_cookie x = None → resp_body x = VObj b → obj_get b "operator" = c → c = None → names_nobody auth_deps x) as Hplain.
  { intros x b c Hc Hb Ho Hn. split; [exists b; by subst|by left]. }
  assert (∀ st, state_ok st → ∀ ck now, (resolveSession auth_deps st ck now).1 = None) as Hres.
  { intros st Hst ck now. destruct (resolveSession auth_deps st ck now).1 as [x|] eqn:E; [|done]. destruct (Hnv x). by eapply resolve_verified. }
  destruct Hstep as [req now st o E|l1 l2 r now lid E Hr|l1 l2 lid dc r E Hr|l1 l2 lid token r now sid E Hr].
  - assert (match o with inl x => names_nobody auth_deps x | inr _ => True end) as Ho; [|destruct o; [by constructor|done]].
    unfold handle in E. cbv zeta in E. repeat (case_bool_decide; [destruct (negb _); [injection E as <- <-; by eapply Hplain|]|]); [..|done].
    + by injection E as <- <-.
    + injection E as E. unfold handlePoll_start in E. destruct (AuthRouter.readJsonBody _ _) as [b|]; [|injection E as <- <-; by eapply Hplain].
      destruct (stringField b "loginId") as [x|]; [|injection E as <- <-; by eapply Hplain].
      destruct (login_get _ _ _) as [[l|] m]; injection E as <- <-; [done|by eapply Hplain].
    + injection E as <- <-. split; [by eexists|by right].
    + injection E as <- <-. unfold handleMe. destruct Hinv as [Hi1 Hi2 _]. pose proof (Hres (store s) (conj Hi1 Hi2) (req_cookie req) now) as Hn.
      destruct (resolveSession _ _ _ _) as [x m]. cbn in Hn. subst x. by eapply Hplain.
  - destruct r as [d|e]; cbn; (constructor; [by eapply Hplain|done]).
  - destruct r as [[|tok acc]|e]; cbn; [constructor; [by eapply Hplain|done]|done|constructor; [by eapply Hplain|done]].
  - destruct r as [[i|]|e]; [by destruct (Hnm token i)|..]; cbn; (constructor; [by eapply Hplain|done]).
Qed.

Lemma serves_names_nobody s :
  (∀ x, ¬ verified x) → (∀ token i, ¬ may_verify token (Ok (Some i))) → serves s → Forall (names_nobody auth_deps) (responses (login s)).
Proof using.
  clear nobody_logs_in nobody_resolves nobody. intros Hnv Hnm Hr.
  induction Hr as [m|s s' Hr IH [a _ Ha|req now chunks Hh|l1 t l2 now env b p m evs Hw Ha]]; [constructor| |done..].
  eapply auth_names_nobody; [done..| |exact IH|exact Ha]. by apply serves_inv in Hr as [].
Qed.
End nobody.

(** ** Deployments *)

(** No grant, no authority. *)
Lemma ungranted_login `{NumberToString} sha1 JWKS createRemoteJWKSet jwtVerify cache o r token i :
  Rbac.groupRoles r = [] → Rbac.localRbac r = [] → verifyLogin sha1 JWKS createRemoteJWKSet jwtVerify cache o r token ≠ Ok (Some i).
Proof.
  intros Hg Hl (claims & email & groups & subject & _ & _ & Hres)%verifyLogin_inv.
  assert (∀ gs, highestGroupGrant gs [] = None) as Hh by (intros gs; unfold highestGroupGrant; by induction gs).
  unfold resolveAuthority in Hres. rewrite Hg, Hl, Hh in Hres. by destruct groups.
Qed.

Section deployments.
Context {NS : NumberToString} {TN : ToNumberOther} {AO : ArithOther} {LC : LocaleCompare} {CO : CompareOther}.
Context (ConfigSchema_safeParse : list (string * option string) → list (list string) + RawConfig)
  (RbacConfigSchema_safeParse : value → list (list string) + RbacConfig)
  (JSON_parse : string → result value) (JSON_parse_body : bytes → result value) (JSON_stringify : view → result string)
  (openApiDocument : value).
Context (sha1 : bytes → bytes) (JWKS : Type) (createRemoteJWKSet : string → JWKS)
  (jwtVerify : value → JWKS → string → string → result value).
Notation main := (main ConfigSchema_safeParse RbacConfigSchema_safeParse JSON_parse).

(** The states a deployment can reach, when [provider] answers its logins. *)
Definition deployed (d : deployment) (auth_deps : AuthRouterDeps) (provider : OidcProvider) (s : server) : Prop :=
  serves (dp_server d) auth_deps (dp_cacheTtlMs d) (dp_cacheMaxEntries d) JSON_parse JSON_parse_body JSON_stringify openApiDocument s.

(** C14: A gateway that is not configured is closed off.  A gateway that starts talks plaintext -- to the engine's
    sidecar and to its own clients -- only on names that are [localhost], [::1] or begin with [127.].  When no issuer is
    configured, however requests and answers interleave, paths below /auth included, in every state it can reach it has
    asked the engine nothing but, for /readyz, whether it is there, served nothing from its cache and found no session:
    everything it ever answered is public.  When an issuer is configured but no grant, the same holds of the routes,
    whatever logins are attempted and whatever the default tenant is, and nothing the auth router answered names an
    operator or sets a session cookie.  A blank FC_RBAC_CONFIG configures no grant. *)
Theorem unconfigured_closed_off e cwd d :
  main e cwd = inr d →
  (∀ host port, (host, port) ∈ [dp_engine d; dp_listen d] → host = "localhost" ∨ host = "::1" ∨ ∃ rest, host = "127." +:+ rest) ∧
  (dp_auth d = None → ∀ auth_deps provider s, deployed d auth_deps provider s →
     closed_off openApiDocument (trace s) ∧ responses (login s) = []) ∧
  (∀ auth_deps o r, dp_auth d = Some (auth_deps, o, r) →
     ((∀ raw, e "FC_RBAC_CONFIG" = Some raw → trim raw = "") → Rbac.groupRoles r = [] ∧ Rbac.localRbac r = []) ∧
     (Rbac.groupRoles r = [] → Rbac.localRbac r = [] →
      ∀ s, deployed d auth_deps (oidc_provider sha1 JWKS createRemoteJWKSet jwtVerify o r) s →
        closed_off openApiDocument (trace s) ∧ Forall (names_nobody auth_deps) (responses (login s)))).
Proof.
  unfold main. destruct (loadConfig _ _ _ e) as [|c] eqn:E; [done|]. intros [= <-].
  destruct (loadConfig_sound _ _ _ e c E) as (raw & _ & _ & _ & H1 & H2 & _ & _ & Hr). cbn [dp_engine dp_listen dp_auth]. split_and!.
  - intros host port Hin. apply loopback_exact. apply elem_of_cons in Hin as [Hin|Hin]; [by simplify_eq|].
    apply list_elem_of_singleton in Hin. by simplify_eq.
  - intros Hn auth_deps provider s Hs. split.
    + eapply (serves_closed_off _ _ _ _ _ _ _ _ (λ _, True)); [|done|exact Hs].
      intros a cookies now _. cbn. rewrite Hn. by rewrite bool_decide_eq_false_2 by (by intros [? ?]).
    + eapply serves_unrouted; [exact Hs|]. cbn. rewrite Hn. apply bool_decide_eq_false_2. by intros [? ?].
  - intros auth_deps o r Ha. split.
    { intros Hb. rewrite (blank_rbac _ _ e Hb) in Hr. injection Hr as Hr. unfold auth_router in Ha.
      destruct (cfg_oidc c); [|done]. cbn in Ha. injection Ha as _ _ <-. by rewrite <- Hr. }
    intros Hg Hl s Hs. set (provider := oidc_provider _ _ _ _ _ _) in *.
    assert (∀ token i, ¬ may_verify token (Ok (Some i))) as Hnm by (intros token i [cache Hv]; by eapply ungranted_login).
    assert (∀ x, ¬ verified x) as Hnv by (intros x (token & i & _ & Hv & _); by eapply Hnm).
    split; [|by eapply serves_names_nobody].
    eapply (serves_closed_off _ _ _ _ _ _ _ _ state_ok); [| |exact Hs].
    + intros a cookies now Hok. cbn zeta. destruct (authRouter _); [|by split].
      pose proof (resolve_ok auth_deps a cookies now Hok) as Hok'.
      pose proof (λ session, resolve_verified auth_deps a cookies now session Hok) as Hv.
      destruct (resolveSession _ _ _ _) as [[x|] a']; cbn in *; [destruct (Hnv x); by apply Hv|done].
    + intros s' [[? ? _] _ _ _]%serves_inv. by split.
Qed.
End deployments.

(** ** A gateway started without settings *)

#[local] Instance boot_numbers : NumberToString := λ _, "7".
#[local] Instance boot_toNumber : ToNumberOther := λ _, f64_NaN.
#[local] Instance boot_arith : ArithOther := λ _ _ _, Throw (TypeError "operand").
#[local] Instance boot_locale : LocaleCompare := λ a b, 0.
#[local] Instance boot_compare : CompareOther := λ _ _, false.
Definition sample_raw : RawConfig :=
  mkRaw "127.0.0.1" 8789 "127.0.0.1" 8787 "info" 2000 1000 5000 None None None 20000 None 3600000 "fc_session" true 4096 256
    None None None "openid profile email" None None None.
Definition sample_deployment : deployment :=
  mkDeployment (mkServerDeps false true (mkConfig None None None None (mkRbac [] [] None)) []) None 2000 1000 ("127.0.0.1", 8789) ("127.0.0.1", 8787).
Definition sample_request : http_request := mkHttp (Some "GET") (Some "/api/users") (Some "fc_session=S") None None.

(** It answers a request for the operator 404, having no auth router. *)
Definition sample_me : http_request := mkHttp (Some "GET") (Some "/auth/me") (Some "fc_session=S") None None.

Lemma unconfigured_closed_off_witness :
  let s := start (dp_server sample_deployment) sample_deps 2000 1000 (λ _, Ok "") VNull
    (start (dp_server sample_deployment) sample_deps 2000 1000 (λ _, Ok "") VNull (server_init (mkMemory (mkCounters 0 0 0 0 0) None)) sample_request 5)
    sample_me 6 in
  trace s = [ev_reply sample_me None (mkResponse 404 (error_view "not_found")); ev_request sample_me;
             ev_reply sample_request None (mkResponse 401 (error_view "unauthorized")); ev_request sample_request] ∧
  closed_off VNull (trace s) ∧ responses (login s) = [].
Proof.
  split; [vm_compute; reflexivity|].
  apply (unconfigured_closed_off (λ _, inr sample_raw) (λ _, inl [[]]) (λ _, Ok VNull) (λ _, Ok VNull) (λ _, Ok "") VNull (λ b, b) unit (λ _, tt)
    (λ _ _ _ _, Ok VNull) (λ _, None) [] sample_deployment eq_refl) with (auth_deps := sample_deps)
    (provider := oidc_provider (λ b, b) unit (λ _, tt) (λ _ _ _ _, Ok VNull) sample_oidc (mkRbac [] [] None)); [reflexivity|].
  eapply serves_step; [eapply serves_step; [apply serves_init|]|]; eapply (srv_request _ _ _ _ _ _ _ _ _ _ _ []); discriminate.
Defined.
