(* ===== verification/SettingsForms.v ===== *)
(** * The settings page ([SettingsSectionForms.tsx], [SettingsSurface.tsx], [useSettings.ts])

    The section forms, each with its own draft and limits, behind the dialog that confirms a
    change; the table of knobs with its staged edits; and the forms of the SOC tab.  The page
    is a machine over what the operator does and what arrives, and its output is the calls it
    makes.  Numbers are 64 bits. *)
From S2P Require Import Prelude Bytes Float64 Cbor JsValue WireProofs JsString Num64 LineExchange Cache Rbac Sessions Cookie Oidc.
From S2P Require Import AuthRouter OperatorEngine Vtz VtzProofs Policies PoliciesProofs Forge Distribute Routes JsOps Overview Users Objects EntityDetail Soc Settings.
From S2P Require Import Decimal ModelAccess Http Uri Console Server ConsoleProofs ConsoleCommands PolicyEditor.
From stdpp Require Import list.
Open Scope Z_scope.

(** ** Sections *)

Inductive SectionName := dual_control | egress_destinations | lug_exposure | decoder_families | source_format_map | narrative_model.
#[global] Instance SectionName_eq_dec : EqDecision SectionName.
Proof. solve_decision. Defined.

(** [Object.keys(SECTION_KEYS)] *)
Definition SECTIONS : list SectionName :=
  [dual_control; egress_destinations; lug_exposure; decoder_families; source_format_map; narrative_model].

(** The field of a patch, and the registry key whose row gates the form. *)
Definition section_property (n : SectionName) : string :=
  match n with
  | dual_control => "dualControl" | egress_destinations => "egressDestinations" | lug_exposure => "lugExposure"
  | decoder_families => "disabledDecoderFamilies" | source_format_map => "sourceFormatMap" | narrative_model => "socNarrativeModelRef"
  end.
Definition SECTION_KEYS (n : SectionName) : string :=
  match n with
  | dual_control => "governance.dual_control" | egress_destinations => "egress.destinations" | lug_exposure => "lug.exposure"
  | decoder_families => "normalization.disabled_decoder_families" | source_format_map => "normalization.source_format_map"
  | narrative_model => "soc_narrative.model_ref"
  end.
Definition SECTION_TITLES (n : SectionName) : string :=
  match n with
  | dual_control => "Dual control" | egress_destinations => "Egress destinations" | lug_exposure => "LUG exposure"
  | decoder_families => "Disabled decoder families" | source_format_map => "Source-format overrides" | narrative_model => "Narrative model"
  end.

(** The values of the sections, as the engine has them committed. *)
Record SectionValues := mkValues {
  v_dualControl : list string; v_egress : list (string * string); v_lug : LugExposure; v_families : list string;
  v_formats : list (string * string); v_model : option string }.

(** What the page reads of the governed settings. *)
Record ConfigView := mkConfigView {
  cv_version : Z; cv_rows : list SettingRow; cv_surfaces : list string; cv_propose : bool; cv_values : option SectionValues }.

Definition key_of (r : SettingRow) : string := text (row_key r).

(** The forms present: the sections the engine marks editable, when it serves their values. *)
Definition section_names (v : ConfigView) : list SectionName :=
  match cv_values v with
  | None => []
  | Some _ => filter (λ n, SECTION_KEYS n ∈ map key_of (filter (λ r, negb (falsy (editable r)) = true) (cv_rows v))) SECTIONS
  end.

(** ** The drafts *)

Inductive LugNumber := maxAccountsPerNamespace | maxGroupsPerNamespace | maxSessionsPerDevice | lastSeenBucketHours
  | bindingConfirmThresholdPermille | snapshotCadenceHours.
Definition LUG_NUMBERS : list (LugNumber * string) :=
  [(maxAccountsPerNamespace, "Max accounts per namespace"); (maxGroupsPerNamespace, "Max groups per namespace");
   (maxSessionsPerDevice, "Max sessions per device"); (lastSeenBucketHours, "Last-seen bucket (hours)");
   (bindingConfirmThresholdPermille, "Binding confirm threshold (permille)"); (snapshotCadenceHours, "Snapshot cadence (hours)")].
Definition LUG_CAPS : list LugNumber := [maxAccountsPerNamespace; maxGroupsPerNamespace; maxSessionsPerDevice; lastSeenBucketHours].

Definition lug_get (k : LugNumber) (l : LugExposure) : Z :=
  match k with
  | maxAccountsPerNamespace => lug_accounts l | maxGroupsPerNamespace => lug_groups l | maxSessionsPerDevice => lug_sessions l
  | lastSeenBucketHours => lug_bucket l | bindingConfirmThresholdPermille => lug_threshold l | snapshotCadenceHours => lug_cadence l
  end.
(** [{ ...lug, [k]: x }] *)
Definition lug_set (k : LugNumber) (x : Z) (l : LugExposure) : LugExposure :=
  let '(mkLug e re a g s b t c) := l in
  match k with
  | maxAccountsPerNamespace => mkLug e re x g s b t c | maxGroupsPerNamespace => mkLug e re a x s b t c
  | maxSessionsPerDevice => mkLug e re a g x b t c | lastSeenBucketHours => mkLug e re a g s x t c
  | bindingConfirmThresholdPermille => mkLug e re a g s b x c | snapshotCadenceHours => mkLug e re a g s b t x
  end.

Record Drafts := mkDrafts {
  d_capabilities : list string; d_rows : list (string * string); d_lug : LugExposure; d_families : string; d_formats : string; d_ref : string }.

(** The text of a list, and of the overrides, one line each. *)
Definition lines_text (l : list string) : string := JsString.join (String newline "") l.
Definition equals_line (m : string * string) : string := m.1 +:+ "=" +:+ m.2.

Definition open_drafts (v : SectionValues) : Drafts :=
  mkDrafts (v_dualControl v) (v_egress v) (v_lug v) (lines_text (v_families v)) (lines_text (map equals_line (v_formats v)))
    (default "" (v_model v)).

Definition linesOf (t : string) : list string := filter (λ l, l ≠ "") (map trim (split_on newline t)).
Definition listWithinLimits (lines : list string) : bool :=
  (Z.of_nat (length lines) <=? MAX_SECTION_ENTRIES) && forallb (λ l, js_strlen l <=? MAX_SECTION_TEXT_CHARS) lines.

(** A line is cut at its first [=], which neither starts nor ends it. *)
Definition format_line (l : string) : option (string * string) :=
  match cut_at equals l with
  | Some (a, b) => if bool_decide (a = "") || bool_decide (b = "") then None else Some (trim a, trim b)
  | None => None
  end.

Definition egress_valid (rows : list (string * string)) : bool :=
  (Z.of_nat (length rows) <=? MAX_SECTION_ENTRIES) &&
  forallb (λ r : string * string, negb (bool_decide (trim r.1 = "")) && (js_strlen r.1 <=? MAX_EGRESS_ID_CHARS)) rows.

Definition lug_valid (l : LugExposure) : bool :=
  forallb (λ k, f64_isInteger (lug_get k.1 l) && f64_le 0 (lug_get k.1 l)) LUG_NUMBERS &&
  f64_le (lug_threshold l) (f64_ofZ LUG_THRESHOLD_PERMILLE_MAX) &&
  (negb (lug_enabled l) || forallb (λ k, f64_lt 0 (lug_get k l)) LUG_CAPS).

Definition lug_body (l : LugExposure) : value :=
  VObj [("enabled", VBool (lug_enabled l)); ("resolutionEnabled", VBool (lug_resolution l));
        ("maxAccountsPerNamespace", VNum (lug_accounts l)); ("maxGroupsPerNamespace", VNum (lug_groups l));
        ("maxSessionsPerDevice", VNum (lug_sessions l)); ("lastSeenBucketHours", VNum (lug_bucket l));
        ("bindingConfirmThresholdPermille", VNum (lug_threshold l)); ("snapshotCadenceHours", VNum (lug_cadence l))].

(** What submitting each form hands on: the value of its section, unless the form is outside its limits. *)
Definition DualControlForm (d : Drafts) : option value :=
  Some (VArr (map VStr (filter (λ c, c ∈ d_capabilities d) ADMIN_CAPABILITIES))).
Definition EgressForm (d : Drafts) : option value :=
  if egress_valid (d_rows d)
  then Some (VArr (map (λ r : string * string, VObj [("id", VStr r.1); ("ceiling", VStr r.2)]) (d_rows d))) else None.
Definition LugForm (d : Drafts) : option value := if lug_valid (d_lug d) then Some (lug_body (d_lug d)) else None.
Definition FamiliesForm (d : Drafts) : option value :=
  let lines := linesOf (d_families d) in if listWithinLimits lines then Some (VArr (map VStr lines)) else None.
Definition SourceMapForm (d : Drafts) : option value :=
  let parsed := map format_line (linesOf (d_formats d)) in
  if forallb (λ p, bool_decide (p ≠ None)) parsed && listWithinLimits (linesOf (d_formats d))
  then Some (VArr (map (λ m : string * string, VObj [("source", VStr m.1); ("format", VStr m.2)]) (omap (λ p, p) parsed))) else None.
Definition ModelRefForm (d : Drafts) : option value := Some (VStr (trim (d_ref d))).

(** [FORMS[name]] *)
Definition section_value (n : SectionName) (d : Drafts) : option value :=
  match n with
  | dual_control => DualControlForm d | egress_destinations => EgressForm d | lug_exposure => LugForm d
  | decoder_families => FamiliesForm d | source_format_map => SourceMapForm d | narrative_model => ModelRefForm d
  end.

(** ** The page of section forms *)

Inductive form_event :=
  | Capability (c : string) (on : bool)
  | RowId (i : nat) (id : string) | RowCeiling (i : nat) (c : string) | RemoveRow (i : nat) | AddRow
  | LugEnabled (on : bool) | LugResolution (on : bool) | LugTyped (k : LugNumber) (t : string)
  | FamiliesTyped (t : string) | FormatsTyped (t : string) | RefTyped (t : string)
  | SubmitSection (n : SectionName) | ConfirmSection | CancelSection | ViewRead (v : ConfigView).

Record FormsPage := mkFormsPage { fp_view : ConfigView; fp_drafts : Drafts; fp_pending : option (SectionName * value) }.

Definition no_drafts : Drafts := mkDrafts [] [] (mkLug false false 0 0 0 0 0 0) "" "" "".
Definition drafts_of (v : ConfigView) : Drafts := match cv_values v with Some x => open_drafts x | None => no_drafts end.
Definition open_forms (v : ConfigView) : FormsPage := mkFormsPage v (drafts_of v) None.

(** Typing in the forms: the boxes of dual control, the rows of the destinations and the fields of the LUG. *)
Definition capability_edit (cs : list string) (e : form_event) : list string :=
  match e with Capability c on => if on then c :: cs else filter (λ x, x ≠ c) cs | _ => cs end.
Definition egress_edit (rows : list (string * string)) (e : form_event) : list (string * string) :=
  match e with
  | RowId i id => alter (λ r, (id, r.2)) i rows
  | RowCeiling i c => alter (λ r, (r.1, c)) i rows
  | RemoveRow i => delete i rows
  | AddRow => if MAX_SECTION_ENTRIES <=? Z.of_nat (length rows) then rows else rows ++ [("", "unclassified")]
  | _ => rows
  end.
Definition lug_edit (lug : LugExposure) (e : form_event) : LugExposure :=
  match e with
  | LugEnabled on => let '(mkLug _ re a g s b t c) := lug in mkLug on re a g s b t c
  | LugResolution on => let '(mkLug e _ a g s b t c) := lug in mkLug e on a g s b t c
  | LugTyped k t => lug_set k (parseInt10 t) lug
  | _ => lug
  end.
Definition edit_drafts (d : Drafts) (e : form_event) : Drafts :=
  mkDrafts (capability_edit (d_capabilities d) e) (egress_edit (d_rows d) e) (lug_edit (d_lug d) e)
    (match e with FamiliesTyped t => t | _ => d_families d end) (match e with FormatsTyped t => t | _ => d_formats d end)
    (match e with RefTyped t => t | _ => d_ref d end).

(** A form keeps its draft while it stays on the page at one version, and starts again otherwise. *)
Definition remount (old new : ConfigView) (d : Drafts) : Drafts :=
  let fresh := drafts_of new in
  let keep {A} (n : SectionName) (f : Drafts → A) : A :=
    if bool_decide (cv_version old = cv_version new ∧ n ∈ section_names old ∧ n ∈ section_names new) then f d else f fresh in
  mkDrafts (keep dual_control d_capabilities) (keep egress_destinations d_rows) (keep lug_exposure d_lug)
    (keep decoder_families d_families) (keep source_format_map d_formats) (keep narrative_model d_ref).

(** [useGovernedChange(propose)]: a commit, or under dual control a proposal. *)
Definition governed_change (propose : bool) (request : value) : flow value :=
  if propose then propose_call request else postGovernedSettings request.

Definition section_request (p : SectionName * value) : value :=
  VObj [("edits", VArr []); ("sections", VObj [(section_property p.1, p.2)])].

Definition forms_step (s : FormsPage) (e : form_event) : FormsPage * list (flow value) :=
  let '(mkFormsPage v d p) := s in
  match e with
  | SubmitSection n =>
      (mkFormsPage v d (if bool_decide (n ∈ section_names v) then match section_value n d with Some x => Some (n, x) | None => p end else p), [])
  | ConfirmSection =>
      if bool_decide (section_names v = []) then (s, [])
      else (mkFormsPage v d None, match p with Some p => [governed_change (cv_propose v) (section_request p)] | None => [] end)
  | CancelSection => (if bool_decide (section_names v = []) then s else mkFormsPage v d None, [])
  | ViewRead v' => (mkFormsPage v' (remount v v' d) p, [])
  | e => (mkFormsPage v (edit_drafts d e) p, [])
  end.

Fixpoint forms_run (s : FormsPage) (es : list form_event) : FormsPage * list (flow value) :=
  match es with
  | [] => (s, [])
  | e :: es => let '(s1, c1) := forms_step s e in let '(s2, c2) := forms_run s1 es in (s2, c1 ++ c2)
  end.

(** The title of the dialog. *)
Definition dialog_title (s : FormsPage) : string :=
  match fp_pending s with
  | None => ""
  | Some (n, _) => (if cv_propose (fp_view s) then "Propose" else "Commit") +:+ " " +:+ SECTION_TITLES n +:+ "?"
  end.

(** ** Trimmed text *)

Definition ECAPSETIHW : list string := map (λ p, str_rev_app p "") WHITESPACE.

Lemma whitespace_nonempty : Forall (λ p, p ≠ "") WHITESPACE ∧ Forall (λ p, p ≠ "") ECAPSETIHW.
Proof. split; apply (bool_decide_unpack _); vm_compute; reflexivity. Qed.

(** Neither end of a trimmed text is whitespace. *)
Lemma trimmed_stuck s : trim s = s → strip_any WHITESPACE s = None ∧ strip_any ECAPSETIHW (str_rev_app s "") = None.
Proof.
  destruct whitespace_nonempty as [HW HR]. unfold trim. fold ECAPSETIHW. set (t := trim_front WHITESPACE _ s). set (r := str_rev_app t "").
  set (q := trim_front ECAPSETIHW (String.length r) r). intros Hs. rewrite <- Hs, str_rev_involutive. split; [|by apply trim_front_stuck].
  destruct (trim_front_suffix ECAPSETIHW (String.length r) r) as [u Hu]. fold q in Hu.
  apply (strip_any_prefix _ _ (str_rev_app u "")). rewrite <- str_rev_app_acc, <- str_rev_app_app, <- Hu. unfold r.
  rewrite str_rev_involutive. by apply trim_front_stuck.
Qed.

Lemma stuck_trimmed s : strip_any WHITESPACE s = None → strip_any ECAPSETIHW (str_rev_app s "") = None → trim s = s.
Proof. intros H1 H2. unfold trim. fold ECAPSETIHW. by rewrite (trim_front_fixed WHITESPACE), (trim_front_fixed ECAPSETIHW), str_rev_involutive. Qed.

(** A text that is stripped to nothing ends with one of the pieces. *)
Lemma stripped_last ps n s : trim_front ps n s = "" → s ≠ "" → ∃ p u, p ∈ ps ∧ s = u +:+ p.
Proof.
  revert s. induction n as [|n IH]; intros s; cbn; [done|]. destruct (strip_any ps s) as [r|] eqn:E; [|done].
  apply strip_any_Some in E as (p & Hp & ->). intros Ht _. destruct (decide (r = "")) as [->|Hr]; [exists p, ""; by rewrite str_app_nil|].
  destruct (IH r Ht Hr) as (p' & u & Hp' & ->). exists p', (p +:+ u). by rewrite str_app_assoc.
Qed.

Lemma strip_any_front ps p s : p ∈ ps → strip_any ps (p +:+ s) ≠ None.
Proof.
  induction ps as [|q ps IH]; cbn; [by intros ?%not_elem_of_nil|]. intros [->|Hp]%elem_of_cons.
  - by rewrite (proj2 (strip_prefix_Some q (q +:+ s) s) eq_refl).
  - destruct (JsString.strip_prefix q (p +:+ s)); [done|]. by apply IH.
Qed.

Lemma rev_piece p u : str_rev_app (u +:+ p) "" = str_rev_app p "" +:+ str_rev_app u "".
Proof. by rewrite str_rev_app_app, str_rev_app_acc. Qed.

Lemma rev_whitespace p : p ∈ ECAPSETIHW → str_rev_app p "" ∈ WHITESPACE.
Proof. intros (q & -> & Hq)%list_elem_of_fmap. by rewrite str_rev_involutive. Qed.

(** A part at either end of a trimmed text is not blank. *)
Lemma trim_first_part a b : trim (a +:+ b) = a +:+ b → a ≠ "" → trim a ≠ "".
Proof.
  intros [Hw%strip_any_prefix _]%trimmed_stuck Ha. unfold trim. fold ECAPSETIHW. rewrite (trim_front_fixed WHITESPACE) by done. intros E.
  apply (f_equal (λ s, str_rev_app s "")) in E. rewrite str_rev_involutive in E. apply stripped_last in E as (p & u & Hp & E).
  - apply (f_equal (λ s, str_rev_app s "")) in E. rewrite str_rev_involutive, rev_piece in E. rewrite E in Hw.
    by apply (strip_any_front WHITESPACE (str_rev_app p "")) in Hw; [|apply rev_whitespace].
  - intros E'. apply Ha. by rewrite <- (str_rev_involutive a), E'.
Qed.

Lemma trim_last_part a b : trim (a +:+ b) = a +:+ b → b ≠ "" → trim b ≠ "".
Proof.
  intros [_ Hw]%trimmed_stuck Hb. rewrite rev_piece in Hw. apply strip_any_prefix in Hw. unfold trim. fold ECAPSETIHW. intros E.
  apply (f_equal (λ s, str_rev_app s "")) in E. rewrite str_rev_involutive in E.
  destruct (trim_front_suffix WHITESPACE (String.length b) b) as [u Hu]. set (t := trim_front WHITESPACE (String.length b) b) in *.
  assert (strip_any ECAPSETIHW (str_rev_app t "") = None) as Ht by (rewrite Hu, rev_piece in Hw; by apply strip_any_prefix in Hw).
  rewrite trim_front_fixed in E by done. assert (t = "") as Et by (by rewrite <- (str_rev_involutive t), E).
  apply stripped_last in Et as (p & w & Hp & Eb); [|done]. rewrite Eb, rev_piece in Hw.
  apply (strip_any_front ECAPSETIHW (str_rev_app p "")) in Hw; [done|]. apply list_elem_of_fmap. by exists p.
Qed.

(** Trimming does not lengthen. *)
Lemma js_strlen_nonneg s : 0 ≤ js_strlen s.
Proof. induction s as [|c s IH]; cbn; [done|]. repeat case_match; lia. Qed.
Lemma js_strlen_app a b : js_strlen (a +:+ b) = js_strlen a + js_strlen b.
Proof. induction a as [|c a IH]; [done|]. rewrite str_app_cons. cbn. rewrite IH. lia. Qed.
Lemma js_strlen_rev s : js_strlen (str_rev_app s "") = js_strlen s.
Proof. induction s as [|c s IH]; [done|]. cbn. rewrite str_rev_app_acc, js_strlen_app, IH. cbn. lia. Qed.
Lemma js_strlen_front ps n s : js_strlen (trim_front ps n s) ≤ js_strlen s.
Proof. destruct (trim_front_suffix ps n s) as [u E]. rewrite E at 2. rewrite js_strlen_app. pose proof (js_strlen_nonneg u). lia. Qed.
Lemma js_strlen_trim s : js_strlen (trim s) ≤ js_strlen s.
Proof. unfold trim. rewrite js_strlen_rev. etransitivity; [apply js_strlen_front|]. rewrite js_strlen_rev. apply js_strlen_front. Qed.

Lemma no_char_trim c s : no_char c s = true → no_char c (trim s) = true.
Proof.
  assert (∀ ps n t, no_char c t = true → no_char c (trim_front ps n t) = true) as Hf.
  { intros ps n t Ht. destruct (trim_front_suffix ps n t) as [u E]. rewrite E, no_char_app in Ht. by apply andb_prop in Ht as [_ ?]. }
  intros Hs. unfold trim. rewrite no_char_rev, andb_true_r. apply Hf. rewrite no_char_rev, andb_true_r. by apply Hf.
Qed.

(** ** Lines *)

(** The lines of a text: its pieces between line feeds, trimmed, but for the blank ones. *)
Definition lines_say (t : string) (l : list string) : Prop :=
  ∃ parts, parts ≠ [] ∧ t = lines_text parts ∧ Forall (λ p, no_char newline p = true) parts ∧ l = filter (λ l, l ≠ "") (map trim parts).

Lemma linesOf_says t : lines_say t (linesOf t).
Proof.
  exists (split_on newline t). split_and!; [|unfold lines_text; by rewrite join_split|apply split_no_char|done].
  intros E. pose proof (split_on_nonempty newline t) as H. rewrite E in H. cbn in H. lia.
Qed.

Lemma lines_say_unique t l : lines_say t l → l = linesOf t.
Proof. intros (parts & Hne & -> & HF & ->). unfold linesOf, lines_text. by rewrite split_join. Qed.

(** Each line is trimmed, and holds no line feed. *)
Lemma linesOf_elem t l : l ∈ linesOf t → trim l = l ∧ l ≠ "" ∧ no_char newline l = true.
Proof.
  unfold linesOf. intros [Hne Hl]%list_elem_of_filter. apply list_elem_of_fmap in Hl as (p & -> & Hp). split_and!; [by rewrite trim_idem|done|].
  apply no_char_trim. pose proof (split_no_char newline t) as HF. rewrite Forall_forall in HF. by apply HF.
Qed.

(** A list written out one entry a line is read back. *)
Lemma linesOf_text l : Forall (λ x, trim x = x ∧ x ≠ "" ∧ no_char newline x = true) l → linesOf (lines_text l) = l.
Proof.
  intros HF. destruct l as [|x l]; [done|]. unfold linesOf, lines_text. rewrite split_join; [|done|by apply (Forall_impl _ _ _ HF); naive_solver].
  induction HF as [|y k (Hy & Hy' & _) _ IH]; [done|]. cbn [map]. rewrite Hy, filter_cons_True by done. by rewrite IH.
Qed.

(** ** What a form submits *)

(** An override read off a line: what is left and right of its first [=]. *)
Definition line_says (l : string) (m : string * string) : Prop :=
  ∃ a b, l = a +:+ "=" +:+ b ∧ no_char equals a = true ∧ m = (trim a, trim b).

(** The change a form states: its section, as the form shows it, and no other. *)
Inductive section_says (d : Drafts) : SectionName → SectionPatch → Prop :=
  | says_capabilities l : (∀ c, c ∈ l ↔ c ∈ ADMIN_CAPABILITIES ∧ c ∈ d_capabilities d) → NoDup l →
      section_says d dual_control (mkPatch (Some l) None None None None None)
  | says_egress : Forall (λ r, trim r.1 ≠ "") (d_rows d) →
      section_says d egress_destinations (mkPatch None (Some (d_rows d)) None None None None)
  | says_lug : section_says d lug_exposure (mkPatch None None (Some (d_lug d)) None None None)
  | says_families l : lines_say (d_families d) l → section_says d decoder_families (mkPatch None None None (Some l) None None)
  | says_formats ls ms : lines_say (d_formats d) ls → Forall2 line_says ls ms → Forall (λ m, m.1 ≠ "" ∧ m.2 ≠ "") ms →
      section_says d source_format_map (mkPatch None None None None (Some ms) None)
  | says_model : section_says d narrative_model (mkPatch None None None None None (Some (trim (d_ref d)))).

(** What the choices offered and the length of an input keep true of a draft. *)
Definition drafts_ok (d : Drafts) : Prop :=
  Forall (λ r, r.2 ∈ CLASSIFICATION_TAGS) (d_rows d) ∧ js_strlen (d_ref d) ≤ MAX_SECTION_TEXT_CHARS.

(** The counts fit the engine's 32 bits. *)
Definition lug_fits (l : LugExposure) : Prop :=
  Forall (λ k, f64_le (lug_get k.1 l) (f64_ofZ 4294967295) = true) LUG_NUMBERS.

Lemma format_line_Some l m : format_line l = Some m → trim l = l → line_says l m ∧ m.1 ≠ "" ∧ m.2 ≠ "" ∧ trim m.1 = m.1 ∧ trim m.2 = m.2.
Proof.
  unfold format_line. destruct (cut_at equals l) as [[a b]|] eqn:E; [|done]. apply cut_at_Some in E as [El Ha].
  destruct (bool_decide _ || bool_decide _) eqn:Eb; [done|]. apply orb_false_iff in Eb as [Hna%bool_decide_eq_false Hnb%bool_decide_eq_false].
  intros [= <-] Ht. cbn [fst snd]. rewrite !trim_idem. split_and!; [by exists a, b|rewrite El in Ht; by apply trim_first_part in Ht| |done..].
  rewrite El in Ht. apply (trim_last_part (a +:+ "=") b); [|done]. by rewrite str_app_assoc.
Qed.

Lemma formats_parsed ls : forallb (λ p, bool_decide (p ≠ None)) (map format_line ls) = true → Forall (λ l, trim l = l) ls →
  let ms := omap (λ p, p) (map format_line ls) in
  Forall2 line_says ls ms ∧ Forall (λ m, m.1 ≠ "" ∧ m.2 ≠ "" ∧ trim m.1 = m.1 ∧ trim m.2 = m.2) ms ∧ length ms = length ls.
Proof.
  cbn zeta. induction ls as [|l ls IH]; [by repeat constructor|]. cbn [map forallb]. intros [Hl Hls]%andb_prop. rewrite Forall_cons. intros [Ht HF].
  apply bool_decide_eq_true in Hl. destruct (format_line l) as [m|] eqn:E; [|done]. cbn. destruct (format_line_Some l m E Ht) as (Hs & Hm).
  destruct (IH Hls HF) as (H1 & H2 & H3). split_and!; [by constructor|by constructor|by rewrite H3].
Qed.

Lemma list_accepted l : listWithinLimits l = true → stringList (VArr (map VStr l)) = Ok (Some l).
Proof.
  unfold listWithinLimits. rewrite andb_true_iff. intros [Hn HF]. unfold stringList, bounded_array. rewrite length_map, Hn.
  apply project_all_Some. clear Hn. induction l as [|x l IH]; [constructor|]. cbn [map forallb] in *. apply andb_prop in HF as [Hx HF].
  constructor; [|by apply IH]. unfold text_entry. by rewrite Hx.
Qed.

Lemma egress_accepted rows : egress_valid rows = true → Forall (λ r, r.2 ∈ CLASSIFICATION_TAGS) rows →
  entries egress_entry (VArr (map (λ r : string * string, VObj [("id", VStr r.1); ("ceiling", VStr r.2)]) rows)) = Ok (Some rows) ∧
  Forall (λ r, trim r.1 ≠ "") rows.
Proof.
  unfold egress_valid. rewrite andb_true_iff. intros [Hn HF] Hc. unfold entries, bounded_array. rewrite length_map, Hn. clear Hn.
  rewrite project_all_Some. induction Hc as [|[i c] rows Hc _ IH]; [by repeat constructor|]. cbn [map forallb fst snd] in *.
  apply andb_prop in HF as [Hr HF]. destruct (IH HF) as [H1 H2]. pose proof Hr as [Hb _]%andb_prop. apply negb_true_iff, bool_decide_eq_false in Hb.
  split; [|by constructor]. constructor; [|done]. unfold egress_entry, not_object. cbn [typeof_object is_null negb orb get obj_get]. decide_tests.
  cbn [default from_option mbind result_bind]. unfold id. rewrite toTag_known by done. by rewrite Hr.
Qed.

Lemma formats_accepted ms : Z.of_nat (length ms) <= MAX_SECTION_ENTRIES →
  Forall (λ m, m.1 ≠ "" ∧ m.2 ≠ "" ∧ trim m.1 = m.1 ∧ trim m.2 = m.2) ms →
  entries format_entry (VArr (map (λ m : string * string, VObj [("source", VStr m.1); ("format", VStr m.2)]) ms)) = Ok (Some ms).
Proof.
  intros Hn HF. unfold entries, bounded_array. rewrite length_map, (proj2 (Z.leb_le _ _) Hn). apply project_all_Some. clear Hn.
  induction HF as [|[a b] ms (Ha & Hb & Ta & Tb) _ IH]; constructor; [|done]. cbn [fst snd] in *. unfold format_entry, not_object.
  cbn [typeof_object is_null negb orb get obj_get]. decide_tests. cbn [default from_option mbind result_bind]. unfold id.
  by rewrite Ta, Tb, !bool_decide_eq_false_2.
Qed.

Lemma count_accepted x max : f64_isInteger x && f64_le 0 x = true → f64_le x (f64_ofZ max) = true → nonNegativeInt (VNum x) max = Some x.
Proof. intros H1 H2. unfold nonNegativeInt. by rewrite H1, H2. Qed.

Lemma f64_le_trans x y z : f64_le x y = true → f64_le y z = true → f64_le x z = true.
Proof. unfold f64_le. rewrite !andb_true_iff, !Z.leb_le. intros ((? & ?) & ?) ((? & ?) & ?). split_and!; [done..|lia]. Qed.

Lemma lug_accepted l : lug_valid l = true → lug_fits l → lug_input (lug_body l) = Ok (Some l).
Proof.
  unfold lug_valid. rewrite !andb_true_iff. intros ((Hi & Ht) & _) Hf. destruct l as [e re a g s b t c]. unfold lug_fits, LUG_NUMBERS in *.
  rewrite !Forall_cons in Hf. cbn [forallb fst lug_get lug_accounts lug_groups lug_sessions lug_bucket lug_threshold lug_cadence] in *.
  destruct Hf as (F1 & F2 & F3 & F4 & _ & F6 & _). rewrite !andb_true_iff in Hi. destruct Hi as (H1 & H2 & H3 & H4 & H5 & H6 & _).
  unfold lug_input, lug_body, not_object. cbn [typeof_object is_null negb orb get obj_get lug_enabled lug_resolution lug_accounts lug_groups
    lug_sessions lug_bucket lug_threshold lug_cadence]. decide_tests. cbn [default from_option mbind result_bind]. unfold id. cbv zeta.
  assert (f64_le t (f64_ofZ 65535) = true) as F5 by (by eapply f64_le_trans; [exact Ht|]).
  by rewrite !count_accepted by (done || by apply andb_true_iff).
Qed.

(** A request of one section is read as its patch. *)
Lemma section_read k x : toSettingsCommitRequest (VObj [("edits", VArr []); ("sections", VObj [(k, x)])]) =
  then_some (toSectionPatch (VObj [(k, x)])) (λ p, Ok (Some (mkCommit [] (Some p)))).
Proof.
  unfold toSettingsCommitRequest, section_field. cbn [not_object typeof_object is_null negb orb get obj_get]. decide_tests.
  cbn [default from_option mbind result_bind or_else is_nullish]. unfold id. change (bounded_array MAX_SETTING_EDITS (VArr [])) with (Some (@nil value)).
  cbv iota. cbn [project_all mbind result_bind is_undefined then_some]. by destruct (toSectionPatch _) as [[]|].
Qed.

(** Reads a patch of one section. *)
Ltac read_section :=
  unfold section_request; cbn [section_property fst snd]; rewrite section_read; unfold toSectionPatch, section_field, not_object;
  cbn [typeof_object is_null negb orb get obj_get]; decide_tests; cbn [default from_option mbind result_bind]; unfold id;
  cbn [is_undefined mbind result_bind then_some].

Lemma section_accepted n d x : section_value n d = Some x → drafts_ok d → (n = lug_exposure → lug_fits (d_lug d)) →
  ∃ p, section_says d n p ∧ toSettingsCommitRequest (section_request (n, x)) = Ok (Some (mkCommit [] (Some p))).
Proof.
  intros Hs [Hc Hr] Hl. destruct n; unfold section_value, DualControlForm, EgressForm, LugForm, FamiliesForm, SourceMapForm, ModelRefForm in Hs.
  - injection Hs as <-. eexists. split.
    { apply (says_capabilities d (filter (λ c, c ∈ d_capabilities d) ADMIN_CAPABILITIES)); [intros c; rewrite list_elem_of_filter; naive_solver|].
      apply NoDup_filter. by apply (bool_decide_unpack _). }
    set (l := filter _ _). assert (listWithinLimits l = true) as Hw.
    { apply andb_true_iff. split; [|apply forallb_forall; intros c Hc'%list_elem_of_In; apply list_elem_of_filter in Hc' as [_ Hc'];
        apply list_elem_of_In in Hc'; cbn in Hc'; destruct_or! Hc'; by subst].
      apply Z.leb_le. pose proof (length_filter (λ c, c ∈ d_capabilities d) ADMIN_CAPABILITIES) as H. fold l in H. change (length ADMIN_CAPABILITIES) with 12%nat in H. unfold MAX_SECTION_ENTRIES. lia. }
    read_section. by rewrite list_accepted.
  - destruct (egress_valid (d_rows d)) eqn:E; [|done]. injection Hs as <-. destruct (egress_accepted _ E Hc) as [Ha Hb]. eexists. split; [by apply says_egress|].
    read_section. by rewrite Ha.
  - destruct (lug_valid (d_lug d)) eqn:E; [|done]. injection Hs as <-. eexists. split; [by apply says_lug|].
    specialize (Hl eq_refl). pose proof (lug_accepted _ E Hl) as Ha. change (lug_body (d_lug d)) with (lug_body (d_lug d)) in Ha. unfold lug_body in Ha |- *.
    read_section. by rewrite Ha.
  - destruct (listWithinLimits _) eqn:E; [|done]. injection Hs as <-. eexists. split; [apply (says_families d), linesOf_says|].
    read_section. by rewrite list_accepted.
  - destruct (_ && _) eqn:E; [|done]. injection Hs as <-. apply andb_prop in E as [Ep [Hn _]%andb_prop].
    destruct (formats_parsed (linesOf (d_formats d)) Ep) as (H1 & H2 & H3); [apply Forall_forall; intros l Hl'; by apply linesOf_elem in Hl' as [? _]|].
    eexists. split. { apply (says_formats d (linesOf (d_formats d)) _ (linesOf_says _) H1). eapply Forall_impl; [exact H2|]. by intros m (? & ? & _). }
    read_section. rewrite formats_accepted; [done| |done]. rewrite H3. by apply Z.leb_le.
  - injection Hs as <-. eexists. split; [by apply says_model|]. read_section. unfold text_entry.
    pose proof (js_strlen_trim (d_ref d)). by rewrite (proj2 (Z.leb_le _ _)) by lia.
Qed.

(** A count above 32 bits passes the form's limits, and the server refuses the request. *)
Lemma lug_refused l : lug_valid l = true → ¬ lug_fits l → toSettingsCommitRequest (section_request (lug_exposure, lug_body l)) = Ok None.
Proof.
  unfold lug_valid. rewrite !andb_true_iff. intros ((_ & Ht) & _) Hf. destruct l as [e re a g s b t c]. unfold lug_fits, LUG_NUMBERS in Hf.
  rewrite !Forall_cons in Hf. cbn [fst lug_get lug_accounts lug_groups lug_sessions lug_bucket lug_threshold lug_cadence] in *.
  assert (f64_le t (f64_ofZ 4294967295) = true) as Ft by (by eapply f64_le_trans; [exact Ht|]). read_section.
  unfold lug_input, lug_body, not_object. cbn [typeof_object is_null negb orb get obj_get lug_enabled lug_resolution lug_accounts lug_groups
    lug_sessions lug_bucket lug_threshold lug_cadence]. decide_tests. cbn [default from_option mbind result_bind]. unfold id, nonNegativeInt. cbv zeta.
  destruct (f64_le a (f64_ofZ 4294967295)) eqn:Ea; rewrite ?andb_true_r, ?andb_false_r; [|by repeat case_match].
  destruct (f64_le g (f64_ofZ 4294967295)) eqn:Eg; rewrite ?andb_true_r, ?andb_false_r; [|by repeat case_match].
  destruct (f64_le s (f64_ofZ 4294967295)) eqn:Es; rewrite ?andb_true_r, ?andb_false_r; [|by repeat case_match].
  destruct (f64_le b (f64_ofZ 4294967295)) eqn:Eb; rewrite ?andb_true_r, ?andb_false_r; [|by repeat case_match].
  destruct (f64_le c (f64_ofZ 4294967295)) eqn:Ec; rewrite ?andb_true_r, ?andb_false_r; [|by repeat case_match].
  exfalso. apply Hf. by rewrite Forall_nil.
Qed.

(** ** Runs of the page *)

Definition view_ok (v : ConfigView) : Prop :=
  ∀ x, cv_values v = Some x → Forall (λ r, r.2 ∈ CLASSIFICATION_TAGS) (v_egress x) ∧ js_strlen (default "" (v_model x)) ≤ MAX_SECTION_TEXT_CHARS.

(** A ceiling is one of the choices offered, and the reference is no longer than its input takes. *)
Definition event_ok (e : form_event) : Prop :=
  match e with
  | RowCeiling _ c => c ∈ CLASSIFICATION_TAGS
  | RefTyped t => js_strlen t ≤ MAX_SECTION_TEXT_CHARS
  | ViewRead v => view_ok v
  | _ => True
  end.

Lemma drafts_of_ok v : view_ok v → drafts_ok (drafts_of v).
Proof. intros Hv. unfold drafts_of. destruct (cv_values v) as [x|] eqn:E; [by apply Hv|]. by split; [constructor|]. Qed.

Lemma forms_step_ok s e : drafts_ok (fp_drafts s) → event_ok e → drafts_ok (fp_drafts (forms_step s e).1).
Proof.
  destruct s as [v [cs rows lug fam fmt ref] p]. intros [Hr Hm] He. cbn [fp_drafts d_rows d_ref] in *. destruct e; cbn in *; repeat case_match; try done.
  - split; [|done]. apply Forall_alter; [done|]. intros x Hx _. rewrite Forall_lookup in Hr. by eapply Hr in Hx.
  - split; [|done]. by apply Forall_alter.
  - split; [|done]. by apply Forall_delete.
  - split; [|done]. unfold edit_drafts. cbn [d_rows egress_edit]. destruct (_ <=? _); [done|]. apply Forall_app. split; [done|]. constructor; [by apply (bool_decide_unpack _)|constructor].
  - pose proof (drafts_of_ok _ He) as [? ?]. split; cbn; by case_bool_decide.
Qed.

Lemma forms_run_app s a b : forms_run s (a ++ b) =
  ((forms_run (forms_run s a).1 b).1, (forms_run s a).2 ++ (forms_run (forms_run s a).1 b).2).
Proof.
  revert s. induction a as [|e a IH]; intros s; cbn; [by destruct (forms_run s b)|]. destruct (forms_step s e) as [s1 c1]. rewrite IH.
  destruct (forms_run s1 a) as [s2 c2]. cbn. destruct (forms_run s2 b). cbn. by rewrite app_assoc.
Qed.

Lemma forms_run_snoc s a e : let s1 := (forms_run s a).1 in
  forms_run s (a ++ [e]) = ((forms_step s1 e).1, (forms_run s a).2 ++ (forms_step s1 e).2).
Proof. cbn zeta. rewrite forms_run_app. cbn. destruct (forms_step _ e). cbn. by rewrite app_nil_r. Qed.

Lemma forms_run_ok s es : drafts_ok (fp_drafts s) → Forall event_ok es → drafts_ok (fp_drafts (forms_run s es).1).
Proof.
  intros Hs. induction es as [|e es IH] using rev_ind; [done|]. rewrite Forall_app, Forall_singleton. intros [HF He].
  rewrite forms_run_snoc. apply forms_step_ok; auto.
Qed.

(** A change waiting for confirmation is what a form on the page submitted. *)
Definition waits (s0 : FormsPage) (es : list form_event) (p : SectionName * value) : Prop :=
  ∃ pre mid, es = pre ++ SubmitSection p.1 :: mid ∧ p.1 ∈ section_names (fp_view (forms_run s0 pre).1) ∧
    section_value p.1 (fp_drafts (forms_run s0 pre).1) = Some p.2.

Lemma waits_snoc s0 es p e : waits s0 es p → waits s0 (es ++ [e]) p.
Proof. intros (pre & mid & -> & H). exists pre, (mid ++ [e]). by rewrite <- app_assoc. Qed.

Lemma pending_waits v es p : fp_pending (forms_run (open_forms v) es).1 = Some p → waits (open_forms v) es p.
Proof.
  revert p. induction es as [|e es IH] using rev_ind; intros p; [done|]. rewrite forms_run_snoc. cbn [fst].
  destruct (forms_run (open_forms v) es).1 as [v' d q] eqn:E. cbn [fp_pending] in IH.
  destruct e; cbn; try (intros ->; by apply waits_snoc, IH).
  - case_bool_decide as Hn; [|intros ->; by apply waits_snoc, IH]. destruct (section_value n d) as [x|] eqn:Ex; [|intros ->; by apply waits_snoc, IH].
    intros [= <-]. exists es, []. cbn [fst snd]. rewrite E. by cbn.
  - case_bool_decide; cbn; [|done]. intros ->. by apply waits_snoc, IH.
  - case_bool_decide; cbn; [|done]. intros ->. by apply waits_snoc, IH.
Qed.

(** Each call is made by a confirmation, of the change then waiting. *)
Lemma calls_confirmed v es call : call ∈ (forms_run (open_forms v) es).2 →
  ∃ before after p, es = before ++ ConfirmSection :: after ∧ let s := (forms_run (open_forms v) before).1 in
    fp_pending s = Some p ∧ call = governed_change (cv_propose (fp_view s)) (section_request p).
Proof.
  induction es as [|e es IH] using rev_ind; [by intros ?%not_elem_of_nil|]. rewrite forms_run_snoc. cbn [snd]. intros [H|H]%elem_of_app.
  - destruct (IH H) as (before & after & p & -> & Hp). exists before, (after ++ [e]), p. by rewrite <- app_assoc.
  - destruct (forms_run (open_forms v) es).1 as [v' d q] eqn:E. destruct e; cbn in H; try (by apply not_elem_of_nil in H); repeat case_match; try (by apply not_elem_of_nil in H).
    cbn in H. apply list_elem_of_singleton in H as ->. eexists es, [], _. split; [done|]. rewrite E. by cbn.
Qed.

Section forms.
Context {NS : NumberToString} {TN : ToNumberOther}.
Context (JSON_stringify : view → result string) (deps : ServerDeps) (session : OperatorSession) (openApiDocument : value).
Notation asks := (asks JSON_stringify deps session openApiDocument).
Hypothesis Hengine : operatorEngine deps = true.

Lemma change_asks propose n d x : section_value n d = Some x → drafts_ok d → ∃ p, section_says d n p ∧
  ((n = lug_exposure → lug_fits (d_lug d)) → ∃ r, request_of (governed_change propose (section_request (n, x))) = Some r ∧
     asks r ((if propose then c_settingsPropose else c_settingsCommit) (mkCommit [] (Some p)))).
Proof using Hengine.
  intros Hx Hd.
  assert (∀ p, toSettingsCommitRequest (section_request (n, x)) = Ok (Some (mkCommit [] (Some p))) →
    ∃ r, request_of (governed_change propose (section_request (n, x))) = Some r ∧
      asks r ((if propose then c_settingsPropose else c_settingsCommit) (mkCommit [] (Some p)))) as Hask.
  { intros p Hp. destruct propose; (eexists; split; [reflexivity|]); [by eapply does_propose|by eapply does_commit]. }
  destruct (decide (n = lug_exposure)) as [->|Hn].
  - exists (mkPatch None None (Some (d_lug d)) None None None). split; [constructor|]. intros Hl.
    destruct (section_accepted _ _ _ Hx Hd Hl) as (p & Hs & Hp). inversion Hs; subst. by apply Hask.
  - destruct (section_accepted _ _ _ Hx Hd) as (p & Hs & Hp); [done|]. exists p. split; [done|]. intros _. by apply Hask.
Qed.

End forms.

(** ** Reopening a form *)

(** The committed value of a section, as a form submits one. *)
Definition committed (n : SectionName) (v : SectionValues) : value :=
  match n with
  | dual_control => VArr (map VStr (v_dualControl v))
  | egress_destinations => VArr (map (λ r : string * string, VObj [("id", VStr r.1); ("ceiling", VStr r.2)]) (v_egress v))
  | lug_exposure => lug_body (v_lug v)
  | decoder_families => VArr (map VStr (v_families v))
  | source_format_map => VArr (map (λ m : string * string, VObj [("source", VStr m.1); ("format", VStr m.2)]) (v_formats v))
  | narrative_model => VStr (default "" (v_model v))
  end.

(** A text of one line, without whitespace around it. *)
Definition line_text (s : string) : Prop := trim s = s ∧ s ≠ "" ∧ no_char newline s = true.

(** Values within the limits the forms state. *)
Record values_ok (v : SectionValues) : Prop := {
  vok_capabilities : v_dualControl v `sublist_of` ADMIN_CAPABILITIES;
  vok_egress : egress_valid (v_egress v) = true;
  vok_lug : lug_valid (v_lug v) = true;
  vok_families : Forall line_text (v_families v) ∧ listWithinLimits (v_families v) = true;
  vok_formats : Forall (λ m, line_text m.1 ∧ line_text m.2) (v_formats v) ∧ listWithinLimits (map equals_line (v_formats v)) = true;
  vok_model : trim (default "" (v_model v)) = default "" (v_model v) }.

Lemma filter_agree {A} (P Q : A → Prop) `{!∀ x, Decision (P x), !∀ x, Decision (Q x)} l :
  Forall (λ x, P x ↔ Q x) l → filter P l = filter Q l.
Proof.
  induction 1 as [|x l Hx _ IH]; [done|]. destruct (decide (P x)) as [Hp|Hp].
  - rewrite !filter_cons_True by (done || by apply Hx). by rewrite IH.
  - rewrite !filter_cons_False; [done|by rewrite <- Hx|done].
Qed.

Lemma filter_sublist (l k : list string) : l `sublist_of` k → NoDup k → filter (λ c, c ∈ l) k = l.
Proof.
  induction 1 as [|x l k Hs IH|x l k Hs IH]; [done|..]; intros [Hx Hd]%NoDup_cons.
  - rewrite filter_cons_True by left. f_equal. etransitivity; [|exact (IH Hd)]. apply filter_agree.
    apply Forall_forall. intros y Hy. rewrite elem_of_cons. split; [|by right]. by intros [->|?].
  - rewrite filter_cons_False; [by apply IH|]. intros Hin. apply Hx. by eapply sublist_subseteq.
Qed.

(** A piece without a character is met before the character. *)
Lemma prefix_before c p s r u : no_char c p = true → s +:+ String c r = p +:+ u → ∃ w, s = p +:+ w.
Proof.
  revert s. induction p as [|d p IH]; intros s; [by exists s|]. cbn [no_char]. intros [Hd Hp]%andb_prop. destruct s as [|e s].
  - rewrite str_nil_app, str_app_cons. intros [= <- _]. by rewrite Ascii.eqb_refl in Hd.
  - rewrite !str_app_cons. intros [= -> E]. destruct (IH s Hp E) as [w ->]. by exists w.
Qed.

Lemma strip_any_before c ps s r : Forall (λ p, no_char c p = true) ps → strip_any ps s = None → strip_any ps (s +:+ String c r) = None.
Proof.
  intros HF Hs. destruct (strip_any ps (s +:+ String c r)) as [u|] eqn:E; [|done]. apply strip_any_Some in E as (p & Hp & E).
  rewrite Forall_forall in HF. destruct (prefix_before c p s r u (HF p Hp) E) as [w ->]. by destruct (strip_any_front ps p w Hp).
Qed.

Lemma line_trimmed m : line_text m.1 → line_text m.2 → line_text (equals_line m).
Proof.
  destruct m as [s f]. cbn [fst snd]. intros (Ts & Hs & Ns) (Tf & Hf & Nf). unfold equals_line. cbn [fst snd]. split_and!.
  - apply trimmed_stuck in Ts as [W1 _], Tf as [_ W2]. apply stuck_trimmed.
    + apply (strip_any_before equals _ s f); [|done]. apply (bool_decide_unpack _). by vm_compute.
    + rewrite rev_piece, (rev_piece f "="), str_app_assoc. apply (strip_any_before equals _ (str_rev_app f "")); [|done].
      apply (bool_decide_unpack _). by vm_compute.
  - by destruct s.
  - rewrite !no_char_app, Ns, Nf. done.
Qed.

(** An override is read back from its line just when its source holds no [=]. *)
Lemma line_read_back m : line_text m.1 → line_text m.2 → format_line (equals_line m) = Some m ↔ no_char equals m.1 = true.
Proof.
  destruct m as [s f]. cbn [fst snd]. intros (Ts & Hs & _) (Tf & Hf & _). unfold format_line, equals_line. cbn [fst snd]. split.
  - destruct (cut_at equals s) as [[a b]|] eqn:E; [|intros _; by apply cut_at_None]. apply cut_at_Some in E as [Es Ha].
    assert (s +:+ "=" +:+ f = a +:+ String equals (b +:+ "=" +:+ f)) as -> by (rewrite Es, str_app_assoc; done).
    rewrite cut_at_first by done. destruct (_ || _); [done|]. intros [= Et _]. exfalso.
    pose proof (js_strlen_trim a) as H. rewrite Et, Es, js_strlen_app in H. change (js_strlen (String equals b)) with (1 + js_strlen b) in H. pose proof (js_strlen_nonneg b). lia.
  - intros Ha. change ("=" +:+ f) with (String equals f). rewrite cut_at_first, !bool_decide_eq_false_2, Ts, Tf by done. done.
Qed.

(** C28: A section form opened and submitted unchanged submits what is committed, for values within the limits it states,
    with one exception: an override whose source holds an equals sign is not read back, so the source-format form of such
    a list submits something else, or nothing. *)
Theorem section_forms_reopen v :
  values_ok v →
  (∀ n, n ≠ source_format_map → section_value n (open_drafts v) = Some (committed n v)) ∧
  (section_value source_format_map (open_drafts v) = Some (committed source_format_map v) ↔
   Forall (λ m, no_char equals m.1 = true) (v_formats v)).
Proof.
  intros [Hd He Hl [Hf Hfl] [Hm Hml] Hr]. split.
  - intros n Hn. destruct n; try done; unfold section_value, DualControlForm, EgressForm, LugForm, FamiliesForm, SourceMapForm, ModelRefForm; cbn [open_drafts d_capabilities d_rows d_lug d_families d_ref committed].
    + rewrite filter_sublist; [done..|]. by apply (bool_decide_unpack _).
    + by rewrite He.
    + by rewrite Hl.
    + by rewrite linesOf_text, Hfl.
    + by rewrite Hr.
  - unfold section_value, DualControlForm, EgressForm, LugForm, FamiliesForm, SourceMapForm, ModelRefForm; cbn [open_drafts d_formats committed]. rewrite linesOf_text, Hml, andb_true_r.
    2:{ apply Forall_fmap. eapply Forall_impl; [exact Hm|]. intros m [? ?]. by apply line_trimmed. }
    clear Hml. rewrite map_map. split.
    + destruct (forallb _ _) eqn:Eb; [|done]. intros [= E]. clear Hd He Hl Hf Hfl Hr. induction Hm as [|m l [H1 H2] _ IH]; [constructor|].
      cbn [map forallb] in Eb. apply andb_prop in Eb as [Em Eb]. apply bool_decide_eq_true in Em. cbn [map omap list_omap] in E.
      destruct (format_line (equals_line m)) as [m'|] eqn:Ef; [|done]. cbn [map] in E. injection E as E1 E2 E. constructor; [|by apply IH].
      apply line_read_back; [done..|]. rewrite Ef. by destruct m, m'; simplify_eq/=.
    + intros HF. assert (map (λ m, format_line (equals_line m)) (v_formats v) = map Some (v_formats v)) as ->.
      { apply map_ext_Forall. apply Forall_forall. intros m Hin. rewrite Forall_forall in Hm, HF. apply line_read_back; [by apply Hm..|by apply HF]. }
      assert (forallb (λ p : option (string * string), bool_decide (p ≠ None)) (map Some (v_formats v)) = true) as ->
        by (apply forallb_forall; by intros ? (? & <- & _)%in_map_iff).
      do 3 f_equal. clear. induction (v_formats v) as [|m l IH]; [done|]. cbn. by f_equal.
Qed.

(** ** The SOC tab *)

Record SiemDraft := mkSiemDraft {
  sd_enabled : bool; sd_vendor : string; sd_host : string; sd_stream : string; sd_caseUrlBase : string; sd_ceiling : string }.

(** The settings as read. *)
Record SocView := mkSocView { sv_low : Z; sv_high : Z; sv_siem : SiemDraft; sv_locked : bool }.

Record SocPage := mkSocPage { sp_view : SocView; sp_low : string; sp_high : string; sp_siem : SiemDraft; sp_pending : option value }.

Inductive soc_event :=
  | LowTyped (t : string) | HighTyped (t : string) | SiemEdited (s : SiemDraft)
  | SubmitTiers | SubmitSiem | ConfirmSoc | CancelSoc | SocRead (v : SocView).

Definition tiersValid (pLow pHigh : string) : bool :=
  negb (bool_decide (trim pLow = "")) && negb (bool_decide (trim pHigh = "")) && socTiersOrdered (StringToNumber pLow) (StringToNumber pHigh).
Definition tiersPatch (pLow pHigh : string) : value :=
  VObj [("tiers", VObj [("pLowMilli", VNum (parseInt10 pLow)); ("pHighMilli", VNum (parseInt10 pHigh))])].
Definition siemPatch (s : SiemDraft) : value :=
  VObj [("siemWriteback", VObj [("enabled", VBool (sd_enabled s)); ("vendor", VStr (sd_vendor s)); ("host", VStr (sd_host s));
    ("stream", VStr (sd_stream s)); ("caseUrlBase", VStr (sd_caseUrlBase s)); ("ceiling", VStr (sd_ceiling s))])].

Section soc_page.
Context {NS : NumberToString}.

Definition open_soc (v : SocView) (p : option value) : SocPage :=
  mkSocPage v (js_String (VNum (sv_low v))) (js_String (VNum (sv_high v))) (sv_siem v) p.

(** The controls are disabled while the settings are under dual control. *)
Definition soc_step (s : SocPage) (e : soc_event) : SocPage * list (flow value) :=
  let '(mkSocPage v lo hi siem p) := s in
  let unlocked (s' : SocPage) := if sv_locked v then s else s' in
  match e with
  | LowTyped t => (unlocked (mkSocPage v t hi siem p), [])
  | HighTyped t => (unlocked (mkSocPage v lo t siem p), [])
  | SiemEdited s' => (unlocked (mkSocPage v lo hi s' p), [])
  | SubmitTiers => (unlocked (if tiersValid lo hi then mkSocPage v lo hi siem (Some (tiersPatch lo hi)) else s), [])
  | SubmitSiem => (unlocked (mkSocPage v lo hi siem (Some (siemPatch siem))), [])
  | ConfirmSoc => (mkSocPage v lo hi siem None, match p with Some b => [postSocSettings b] | None => [] end)
  | CancelSoc => (mkSocPage v lo hi siem None, [])
  | SocRead v' => (open_soc v' p, [])
  end.

Fixpoint soc_run (s : SocPage) (es : list soc_event) : SocPage * list (flow value) :=
  match es with
  | [] => (s, [])
  | e :: es => let '(s1, c1) := soc_step s e in let '(s2, c2) := soc_run s1 es in (s2, c1 ++ c2)
  end.

(** The line of a receipt. *)
Definition receiptLine (refused dualControlRequired : bool) (version : Z) (explanation : option string) : string :=
  if negb refused then "Committed at version " +:+ js_String (VNum version)
  else if dualControlRequired then "Refused: tenant-config is under dual control. Propose and approve on the admin plane."
  else match explanation with None => "Refused by the engine" | Some e => "Refused: " +:+ e end.

(** Vendors and ceilings are chosen from the lists offered. *)
Definition siem_ok (s : SiemDraft) : Prop := sd_vendor s ∈ SIEM_VENDORS ∧ sd_ceiling s ∈ CLASSIFICATION_TAGS.
Definition soc_event_ok (e : soc_event) : Prop :=
  match e with SiemEdited s => siem_ok s | SocRead v => siem_ok (sv_siem v) | _ => True end.

(** What may wait for confirmation: tiers that passed the check, or the write-back as drafted. *)
Definition soc_change (b : value) : Prop :=
  (∃ lo hi, tiersValid lo hi = true ∧ b = tiersPatch lo hi) ∨ (∃ s, siem_ok s ∧ b = siemPatch s).

Definition soc_inv (s : SocPage) : Prop := siem_ok (sp_siem s) ∧ ∀ b, sp_pending s = Some b → soc_change b.
Definition soc_calls (cs : list (flow value)) : Prop := Forall (λ c, ∃ b, soc_change b ∧ c = postSocSettings b) cs.

Lemma soc_step_inv s e : soc_inv s → soc_event_ok e → soc_inv (soc_step s e).1 ∧ soc_calls (soc_step s e).2.
Proof using.
  intros Hs He. pose proof Hs as [Hsi Hp]. destruct s as [v lo hi siem p]. cbn [sp_siem sp_pending] in *. destruct e; cbn [soc_step fst snd].
  1-5: split; [|constructor]; destruct (sv_locked v); [done|].
  1-3: by split.
  - destruct (tiersValid lo hi) eqn:E; [|done]. split; [done|]. intros ? [= <-]. left. by exists lo, hi.
  - split; [done|]. intros ? [= <-]. right. by exists siem.
  - destruct p as [b|]; (split; [by split|]); [|constructor]. constructor; [|constructor]. exists b. split; [by apply Hp|done].
  - split; [by split|constructor].
  - split; [by split|constructor].
Qed.

Lemma soc_run_changes s es : soc_inv s → Forall soc_event_ok es → soc_calls (soc_run s es).2.
Proof using.
  intros Hs HF. revert s Hs. induction HF as [|e es He _ IH]; intros s Hs; [constructor|]. cbn [soc_run].
  pose proof (soc_step_inv s e Hs He) as [H1 H2]. destruct (soc_step s e) as [s1 c1]. specialize (IH s1 H1). destruct (soc_run s1 es) as [s2 c2].
  by apply Forall_app.
Qed.
End soc_page.

Lemma f64_le_ofZ a b : 0 ≤ a ≤ MAX_SAFE → 0 ≤ b ≤ MAX_SAFE → f64_le (f64_ofZ a) (f64_ofZ b) = (a <=? b).
Proof.
  intros Ha Hb. destruct (f64_key_nonneg a Ha) as [E1 N1], (f64_key_nonneg b Hb) as [E2 N2]. unfold f64_le. rewrite N1, N2, E1, E2. cbn [negb andb].
  destruct (Z.leb_spec a b) as [H|H]; [apply Z.leb_le, f64_ofZ_mono; lia|]. apply Z.leb_gt. pose proof (f64_ofZ_mono b a ltac:(lia) ltac:(lia)) as Hm.
  destruct (decide (f64_ofZ b = f64_ofZ a)) as [E|]; [|lia]. destruct (f64_ofZ_spec a ltac:(lia)) as (_ & Za & _), (f64_ofZ_spec b ltac:(lia)) as (_ & Zb & _).
  rewrite E, Za in Zb. lia.
Qed.

(** The check of two whole numbers, written out. *)
Lemma tiersValid_digits lo hi : 0 ≤ lo ≤ MAX_SAFE → 0 ≤ hi ≤ MAX_SAFE →
  tiersValid (pretty lo) (pretty hi) = bool_decide (lo ≤ hi ≤ SOC_TIER_MILLI_MAX).
Proof.
  intros Hlo Hhi. unfold tiersValid, socTiersOrdered. rewrite !StringToNumber_pretty by done.
  destruct (f64_ofZ_spec lo ltac:(lia)) as (-> & _), (f64_ofZ_spec hi ltac:(lia)) as (-> & _).
  change 0 with (f64_ofZ 0) at 1. rewrite !f64_le_ofZ by (unfold SOC_TIER_MILLI_MAX, MAX_SAFE in *; lia). rewrite (proj2 (Z.leb_le 0 lo)) by lia.
  assert (∀ n, 0 ≤ n ≤ MAX_SAFE → trim (pretty n) ≠ "") as Ht.
  { intros n Hn. destruct (pretty_decimal n) as (c & d & -> & Hd & _); [lia|]. by rewrite trim_token by (by apply digits_token). }
  rewrite !bool_decide_eq_false_2 by (by apply Ht). cbn [negb andb]. case_bool_decide; [rewrite !(proj2 (Z.leb_le _ _)) by lia; done|].
  apply andb_false_iff. rewrite !Z.leb_gt. lia.
Qed.

Definition siem_of (s : SiemDraft) : SiemWritebackSettings :=
  mkSiem (VBool (sd_enabled s)) (sd_vendor s) (VStr (sd_host s)) (VStr (sd_stream s)) (VStr (sd_caseUrlBase s)) (sd_ceiling s).

Lemma siem_accepted s : siem_ok s → toSocSettingsPatch (siemPatch s) = Ok (Some (mkSocPatch None (Some (siem_of s)))).
Proof.
  intros [Hv Hc]. unfold toSocSettingsPatch, siemPatch, patch_siem_input, not_object. cbn [typeof_object is_null negb orb get obj_get]. decide_tests.
  cbn [default from_option mbind result_bind is_undefined then_some typeof_object is_null negb orb]. unfold id.
  cbn [is_undefined mbind result_bind then_some typeof_object is_null negb orb get obj_get]. decide_tests.
  cbn [default from_option mbind result_bind]. unfold id.
  assert (∀ known x, x ∈ known → narrowTag known (VStr x) = Some x) as Hn by (intros known x ?; by apply toTag_known).
  by rewrite !Hn.
Qed.

Lemma tiers_accepted pLow pHigh x y : parseInt10 pLow = x → parseInt10 pHigh = y → milli (VNum x) = Some x → milli (VNum y) = Some y →
  toSocSettingsPatch (tiersPatch pLow pHigh) = Ok (Some (mkSocPatch (Some (x, y)) None)).
Proof.
  intros Ex Ey Hx Hy. unfold tiersPatch. rewrite Ex, Ey. unfold toSocSettingsPatch, patch_tiers_input, not_object. cbn [typeof_object is_null negb orb get obj_get]. decide_tests.
  cbn [default from_option mbind result_bind]. unfold id. cbn [is_undefined typeof_object is_null negb orb get obj_get]. decide_tests.
  cbn [default from_option mbind result_bind]. unfold id. by rewrite Hx, Hy.
Qed.

Lemma milli_ofZ n : 0 ≤ n ≤ 65535 → milli (VNum (f64_ofZ n)) = Some (f64_ofZ n).
Proof.
  intros Hn. unfold milli. destruct (f64_ofZ_spec n ltac:(unfold MAX_SAFE; lia)) as (-> & _). change 0 with (f64_ofZ 0) at 1.
  rewrite !f64_le_ofZ by (unfold MAX_SAFE; lia). by rewrite !(proj2 (Z.leb_le _ _)) by lia.
Qed.

Section soc_forms.
Context {NS : NumberToString} {TN : ToNumberOther}.
Context (JSON_stringify : view → result string) (deps : ServerDeps) (session : OperatorSession) (openApiDocument : value).
Notation asks := (asks JSON_stringify deps session openApiDocument).
Hypothesis Hengine : operatorEngine deps = true.

(** C29: What the SOC tab commits.  Over any run a call carries either the write-back as drafted, which it asks the
    engine to commit as it is, or two bars that passed the tab's check.  For bars written in digits the check is the
    engine's rule, p_low at most p_high at most 1000, and the pair is committed as written.  The check reads a bar as a
    number and the commit reads its leading digits: a bar written with an exponent passes as one number and is sent as
    another, so that an out-of-order pair reaches the engine. *)
Theorem soc_tab_commits v :
  siem_ok (sv_siem v) →
  (∀ es call, Forall soc_event_ok es → call ∈ (soc_run (open_soc v None) es).2 →
     (∃ s r, siem_ok s ∧ request_of call = Some r ∧ asks r (c_socSettingsCommit (mkSocPatch None (Some (siem_of s))))) ∨
     (∃ lo hi, tiersValid lo hi = true ∧ call = postSocSettings (tiersPatch lo hi))) ∧
  (∀ lo hi, 0 ≤ lo ≤ MAX_SAFE → 0 ≤ hi ≤ MAX_SAFE →
     (tiersValid (pretty lo) (pretty hi) = true ↔ lo ≤ hi ≤ SOC_TIER_MILLI_MAX) ∧
     (lo ≤ hi ≤ SOC_TIER_MILLI_MAX → ∃ r, request_of (postSocSettings (tiersPatch (pretty lo) (pretty hi))) = Some r ∧
        asks r (c_socSettingsCommit (mkSocPatch (Some (f64_ofZ lo, f64_ofZ hi)) None)))) ∧
  (sv_locked v = false → ∃ call r, (soc_run (open_soc v None) [LowTyped "5"; HighTyped "1e3"; SubmitTiers; ConfirmSoc]).2 = [call] ∧
     request_of call = Some r ∧ asks r (c_socSettingsCommit (mkSocPatch (Some (f64_ofZ 5, f64_ofZ 1)) None)) ∧
     socTiersOrdered (f64_ofZ 5) (f64_ofZ 1) = false).
Proof using Hengine.
  intros Hv. split_and!.
  - intros es call HF Hc. pose proof (soc_run_changes (open_soc v None) es ltac:(by split) HF) as H. unfold soc_calls in H. rewrite Forall_forall in H.
    destruct (H call Hc) as (b & [(lo & hi & Ht & ->)|(s & Hs & ->)] & ->); [right; by exists lo, hi|]. left.
    eexists s, _. split; [done|]. split; [reflexivity|]. by eapply does_soc_settings; [exact Hengine|apply siem_accepted| |reflexivity].
  - intros lo hi Hlo Hhi. rewrite tiersValid_digits by done. split; [apply bool_decide_eq_true|]. intros Hr. eexists. split; [reflexivity|].
    unfold SOC_TIER_MILLI_MAX in Hr. eapply does_soc_settings; [exact Hengine| |done|reflexivity].
    apply tiers_accepted; (by apply parseInt10_pretty) || (apply milli_ofZ; lia).
  - intros Hl. exists (postSocSettings (tiersPatch "5" "1e3")). eexists. split.
    { destruct v as [lo hi siem locked]. cbn [sv_locked] in Hl. subst locked. cbn [soc_run soc_step open_soc sv_locked].
      by assert (tiersValid "5" "1e3" = true) as -> by (vm_compute; reflexivity). }
    split; [reflexivity|]. split; [|by vm_compute].
    eapply does_soc_settings; [exact Hengine| |done|reflexivity]. apply tiers_accepted; by vm_compute.
Qed.
End soc_forms.

(** ** A page at work *)

#[local] Instance settings_numbers : NumberToString := λ _, "7".
#[local] Instance settings_toNumber : ToNumberOther := λ _, f64_NaN.
Definition sample_settings_deps : ServerDeps := mkServerDeps true true (mkConfig None None None None (mkRbac [] [] None)) [].
Definition sample_settings_admin : OperatorSession := mkSession "S" "auth0|1" None Admin "pid" "acme" tenant_admin 3600005.

Definition sample_setting (origin key : string) : SettingRow :=
  mkSettingRow (VStr key) (VStr "core") origin (VStr "on") (VStr "Bool") (VStr "off") (VStr "") (VStr "live") (VStr "console") (VStr "") (VStr "") (VBool true).
Definition sample_values : SectionValues :=
  mkValues ["tenant-config"] [("soar", "internal")] (mkLug true false (f64_ofZ 10) (f64_ofZ 10) (f64_ofZ 4) (f64_ofZ 24) (f64_ofZ 900) (f64_ofZ 6))
    ["dns"] [("fw-1", "cef")] (Some "m@1").
Definition sample_config : ConfigView :=
  mkConfigView 3 (map (sample_setting "section") (map SECTION_KEYS SECTIONS)) ["core"] true (Some sample_values).
Definition sample_form_events : list form_event :=
  [AddRow; RowId 1 "siem"; RowCeiling 1 "restricted"; SubmitSection egress_destinations; ConfirmSection].


Lemma section_forms_reopen_witness :
  section_value decoder_families (open_drafts sample_values) = Some (VArr [VStr "dns"]) ∧
  section_value source_format_map (open_drafts sample_values) = Some (committed source_format_map sample_values).
Proof.
  destruct (section_forms_reopen sample_values) as [H1 H2].
  - constructor; try reflexivity.
    + do 8 apply sublist_cons. apply sublist_skip, sublist_nil_l.
    + split; [repeat constructor; by vm_compute|reflexivity].
    + split; [repeat constructor; by vm_compute|reflexivity].
  - split; [apply (H1 decoder_families); discriminate|]. apply H2. repeat constructor.
Defined.

Definition sample_soc : SocView := mkSocView 0 (f64_ofZ 1000) (mkSiemDraft true "splunk" "h" "s" "u" "internal") false.

Lemma soc_tab_commits_witness : ∃ call r,
  (soc_run (open_soc sample_soc None) [LowTyped "5"; HighTyped "1e3"; SubmitTiers; ConfirmSoc]).2 = [call] ∧ request_of call = Some r ∧
  asks (λ _, Ok "") sample_settings_deps sample_settings_admin VNull r (c_socSettingsCommit (mkSocPatch (Some (f64_ofZ 5, f64_ofZ 1)) None)).
Proof.
  destruct (soc_tab_commits (λ _, Ok "") sample_settings_deps sample_settings_admin VNull eq_refl sample_soc) as (_ & _ & H);
    [split; by apply (bool_decide_unpack _)|]. destruct (H eq_refl) as (call & r & H1 & H2 & H3 & _). exists call, r. split; [exact H1|]. split; [exact H2|exact H3].
Defined.
