(* ===== verification/SettingsTable.v ===== *)
(** * The table of knobs on the settings page ([SettingsSurface.tsx])

    One knob is edited at a time, edits are staged by key, and the staged edits are sent
    together behind a dialog.  A refused batch stays staged; an accepted one empties the
    stage. *)
From S2P Require Import Prelude Bytes Float64 Cbor JsValue WireProofs JsString Num64 LineExchange Cache Rbac Sessions Cookie Oidc.
From S2P Require Import AuthRouter OperatorEngine Vtz VtzProofs Policies PoliciesProofs Forge Distribute Routes JsOps Overview Users Objects EntityDetail Soc Settings.
From S2P Require Import Decimal ModelAccess Http Uri Console Server ConsoleProofs ConsoleCommands PolicyEditor SettingsForms.
From stdpp Require Import list.
Open Scope Z_scope.

(** The apply class in the operator's words. *)
Definition applyLabel (row : SettingRow) : result string :=
  c ← settingApplyClass row;
  Ok (if bool_decide (c = "live") then "live"
      else if bool_decide (c = "boot-bound") then "boot-bound: changes need a restart"
      else if bool_decide (c = "pending") then "pending: no live consumer yet" else "fixed at boot").

(** The surfaces that have rows. *)
Definition table_surfaces (v : ConfigView) : list string :=
  List.filter (λ s, existsb (λ r, is_str s (surface r)) (cv_rows v)) (cv_surfaces v).
Definition table_rows (v : ConfigView) (s : string) : list SettingRow := List.filter (λ r, is_str s (surface r)) (cv_rows v).

Record TablePage := mkTable {
  t_view : ConfigView; t_surface : string; t_editing : option (string * string); t_staged : list (string * string);
  t_confirming : bool; t_flight : bool }.

Definition open_table (v : ConfigView) : TablePage := mkTable v (default "" (list.head (table_surfaces v))) None [] false false.

(** [byKey.get(k)?.value]: of the last row with the key *)
Definition row_by_key (v : ConfigView) (k : string) : option SettingRow := List.find (λ r, is_str k (row_key r)) (rev (cv_rows v)).

Inductive table_event :=
  | PickSurface (s : string) | EditRow (r : SettingRow) | EditTyped (t : string) | StageEdit | CancelEdit | DiscardStaged
  | AskConfirm | ConfirmTable | DismissTable | Settled (refused : bool) | TableRead (v : ConfigView).

(** The row of the open editor, while it is on the page. *)
Definition shown_editable (s : TablePage) (k : string) : bool :=
  existsb (λ r, bool_decide (key_of r = k) && isKeyEditable r) (table_rows (t_view s) (t_surface s)).

(** What the stage button stages. *)
Definition stages (s : TablePage) : option (string * string) :=
  '(k, v) ← t_editing s; if shown_editable s k then Some (k, v) else None.

Definition edits_request (staged : list (string * string)) : value :=
  VObj [("edits", VArr (map (λ e : string * string, VObj [("key", VStr e.1); ("value", VStr e.2)]) staged))].

Definition table_step (s : TablePage) (e : table_event) : TablePage * list (flow value) :=
  let '(mkTable v sf ed st cf fl) := s in
  match e with
  | PickSurface x => (mkTable v (if bool_decide (x ∈ table_surfaces v) then x else sf) ed st cf fl, [])
  | EditRow r =>
      (if isKeyEditable r && bool_decide (key_of r ∈ map key_of (table_rows v sf)) && negb (bool_decide (option_map fst ed = Some (key_of r)))
       then mkTable v sf (Some (key_of r, default (text (row_value r)) (map_get st (key_of r)))) st cf fl else s, [])
  | EditTyped t =>
      (match ed with Some (k, _) => if shown_editable s k then mkTable v sf (Some (k, t)) st cf fl else s | None => s end, [])
  | StageEdit => (match stages s with Some (k, x) => mkTable v sf None (map_set st k x) cf fl | None => s end, [])
  | CancelEdit => (mkTable v sf None st cf fl, [])
  | DiscardStaged => (mkTable v sf ed [] cf fl, [])
  | AskConfirm => (mkTable v sf ed st (negb (bool_decide (st = [])) || cf) fl, [])
  | ConfirmTable => if cf then (mkTable v sf ed st false true, [governed_change (cv_propose v) (edits_request st)]) else (s, [])
  | DismissTable => (mkTable v sf ed st false fl, [])
  | Settled refused => (if fl then mkTable v sf ed (if refused then st else []) cf false else s, [])
  | TableRead v' => (mkTable v' sf ed st cf fl, [])
  end.

Fixpoint table_run (s : TablePage) (es : list table_event) : TablePage * list (flow value) :=
  match es with
  | [] => (s, [])
  | e :: es => let '(s1, c1) := table_step s e in let '(s2, c2) := table_run s1 es in (s2, c1 ++ c2)
  end.

(** What the dialog lists: each staged key with the value shown and the value sent. *)
Definition confirm_line (v : ConfigView) (e : string * string) : string :=
  e.1 +:+ ": " +:+ match row_by_key v e.1 with
                   | Some r => if is_nullish (row_value r) then "(unset)" else text (row_value r)
                   | None => "(unset)"
                   end +:+ " -> " +:+ e.2.
Definition confirm_text (s : TablePage) : string :=
  JsString.join "; " (map (confirm_line (t_view s)) (t_staged s)) +:+
  (if cv_propose (t_view s)
   then ". Tenant-config is under dual control: the engine validates the batch and records it as a proposal a different Admin must approve."
   else ". The engine validates the batch and commits it under your principal.").

(** ** Runs *)

Lemma table_run_app s a b : table_run s (a ++ b) =
  ((table_run (table_run s a).1 b).1, (table_run s a).2 ++ (table_run (table_run s a).1 b).2).
Proof.
  revert s. induction a as [|e a IH]; intros s; cbn; [by destruct (table_run s b)|]. destruct (table_step s e) as [s1 c1]. rewrite IH.
  destruct (table_run s1 a) as [s2 c2]. cbn. destruct (table_run s2 b). cbn. by rewrite app_assoc.
Qed.

Lemma table_run_snoc s a e : let s1 := (table_run s a).1 in
  table_run s (a ++ [e]) = ((table_step s1 e).1, (table_run s a).2 ++ (table_step s1 e).2).
Proof. cbn zeta. rewrite table_run_app. cbn. destruct (table_step _ e). cbn. by rewrite app_nil_r. Qed.

(** An event that leaves the staged edit of a key in place: it neither stages the key again nor empties the stage. *)
Definition keeps (k : string) (s : TablePage) (e : table_event) : Prop :=
  match e with
  | StageEdit => ∀ x, stages s ≠ Some (k, x)
  | DiscardStaged => False
  | Settled false => t_flight s = false
  | _ => True
  end.

(** The last staging of a key, still in place. *)
Definition last_staged (s0 : TablePage) (es : list table_event) (k x : string) : Prop :=
  ∃ pre mid, es = pre ++ StageEdit :: mid ∧ stages (table_run s0 pre).1 = Some (k, x) ∧
    ∀ a e b, mid = a ++ e :: b → keeps k (table_run s0 (pre ++ StageEdit :: a)).1 e.

Lemma last_staged_snoc s0 es e k x : last_staged s0 (es ++ [e]) k x ↔
  (e = StageEdit ∧ stages (table_run s0 es).1 = Some (k, x)) ∨ (last_staged s0 es k x ∧ keeps k (table_run s0 es).1 e).
Proof.
  split.
  - intros (pre & mid & E & Hs & Hk). destruct mid as [|y mid _] using rev_ind.
    { apply app_inj_tail in E as [-> ->]. by left. }
    rewrite app_comm_cons, app_assoc in E. apply app_inj_tail in E as [-> ->]. right. split; [|by apply (Hk mid y [])].
    exists pre, mid. split_and!; [done|done|]. intros a e' b ->. apply (Hk a e' (b ++ [y])). by rewrite <- app_assoc.
  - intros [[-> Hs]|[(pre & mid & -> & Hs & Hk) He]].
    { exists es, []. split_and!; [done|done|]. intros a e b E. by destruct a. }
    exists pre, (mid ++ [e]). split_and!; [by rewrite <- app_assoc|done|]. intros a e' b E. destruct b as [|y b _] using rev_ind.
    { apply app_inj_tail in E as [-> ->]. done. }
    rewrite app_comm_cons, app_assoc in E. apply app_inj_tail in E as [-> ->]. by eapply Hk.
Qed.

Lemma staged_iff v es k x : map_get (t_staged (table_run (open_table v) es).1) k = Some x ↔ last_staged (open_table v) es k x.
Proof.
  revert k x. induction es as [|e es IH] using rev_ind; intros k x.
  { split; [done|]. intros (pre & mid & E & _). by destruct pre. }
  rewrite last_staged_snoc, table_run_snoc. cbn [fst]. specialize (IH k x). destruct (table_run (open_table v) es).1 as [w sf ed st cf fl] eqn:E. rewrite <- IH.
  cbn [t_staged]. clear E IH.
  assert (∀ st', st' = st → (map_get st' k = Some x ↔ (StageEdit = TableRead w ∧ stages (mkTable w sf ed st cf fl) = Some (k, x)) ∨ map_get st k = Some x ∧ True))
    as Hsame by (intros ? ->; naive_solver).
  destruct e as [y|r|t| | | | | | |[]|w']; cbn [table_step fst keeps t_flight]; try (etransitivity; [apply Hsame; by repeat case_match|naive_solver]).
  - destruct (stages _) as [[k' y]|] eqn:Es; cbn [t_staged]; [|naive_solver]. destruct (decide (k' = k)) as [->|Hne].
    + rewrite map_get_set. naive_solver.
    + rewrite map_get_set_ne by done. naive_solver.
  - cbn. naive_solver.
  - destruct fl; cbn [t_staged]; naive_solver.
Qed.

Lemma map_set_fst {V} (m : list (string * V)) k v k' : k' ∈ map fst (map_set m k v) ↔ k' = k ∨ k' ∈ map fst m.
Proof.
  induction m as [|[j w] m IH]; cbn; [rewrite elem_of_cons; naive_solver|]. case_bool_decide as E; cbn; rewrite !elem_of_cons, ?IH; naive_solver.
Qed.

Lemma map_set_nodup {V} (m : list (string * V)) k v : NoDup (map fst m) → NoDup (map fst (map_set m k v)).
Proof.
  induction m as [|[j w] m IH]; cbn; [intros _; apply NoDup_singleton|]. rewrite NoDup_cons. intros [Hj Hd].
  case_bool_decide as E; cbn; apply NoDup_cons; [by subst|]. rewrite map_set_fst. split; [naive_solver|by apply IH].
Qed.

Lemma map_get_iff_elem {V} (m : list (string * V)) k v : NoDup (map fst m) → (k, v) ∈ m ↔ map_get m k = Some v.
Proof.
  induction m as [|[j w] m IH]; cbn; [split; [by intros ?%not_elem_of_nil|done]|]. rewrite NoDup_cons, elem_of_cons. intros [Hj Hd].
  case_bool_decide as E; [subst|by rewrite <- IH by done; naive_solver]. split; [|naive_solver]. intros [[= ->]|Hin]; [done|].
  exfalso. apply Hj. apply list_elem_of_fmap. by exists (j, v).
Qed.

Lemma staged_nodup v es : NoDup (map fst (t_staged (table_run (open_table v) es).1)).
Proof.
  induction es as [|e es IH] using rev_ind; [constructor|]. rewrite table_run_snoc. cbn [fst].
  destruct (table_run (open_table v) es).1 as [w sf ed st cf fl]. destruct e; cbn [table_step fst]; repeat case_match; cbn; try done; try constructor.
  by apply map_set_nodup.
Qed.

Lemma table_calls v es call : call ∈ (table_run (open_table v) es).2 → ∃ before after, es = before ++ ConfirmTable :: after ∧
  let s := (table_run (open_table v) before).1 in call = governed_change (cv_propose (t_view s)) (edits_request (t_staged s)).
Proof.
  induction es as [|e es IH] using rev_ind; [by intros ?%not_elem_of_nil|]. rewrite table_run_snoc. cbn [snd]. intros [H|H]%elem_of_app.
  - destruct (IH H) as (before & after & -> & Hc). exists before, (after ++ [e]). by rewrite <- app_assoc.
  - destruct (table_run (open_table v) es).1 as [w sf ed st cf fl] eqn:E. destruct e; cbn in H; try (by apply not_elem_of_nil in H).
    destruct cf; [|by apply not_elem_of_nil in H]. apply list_elem_of_singleton in H as ->. exists es, []. split; [done|]. by rewrite E.
Qed.

Lemma stages_offered s k x : stages s = Some (k, x) → ∃ r, r ∈ cv_rows (t_view s) ∧ key_of r = k ∧ isKeyEditable r = true.
Proof.
  unfold stages. destruct (t_editing s) as [[k' x']|]; [|done]. cbn [mbind option_bind]. destruct (shown_editable s k') eqn:E; [|done]. intros [= <- <-].
  apply existsb_exists in E as (r & Hr & [Hk He]%andb_prop). apply filter_In in Hr as [Hr _]. exists r. split; [by apply list_elem_of_In|].
  by apply bool_decide_eq_true in Hk.
Qed.

(** A batch the server reads: some edits, at most 64, of keys in the registry's shape and values an input takes. *)
Definition batch_fits (st : list (string * string)) : Prop :=
  st ≠ [] ∧ Z.of_nat (length st) ≤ MAX_SETTING_EDITS ∧
  Forall (λ e, setting_key e.1 = true ∧ js_strlen e.2 ≤ MAX_SETTING_VALUE_CHARS) st.

Lemma batch_accepted st : batch_fits st →
  toSettingsCommitRequest (edits_request st) = Ok (Some (mkCommit (map (λ e, mkEdit e.1 e.2) st) None)).
Proof.
  intros (Hne & Hn & HF). unfold toSettingsCommitRequest, edits_request, section_field, not_object.
  cbn [typeof_object is_null negb orb get obj_get]. decide_tests. cbn [default from_option mbind result_bind or_else is_nullish]. unfold id.
  cbn [or_else is_nullish bounded_array]. rewrite length_map, (proj2 (Z.leb_le _ _) Hn).
  assert (project_all toEditInput (map (λ e : string * string, VObj [("key", VStr e.1); ("value", VStr e.2)]) st) =
    Ok (Some (map (λ e, mkEdit e.1 e.2) st))) as ->.
  { apply project_all_Some. clear Hne Hn. induction HF as [|[k x] st [Hk Hx] _ IH]; constructor; [|done]. unfold toEditInput, not_object.
    cbn [typeof_object is_null negb orb get obj_get fst snd] in *. decide_tests. cbn [default from_option mbind result_bind]. unfold id.
    by rewrite Hk, (proj2 (Z.leb_le _ _) Hx). }
  cbn [mbind result_bind then_some is_undefined]. by destruct st.
Qed.

Section table.
Context {NS : NumberToString} {TN : ToNumberOther}.
Context (JSON_stringify : view → result string) (deps : ServerDeps) (session : OperatorSession) (openApiDocument : value).
Notation asks := (asks JSON_stringify deps session openApiDocument).
Hypothesis Hengine : operatorEngine deps = true.

(** C25: The table sends what is staged.  Over any run a batch is sent only by a confirmation, and holds one edit for each
    key whose last staging is still in place -- not staged again, not discarded, not emptied by an accepted batch -- with
    the value staged then, and no other edit; only keys the engine marked editable can be staged; and a batch the server
    can read asks the engine, through the whole server, to commit, or under dual control to propose, exactly those edits.
    An edit staged while an earlier batch is on its way is lost: the answer that accepts the batch empties the whole
    stage, and the edit is never sent. *)
Theorem staged_edits_commit v :
  (∀ es call, call ∈ (table_run (open_table v) es).2 →
     ∃ before after st, es = before ++ ConfirmTable :: after ∧ NoDup (map fst st) ∧
       (∀ k x, (k, x) ∈ st ↔ last_staged (open_table v) before k x) ∧
       (batch_fits st → ∃ r, request_of call = Some r ∧
          asks r ((if cv_propose (t_view (table_run (open_table v) before).1) then c_settingsPropose else c_settingsCommit)
                    (mkCommit (map (λ e, mkEdit e.1 e.2) st) None)))) ∧
  (∀ s k x, stages s = Some (k, x) → ∃ r, r ∈ cv_rows (t_view s) ∧ key_of r = k ∧ isKeyEditable r = true) ∧
  (∀ r1 r2, let shown := table_rows v (t_surface (open_table v)) in
     r1 ∈ shown → r2 ∈ shown → isKeyEditable r1 = true → isKeyEditable r2 = true → key_of r1 ≠ key_of r2 →
     let '(s, calls) := table_run (open_table v) [EditRow r1; StageEdit; AskConfirm; ConfirmTable; EditRow r2; StageEdit; Settled false] in
     t_staged s = [] ∧ calls = [governed_change (cv_propose v) (edits_request [(key_of r1, text (row_value r1))])]).
Proof using Hengine.
  split_and!.
  - intros es call (before & after & -> & ->)%table_calls. cbv zeta. set (s := (table_run (open_table v) before).1).
    exists before, after, (t_staged s). split; [done|]. split; [apply staged_nodup|]. split.
    { intros k x. rewrite map_get_iff_elem by apply staged_nodup. apply staged_iff. }
    fold s. intros Hf. destruct (cv_propose (t_view s)); (eexists; split; [reflexivity|]);
      [eapply does_propose; [exact Hengine|by apply batch_accepted|done]|eapply does_commit; [exact Hengine|by apply batch_accepted|done]].
  - intros s k x. apply stages_offered.
  - intros r1 r2. cbv zeta. cbn [open_table t_surface]. set (sf := default "" _). intros H1 H2 E1 E2 Hne.
    assert (∀ ed st cf fl r, r ∈ table_rows v sf → isKeyEditable r = true → shown_editable (mkTable v sf ed st cf fl) (key_of r) = true) as Hs.
    { intros ed st cf fl r Hr He. apply existsb_exists. exists r. split; [by apply list_elem_of_In|]. by rewrite bool_decide_eq_true_2, He. }
    assert (∀ r, r ∈ table_rows v sf → bool_decide (key_of r ∈ map key_of (table_rows v sf)) = true) as Hk.
    { intros r Hr. apply bool_decide_eq_true. apply list_elem_of_fmap. by exists r. }
    cbn [table_run table_step open_table]. fold sf. rewrite E1, (Hk r1 H1). cbn [andb negb option_map fst map_get default]. decide_tests. cbn [negb].
    cbn [table_step]. unfold stages at 1. cbn [t_editing mbind option_bind]. rewrite (Hs _ _ _ _ r1 H1 E1). cbn [map_set table_step]. decide_tests.
    cbn [negb orb table_step]. rewrite E2, (Hk r2 H2). cbn [andb negb option_map fst]. decide_tests. cbn [negb table_step].
    unfold stages. cbn [t_editing mbind option_bind]. by rewrite (Hs _ _ _ _ r2 H2 E2).
Qed.
End table.

#[local] Instance table_numbers : NumberToString := λ _, "7".
#[local] Instance table_toNumber : ToNumberOther := λ _, f64_NaN.
Definition sample_knobs : ConfigView := mkConfigView 3 [sample_setting "knob" "a.one"; sample_setting "knob" "a.two"] ["core"] false None.
Definition sample_table_events : list table_event :=
  [EditRow (sample_setting "knob" "a.one"); EditTyped "off"; StageEdit; AskConfirm; ConfirmTable].

Lemma staged_edits_commit_witness : ∃ before after st, sample_table_events = before ++ ConfirmTable :: after ∧ NoDup (map fst st) ∧
  (∀ k x, (k, x) ∈ st ↔ last_staged (open_table sample_knobs) before k x).
Proof.
  destruct (proj1 (staged_edits_commit (λ _, Ok "") sample_settings_deps sample_settings_admin VNull eq_refl sample_knobs) sample_table_events
    (governed_change false (edits_request [("a.one", "off")]))) as (before & after & st & E & Hd & Hs & _); [vm_compute; left|].
  exists before, after, st. split; [exact E|]. split; [exact Hd|exact Hs].
Defined.
