(* ===== verification/EntityForms.v ===== *)
(** * The forms of the users, objects and policies pages ([UsersSurface.tsx], [ObjectsSurface.tsx], [PoliciesSurface.tsx])

    Each page shows one form, for a new record or for a row.  The fields of the form are
    seeded when it appears and live as long as it stays on the page: pointing an open form at
    another row changes what the form is for and leaves its fields alone. *)
From S2P Require Import Prelude Bytes Float64 Cbor JsValue WireProofs JsString Num64 LineExchange Cache Rbac Sessions Cookie Oidc.
From S2P Require Import AuthRouter OperatorEngine Vtz VtzProofs PoliciesProofs Forge Distribute ReverseDns Routes JsOps Overview Users Objects EntityDetail Soc Settings.
From S2P Require Import Decimal ModelAccess Http Uri Console Server ConsoleProofs ConsoleCommands Policies PolicyEditor.
From stdpp Require Import list.
Open Scope Z_scope.

(** ** A form on a page *)

Inductive form_target (A : Type) := Closed | Adding | Editing (a : A).
Arguments Closed {A}.
Arguments Adding {A}.
Arguments Editing {A} a.

Inductive host_event (A D : Type) := ToggleAdd | EditClick (a : A) | FormDone | FieldsTyped (d : D).
Arguments ToggleAdd {A D}.
Arguments EditClick {A D} a.
Arguments FormDone {A D}.
Arguments FieldsTyped {A D} d.

(** The fields of a closed form are of no consequence. *)
Record form_host (A D : Type) := mkHost { h_target : form_target A; h_fields : D }.
Arguments mkHost {A D} _ _.
Arguments h_target {A D} _.
Arguments h_fields {A D} _.

(** [form === 'add' ? null : form] *)
Definition editing_of {A} (t : form_target A) : option A := match t with Editing a => Some a | _ => None end.

Section host.
Context {A D : Type} (seed : option A → D).

(** [setForm(t)]: the form is mounted, with fresh fields, only when there was none. *)
Definition setForm (t : form_target A) (h : form_host A D) : form_host A D :=
  mkHost t (match h_target h with Closed => seed (editing_of t) | _ => h_fields h end).

Definition host_step (h : form_host A D) (e : host_event A D) : form_host A D :=
  match e with
  | ToggleAdd => setForm (match h_target h with Adding => Closed | _ => Adding end) h
  | EditClick a => setForm (Editing a) h
  | FormDone => setForm Closed h
  | FieldsTyped d => match h_target h with Closed => h | t => mkHost t d end
  end.
Definition host_run (h : form_host A D) (es : list (host_event A D)) : form_host A D := foldl host_step h es.
Definition closed_host : form_host A D := mkHost Closed (seed None).

(** An open form pointed at another row keeps its fields. *)
Lemma switch_keeps h b : h_target h ≠ Closed → host_step h (EditClick b) = mkHost (Editing b) (h_fields h).
Proof. unfold host_step, setForm. by destruct (h_target h). Qed.

(** A form that appears has the fields of its row. *)
Lemma open_seeds h b : h_target h = Closed → host_step h (EditClick b) = mkHost (Editing b) (seed (Some b)).
Proof. unfold host_step, setForm. by intros ->. Qed.
End host.

(** ** Users *)

Definition statusVariant (status : string) : string :=
  match status with "active" => "good" | "suspended" | "disabled" => "caution" | _ => "critical" end.
Definition kindLabel (kind : string) : string :=
  match kind with "human" => "Human" | "service" => "Service Account" | _ => "AI Agent" end.

(** Slugs are ASCII. *)
Definition connectorLabel (slug : string) : string :=
  if bool_decide (slug = "auth0") then "Auth0"
  else match slug with String c s => String (toUpper_char c) s | EmptyString => "" end.
Definition originLabel (row : PrincipalRow) : string :=
  if negb (falsy (boundConnector row)) then connectorLabel (text (boundConnector row))
  else if bool_decide (origin row = "local") then "Local" else "Observed".

Record UserFormState := mkUserForm { uf_username : string; uf_kind : string; uf_email : string; uf_org : string }.

Definition seed_user (editing : option PrincipalRow) : UserFormState :=
  match editing with
  | None => mkUserForm "" "human" "" ""
  | Some r => mkUserForm (text (username r)) (if bool_decide (pr_kind r = "service") then "service" else "human") (text (pr_email r)) (text (org r))
  end.

(** [s.trim() === '' ? null : s.trim()] *)
Definition blank_null (s : string) : value := let t := trim s in if bool_decide (t = "") then VNull else VStr t.
Definition user_body (s : UserFormState) : props :=
  [("username", VStr (trim (uf_username s))); ("kind", VStr (uf_kind s)); ("email", blank_null (uf_email s)); ("org", blank_null (uf_org s))].

(** The button needs a user name. *)
Definition submit_user (editing : option PrincipalRow) (s : UserFormState) : option (flow value) :=
  if bool_decide (trim (uf_username s) = "") then None
  else Some ((match editing with None => create_user_call | Some _ => edit_user_call end) (VObj (user_body s))).

(** The status changes a row offers, by their label; rows that are not local offer none. *)
Definition status_actions (row : PrincipalRow) : list (string * string) :=
  if negb (bool_decide (origin row = "local")) then []
  else (if bool_decide (pr_status row = "active") then ("Suspend", "suspended") else ("Activate", "active"))
       :: (if bool_decide (pr_status row = "revoked") then [] else [("Revoke", "revoked")]).
(** The confirmed change. *)
Definition confirm_status (row : PrincipalRow) (status : string) : flow value := user_status_call (text (username row)) status.

(** The line under a failed user form. *)
Definition userFailure (error : option console_error) (add : bool) : option string :=
  match error with
  | None => None
  | Some (StatusError "GroupCreateError" status) =>
      Some (if status =? 409 then
              (if add then "A principal with that username already exists."
               else "The change conflicts: the record no longer exists, or an identity provider owns that field.")
            else if status =? 400 then "The form is incomplete or malformed."
            else if status =? 401 then "Your session has expired. Sign in again; nothing was committed."
            else if (status =? 502) || (status =? 503) then "The command could not reach the engine."
            else "The engine refused the command.")
  | Some _ => Some "The command could not reach the engine."
  end.

(** The group form. *)
Definition submit_group (name description : string) : option (flow value) :=
  if bool_decide (trim name = "") then None else Some (create_group_call (trim name) (trim description)).
Definition groupFailure (error : option console_error) : option string :=
  match error with
  | None => None
  | Some (StatusError "GroupCreateError" status) =>
      Some (if status =? 409 then "A group with that name already exists."
            else if status =? 400 then "The group name is required."
            else if (status =? 502) || (status =? 503) then "The command could not reach the engine."
            else "The engine refused the command.")
  | Some _ => Some "The command could not reach the engine."
  end.

(** ** Objects *)

Definition selectorText (card : ObjectCard) : string :=
  (match oc_selectorKind card with "cidr" => "CIDR" | "group_ref" => "group" | k => k end) +:+ " " +:+ text (oc_selectorValue card).
Definition lifecycleVariant (card : ObjectCard) : string := if bool_decide (oc_lifecycle card = "published") then "good" else "caution".
Definition defaultSelectorKind (kind : string) : string :=
  if bool_decide (kind = "network") then "cidr" else if bool_decide (kind = "group") then "group_ref" else "glob".
Definition selector_choices (kind : string) : list string :=
  if bool_decide (kind = "network") then ["cidr"; "exact"; "glob"] else if bool_decide (kind = "group") then ["group_ref"] else ["exact"; "glob"].
Definition selectorHint (kind selectorKind : string) : string :=
  if bool_decide (selectorKind = "cidr") then "e.g. 10.8.0.0/16"
  else if bool_decide (selectorKind = "group_ref") then "the group name (members come from IdAM/Users)"
  else if bool_decide (kind = "data_store") then "a locator (s3://bucket) or a path glob (/data/phi/**)"
  else if bool_decide (kind = "script") then "a path or path glob (**/backup.ps1)"
  else if bool_decide (kind = "server") then "a host name or glob (prod-*)"
  else "an exact value or a glob (*)".

Record ObjectFormState := mkObjectForm {
  of_name : string; of_kind : string; of_selectorKind : string; of_selectorValue : string; of_description : string }.

Definition seed_object (editing : option ObjectCard) : ObjectFormState :=
  match editing with
  | None => mkObjectForm "" "server" (defaultSelectorKind "server") "" ""
  | Some o => mkObjectForm (text (oc_name o)) (oc_kind o) (oc_selectorKind o) (text (oc_selectorValue o)) (text (oc_description o))
  end.
(** Changing the kind re-seeds the selector. *)
Definition onKind (next : string) (s : ObjectFormState) : ObjectFormState :=
  mkObjectForm (of_name s) next (defaultSelectorKind next) (of_selectorValue s) (of_description s).

(** The tags and the lifecycle are those of the row the form is for. *)
Definition object_body (editing : option ObjectCard) (s : ObjectFormState) : props :=
  [("name", VStr (trim (of_name s))); ("kind", VStr (of_kind s)); ("selectorKind", VStr (of_selectorKind s));
   ("selectorValue", VStr (trim (of_selectorValue s))); ("description", VStr (trim (of_description s)));
   ("tags", match editing with Some o => or_else (oc_tags o) (VArr []) | None => VArr [] end);
   ("lifecycle", VStr (match editing with Some o => oc_lifecycle o | None => "draft" end))].

Definition submit_object (editing : option ObjectCard) (s : ObjectFormState) : option (flow value) :=
  if bool_decide (trim (of_name s) = "") || bool_decide (trim (of_selectorValue s) = "") then None
  else Some (object_write_call (match editing with None => true | Some _ => false end) (VObj (object_body editing s))).
Definition confirm_delete_object (card : ObjectCard) : flow value := delete_object_call (text (oc_name card)).

Definition objectFailure (error : option console_error) : option string :=
  match error with
  | None => None
  | Some (StatusError "ObjectCommandError" status) =>
      Some (if status =? 409 then "An object with that name already exists."
            else if status =? 400 then "The form is incomplete or the selector does not fit the kind."
            else if status =? 401 then "Your session has expired. Sign in again; nothing was committed."
            else if (status =? 502) || (status =? 503) then "The command could not reach the engine."
            else "The engine refused the command.")
  | Some _ => Some "The command could not reach the engine."
  end.

(** The catalog by kind, in the order of the registry, kinds without objects left out. *)
Definition grouped (rows : list ObjectCard) : list (string * list ObjectCard) :=
  filter (λ g, g.2 ≠ []) (map (λ k, (k, filter (λ o, oc_kind o = k) rows)) OBJECT_KINDS).

(** ** Policies *)

Definition actionVariant (action : string) : string :=
  match action with "permit" => "good" | "monitor" => "info" | "quarantine" => "quarantine" | _ => "critical" end.
Definition policyActionLabel (action : string) : string :=
  match action with "permit" => "Permit" | "monitor" => "Monitor" | "quarantine" => "Quarantine" | _ => "Deny" end.
Definition policyLoggingLabel (logging : string) : string := match logging with "full" => "Full" | "sampled" => "Sampled" | _ => "Off" end.
Definition policyProtocolLabel (protocol : string) : string :=
  match protocol with "tcp" => "TCP" | "udp" => "UDP" | "https" => "HTTPS" | _ => "SSH" end.

Definition endpointLabel (e : RuleEndpoint) : string := kind e +:+ ":" +:+ text (selectorValue e).
Definition scopeSummary (policy : PolicyRow) : string :=
  match rules (row_draft policy) with
  | [] => "--"
  | [rule] => endpointLabel (source rule) +:+ " -> " +:+ endpointLabel (destination rule)
  | rs => pretty (Z.of_nat (length (dedupe [] (map (λ r, endpointLabel (source r)) rs)))) +:+ " sources -> " +:+
          pretty (Z.of_nat (length (dedupe [] (map (λ r, endpointLabel (destination r)) rs)))) +:+ " targets"
  end.
Definition networkSummary (policy : PolicyRow) : string :=
  let n := network (row_draft policy) in
  match filter (λ p, p ≠ "") [JsString.join "/" (map policyProtocolLabel (protocols n)); text (ports n)] with
  | [] => "any"
  | parts => JsString.join " " parts
  end.
Definition distinctActions (policy : PolicyRow) : list string :=
  filter (λ a, a ∈ map action (rules (row_draft policy))) POLICY_ACTIONS.
Definition array_items (v : value) : list value := match v with VArr items => items | _ => [] end.
Definition restrictionsSummary (policy : PolicyRow) : string :=
  let r := restrictions (row_draft policy) in
  let parts :=
    (if negb (bool_decide (scheduleDays r = [])) || negb (is_null (scheduleStartMinute r)) || negb (is_null (scheduleEndMinute r))
     then ["scheduled"] else []) ++
    (if is_null (activeUntil r) then [] else ["expires"]) ++
    (match array_items (geo r) with [] => [] | l => ["geo(" +:+ pretty (Z.of_nat (length l)) +:+ ")"] end) ++
    map text (array_items (tags r)) in
  match parts with [] => "--" | _ => JsString.join (string_of_bytes [32; 0xc2; 0xb7; 32]) parts end.

(** The confirmed deletion. *)
Definition confirm_delete_policy (policy : PolicyRow) : flow value :=
  delete_policy_call (text (vtz (row_draft policy))) (text (row_id policy)).

(** ** What the forms say *)

Definition text_says (s : string) (o : option string) : Prop :=
  match o with Some t => t ≠ "" ∧ t = trim s | None => trim s = "" end.

Record user_says (s : UserFormState) (d : PrincipalDraft) : Prop := {
  us_name : pd_username d = trim (uf_username s) ∧ pd_username d ≠ "";
  us_kind : pd_kind d = uf_kind s;
  us_email : text_says (uf_email s) (pd_email d);
  us_org : text_says (uf_org s) (pd_org d) }.

(** The draft of the fields of a form that is for a row, or for none. *)
Record object_says (editing : option ObjectCard) (s : ObjectFormState) (d : ObjectDraft) : Prop := {
  os_name : ob_name d = trim (of_name s) ∧ ob_name d ≠ "";
  os_selector : ob_kind d = of_kind s ∧ ob_selectorKind d = of_selectorKind s ∧ ob_selectorValue d = trim (of_selectorValue s) ∧ ob_selectorValue d ≠ "";
  os_description : ob_description d = trim (of_description s);
  os_tags : VArr (map VStr (ob_tags d)) = match editing with Some o => oc_tags o | None => VArr [] end;
  os_lifecycle : ob_lifecycle d = match editing with Some o => oc_lifecycle o | None => "draft" end }.

(** The choices of the forms, and the rows as the engine serves them. *)
Definition user_ok (s : UserFormState) : Prop := uf_kind s ∈ ["human"; "service"] ∧ trim (uf_username s) ≠ "".
Definition object_ok (s : ObjectFormState) : Prop :=
  of_kind s ∈ OBJECT_KINDS ∧ of_selectorKind s ∈ SELECTOR_KINDS ∧ trim (of_name s) ≠ "" ∧ trim (of_selectorValue s) ≠ "".
Definition card_ok (o : ObjectCard) : Prop := oc_lifecycle o ∈ OBJECT_LIFECYCLES ∧ ∃ ts, oc_tags o = VArr (map VStr ts).

(** Reads a body of literal keys. *)
Ltac read_fields :=
  unfold field_text, optional_text; cbn [get obj_get]; decide_tests; cbn [default from_option mbind result_bind]; unfold id.

Lemma blank_read s : nonblank (blank_null s) = (if bool_decide (trim s = "") then None else Some (trim s)).
Proof. unfold blank_null. case_bool_decide as E; cbn; [done|]. by rewrite trim_idem, bool_decide_eq_false_2. Qed.

Lemma blank_says s : text_says s (trim <$> nonblank (blank_null s)).
Proof. rewrite blank_read. case_bool_decide; cbn; [done|]. by rewrite trim_idem. Qed.

Lemma user_accepted s : user_ok s → ∃ d, parsePrincipalDraft (VObj (user_body s)) = Ok (Some d) ∧ user_says s d.
Proof.
  intros [Hk Hn]. eexists. split.
  - unfold parsePrincipalDraft, user_body. read_fields. rewrite toTag_known by done. cbn [mbind result_bind]. rewrite trim_idem.
    rewrite bool_decide_eq_false_2 by done. reflexivity.
  - split; cbn [pd_username pd_kind pd_email pd_org]; [by split|done|apply blank_says..].
Qed.

Lemma strings_read ts : strings_of (VArr (map VStr ts)) = Some ts.
Proof. cbn. f_equal. induction ts as [|t ts IH]; [done|]. cbn. by f_equal. Qed.

Lemma object_accepted editing s : object_ok s → (∀ o, editing = Some o → card_ok o) →
  ∃ d, parseObjectDraft (VObj (object_body editing s)) = Ok (Some d) ∧ object_says editing s d.
Proof.
  intros (Hk & Hs & Hn & Hv) Ho.
  assert (∃ ts l, match editing with Some o => or_else (oc_tags o) (VArr []) | None => VArr [] end = VArr (map VStr ts) ∧
    match editing with Some o => oc_tags o | None => VArr [] end = VArr (map VStr ts) ∧
    match editing with Some o => oc_lifecycle o | None => "draft" end = l ∧ l ∈ OBJECT_LIFECYCLES) as (ts & l & E1 & E2 & E3 & Hl).
  { destruct editing as [o|]; [|exists [], "draft"; split_and!; [done..|by apply (bool_decide_unpack _)]].
    destruct (Ho o eq_refl) as [Hl [ts Et]]. exists ts, (oc_lifecycle o). by rewrite Et. }
  exists (mkObjectDraft (trim (of_name s)) (of_kind s) (of_selectorKind s) (trim (of_selectorValue s)) (trim (of_description s)) ts l). split.
  - unfold parseObjectDraft, object_body. rewrite E1, E3. read_fields. rewrite !toTag_known by done. cbn [mbind result_bind]. rewrite !trim_idem.
    rewrite !bool_decide_eq_false_2 by done. cbn [orb]. by rewrite strings_read.
  - split; cbn; [done|done|done|by rewrite E2|done].
Qed.

Lemma status_action_known row l st : (l, st) ∈ status_actions row → st ∈ ["active"; "suspended"; "revoked"].
Proof.
  unfold status_actions. intros H. apply (bool_decide_unpack _). repeat case_match; repeat (apply elem_of_cons in H as [[= -> ->]|H]); try done;
    by apply not_elem_of_nil in H.
Qed.

Section entity_forms.
Context {NS : NumberToString} {TN : ToNumberOther}.
Context (JSON_stringify : view → result string) (deps : ServerDeps) (session : OperatorSession) (openApiDocument : value).
Notation asks := (asks JSON_stringify deps session openApiDocument).
Hypothesis Hengine : operatorEngine deps = true.

Lemma user_form_asks editing s : user_ok s → ∃ c r d, submit_user editing s = Some c ∧ request_of c = Some r ∧ user_says s d ∧
  asks r ((match editing with None => c_createPrincipal | Some _ => c_editPrincipal end) d).
Proof using Hengine.
  intros Hs. destruct (user_accepted s Hs) as (d & Hd & Hsd). destruct Hs as [_ Hn]. unfold submit_user. rewrite bool_decide_eq_false_2 by done.
  destruct editing; (do 3 eexists; split; [reflexivity|]; split; [reflexivity|]; split; [exact Hsd|]);
    [eapply does_edit_user|eapply does_create_user]; [exact Hengine|exact Hd|reflexivity|exact Hengine|exact Hd|reflexivity].
Qed.

Lemma object_form_asks editing s : object_ok s → (∀ o, editing = Some o → card_ok o) → ∃ c r d, submit_object editing s = Some c ∧
  request_of c = Some r ∧ object_says editing s d ∧ asks r ((match editing with None => c_createObject | Some _ => c_editObject end) d).
Proof using Hengine.
  intros Hs Ho. destruct (object_accepted editing s Hs Ho) as (d & Hd & Hsd). destruct Hs as (_ & _ & Hn & Hv). unfold submit_object.
  rewrite !bool_decide_eq_false_2 by done. cbn [orb].
  destruct editing; (do 3 eexists; split; [reflexivity|]; split; [reflexivity|]; split; [exact Hsd|]);
    [eapply does_edit_object|eapply does_create_object]; [exact Hengine|exact Hd|reflexivity|exact Hengine|exact Hd|reflexivity].
Qed.
End entity_forms.

(** A text field of a record, as a form shows it. *)
Definition shown (v : value) (s : string) : Prop := v = VStr s ∧ trim s = s.

Record user_row (row : PrincipalRow) (d : PrincipalDraft) : Prop := {
  ur_name : shown (username row) (pd_username d) ∧ pd_username d ≠ "";
  ur_kind : pr_kind row = pd_kind d ∧ pd_kind d ∈ ["human"; "service"];
  ur_email : shown (pr_email row) (default "" (pd_email d)) ∧ pd_email d ≠ Some "";
  ur_org : shown (org row) (default "" (pd_org d)) ∧ pd_org d ≠ Some "" }.

Record object_row (o : ObjectCard) (d : ObjectDraft) : Prop := {
  or_name : shown (oc_name o) (ob_name d) ∧ ob_name d ≠ "";
  or_selector : oc_kind o = ob_kind d ∧ oc_selectorKind o = ob_selectorKind d ∧ shown (oc_selectorValue o) (ob_selectorValue d) ∧ ob_selectorValue d ≠ "";
  or_known : ob_kind d ∈ OBJECT_KINDS ∧ ob_selectorKind d ∈ SELECTOR_KINDS ∧ ob_lifecycle d ∈ OBJECT_LIFECYCLES;
  or_rest : shown (oc_description o) (ob_description d) ∧ oc_tags o = VArr (map VStr (ob_tags d)) ∧ oc_lifecycle o = ob_lifecycle d }.

Lemma text_says_unique s o o' : o' ≠ Some "" → default "" o' = s → trim s = s → text_says s o → o = o'.
Proof.
  intros Hne <- Ht Hs. destruct o as [t|], o' as [t'|]; cbn in *; [destruct Hs as [_ ->]; by f_equal|destruct Hs as [H ->]; by destruct H|congruence|done].
Qed.

Lemma user_row_says row d d' : user_row row d → user_says (seed_user (Some row)) d' → d' = d.
Proof.
  intros [[[Eu Tu] Hu] [Ek Hk] [[Ee Te] He] [[Eo To] Ho]]. unfold seed_user. rewrite Eu, Ek, Ee, Eo. cbn [text].
  assert ((if bool_decide (pd_kind d = "service") then "service" else "human") = pd_kind d) as ->.
  { apply list_elem_of_In in Hk. cbn in Hk. destruct_or! Hk; by rewrite <- Hk. }
  intros [[Hn _] Hkd Hed Hod]. cbn in *. destruct d as [u k e o], d' as [u' k' e' o']. cbn in *.
  apply (text_says_unique _ _ e) in Hed; [|done..]. apply (text_says_unique _ _ o) in Hod; [|done..]. congruence.
Qed.

Lemma user_row_ok row d : user_row row d → user_ok (seed_user (Some row)).
Proof.
  intros [[[Eu Tu] Hu] [Ek Hk] _ _]. unfold user_ok, seed_user. rewrite Eu. cbn. rewrite Tu. split; [|done]. case_bool_decide; by apply (bool_decide_unpack _).
Qed.

Lemma map_VStr_inj l k : map VStr l = map VStr k → l = k.
Proof. revert k. induction l as [|x l IH]; intros [|y k]; cbn; intros E; try done. injection E as -> E. f_equal. by apply IH. Qed.

Lemma object_row_says o d : object_row o d → object_ok (seed_object (Some o)) ∧ card_ok o ∧ ∀ d', object_says (Some o) (seed_object (Some o)) d' → d' = d.
Proof.
  intros [[[En Tn] Hn] (Ek & Es & [Ev Tv] & Hv) (H1 & H2 & H3) ([Ed Td] & Et & El)]. unfold object_ok, card_ok, seed_object.
  rewrite En, Ev, Ed, Ek, Es, Et, El. cbn [of_name of_kind of_selectorKind of_selectorValue of_description text]. rewrite Tn, Tv.
  split; [done|]. split; [by eauto|]. intros d' [[Hn' _] (Hk' & Hs' & Hv' & _) Hd' Ht' Hl']. cbn in *. rewrite Et in Ht'. injection Ht' as Ht'%map_VStr_inj.
  destruct d, d'. cbn in *. congruence.
Qed.

Section entity_pages.
Context {NS : NumberToString} {TN : ToNumberOther}.
Context (JSON_stringify : view → result string) (deps : ServerDeps) (session : OperatorSession) (openApiDocument : value).
Notation asks := (asks JSON_stringify deps session openApiDocument).
Hypothesis Hengine : operatorEngine deps = true.

(** C27: What the users and objects pages commit, end to end.  A user or object form with its needed fields asks the
    engine, through the whole server, to create the record, or to edit the row, the form shows, blank texts left out.  A
    form opened on a row of a page that showed none, and submitted unchanged, asks the engine to write back that row
    exactly.  A status change offered by a row, confirmed, asks for that change of that user; rows that are not local
    offer none. *)
Theorem entity_forms_commit :
  (∀ editing s, user_ok s → ∃ c r d, submit_user editing s = Some c ∧ request_of c = Some r ∧ user_says s d ∧
     asks r ((match editing with None => c_createPrincipal | Some _ => c_editPrincipal end) d)) ∧
  (∀ editing s, object_ok s → (∀ o, editing = Some o → card_ok o) → ∃ c r d, submit_object editing s = Some c ∧ request_of c = Some r ∧
     object_says editing s d ∧ asks r ((match editing with None => c_createObject | Some _ => c_editObject end) d)) ∧
  (∀ h row d, h_target h = Closed → user_row row d → let h' := host_step seed_user h (EditClick row) in
     ∃ c r, submit_user (editing_of (h_target h')) (h_fields h') = Some c ∧ request_of c = Some r ∧ asks r (c_editPrincipal d)) ∧
  (∀ h o d, h_target h = Closed → object_row o d → let h' := host_step seed_object h (EditClick o) in
     ∃ c r, submit_object (editing_of (h_target h')) (h_fields h') = Some c ∧ request_of c = Some r ∧ asks r (c_editObject d)) ∧
  (∀ row l st u, (l, st) ∈ status_actions row → shown (username row) u → u ≠ "" →
     origin row = "local" ∧ ∃ r, request_of (confirm_status row st) = Some r ∧ asks r (c_setPrincipalStatus u st)).
Proof using Hengine.
  split_and!.
  - apply user_form_asks; done.
  - apply object_form_asks; done.
  - intros h row d Hh Hr. cbv zeta. rewrite open_seeds by done. cbn [h_target h_fields editing_of].
    destruct (user_form_asks JSON_stringify deps session openApiDocument Hengine (Some row) _ (user_row_ok row d Hr)) as (c & r & d' & Hc & Hq & Hs & Ha).
    exists c, r. split; [exact Hc|]. split; [exact Hq|]. by rewrite <- (user_row_says row d d' Hr Hs).
  - intros h o d Hh Hr. cbv zeta. rewrite open_seeds by done. cbn [h_target h_fields editing_of]. destruct (object_row_says o d Hr) as (Hok & Hc & Hu).
    destruct (object_form_asks JSON_stringify deps session openApiDocument Hengine (Some o) _ Hok) as (c & r & d' & Hs & Hq & Hd & Ha); [by intros ? [= <-]|].
    exists c, r. split; [exact Hs|]. split; [exact Hq|]. rewrite <- (Hu d' Hd). exact Ha.
  - intros row l st u Hin [Eu Tu] Hne. split.
    + unfold status_actions in Hin. case_bool_decide as E; [done|]. by apply not_elem_of_nil in Hin.
    + eexists. split; [reflexivity|]. eapply does_user_status; [exact Hengine|by split|by eapply status_action_known|]. unfold confirm_status. by rewrite Eu.
Qed.

(** C9: A form that is open is not reseeded when another row's Edit is pressed: it says it edits the new row and keeps
    the fields of the old one.  On the policies page a save then writes the old row's whole policy over the new row; on
    the objects page it writes the old row's object with the new row's tags and lifecycle, so that a draft is published
    by saving it under the title of a published object; on the users page it edits the old row's user. *)
Theorem open_form_mixes_rows catalog :
  (∀ a b id publish, form_ok catalog (openPolicy (Some a)) → row_id b = VStr id → trim id = id → id ≠ "" →
     let h := host_run openPolicy (closed_host openPolicy) [EditClick a; EditClick b] in
     h_target h = Editing b ∧ ∃ c r, commitPolicy (editing_of (h_target h)) catalog (h_fields h) publish = Some c ∧
       request_of c = Some r ∧ asks r (c_editPolicy id (buildDraft catalog (openPolicy (Some a))))) ∧
  (∀ a b da db, object_row a da → object_row b db →
     let h := host_run seed_object (closed_host seed_object) [EditClick a; EditClick b] in
     h_target h = Editing b ∧ ∃ c r, submit_object (editing_of (h_target h)) (h_fields h) = Some c ∧ request_of c = Some r ∧
       asks r (c_editObject (mkObjectDraft (ob_name da) (ob_kind da) (ob_selectorKind da) (ob_selectorValue da) (ob_description da)
                               (ob_tags db) (ob_lifecycle db)))) ∧
  (∀ a b da, user_row a da →
     let h := host_run seed_user (closed_host seed_user) [EditClick a; EditClick b] in
     h_target h = Editing b ∧ ∃ c r, submit_user (editing_of (h_target h)) (h_fields h) = Some c ∧ request_of c = Some r ∧
       asks r (c_editPrincipal da)).
Proof using Hengine.
  split_and!.
  - intros a b id publish Hf Hid Ht Hne. cbv zeta. cbn [host_run foldl]. rewrite switch_keeps by done. cbn [h_target h_fields editing_of]. split; [done|].
    rewrite open_seeds by done. cbn [h_fields]. unfold commitPolicy. rewrite (ok_valid _ _ Hf). cbn [option_map]. rewrite Hid. cbn [text]. eexists _, _. split; [reflexivity|]. split; [reflexivity|].
    apply (does_edit_policy _ _ _ _ Hengine _ id (pf_vtz (openPolicy (Some a))) (draft_body (buildDraft catalog (openPolicy (Some a)))) publish);
      [by split| |reflexivity|by apply form_accepts|reflexivity]. by apply (bool_decide_unpack _).
  - intros a b da db Ha Hb. cbv zeta. cbn [host_run foldl]. rewrite switch_keeps by done. cbn [h_target h_fields editing_of]. split; [done|].
    rewrite open_seeds by done. cbn [h_fields]. destruct (object_row_says a da Ha) as (Hok & _ & Hu). destruct (object_row_says b db Hb) as (_ & Hcb & _).
    destruct (object_form_asks JSON_stringify deps session openApiDocument Hengine (Some b) _ Hok) as (c & r & d & Hs & Hq & [Dn (Dk & Ds & Dv) Dd Dt Dl] & Hasks);
      [by intros ? [= <-]|]. exists c, r. split; [exact Hs|]. split; [exact Hq|].
    destruct Ha as [[[En Tn] _] (Ek & Es & [Ev Tv] & _) _ ([Ed Td] & _)]. destruct Hb as [_ _ _ (_ & Et & El)].
    unfold seed_object in *. rewrite En, Ek, Es, Ev, Ed in *. cbn in *. rewrite Et in Dt. injection Dt as Dt%map_VStr_inj.
    destruct d as [n k s v ds ts l]. cbn in *. destruct Dn as [-> _], Dv as [-> _]. subst k s ds ts l. rewrite Tn, Tv, Td, El in Hasks. exact Hasks.
  - intros a b da Ha. cbv zeta. cbn [host_run foldl]. rewrite switch_keeps by done. cbn [h_target h_fields editing_of]. split; [done|].
    rewrite open_seeds by done. cbn [h_fields].
    destruct (user_form_asks JSON_stringify deps session openApiDocument Hengine (Some b) _ (user_row_ok a da Ha)) as (c & r & d' & Hc & Hq & Hs & Hasks).
    exists c, r. split; [exact Hc|]. split; [exact Hq|]. by rewrite <- (user_row_says a da d' Ha Hs).
Qed.
End entity_pages.

(** ** Pages at work *)

#[local] Instance entity_numbers : NumberToString := λ _, "7".
#[local] Instance entity_toNumber : ToNumberOther := λ _, f64_NaN.
Definition sample_user (u kind : string) : PrincipalRow :=
  mkPrincipalRow (VStr "p-1") (VStr u) (VStr "local") kind "active" "local" (VStr "a@b.c") (VStr "") (VArr []) VNull (VArr []) VNull VNull VNull (VArr []).
Definition sample_object (n lifecycle tag : string) : ObjectCard :=
  mkObjectCard (VStr n) "server" "glob" (VStr "prod-*") VNull (VStr "") (VArr [VStr tag]) lifecycle.

Lemma sample_user_row u kind : trim u = u → u ≠ "" → kind ∈ ["human"; "service"] →
  user_row (sample_user u kind) (mkPrincipalDraft u kind (Some "a@b.c") None).
Proof. intros Ht Hne Hk. by repeat split. Qed.
Lemma sample_object_row n lifecycle tag : trim n = n → n ≠ "" → lifecycle ∈ OBJECT_LIFECYCLES →
  object_row (sample_object n lifecycle tag) (mkObjectDraft n "server" "glob" "prod-*" "" [tag] lifecycle).
Proof. intros Ht Hne Hl. repeat split; (done || by apply (bool_decide_unpack _)). Qed.

Lemma entity_forms_commit_witness : ∃ c r,
  submit_user (Some (sample_user "ann" "service")) (seed_user (Some (sample_user "ann" "service"))) = Some c ∧ request_of c = Some r ∧
  asks (λ _, Ok "") sample_policy_deps sample_policy_author VNull r (c_editPrincipal (mkPrincipalDraft "ann" "service" (Some "a@b.c") None)).
Proof.
  apply (proj1 (proj2 (proj2 (entity_forms_commit (λ _, Ok "") sample_policy_deps sample_policy_author VNull eq_refl))) (closed_host seed_user)
    (sample_user "ann" "service")); [reflexivity|]. apply sample_user_row; [reflexivity|discriminate|by apply (bool_decide_unpack _)].
Defined.

(** Saving the draft web-1 under the title of the published db-1 publishes it. *)
Lemma open_form_mixes_rows_witness : ∃ c r,
  submit_object (Some (sample_object "db-1" "published" "gold")) (seed_object (Some (sample_object "web-1" "draft" "tin"))) = Some c ∧
  request_of c = Some r ∧
  asks (λ _, Ok "") sample_policy_deps sample_policy_author VNull r
    (c_editObject (mkObjectDraft "web-1" "server" "glob" "prod-*" "" ["gold"] "published")).
Proof.
  destruct (proj1 (proj2 (open_form_mixes_rows (λ _, Ok "") sample_policy_deps sample_policy_author VNull eq_refl sample_catalog))
    (sample_object "web-1" "draft" "tin") (sample_object "db-1" "published" "gold")
    (mkObjectDraft "web-1" "server" "glob" "prod-*" "" ["tin"] "draft") (mkObjectDraft "db-1" "server" "glob" "prod-*" "" ["gold"] "published")) as (_ & c & r & H);
    [apply sample_object_row; [reflexivity|discriminate|by apply (bool_decide_unpack _)]..|]. exists c, r. exact H.
Defined.
