(* ===== verification/SocDesk.v ===== *)
(** * The incident panel ([SocOpsSurface.tsx], [SocVerdictPanel.tsx], [SocPlanEditor.tsx], [SocCaseControls.tsx])

    The panel of the selected incident: the plan editor, the approval and the case forms over
    one incident read.  Reads are cached by incident; the panel is on the page while the read
    of the selected incident is there, and what its forms hold lives as long as the panel. *)
From S2P Require Import Prelude Bytes Float64 Cbor JsValue WireProofs JsString Num64 LineExchange Cache Rbac Sessions Cookie Oidc.
From S2P Require Import AuthRouter OperatorEngine Vtz VtzProofs Policies PoliciesProofs Forge Distribute Routes JsOps Overview Users Objects EntityDetail Settings.
From S2P Require Import Decimal Http Uri Console Server ConsoleProofs ConsoleCommands PolicyEditor ModelAccess Soc CaseControls.
From stdpp Require Import list.
Open Scope Z_scope.

(** ** The plan editor *)

(** A step as the editor holds it; [None] as the action is the empty choice.  The key is an identity of the row. *)
Record DraftRow := mkDraftRow { dr_key : Z; dr_title : string; dr_action : option string }.

(** [rowKey()] counts up from [next]. *)
Fixpoint toRows (next : Z) (steps : list (string * option string)) : list DraftRow * Z :=
  match steps with
  | [] => ([], next)
  | (t, a) :: steps => let '(rows, n) := toRows (next + 1) steps in (mkDraftRow (next + 1) t a :: rows, n)
  end.

Definition update_row (i : nat) (f : DraftRow → DraftRow) (rows : list DraftRow) : list DraftRow := alter f i rows.
Definition drop_row (key : Z) (rows : list DraftRow) : list DraftRow := filter (λ r, dr_key r ≠ key) rows.
Definition rows_invalid (rows : list DraftRow) : bool := existsb (λ r, bool_decide (trim (dr_title r) = "")) rows.
Definition plan_steps (rows : list DraftRow) : value :=
  VArr (map (λ r, VObj [("title", VStr (trim (dr_title r))); ("action", match dr_action r with Some a => VStr a | None => VNull end)]) rows).

(** ** The panel *)

(** What the page reads of an incident. *)
Record IncidentRead := mkIncidentRead { ir_plan : list (string * option string); ir_approved : bool; ir_revision : value }.

(** A change waiting for the dialog. *)
Inductive pending_change := pending_act (draft : value) | pending_verdict (draft : value).

(** The case forms ([SocCaseControls]), and the panel around them. *)
Record CaseState := mkCaseState { cs_verdict : DispositionFormState; cs_assignee : string; cs_pending : option pending_change }.
Definition fresh_case : CaseState := mkCaseState verdict_init "" None.

Record Panel := mkPanel { pn_editing : option (list DraftRow); pn_confirming : bool; pn_case : CaseState }.
Definition fresh_panel : Panel := mkPanel None false fresh_case.

(** The reads there are, by incident -- [None] is an incident that is not available --, the selection, the panel while it is
    on the page, and the count of row keys. *)
Record Desk := mkDesk {
  dk_reads : list (string * option IncidentRead); dk_selected : option string; dk_panel : option Panel; dk_next : Z }.
Definition empty_desk : Desk := mkDesk [] None None 0.

(** The incident shown, if its read is there and has one. *)
Definition shown_read (reads : list (string * option IncidentRead)) (selected : option string) : option (string * IncidentRead) :=
  id ← selected; r ← map_get reads id; r ← r; Some (id, r).

(** The panel is mounted when an incident comes to be shown, and stays for as long as one is. *)
Definition settle_panel (d : Desk) (reads : list (string * option IncidentRead)) (selected : option string) : Desk :=
  mkDesk reads selected
    (match shown_read reads selected with Some _ => Some (default fresh_panel (dk_panel d)) | None => None end) (dk_next d).

Inductive desk_event :=
  | SelectIncident (id : string) | IncidentArrived (id : string) (r : option IncidentRead)
  | ModifyPlan | TitleTyped (i : nat) (t : string) | ActionChosen (i : nat) (a : option string) | DropStep (key : Z) | AddStep
  | SavePlan | CancelPlan | PlanSaved | ApprovePlan | ConfirmApprove | CancelApprove
  | VerdictEdited (f : DispositionFormState) | AssigneeTyped (t : string) | AskAssign | AskAct (act : string)
  | AskVerdict (now : Z) | ConfirmCase | CancelCase | AssignRecorded.

(** The rows of the open editor, and the next row key. *)
Definition editor_step (next : Z) (rows : list DraftRow) (e : desk_event) : list DraftRow * Z :=
  match e with
  | TitleTyped i t => (update_row i (λ x, mkDraftRow (dr_key x) t (dr_action x)) rows, next)
  | ActionChosen i a => (update_row i (λ x, mkDraftRow (dr_key x) (dr_title x) a) rows, next)
  | DropStep key => (drop_row key rows, next)
  | AddStep => (rows ++ [mkDraftRow (next + 1) "" None], next + 1)
  | _ => (rows, next)
  end.

Section desk_model.
Context {DR : DateRollover}.

(** The case forms over the incident [id]. *)
Definition case_step (id : string) (c : CaseState) (e : desk_event) : CaseState * list (flow value) :=
  let '(mkCaseState vf asg pe) := c in
  match e with
  | VerdictEdited f => (mkCaseState f asg pe, [])
  | AssigneeTyped t => (mkCaseState vf t pe, [])
  | AskAssign => (mkCaseState vf asg (match assign_draft asg with Some b => Some (pending_act b) | None => pe end), [])
  | AskAct act => (mkCaseState vf asg (Some (pending_act (VObj [("act", VStr act)]))), [])
  | AskVerdict now =>
      (mkCaseState vf asg (match buildDispositionDraft vf now with Some b => Some (pending_verdict b) | None => pe end), [])
  | ConfirmCase =>
      (mkCaseState vf asg None,
       match pe with Some (pending_act b) => [case_act_call id b] | Some (pending_verdict b) => [disposition_call id b] | None => [] end)
  | CancelCase => (mkCaseState vf asg None, [])
  | AssignRecorded => (mkCaseState vf "" pe, [])
  | _ => (c, [])
  end.

(** The panel over the incident [id] with the read [r]: its next state, the next row key and the calls.  That buttons are
    disabled while a command is on its way is left out: the panel here does no less. *)
Definition panel_step (id : string) (r : IncidentRead) (next : Z) (p : Panel) (e : desk_event) : Panel * Z * list (flow value) :=
  let '(mkPanel ed cf c) := p in
  match e with
  | ModifyPlan =>
      if bool_decide (ir_plan r = []) || ir_approved r || bool_decide (ed ≠ None) then (p, next, [])
      else let '(rows, n) := toRows next (ir_plan r) in (mkPanel (Some rows) cf c, n, [])
  | SavePlan => (p, next, match ed with Some rows => if rows_invalid rows then [] else [modify_plan_call id (plan_steps rows)] | None => [] end)
  | CancelPlan | PlanSaved => (mkPanel None cf c, next, [])
  | ApprovePlan => (mkPanel ed (negb (bool_decide (ir_plan r = []) || ir_approved r) || cf) c, next, [])
  | ConfirmApprove => if cf then (mkPanel ed false c, next, [approve_plan_call id (ir_revision r)]) else (p, next, [])
  | CancelApprove => (mkPanel ed false c, next, [])
  | TitleTyped _ _ | ActionChosen _ _ | DropStep _ | AddStep =>
      match ed with Some rows => let '(rows, n) := editor_step next rows e in (mkPanel (Some rows) cf c, n, []) | None => (p, next, []) end
  | _ => let '(c, calls) := case_step id c e in (mkPanel ed cf c, next, calls)
  end.

Definition desk_step (d : Desk) (e : desk_event) : Desk * list (flow value) :=
  match e with
  | SelectIncident id => (settle_panel d (dk_reads d) (Some id), [])
  | IncidentArrived id r => (settle_panel d (map_set (dk_reads d) id r) (dk_selected d), [])
  | _ =>
      match shown_read (dk_reads d) (dk_selected d), dk_panel d with
      | Some (id, r), Some p =>
          let '(p, n, calls) := panel_step id r (dk_next d) p e in (mkDesk (dk_reads d) (dk_selected d) (Some p) n, calls)
      | _, _ => (d, [])
      end
  end.

Fixpoint desk_run (d : Desk) (es : list desk_event) : Desk * list (flow value) :=
  match es with
  | [] => (d, [])
  | e :: es => let '(d1, c1) := desk_step d e in let '(d2, c2) := desk_run d1 es in (d2, c1 ++ c2)
  end.

(** ** Row identities *)

Definition keys_ok (next : Z) (rows : list DraftRow) : Prop := NoDup (map dr_key rows) ∧ Forall (λ r, dr_key r ≤ next) rows.
Definition panel_ok (next : Z) (p : Panel) : Prop := ∀ rows, pn_editing p = Some rows → keys_ok next rows.
Definition desk_ok (d : Desk) : Prop := ∀ p, dk_panel d = Some p → panel_ok (dk_next d) p.

Lemma toRows_ok next steps : let '(rows, n) := toRows next steps in
  next ≤ n ∧ NoDup (map dr_key rows) ∧ Forall (λ r, next < dr_key r ≤ n) rows.
Proof.
  revert next. induction steps as [|[t a] steps IH]; intros next; cbn; [split_and!; [lia|constructor..]|].
  specialize (IH (next + 1)). destruct (toRows (next + 1) steps) as [rows n]. destruct IH as (Hn & Hd & HF). split_and!; [lia| |].
  - cbn. constructor; [|done]. intros Hin%list_elem_of_In%in_map_iff. destruct Hin as (r & E & Hr%list_elem_of_In). rewrite Forall_forall in HF.
    apply HF in Hr. lia.
  - constructor; [cbn; lia|]. eapply Forall_impl; [exact HF|]. cbn. lia.
Qed.

Lemma update_keys i f rows : (∀ r, dr_key (f r) = dr_key r) → map dr_key (update_row i f rows) = map dr_key rows.
Proof.
  intros Hf. unfold update_row. revert i. induction rows as [|r rows IH]; intros [|i]; cbn; [done..|by rewrite Hf|]. f_equal. apply IH.
Qed.

Lemma keys_ok_update next i f rows : (∀ r, dr_key (f r) = dr_key r) → keys_ok next rows → keys_ok next (update_row i f rows).
Proof.
  intros Hf [Hd HF]. split; [by rewrite update_keys|]. apply Forall_alter; [done|]. intros r Hr _. rewrite Hf. by eapply Forall_lookup_1 in HF.
Qed.

Lemma keys_ok_drop next key rows : keys_ok next rows → keys_ok next (drop_row key rows).
Proof.
  intros [Hd HF]. split.
  - unfold drop_row. induction rows as [|x rows IH]; [constructor|]. cbn in Hd. apply NoDup_cons in Hd as [Hx Hd]. apply Forall_cons in HF as [_ HF].
    destruct (decide (dr_key x ≠ key)) as [Hk|Hk]; [|rewrite filter_cons_False by done; by apply IH]. rewrite filter_cons_True by done. cbn.
    apply NoDup_cons. split; [|by apply IH]. intros (y & E & [_ Hy]%list_elem_of_filter)%list_elem_of_fmap. apply Hx. rewrite E. by apply list_elem_of_fmap_2.
  - apply Forall_forall. intros x [_ Hx]%list_elem_of_filter. rewrite Forall_forall in HF. by apply HF.
Qed.

Lemma filter_all {A} (P : A → Prop) `{!∀ x, Decision (P x)} l : Forall P l → filter P l = l.
Proof. induction 1; [done|]. rewrite filter_cons_True by done. by f_equal. Qed.

(** The row pressed is the one dropped. *)
Lemma drop_exact next rows i r : keys_ok next rows → rows !! i = Some r → drop_row (dr_key r) rows = delete i rows.
Proof.
  intros [Hd _]. revert i. unfold drop_row. induction rows as [|x rows IH]; intros i; [done|]. cbn in Hd. apply NoDup_cons in Hd as [Hx Hd].
  destruct i as [|i]; intros Hr.
  - injection Hr as ->. change (delete 0%nat (r :: rows)) with rows. rewrite filter_cons_False by naive_solver. apply filter_all. apply Forall_forall. intros y Hy E. apply Hx.
    rewrite <- E. by apply list_elem_of_fmap_2.
  - change (rows !! i = Some r) in Hr. change (delete (S i) (x :: rows)) with (x :: delete i rows). rewrite filter_cons_True; [by rewrite (IH Hd i Hr)|]. intros E. apply Hx. rewrite E. apply list_elem_of_fmap_2. by eapply list_elem_of_lookup_2.
Qed.

Lemma keys_ok_mono next next' rows : next ≤ next' → keys_ok next rows → keys_ok next' rows.
Proof. intros Hn [Hd HF]. split; [done|]. eapply Forall_impl; [exact HF|]. cbn. lia. Qed.

Lemma editor_step_ok next rows e : keys_ok next rows → let '(rows', n) := editor_step next rows e in next ≤ n ∧ keys_ok n rows'.
Proof.
  intros Hk. destruct e; cbn [editor_step]; try (by split; [lia|]).
  - split; [lia|]. by apply keys_ok_update.
  - split; [lia|]. by apply keys_ok_update.
  - split; [lia|]. by apply keys_ok_drop.
  - destruct Hk as [Hd HF]. split; [lia|]. split.
    + rewrite map_app. apply NoDup_app. split_and!; [done| |by apply NoDup_singleton]. intros k Hk [= ->]%list_elem_of_singleton.
      apply list_elem_of_fmap in Hk as (x & E & Hx). rewrite Forall_forall in HF. apply HF in Hx. lia.
    + apply Forall_app. split; [eapply Forall_impl; [exact HF|]; cbn; lia|]. constructor; [cbn; lia|constructor].
Qed.

Lemma panel_step_ok id r next p e : panel_ok next p → let '(p', n, _) := panel_step id r next p e in next ≤ n ∧ panel_ok n p'.
Proof.
  intros Hp. destruct p as [ed cf c]. assert (∀ e', let '(c', calls) := case_step id c e' in next ≤ next ∧ panel_ok next (mkPanel ed cf c')) as Hc.
  { intros e'. destruct (case_step id c e'). split; [lia|exact Hp]. }
  assert (∀ e', let '(p', n, _) := match ed with
    | Some rows => let '(rows, n) := editor_step next rows e' in (mkPanel (Some rows) cf c, n, [])
    | None => (mkPanel ed cf c, next, @nil (flow value))
    end in next ≤ n ∧ panel_ok n p') as He.
  { intros e'. destruct ed as [rows|]; [|by split]. pose proof (editor_step_ok next rows e' (Hp rows eq_refl)) as H.
    destruct (editor_step next rows e') as [rows' n]. destruct H as [Hn Hk]. split; [done|]. by intros ? [= <-]. }
  destruct e; unfold panel_step; lazymatch goal with
    | |- context [editor_step _ _ ?x] => exact (He x)
    | |- context [case_step _ _ ?x] => specialize (Hc x); destruct (case_step id c x); exact Hc
    | |- _ => idtac end; try (by split; [lia|exact Hp]); try (by split).
  - destruct (_ || _); [by split|]. pose proof (toRows_ok next (ir_plan r)) as H. destruct (toRows next (ir_plan r)) as [rows n].
    destruct H as (Hn & Hd & HF). split; [done|]. intros ? [= <-]. split; [done|]. eapply Forall_impl; [exact HF|]. cbn. lia.
  - destruct cf; (split; [lia|exact Hp]).
Qed.

Lemma desk_step_ok d e : desk_ok d → desk_ok (desk_step d e).1.
Proof.
  intros Hd. assert (∀ reads sel, desk_ok (settle_panel d reads sel)) as Hs.
  { intros reads sel p. unfold settle_panel. cbn. destruct (shown_read reads sel); [|done]. intros [= <-]. destruct (dk_panel d) as [q|] eqn:E; [by apply Hd|done]. }
  assert (∀ e', desk_ok (match shown_read (dk_reads d) (dk_selected d), dk_panel d with
    | Some (id, r), Some p => let '(p, n, calls) := panel_step id r (dk_next d) p e' in (mkDesk (dk_reads d) (dk_selected d) (Some p) n, calls)
    | _, _ => (d, [])
    end).1) as Hp.
  { intros e'. destruct (shown_read _ _) as [[id r]|]; [|done]. destruct (dk_panel d) as [p|] eqn:E; [|done]. pose proof (panel_step_ok id r (dk_next d) p e' (Hd p E)) as H.
    destruct (panel_step id r (dk_next d) p e') as [[p' n] cs]. intros q [= <-]. apply H. }
  destruct e; cbn [desk_step fst]; (apply Hs || apply Hp).
Qed.

Lemma desk_run_ok d es : desk_ok d → desk_ok (desk_run d es).1.
Proof.
  revert d. induction es as [|e es IH]; intros d Hd; [done|]. cbn. pose proof (desk_step_ok d e Hd) as H. destruct (desk_step d e) as [d1 c1].
  specialize (IH d1 H). by destruct (desk_run d1 es).
Qed.

(** The steps a saved plan is read as. *)
Definition row_step (r : DraftRow) : ResponseStepDraft := mkStepDraft (trim (dr_title r)) (dr_action r).
Definition row_ok (r : DraftRow) : Prop := ∀ a, dr_action r = Some a → a ∈ RESPONSE_ACTIONS.

Lemma plan_accepted rows : rows_invalid rows = false → Forall row_ok rows → toResponseStepDrafts (plan_steps rows) = Ok (Some (map row_step rows)).
Proof.
  intros Hi HF. unfold toResponseStepDrafts, plan_steps. apply project_all_Some. induction HF as [|[k t a] rows Ha _ IH]; [constructor|].
  cbn in Hi. apply orb_false_iff in Hi as [Ht%bool_decide_eq_false Hi]. constructor; [|by apply IH]. unfold toStepDraft, not_object, row_step.
  cbn [typeof_object is_null negb orb get obj_get dr_title dr_action]. decide_tests. cbn [default from_option mbind result_bind]. unfold id.
  rewrite trim_idem, bool_decide_eq_false_2 by done. destruct a as [a|]; [|done]. specialize (Ha a eq_refl). cbn [mbind result_bind].
  apply list_elem_of_In in Ha. cbn in Ha. destruct_or! Ha; subst; done.
Qed.

Section desk.
Context {NS : NumberToString} {TN : ToNumberOther}.
Context (JSON_stringify : view → result string) (deps : ServerDeps) (session : OperatorSession) (openApiDocument : value).
Notation asks := (asks JSON_stringify deps session openApiDocument).
Hypothesis Hengine : operatorEngine deps = true.

Lemma save_asks id rows : field id → rows_invalid rows = false → Forall row_ok rows →
  ∃ r, request_of (modify_plan_call id (plan_steps rows)) = Some r ∧ asks r (c_modifyPlan id (map row_step rows)).
Proof using Hengine.
  intros Hid Hi HF. eexists. split; [reflexivity|]. eapply does_modify_plan; [exact Hengine|exact Hid|by apply plan_accepted|reflexivity].
Qed.

(** C10: What the incident panel commits, and to which incident.  In every reachable state the plan editor, saved with no
    blank title, asks the engine, through the whole server, to replace the plan of the selected incident by the rows
    shown, in order, and Remove drops exactly the row it stands at.  Selecting an incident whose read is not there yet
    starts from an empty panel.  Selecting one whose read is there keeps the panel: the editor opened on the first
    incident writes the first incident's plan over the second's, and a verdict entered for the first is recorded on the
    second. *)
Theorem panel_follows_selection :
  (∀ es id rd p rows, let d := (desk_run empty_desk es).1 in
     shown_read (dk_reads d) (dk_selected d) = Some (id, rd) → dk_panel d = Some p → pn_editing p = Some rows →
     (∀ i row, rows !! i = Some row → drop_row (dr_key row) rows = delete i rows) ∧
     (field id → rows_invalid rows = false → Forall row_ok rows → ∃ call r, (desk_step d SavePlan).2 = [call] ∧ request_of call = Some r ∧
        asks r (c_modifyPlan id (map row_step rows)))) ∧
  (∀ d b rd, map_get (dk_reads d) b = None →
     let d' := (desk_run d [SelectIncident b; IncidentArrived b (Some rd)]).1 in
     shown_read (dk_reads d') (dk_selected d') = Some (b, rd) ∧ dk_panel d' = Some fresh_panel) ∧
  (∀ d a ra b rb rows, shown_read (dk_reads d) (dk_selected d) = Some (a, ra) → dk_panel d = Some fresh_panel →
     map_get (dk_reads d) b = Some (Some rb) → ir_plan ra ≠ [] → ir_approved ra = false → (toRows (dk_next d) (ir_plan ra)).1 = rows →
     rows_invalid rows = false → Forall row_ok rows → field b →
     ∃ call r, (desk_run d [ModifyPlan; SelectIncident b; SavePlan]).2 = [call] ∧ request_of call = Some r ∧
       asks r (c_modifyPlan b (map row_step rows))) ∧
  (∀ d a ra b rb f now v, shown_read (dk_reads d) (dk_selected d) = Some (a, ra) → dk_panel d = Some fresh_panel →
     map_get (dk_reads d) b = Some (Some rb) → field b → verdict_says f now v → vf_action f ∈ REMEDIATION_ACTIONS → 0 ≤ now < 10 ^ 12 →
     ∃ call r, (desk_run d [VerdictEdited f; SelectIncident b; AskVerdict now; ConfirmCase]).2 = [call] ∧ request_of call = Some r ∧
       asks r (c_disposition b v)).
Proof using Hengine.
  split_and!.
  - intros es id rd p rows. cbv zeta. intros Hs Hp He. assert (desk_ok empty_desk) as H0 by done. pose proof (desk_run_ok empty_desk es H0 p Hp rows He) as Hk.
    split; [intros i row; by eapply drop_exact|]. intros Hid Hi HF. destruct (save_asks id rows Hid Hi HF) as (r & Hr & Ha).
    exists (modify_plan_call id (plan_steps rows)), r. split; [|done]. unfold desk_step. rewrite Hs, Hp. destruct p as [ed cf c]. cbn in He. subst ed.
    cbn [panel_step]. by rewrite Hi.
  - intros d b rd Hb. cbv zeta. cbn [desk_run desk_step]. unfold settle_panel. cbn [dk_reads dk_selected dk_panel fst shown_read]. unfold shown_read.
    cbn [mbind option_bind]. rewrite map_get_set, Hb. cbn. done.
  - intros d a ra b rb rows Hs Hp Hb Hpl Hap Hrows Hi HF Hid. destruct (save_asks b rows Hid Hi HF) as (r & Hr & Ha).
    exists (modify_plan_call b (plan_steps rows)), r. split; [|done]. cbn [desk_run desk_step]. rewrite Hs, Hp. cbn [panel_step fresh_panel].
    rewrite (bool_decide_eq_false_2 (ir_plan ra = [])), Hap by done. decide_tests. cbn [orb]. destruct (toRows (dk_next d) (ir_plan ra)) as [rs n].
    cbn [fst] in Hrows. subst rs. unfold settle_panel, shown_read. cbn [dk_reads dk_selected dk_panel mbind option_bind]. rewrite Hb. cbn. by rewrite Hi.
  - intros d a ra b rb f now v Hs Hp Hb Hid Hv Hact Hnow. destruct (says_accepted_body f now v Hv Hact Hnow) as (ps & Eb & Ho & Hn & Hd).
    exists (disposition_call b (VObj ps)). eexists. split.
    + cbn [desk_run desk_step]. rewrite Hs, Hp. cbn [panel_step fresh_panel fresh_case case_step]. unfold settle_panel, shown_read. cbn [dk_reads dk_selected dk_panel mbind option_bind].
      rewrite Hb. cbn -[buildDispositionDraft disposition_call case_act_call]. rewrite Hb. cbn -[buildDispositionDraft disposition_call case_act_call]. by rewrite Eb.
    + split; [reflexivity|]. by eapply does_verdict.
Qed.
End desk.
End desk_model.

#[local] Instance desk_numbers : NumberToString := λ _, "7".
#[local] Instance desk_rollover : DateRollover := true.
#[local] Instance desk_toNumber : ToNumberOther := λ _, f64_NaN.
Definition sample_desk_deps : ServerDeps := mkServerDeps true true (mkConfig None None None None (mkRbac [] [] None)) [].
Definition sample_desk_analyst : OperatorSession := mkSession "S" "auth0|1" None Admin "pid" "acme" tenant_admin 3600005.
(** Two incidents that have been read, the first one shown. *)
Definition sample_reads : list (string * option IncidentRead) :=
  [("i-1", Some (mkIncidentRead [("Cut off the host", Some "quarantine")] false (VNum (f64_ofZ 1)))); ("i-2", Some (mkIncidentRead [("Call", None)] false (VNum (f64_ofZ 4))))].
Definition sample_desk : Desk := mkDesk sample_reads (Some "i-1") (Some fresh_panel) 0.

Lemma panel_follows_selection_witness :
  ∃ call r, (desk_run sample_desk [ModifyPlan; SelectIncident "i-2"; SavePlan]).2 = [call] ∧ request_of call = Some r ∧
    asks (λ _, Ok "") sample_desk_deps sample_desk_analyst VNull r (c_modifyPlan "i-2" [mkStepDraft "Cut off the host" (Some "quarantine")]).
Proof.
  pose proof (panel_follows_selection (λ _, Ok "") sample_desk_deps sample_desk_analyst VNull eq_refl) as (_ & _ & H & _).
  refine (H sample_desk "i-1" _ "i-2" _ _ eq_refl eq_refl eq_refl _ eq_refl eq_refl eq_refl _ _).
  - discriminate.
  - apply Forall_singleton. intros a [= <-]. by apply (bool_decide_unpack _).
  - split; [reflexivity|discriminate].
Defined.
