(* ===== verification/AccessTabs.v ===== *)
(** * Connectors, grants and pending changes ([IdamConnectorsPanel.tsx], [SettingsModelAccessTab.tsx], [SettingsChangesTab.tsx])

    The onboarding form of an identity connector, whose secret goes to the sidecar of the node
    and nowhere else; the matrix of model grants, where a box is a change of one grant made
    against the grant shown; and the tab where a second administrator approves proposals and
    versions are rolled back. *)
From S2P Require Import Prelude Bytes Float64 Cbor JsValue WireProofs JsString Num64 LineExchange Cache Rbac Sessions Cookie Oidc.
From S2P Require Import AuthRouter OperatorEngine Vtz VtzProofs Policies PoliciesProofs Forge Distribute Routes JsOps Overview Users Objects EntityDetail Soc Settings.
From S2P Require Import Decimal ModelAccess Http Uri Console Server ConsoleProofs ConsoleCommands PolicyEditor SettingsForms.
From stdpp Require Import list.
Open Scope Z_scope.

(** ** Connectors *)

Definition IDAM_POLL_INTERVAL_SECS_MIN : Z := 60.
Definition IDAM_POLL_INTERVAL_SECS_MAX : Z := 86400.
Definition IDAM_FULL_SYNC_HOURS_MIN : Z := 1.
Definition IDAM_FULL_SYNC_HOURS_MAX : Z := 168.
Definition IDAM_POLL_INTERVAL_SECS_DEFAULT : Z := 300.
Definition IDAM_FULL_SYNC_HOURS_DEFAULT : Z := 24.

(** The label of a connector's state and its colour. *)
Definition connectorStateBadge (state : string) : string * string :=
  match state with
  | "healthy" => ("Connected", "good") | "never-synced" => ("Never synced", "neutral") | "disabled" => ("Disabled", "neutral")
  | "partial" => ("Partial sync", "caution") | "unknown" => ("Unknown", "caution") | _ => ("Error", "critical")
  end.

Definition syncFailure (error : option console_error) : option string :=
  match error with
  | None => None
  | Some (StatusError "IdamSyncError" status) =>
      Some (if status =? 409 then "The connector is disabled or not configured."
            else if status =? 403 then "You do not have permission to run a sync."
            else "The engine refused the sync.")
  | Some _ => Some "The sync could not reach the engine."
  end.
Definition connectFailure (error : option console_error) : option string :=
  match error with
  | None => None
  | Some (StatusError "IdamConnectError" status) =>
      Some (if status =? 409 then "The engine rejected the connectivity or the secret."
            else if status =? 403 then "You do not have permission to configure connectors."
            else if status =? 503 then "The secret store is not available on this node."
            else "The connector could not be configured.")
  | Some _ => Some "The request could not reach the server."
  end.

(** The fields of the form for one provider; the cadences are 64-bit numbers. *)
Record ConnectForm := mkConnectForm {
  cf_domain : string; cf_clientId : string; cf_audience : string; cf_secret : string; cf_poll : Z; cf_full : Z }.
Definition open_connect (domain : string) : ConnectForm :=
  mkConnectForm domain "" "" "" (f64_ofZ IDAM_POLL_INTERVAL_SECS_DEFAULT) (f64_ofZ IDAM_FULL_SYNC_HOURS_DEFAULT).

Definition cadence_ok (min max x : Z) : bool := f64_isInteger x && f64_le (f64_ofZ min) x && f64_le x (f64_ofZ max).
Definition pollOk (f : ConnectForm) : bool := cadence_ok IDAM_POLL_INTERVAL_SECS_MIN IDAM_POLL_INTERVAL_SECS_MAX (cf_poll f).
Definition fullOk (f : ConnectForm) : bool := cadence_ok IDAM_FULL_SYNC_HOURS_MIN IDAM_FULL_SYNC_HOURS_MAX (cf_full f).

Definition missing (f : ConnectForm) : list string :=
  (if bool_decide (trim (cf_domain f) = "") then ["the provider domain"] else []) ++
  (if bool_decide (trim (cf_clientId f) = "") then ["the client ID"] else []) ++
  (if bool_decide (cf_secret f = "") then ["the client secret"] else []).
Definition blockers (f : ConnectForm) : list string :=
  (match missing f with [] => [] | m => ["Needs " +:+ JsString.join ", " m +:+ "."] end) ++
  (if pollOk f && fullOk f then [] else ["A cadence is outside its range."]).

Definition connect_input (provider : string) (f : ConnectForm) : IdamConnectInput :=
  mkConnectInput provider (trim (cf_domain f)) (trim (cf_clientId f)) (trim (cf_audience f)) (cf_secret f) (VNum (cf_poll f)) (VNum (cf_full f)).
Definition submit_connector (provider : string) (f : ConnectForm) : option (flow unit) :=
  if bool_decide (blockers f = []) then Some (idam_connect_call (connect_input provider f)) else None.

(** The form takes the place of the list of connectors while it is open. *)
Record ConnectorPanel := mkConnectorPanel { cp_configuring : option (string * ConnectForm); cp_confirming : option string }.
Inductive connector_event :=
  | Configure (provider domain : string) | ConnectTyped (f : ConnectForm) | SaveConnector | ConnectDone
  | SyncNow (connectorId : string) | ConfirmSync | CancelSync.
Inductive connector_call := onboard (call : flow unit) | syncing (call : flow value).

Definition connector_step (p : ConnectorPanel) (e : connector_event) : ConnectorPanel * list connector_call :=
  let '(mkConnectorPanel cf cn) := p in
  match e with
  | Configure provider domain => (mkConnectorPanel (match cf with None => Some (provider, open_connect domain) | o => o end) cn, [])
  | ConnectTyped f => (mkConnectorPanel (option_map (λ x, (x.1, f)) cf) cn, [])
  | SaveConnector => (p, match cf with Some (provider, f) => match submit_connector provider f with Some c => [onboard c] | None => [] end | None => [] end)
  | ConnectDone => (mkConnectorPanel None cn, [])
  | SyncNow id => (mkConnectorPanel cf (match cf with None => Some id | _ => cn end), [])
  | ConfirmSync => (mkConnectorPanel cf None, match cn with Some id => [syncing (idam_sync_call id)] | None => [] end)
  | CancelSync => (mkConnectorPanel cf None, [])
  end.

(** ** Grants *)

Definition CRUCIBLE_TOOLS : string := "crucible/*".
Definition EMPTY_GRANT : AgentGrantRow := mkGrantRow (VArr []) (VArr []) (VArr []) (VArr []) "internal".

(** The strings of an array of strings. *)
Definition string_items (v : value) : list string := match v with VArr items => map text items | _ => [] end.

(** The request of a change: the new lists, and the lists the page shows. *)
Definition grant_request (agent : string) (models tools expModels expTools : list string) : value :=
  VObj [("agent", VStr agent); ("models", VArr (map VStr models)); ("tools", VArr (map VStr tools));
        ("expectedModels", VArr (map VStr expModels)); ("expectedTools", VArr (map VStr expTools))].

(** A box of the matrix: of a model, or of the engine tools. *)
Definition toggle (agent : string) (grant : AgentGrantRow) (model : option string) : result (flow value) :=
  let gm := string_items (g_models grant) in
  let gt := string_items (g_tools grant) in
  models ← match model with None => Ok gm | Some m => toggleEntry gm m end;
  tools ← match model with None => toggleEntry gt CRUCIBLE_TOOLS | Some _ => Ok gt end;
  Ok (putAgentGrant (grant_request agent models tools gm gt)).

(** A row added by name; blank names are not. *)
Definition add_agent (added : list string) (draft : string) : list string * string :=
  let name := trim draft in if bool_decide (name = "") then (added, draft) else (added ++ [name], "").

(** The rows of the matrix: the agents read, and the added ones not among them. *)
Definition matrix_agents {LC : LocaleCompare} (view : list AgentAccess) (added : list string) : result (list AgentAccess) :=
  js_sort (λ a b, Ok (localeCompare (agent a) (agent b)))
    (view ++ map (λ a, mkAccess a None []) (filter (λ a, a ∉ map agent view) added)).

(** ** Pending changes *)

Record PendingProposal := mkProposal { pp_proposal : Z; pp_proposer : string; pp_proposedAtMs : Z; pp_changedKeys : list string; pp_stale : bool }.
#[global] Instance PendingProposal_eq_dec : EqDecision PendingProposal.
Proof. solve_decision. Defined.

(** What the tab has read, and what its two dialogs hold.  Proposals and versions are 64-bit numbers. *)
Record ChangesPage := mkChanges {
  cg_approvals : list PendingProposal; cg_versions : list Z; cg_approving : option PendingProposal; cg_rolling : option Z }.
Definition open_changes : ChangesPage := mkChanges [] [] None None.

Inductive changes_event :=
  | ApprovalsRead (l : list PendingProposal) | HistoryRead (l : list Z)
  | ApprovePressed (p : PendingProposal) | ConfirmApproval | CancelApproval
  | RollbackPressed (v : Z) | ConfirmRollback | CancelRollback.

Section changes.
Context {NS : NumberToString}.

(** A stale proposal has no button, and neither has the newest version. *)
Definition changes_step (s : ChangesPage) (e : changes_event) : ChangesPage * list (flow value) :=
  let '(mkChanges ap vs ca cr) := s in
  match e with
  | ApprovalsRead l => (mkChanges l vs ca cr, [])
  | HistoryRead l => (mkChanges ap l ca cr, [])
  | ApprovePressed p => (mkChanges ap vs (if bool_decide (p ∈ ap) && negb (pp_stale p) then Some p else ca) cr, [])
  | ConfirmApproval => (mkChanges ap vs None cr, match ca with Some p => [approve_call (pp_proposal p)] | None => [] end)
  | CancelApproval => (mkChanges ap vs None cr, [])
  | RollbackPressed v => (mkChanges ap vs ca (if bool_decide (v ∈ vs) && negb (bool_decide (list.head vs = Some v)) then Some v else cr), [])
  | ConfirmRollback => (mkChanges ap vs ca None, match cr with Some v => [rollback_call (VNum v)] | None => [] end)
  | CancelRollback => (mkChanges ap vs ca None, [])
  end.
Fixpoint changes_run (s : ChangesPage) (es : list changes_event) : ChangesPage * list (flow value) :=
  match es with
  | [] => (s, [])
  | e :: es => let '(s1, c1) := changes_step s e in let '(s2, c2) := changes_run s1 es in (s2, c1 ++ c2)
  end.

Lemma changes_run_snoc s a e : let s1 := (changes_run s a).1 in
  changes_run s (a ++ [e]) = ((changes_step s1 e).1, (changes_run s a).2 ++ (changes_step s1 e).2).
Proof using.
  revert s. induction a as [|x a IH]; intros s; cbn; [by destruct (changes_step s e); rewrite app_nil_r|]. destruct (changes_step s x) as [s1 c1]. cbn in IH. rewrite IH.
  destruct (changes_run s1 a) as [s2 c2]. cbn. by rewrite app_assoc.
Qed.

(** A dialog holds what was offered when its button was pressed. *)
Definition offered (es : list changes_event) (e : changes_event) (P : ChangesPage → Prop) : Prop :=
  ∃ pre mid, es = pre ++ e :: mid ∧ P (changes_run open_changes pre).1.

Lemma offered_snoc es e x P : offered es e P → offered (es ++ [x]) e P.
Proof using. intros (pre & mid & -> & H). exists pre, (mid ++ [x]). by rewrite <- app_assoc. Qed.
Lemma offered_last es e (P : ChangesPage → Prop) : P (changes_run open_changes es).1 → offered (es ++ [e]) e P.
Proof using. intros H. by exists es, []. Qed.

Definition approvable (p : PendingProposal) (s : ChangesPage) : Prop := p ∈ cg_approvals s ∧ pp_stale p = false.
Definition revertible (v : Z) (s : ChangesPage) : Prop := v ∈ cg_versions s ∧ list.head (cg_versions s) ≠ Some v.

Lemma dialogs_offered es : let s := (changes_run open_changes es).1 in
  (∀ p, cg_approving s = Some p → offered es (ApprovePressed p) (approvable p)) ∧
  (∀ v, cg_rolling s = Some v → offered es (RollbackPressed v) (revertible v)).
Proof using.
  induction es as [|e es [IHa IHr]] using rev_ind; [done|]. rewrite changes_run_snoc. cbn [fst]. destruct (changes_run open_changes es).1 as [ap vs ca cr] eqn:E.
  cbn [cg_approving cg_rolling] in *. destruct e; cbn [changes_step fst cg_approving cg_rolling]; (split; intros x Hx); try done;
    try (by apply offered_snoc, IHa); try (by apply offered_snoc, IHr).
  - destruct (_ && _) eqn:Eb; [|by apply offered_snoc, IHa]. injection Hx as <-. apply andb_prop in Eb as [Hin%bool_decide_eq_true Hst%negb_true_iff].
    apply offered_last. rewrite E. by split.
  - destruct (_ && _) eqn:Eb; [|by apply offered_snoc, IHr]. injection Hx as <-.
    apply andb_prop in Eb as [Hin%bool_decide_eq_true Hst%negb_true_iff%bool_decide_eq_false]. apply offered_last. rewrite E. by split.
Qed.

(** The calls of a run, and the confirmations that made them. *)
Lemma changes_calls es call : call ∈ (changes_run open_changes es).2 →
  ∃ before after, (∃ p, es = before ++ ConfirmApproval :: after ∧ call = approve_call (pp_proposal p) ∧ offered before (ApprovePressed p) (approvable p)) ∨
    (∃ v, es = before ++ ConfirmRollback :: after ∧ call = rollback_call (VNum v) ∧ offered before (RollbackPressed v) (revertible v)).
Proof using.
  induction es as [|e es IH] using rev_ind; [by intros ?%not_elem_of_nil|]. rewrite changes_run_snoc. cbn [snd]. intros [H|H]%elem_of_app.
  - destruct (IH H) as (b & a & [(p & -> & ?)|(v & -> & ?)]); exists b, (a ++ [e]); rewrite <- app_assoc; [left; by exists p|right; by exists v].
  - exists es, []. destruct (dialogs_offered es) as [Ha Hr]. destruct (changes_run open_changes es).1 as [ap vs ca cr]. cbn [cg_approving cg_rolling] in *.
    destruct e; cbn in H; try (by apply not_elem_of_nil in H).
    + destruct ca as [p|]; [|by apply not_elem_of_nil in H]. apply list_elem_of_singleton in H as ->. left. exists p. auto.
    + destruct cr as [v|]; [|by apply not_elem_of_nil in H]. apply list_elem_of_singleton in H as ->. right. exists v. auto.
Qed.
End changes.

(** ** The steps of an onboarding *)

(** What a step of the onboarding goes on with: the rest when its answer is a success. *)
Definition accepted (o : option fetch_response) : bool := match o with Some res => res_ok res | None => false end.
Definition connect_error (o : option fetch_response) : console_error :=
  match o with Some res => StatusError "IdamConnectError" (res_status res) | None => FetchFailed end.

Definition set_secret (s : string) (f : ConnectForm) : ConnectForm :=
  mkConnectForm (cf_domain f) (cf_clientId f) (cf_audience f) s (cf_poll f) (cf_full f).

Lemma blockers_nil f : blockers f = [] ↔
  trim (cf_domain f) ≠ "" ∧ trim (cf_clientId f) ≠ "" ∧ cf_secret f ≠ "" ∧ pollOk f = true ∧ fullOk f = true.
Proof.
  unfold blockers, missing. destruct (pollOk f), (fullOk f); repeat case_bool_decide; cbn; naive_solver.
Qed.

Lemma cadence_digits min max n : 0 ≤ min → min ≤ max ≤ MAX_SAFE → 0 ≤ n ≤ MAX_SAFE →
  cadence_ok min max (StringToNumber (pretty n)) = bool_decide (min ≤ n ≤ max).
Proof.
  intros H1 H2 Hn. rewrite StringToNumber_pretty by done. unfold cadence_ok. destruct (f64_ofZ_spec n) as (-> & _); [lia|].
  rewrite !f64_le_ofZ by lia. cbn [andb]. destruct (Z.leb_spec min n), (Z.leb_spec n max); case_bool_decide; (done || lia).
Qed.

(** ** Toggled lists *)

Definition toggled (l : list string) (x : string) (l' : list string) : Prop :=
  ∀ y, y ∈ l' ↔ (y ∈ l ∧ y ≠ x) ∨ (y = x ∧ x ∉ l).

Lemma toggle_spec l x : ∃ l', toggleEntry l x = Ok l' ∧ toggled l x l' ∧ (length l' ≤ S (length l))%nat ∧ (x ∈ l → (length l' ≤ length l)%nat) ∧ (x ∉ l → length l' = S (length l)) ∧ (NoDup l → NoDup l').
Proof.
  unfold toggleEntry, sort_strings. set (m := if bool_decide (x ∈ l) then _ else _).
  assert (Transitive (λ _ _ : string, True)) as HT by done.
  destruct (js_sort_sorted (λ a b, Ok (compare_units (utf16 a) (utf16 b))) (λ _, True) (λ _ _, True)) with (l := m) as (l' & -> & _ & Hp);
    [by intros; eexists|by apply Forall_true|]. exists l'. split; [done|]. unfold m in Hp. clear m. case_bool_decide as Hx.
  - split_and!; [intros y; rewrite Hp, list_elem_of_filter; naive_solver|rewrite Hp; pose proof (length_filter (λ e, e ≠ x) l); lia|intros _; rewrite Hp; apply length_filter|done|].
    intros Hd. rewrite Hp. by apply NoDup_filter.
  - split_and!; [intros y; rewrite Hp, elem_of_app, list_elem_of_singleton; naive_solver|rewrite Hp, length_app; cbn; lia|done|intros _; rewrite Hp, length_app; cbn; lia|].
    intros Hd. rewrite Hp. apply NoDup_app. split_and!; [done| |apply NoDup_singleton]. by intros y Hy ->%list_elem_of_singleton.
Qed.

(** Names the server reads. *)
Definition name_ok (s : string) : Prop := trim s ≠ "" ∧ js_strlen s ≤ MAX_NAME_LENGTH.
Definition names_ok (l : list string) : Prop := Z.of_nat (length l) ≤ MAX_GRANT_ENTRIES ∧ Forall name_ok l.

Lemma name_read s : name_ok s → name_input (VStr s) = Some s.
Proof. intros [Ht Hl]. unfold name_input. rewrite bool_decide_eq_false_2 by done. by rewrite (proj2 (Z.ltb_ge _ _)) by lia. Qed.

Lemma grant_names_read l : names_ok l → names (VArr (map VStr l)) = Ok (Some l).
Proof.
  intros [Hn HF]. unfold names, bounded_array. rewrite length_map, (proj2 (Z.leb_le _ _)) by done.
  apply (proj2 (project_all_Some _ (map VStr l) l)). clear Hn. induction HF as [|x l Hx _ IH]; constructor; [by rewrite name_read|done].
Qed.

Lemma names_too_many l : MAX_GRANT_ENTRIES < Z.of_nat (length l) → names (VArr (map VStr l)) = Ok None.
Proof. intros Hn. unfold names, bounded_array. by rewrite length_map, (proj2 (Z.leb_gt _ _)). Qed.

Lemma string_items_strings l : string_items (VArr (map VStr l)) = l.
Proof. unfold string_items. rewrite map_map. apply map_id. Qed.

Lemma toggled_names l x l' : toggled l x l' → names_ok l → name_ok x → Z.of_nat (length l') ≤ MAX_GRANT_ENTRIES → names_ok l'.
Proof.
  intros Ht [_ HF] Hx Hn. split; [done|]. apply Forall_forall. intros y Hy%Ht. rewrite Forall_forall in HF. destruct Hy as [[Hy _]|[-> _]]; [by apply HF|done].
Qed.

(** A change is read as it is written. *)
Lemma grant_read agent ms ts ms' ts' :
  name_ok agent → names_ok ts → names_ok ms' → names_ok ts' →
  toAgentGrantChange (grant_request agent ms ts ms' ts') =
    m ← names (VArr (map VStr ms)); Ok (option_map (λ m, mkChange agent m ts ms' ts') m).
Proof.
  intros Ha Ht Hm' Ht'. unfold toAgentGrantChange, grant_request, not_object. cbn [typeof_object is_null negb orb get obj_get]. decide_tests.
  cbn [default from_option mbind result_bind]. unfold id. rewrite name_read by done. cbn [mbind result_bind].
  destruct (names (VArr (map VStr ms))) as [[m|]|]; cbn [mbind result_bind]; rewrite ?grant_names_read by done; done.
Qed.

Section access.
Context {NS : NumberToString} {TN : ToNumberOther}.
Context (JSON_stringify : view → result string) (deps : ServerDeps) (session : OperatorSession) (openApiDocument : value).
Notation asks := (asks JSON_stringify deps session openApiDocument).
Hypothesis Hengine : operatorEngine deps = true.

Notation tells_sidecar := (tells_sidecar JSON_stringify deps session openApiDocument).

(** C11: The onboarding of a connector, end to end.  The form can be saved exactly when its domain, client id and secret
    are filled in and both cadences are whole numbers in their ranges, which for a cadence typed in digits is the engine's
    range.  A saved form sends three requests, each only after the one before was accepted: the first hands the secret to
    the sidecar of the node, the second asks the engine for the connectivity shown, the third for the connector enabled at
    the cadences shown.  The second and the third are the same whatever the secret is.  When the third is refused the
    secret and the connectivity are already in place; a refusal by conflict is then told as a rejection of them. *)
Theorem connector_onboarding provider :
  field provider → secretPort (config deps) ≠ None →
  (∀ f, submit_connector provider f ≠ None ↔
     trim (cf_domain f) ≠ "" ∧ trim (cf_clientId f) ≠ "" ∧ cf_secret f ≠ "" ∧ pollOk f = true ∧ fullOk f = true) ∧
  (∀ n, 0 ≤ n ≤ MAX_SAFE →
     (cadence_ok IDAM_POLL_INTERVAL_SECS_MIN IDAM_POLL_INTERVAL_SECS_MAX (StringToNumber (pretty n)) = true ↔ 60 ≤ n ≤ 86400) ∧
     (cadence_ok IDAM_FULL_SYNC_HOURS_MIN IDAM_FULL_SYNC_HOURS_MAX (StringToNumber (pretty n)) = true ↔ 1 ≤ n ≤ 168)) ∧
  (∀ f, ∃ r2 r3, ∀ secret c, submit_connector provider (set_secret secret f) = Some c →
     ∃ r1 k1 k2 k3, c = Fetch r1 k1 ∧
       (∀ o, k1 o = if accepted o then Fetch r2 k2 else Reject (connect_error o)) ∧
       (∀ o, k2 o = if accepted o then Fetch r3 k3 else Reject (connect_error o)) ∧
       (∀ o, k3 o = if accepted o then Return tt else Reject (connect_error o)) ∧
       tells_sidecar r1 (l_secret provider secret) ∧
       asks r2 (c_idamConnect (mkConnectDraft provider (trim (cf_domain f)) (trim (cf_clientId f)) (trim (cf_audience f))) IDAM_SECRET_REF) ∧
       asks r3 (c_idamConfigure (mkIdamDraft provider true (VNum (cf_poll f)) (VNum (cf_full f)))) ∧
       (∀ res, res_ok res = false → res_status res = 409 →
          ∃ e, k3 (Some res) = Reject e ∧ connectFailure (Some e) = Some "The engine rejected the connectivity or the secret.")).
Proof using Hengine.
  intros Hp Hs. split_and!.
  - intros f. rewrite <- blockers_nil. unfold submit_connector. case_bool_decide; naive_solver.
  - intros n Hn. unfold IDAM_POLL_INTERVAL_SECS_MIN, IDAM_POLL_INTERVAL_SECS_MAX, IDAM_FULL_SYNC_HOURS_MIN, IDAM_FULL_SYNC_HOURS_MAX.
    rewrite !cadence_digits by (unfold MAX_SAFE in *; lia). by rewrite !bool_decide_eq_true.
  - intros f. exists (connect_request provider (trim (cf_domain f)) (trim (cf_clientId f)) (trim (cf_audience f))), (configure_request provider (cf_poll f) (cf_full f)).
    intros secret c. unfold submit_connector.
    case_bool_decide as Hb; [|done]. apply blockers_nil in Hb as (Hd & Hc & Hsec & Hpo & Hfu). cbn in Hd, Hc, Hsec. intros [= <-].
    unfold pollOk, fullOk, cadence_ok in Hpo, Hfu. cbn in Hpo, Hfu. apply andb_prop in Hpo as [[Hpi _]%andb_prop _], Hfu as [[Hfi _]%andb_prop _].
    eexists (secret_request provider secret), _, _, _. split; [reflexivity|]. split; [|split; [|split]]; [intros [res|]; cbn; [by destruct (res_ok res)|done]..|].
    split_and!; [by apply stores_secret|apply does_connect; [done|done|split; [apply trim_idem|done]..|apply trim_idem]|by apply does_configure|]. intros res Hr H4. cbn. rewrite Hr. eexists. split; [reflexivity|]. cbn. by rewrite H4.
Qed.


(** What the changes tab asks: over any run a call is made by a confirmation, to approve a proposal that was listed and
    not stale when its button was pressed, or to restore a version that was listed and not the newest. *)
Theorem changes_confirmed es call :
  call ∈ (changes_run open_changes es).2 →
  ∃ before after,
    (∃ p, es = before ++ ConfirmApproval :: after ∧ offered before (ApprovePressed p) (approvable p) ∧
       ∀ n, 0 < n < 10 ^ 15 → pp_proposal p = f64_ofZ n → ∃ r, request_of call = Some r ∧ asks r (c_settingsApprove (f64_ofZ n))) ∨
    (∃ v, es = before ++ ConfirmRollback :: after ∧ offered before (RollbackPressed v) (revertible v) ∧
       (safe_positive v = true → ∃ r, request_of call = Some r ∧ asks r (c_settingsRollback v))).
Proof using Hengine.
  intros (before & after & [(p & -> & -> & Hp)|(v & -> & -> & Hv)])%changes_calls; exists before, after; [left; exists p|right; exists v]; (split; [done|]); (split; [done|]).
  - intros n Hn ->. eexists. split; [reflexivity|]. by eapply does_approve.
  - intros Hs. eexists. split; [reflexivity|]. eapply does_rollback; [exact Hengine| |reflexivity]. cbn. by rewrite Hs.
Qed.
End access.

#[local] Instance access_numbers : NumberToString := λ _, "7".
#[local] Instance access_toNumber : ToNumberOther := λ _, f64_NaN.
Definition sample_access_deps : ServerDeps := mkServerDeps true true (mkConfig None (Some 7071) None None (mkRbac [] [] None)) [].
Definition sample_root : OperatorSession := mkSession "S" "auth0|1" None Admin "pid" "acme" global_admin 3600005.
Definition sample_connect : ConnectForm := mkConnectForm " dev.auth0.com " "id-1" "" "" (f64_ofZ 300) (f64_ofZ 24).
Definition sample_grant : AgentGrantRow := mkGrantRow (VArr [VStr "opus"; VStr "haiku"]) (VArr []) (VArr []) (VArr []) "internal".

Lemma connector_onboarding_witness :
  ∃ r1 k1, submit_connector "auth0" (set_secret "s3cret" sample_connect) = Some (Fetch r1 k1) ∧
    tells_sidecar (λ _, Ok "") sample_access_deps sample_root VNull r1 (l_secret "auth0" "s3cret").
Proof.
  assert (field "auth0") as Hf by (split; [reflexivity|discriminate]).
  assert (secretPort (config sample_access_deps) ≠ None) as Hs by discriminate.
  pose proof (connector_onboarding (λ _, Ok "") sample_access_deps sample_root VNull eq_refl "auth0" Hf Hs) as (H1 & _ & H3).
  assert (submit_connector "auth0" (set_secret "s3cret" sample_connect) ≠ None) as Hne.
  { apply H1. split_and!; try discriminate; vm_compute; reflexivity. }
  destruct (submit_connector "auth0" (set_secret "s3cret" sample_connect)) as [c|] eqn:E; [|by destruct Hne].
  destruct (H3 sample_connect) as (r2 & r3 & H). destruct (H "s3cret" c E) as (r1 & k1 & _ & _ & -> & _ & _ & _ & Ht & _).
  exists r1, k1. split; [reflexivity|exact Ht].
Defined.

